(* ===== verification/_CoqProject ===== *)
-Q . S2P
Prelude.v
PyText.v
PyVal.v
Json.v
Sha256.v
ExecutionContract.v
Court.v
CourtPolicy.v
CourtToken.v
Resources.v
ReplayLedger.v
SafetyGates.v
ResponderIntake.v
Incident.v
Effects.v
RuntimeOps.v
ApprovedExecutor.v
CoordinatedExecutor.v
Samples.v
ComponentTheorems.v
CourtAuthorization.v
Pipeline.v
Interleaving.v
Schedules.v
CourtTheorems.v
SpineTheorems.v
Findings.v
IncidentCourt.v
IncidentTheorems.v
Identity.v
IdentityTheorems.v
WakePolicy.v
WakeReason.v
WakeSupervisor.v
WakeTheorems.v
PyFloat.v
PyWhole.v
StrDict.v
DistributedWork.v
DistributedTheorems.v
StateProg.v
DistributedService.v
ServiceTheorems.v
BodyCapacity.v
ResourceReservations.v
ReservationTheorems.v
ResourcePlacement.v
ResourceTheorems.v
PyJson.v
TextChecks.v
BodyRecord.v
BodyTheorems.v
ModuleTrust.v
ModuleTrustTheorems.v
ModulePackage.v
ModuleManager.v
ModuleTheorems.v
ModuleProperties.v
TrustedLibrary.v
TrustedTheorems.v
SensorFabric.v
SensorTheorems.v
BodyAdapter.v
SeatAdapter.v
SeatRadar.v
SeatPressure.v
SeatHeartbeat.v
SeatBodyMap.v
SeatTheorems.v
AdapterTheorems.v
SeatLineTheorems.v
BodyMapTheorems.v
VehiclePower.v
PowerTheorems.v
Contactless.v
ContactlessTheorems.v
LearningMode.v
CapabilityRegistry.v
