(* ===== verification/Prelude.v ===== *)
(** * Velvet runtime: a verification development

    The Velvet runtime (Python, [src/services/]) decides which action may be carried out on a
    body and by which organ, and keeps evidence of it.  This library models its decision code
    as executable definitions and proves the properties that make it correct.

    ** The program and its model

    - The execution spine.  An intent goes through the Court, which resolves authority and
      policy, writes a receipt and issues a signed token; the executor checks the token, the
      parameters and the safety gate, writes a start receipt, consumes the token in the replay
      ledger and only then calls the handler; the coordinated executor holds the exclusive
      resources of the handler meanwhile.
      [ExecutionContract] = execution_contract.py; [Court] = court_intent.py,
      court_reasons.py, court_authority.py; [CourtPolicy] = court_policy_resolution.py;
      [CourtToken] = court_token.py; [CourtAuthorization] = court_authorization.py;
      [Resources] = resource_coordinator.py; [ReplayLedger] = token_replay_ledger.py;
      [SafetyGates] = safety_gate_registry.py; [ApprovedExecutor] = approved_executor.py;
      [CoordinatedExecutor] = coordinated_executor.py; [Pipeline] = runtime_pipeline.py.
      [RuntimeOps] lists the operations through which these meet their environment;
      [Interleaving] runs any number of executions against one ledger and one coordinator,
      operation by operation in any order, and [Schedules] evaluates such runs.
      Theorems: [CourtTheorems], [ComponentTheorems], [SpineTheorems], [Findings].
    - The emergency path.  [ResponderIntake] = responder_action_intake.py; [Incident] =
      emergency_action_eligibility.py, incident_action_policy.py, incident_action_resolver.py;
      [IncidentCourt] = incident_court_binding.py.  Theorems: [IncidentTheorems].
    - The identity the Court authorizes under.  [Identity] = body_registry.py,
      body_binding.py, profile_binding.py, capability_context.py and the configured context of
      continuity_activation.py.  Theorems: [IdentityTheorems].
    - The wake path.  [WakePolicy], [WakeReason] = wake_request_policy.py; [WakeSupervisor] =
      founder_wake_actuator.py, wake_power_supervisor.py.  Theorems: [WakeTheorems].
    - Distributed work.  [DistributedWork] = distributed_work_coordinator.py (registry,
      placement, leases, refusal, recovery); [DistributedService] =
      distributed_work_service.py (proposals, lifecycle receipts, completion, escalation).
      Theorems: [DistributedTheorems], [ServiceTheorems].
    - The body's resources.  [BodyCapacity] = the registry and requirements of
      body_capacity.py and the resource service of body_resource_transport.py;
      [ResourceReservations] = resource_reservations.py; [ResourcePlacement] = the
      coordinators of body_capacity.py and resource_aware_work_proposals.py that keep
      placement inside those bounds.  Theorems: [ReservationTheorems], [ResourceTheorems].

    - Module packages.  [ModulePackage], [ModuleManager] = module_package.py (the manifest, the
      entry point policy, snapshots; the manager's verify, load, start, quiesce, snapshot,
      stop, unload and publications, with package code as operations); [ModuleTrust] =
      module_trust_registry.py (the owner-signed ledger); [TrustedLibrary] =
      trusted_module_library.py.  Theorems: [ModuleTheorems] and [ModuleProperties] (lifecycle,
      budgets, what loads), [ModuleTrustTheorems] (what a ledger that is believed guarantees),
      [TrustedTheorems] (nothing outside is consulted without trust).
    - Body state.  [BodyRecord] = body_state_bridge.py: validation, the newest record of each
      module, snapshots.  Theorems: [BodyTheorems].
    - Sensors.  [SensorFabric] = sensor_fabric.py and sensor_fabric_event_bridge.py.  Theorems:
      [SensorTheorems] (the index, deliveries, live state, the bounded queue).
    - Body adapters.  [BodyAdapter] holds what they share; [SeatAdapter] the state machine that
      the three seat files repeat, with their words as parameters; [SeatRadar] =
      seat_presence_node.py, [SeatPressure] = seat_pressure_pad.py, [SeatHeartbeat] =
      seat_heartbeat_signal.py, [SeatBodyMap] = seat_person_sense_body_map.py, [VehiclePower] =
      vehicle_power_adapter.py, [Contactless] = rdm6300_reader.py,
      contactless_token_registry.py and contactless_token_adapter.py.  Theorems:
      [SeatTheorems] (order of readings, what a state says, health events), [AdapterTheorems]
      (the body state bridge admits what the adapters emit), [SeatLineTheorems] (what lines
      are accepted), [BodyMapTheorems] (movement), [PowerTheorems], [ContactlessTheorems]
      (frames do not depend on chunks; what a presentation says).
    - Postures and capabilities.  [LearningMode] = resource_guard.py and
      learning_mode_eligibility.py; [CapabilityRegistry] = capability_registry.py, each with
      its theorems.

    ** The Python underneath

    [PyText] (strings), [PyVal] (dynamically typed values), [Json] ([json.dumps] with sorted
    keys and [json.loads]), [Sha256] (SHA-256 and HMAC), [PyFloat] (binary64 arithmetic,
    rounding, formatting and sorting), [PyWhole] (integers in floats), [StrDict]
    (insertion-ordered dictionaries), [PyJson] and [TextChecks]
    (typed JSON fields, patterns of identifiers).  [Effects] represents code that calls its
    environment as a tree of calls, with traces, a program logic and interleavings;
    [StateProg] adds a state that survives exceptions.  Exceptions are values ([outcome]); a
    method that raises still has a final state.

    Conventions.  A dataclass is a record with a checking constructor [make_...] for its
    [__post_init__]; its fields have the annotated types, so that the [isinstance] tests on
    them are not repeated; data that arrives untyped (parameters, JSON documents, wire
    messages, attributes) is a [pyval].  A float field is any binary64 datum, NaN and
    infinities included.  An object guarded by a lock makes each method one step.  A callback
    or device is an operation that answers with any value or raises any exception, and the
    theorems hold for every answer.

    ** What the theorems show

    A handler runs only after the Court granted the intent and every gate passed; a token is
    executed at most once, also by concurrent processes; concurrent handlers hold disjoint
    resources, which are released on every path; results, receipts and reasons say what
    happened.  The Court authorizes exactly the intents its documents allow and fails closed.
    Incidents can be granted only the reviewed, motionless actions.  Wake requests stay within
    their budget, and hardware is touched only for a permitted one.  Work is leased to the
    best eligible node, never again to one that refused it or failed, within the task limits;
    the service's tables stay consistent and everything it reports is receipted.  Resources
    count only while their proof is current; commitments never exceed what a node
    advertised; and resource-bound work ends up reserved on a node that meets its
    requirements, or unplaced.  Packages move through their lifecycle, within their budget, and
    only signed ones come from outside.  Sensor evidence reaches exactly its subscribers; the
    adapters accept readings in order, report every change, grant nothing, and what they emit
    is admitted by the bridge that publishes it.  The findings are behaviours the code does
    not intend, each shown on a run of the model.

    ** Fuel and bounds

    [Json.loads] runs with [json_fuel], computed from the length of the text, and is proved
    never to exhaust it.  The loops of the placement code recurse on the attempts the code
    itself allows; that these suffice is a theorem.  No other definition has fuel, except
    [refuse_until_unplaced], which belongs to a statement.  Floats round as binary64; sums of
    whole amounts below 2^53 are proved exact.

    ** Simplifications

    Text is Latin-1 ([PyText]), and JSON text above U+00FF is refused by the model's parser; a
    JSON [true] used as a token lifetime is the integer 1; the representation of floats inside
    error messages, the limit on the digits of integers read from strings and IPv6 literals of
    the wake configuration (refused like other text) are not modelled.  The lines of seat
    nodes are decoded the same way, with one text for every JSON error; sums of weights are
    plain additions from the left.  What an adapter reads from outside (clocks, identities) is
    its [ambient]; the answers of the contactless line are a list of [poll]s.  A safety check
    returns a pair, as its signature says.  The replay ledger's faults happen before or after
    a complete record, the reason store replaces its file atomically.  [BaseExit] is any
    exception that [except Exception] lets through.  The distributed-work service is the
    coordinator's only client, and sinks do not call back into it.

    ** Not modelled

    Daemons, transports and devices, whose substance is I/O: sockets and peers
    (distributed_work_daemon.py, distributed_work_unix_transport.py,
    distributed_work_byte_rpc.py, body_resource_byte_rpc.py, sensor_lan_transport.py and
    clients, tailscale_transport.py, the founder and headless node daemons,
    specialist_node_runner.py), serial terminals, CAN and audio capture, the GNSS adapter
    (floating point literals), frame and status publishers, the Linux resource probe, boot
    and continuity stores, speech and conversation bridges, scripts, deployment files,
    examples and tests.  Each is listed with its reason in the
    manifest. *)

From stdpp Require Import base gmap sets list strings sorting.
From Stdlib Require Import ZArith.

Declare Scope py_scope.
Delimit Scope py_scope with py.
Create HintDb py.
Create Rewrite HintDb py.

(** stdpp keeps [String.append] folded; the string lemmas below compute with it. *)
#[global] Arguments String.append !s1 s2 / : simpl nomatch.

(** ** Python exceptions and fallible computations *)

(** The exception classes the modelled code raises or distinguishes.  [BaseExit]
    stands for the [BaseException]s that are not [Exception]s
    ([KeyboardInterrupt], [SystemExit]): [except Exception] lets them through;
    [ActuationError] is [FounderWakeActuationError]. *)
Inductive exn_kind : Set :=
| ValueError | TypeError | KeyError | FileNotFoundError
| RuntimeError | OSError | ActuationError | ReservationUnavailable | UnicodeError | SyntaxError
| BodyStateBridgeError | ModuleManifestError | ModuleIntegrityError | ModuleAdmissionError
| ModuleLifecycleError | ModuleTrustRegistryError | ModuleTrustDeniedError
| ModuleTrustMismatchError | RequiredModuleError
| SeatNodeProtocolError | SeatNodeReplayError | SeatPressureProtocolError | SeatPressureReplayError
| SeatHeartbeatProtocolError | SeatHeartbeatReplayError | SeatPersonSenseTopologyError | GnssParseError
| ContactlessRegistryError | Rdm6300Error | OtherError | BaseExit.

Record exn : Set := Exn { exn_class : exn_kind; exn_message : string }.

#[export] Instance exn_kind_eq_dec : EqDecision exn_kind.
Proof. solve_decision. Defined.
#[export] Instance exn_eq_dec : EqDecision exn.
Proof. solve_decision. Defined.

(** [isinstance(exc, Exception)], the test of [except Exception]. *)
Definition is_Exception (e : exn) : bool :=
  match exn_class e with BaseExit => false | _ => true end.

(** [isinstance(exc, ValueError)] *)
Definition is_ValueError (e : exn) : bool :=
  match exn_class e with
  | ValueError | UnicodeError | BodyStateBridgeError | ModuleManifestError | ModuleIntegrityError
  | ModuleAdmissionError | ModuleLifecycleError | ModuleTrustRegistryError | ModuleTrustDeniedError
  | ModuleTrustMismatchError | SeatNodeProtocolError | SeatNodeReplayError | SeatPressureProtocolError
  | SeatPressureReplayError | SeatHeartbeatProtocolError | SeatHeartbeatReplayError
  | SeatPersonSenseTopologyError | GnssParseError | ContactlessRegistryError | Rdm6300Error => true
  | _ => false
  end.

(** [isinstance(exc, OSError)] *)
Definition is_OSError (e : exn) : bool :=
  match exn_class e with OSError | FileNotFoundError => true | _ => false end.

Inductive outcome (A : Type) : Type :=
| Ok (a : A)
| Err (e : exn).
Arguments Ok {A} a.
Arguments Err {A} e.

Definition outcome_bind {A B} (m : outcome A) (f : A -> outcome B) : outcome B :=
  match m with Ok a => f a | Err e => Err e end.

Definition outcome_map {A B} (f : A -> B) (m : outcome A) : outcome B :=
  outcome_bind m (fun a => Ok (f a)).

Notation "'let?' x := m 'in' k" := (outcome_bind m (fun x => k))
  (at level 10, x pattern, m at level 100, k at level 200) : py_scope.
Open Scope py_scope.

Definition raise {A} (k : exn_kind) (msg : string) : outcome A := Err (Exn k msg).

Definition is_ok {A} (m : outcome A) : bool :=
  match m with Ok _ => true | Err _ => false end.

(** Left-to-right evaluation of a comprehension whose element may raise. *)
Fixpoint mapM_outcome {A B} (f : A -> outcome B) (l : list A) : outcome (list B) :=
  match l with
  | [] => Ok []
  | a :: l' => let? b := f a in let? bs := mapM_outcome f l' in Ok (b :: bs)
  end.

Lemma outcome_bind_ok {A B} (m : outcome A) (f : A -> outcome B) b :
  outcome_bind m f = Ok b <-> exists a, m = Ok a /\ f a = Ok b.
Proof. destruct m; naive_solver. Qed.

Lemma mapM_outcome_ok {A B} (f : A -> outcome B) l bs :
  mapM_outcome f l = Ok bs <-> Forall2 (fun a b => f a = Ok b) l bs.
Proof.
  revert bs; induction l as [|a l IH]; intros bs; simpl.
  - split; [intros [= <-]; constructor | by inversion 1].
  - rewrite outcome_bind_ok. split.
    + intros (b & Hb & Hl). apply outcome_bind_ok in Hl as (bs' & Hbs & [= <-]).
      constructor; [done | by apply IH].
    + inversion 1 as [|? b ? bs' Hb Hbs]; subst.
      exists b; split; [done|]. apply outcome_bind_ok.
      exists bs'. split; [by apply IH | done].
Qed.

(** Case split on the head match or [if] of a hypothesis or the goal. *)
Ltac py_case :=
  match goal with
  | |- context [match ?x with _ => _ end] => destruct x eqn:?
  | H : context [match ?x with _ => _ end] |- _ => destruct x eqn:?
  end.
Ltac py_crush := repeat (simplify_eq/=; try done; py_case).

(** Turns boolean tests in the hypotheses and the goal into propositions. *)
Ltac py_bools :=
  repeat progress rewrite ?negb_true_iff, ?negb_false_iff, ?andb_true_iff, ?andb_false_iff,
    ?orb_true_iff, ?orb_false_iff, ?bool_decide_eq_true, ?bool_decide_eq_false,
    ?Z.leb_le, ?Z.leb_gt, ?Z.ltb_lt, ?Z.ltb_ge, ?Z.eqb_eq, ?Z.eqb_neq in *.

(** Reads the tests of a chain of guards off an equation [... = Ok _]. *)
Ltac guards H :=
  repeat match type of H with
  | (if ?b then raise _ _ else _) = _ =>
      let E := fresh "G" in destruct b eqn:E; [discriminate H|]
  | (if ?b then Err _ else _) = _ =>
      let E := fresh "G" in destruct b eqn:E; [discriminate H|]
  | outcome_bind ?m _ = _ =>
      let E := fresh "G" in destruct m eqn:E; [cbn [outcome_bind] in H|discriminate H]
  end; py_bools.

(** Reads every successful check of the hypotheses apart, keeping the tests as equations. *)
Ltac passed := repeat match goal with
  | H : outcome_bind ?x _ = Ok _ |- _ => destruct x eqn:?; cbn [outcome_bind] in H; [|discriminate H]
  | H : (if ?b then raise _ _ else _) = Ok _ |- _ => destruct b eqn:?; [discriminate H|]
  | u : unit |- _ => destruct u
  end.

(** ** Lists *)

Lemma fmap_fixed {A} (f : A -> A) (l : list A) : Forall (fun x => f x = x) l -> f <$> l = l.
Proof. induction 1 as [|x l Hx _ IH]; [done|]. cbn. by rewrite Hx, IH. Qed.

Lemma fmap_fixed_in {A} (f : A -> A) (l : list A) : (forall x, x ∈ l -> f x = x) -> f <$> l = l.
Proof. intros. by apply fmap_fixed, Forall_forall. Qed.

Lemma forallb_Forall {A} (f : A -> bool) l : forallb f l = true <-> Forall (fun x => f x = true) l.
Proof. rewrite forallb_forall, Forall_forall. by setoid_rewrite <- list_elem_of_In. Qed.

Lemma existsb_Exists {A} (f : A -> bool) l : existsb f l = true <-> Exists (fun x => f x = true) l.
Proof. rewrite existsb_exists, Exists_exists. by setoid_rewrite <- list_elem_of_In. Qed.

(** Evaluates the guards of a chain that are known to pass. *)
Ltac pass_guard :=
  match goal with
  | |- (if ?b then _ else _) = _ =>
      let E := fresh in assert (b = false) as E; [|rewrite E; clear E]
  end.

Lemma bind_nil_iff {A B} (f : A -> list B) (l : list A) :
  l ≫= f = [] <-> Forall (fun x => f x = []) l.
Proof.
  induction l as [|x l IH]; [done|]. rewrite bind_cons, app_nil, Forall_cons. by rewrite IH.
Qed.

(** Injectivity as a lemma: it does not look at the values. *)
Lemma Ok_inj {A} (a b : A) : Ok a = Ok b -> a = b.
Proof. by intros [= ->]. Qed.

Lemma sorted_snoc {A} (R : relation A) (l : list A) x :
  Sorted R l -> (forall y, last l = Some y -> R y x) -> Sorted R (l ++ [x]).
Proof.
  induction 1 as [|a l Hs IH Hhd]; intros Hl; cbn; [by repeat constructor|].
  constructor.
  - apply IH. intros y Hy. apply Hl. by destruct l.
  - destruct Hhd; [constructor; by apply Hl|]. by constructor.
Qed.

Lemma mapM_outcome_total {A B} (f : A -> outcome B) l :
  (forall a, a ∈ l -> exists b, f a = Ok b) -> exists bs, mapM_outcome f l = Ok bs.
Proof.
  induction l as [|a l IH]; intros H; [by exists []|].
  destruct (H a) as [b Hb]; [left|]. destruct IH as [bs Hbs]; [intros; apply H; by right|].
  exists (b :: bs). cbn. by rewrite Hb, Hbs.
Qed.

(** An element of the result comes from an element of the list, and conversely. *)
Lemma elem_of_mapM_outcome {A B} (f : A -> outcome B) l bs b :
  mapM_outcome f l = Ok bs -> b ∈ bs <-> exists a, a ∈ l /\ f a = Ok b.
Proof.
  intros H%mapM_outcome_ok. induction H as [|a b' l bs Hab H IH].
  - split; [by intros ?%elem_of_nil|]. by intros (? & ?%elem_of_nil & _).
  - rewrite elem_of_cons, IH. setoid_rewrite elem_of_cons. split.
    + intros [->|(a' & Ha & Hf)]; eauto.
    + intros (a' & [->|Ha] & Hf); [left; congruence|eauto].
Qed.
