(* ===== verification/PyText.v ===== *)
(** Python text: the part of [str] the runtime relies on.

    A character is a code point below 256 (an [ascii]); on that range [is_space],
    [lower_char] and [upper] agree with Python's Unicode tables, except that the two
    letters whose capital lies above U+00FF (the micro sign and y with diaeresis) are left
    unchanged by [upper].  [text] is the normaliser that almost every module of
    [src/services] repeats as [_text], [_normalized], [_normalize] or [normalize]:
    strip, collapse whitespace runs to one space, lower-case.  [sorted_set] is the
    idiom [tuple(sorted({...}))]. *)

From stdpp Require Import base gmap sets list strings sorting.
From Stdlib Require Import ZArith Ascii DecimalString DecimalZ.
From S2P Require Import Prelude.

Definition code (c : ascii) : nat := nat_of_ascii c.

(** ** Characters *)

(** [str.isspace] as [str.strip] and [str.split] use it. *)
Definition is_space (c : ascii) : bool :=
  let n := code c in
  ((9 <=? n) && (n <=? 13)) || ((28 <=? n) && (n <=? 32)) || (n =? 133) || (n =? 160).

Definition lower_char (c : ascii) : ascii :=
  let n := code c in
  if ((65 <=? n) && (n <=? 90)) || ((192 <=? n) && (n <=? 222) && negb (n =? 215))
  then ascii_of_nat (n + 32) else c.

Definition upper_char (c : ascii) : string :=
  let n := code c in
  if ((97 <=? n) && (n <=? 122)) || ((224 <=? n) && (n <=? 254) && negb (n =? 247))
  then String (ascii_of_nat (n - 32)) "" else
  if n =? 223 then "SS" else String c "".

Definition is_ascii_char (c : ascii) : bool := code c <? 128.

(** ** Strings *)

Fixpoint str_forallb (f : ascii -> bool) (s : string) : bool :=
  match s with "" => true | String c s' => f c && str_forallb f s' end.

Fixpoint str_map (f : ascii -> ascii) (s : string) : string :=
  match s with "" => "" | String c s' => String (f c) (str_map f s') end.

Definition is_nonempty (s : string) : bool := match s with "" => false | _ => true end.

Definition lower (s : string) : string := str_map lower_char s.

Fixpoint upper (s : string) : string :=
  match s with "" => "" | String c s' => upper_char c +:+ upper s' end.

Fixpoint lstrip (s : string) : string :=
  match s with
  | "" => ""
  | String c s' => if is_space c then lstrip s' else s
  end.

Fixpoint rstrip (s : string) : string :=
  match s with
  | "" => ""
  | String c s' =>
      match rstrip s' with
      | "" => if is_space c then "" else String c ""
      | r => String c r
      end
  end.

(** [s.strip()] *)
Definition strip (s : string) : string := rstrip (lstrip s).

(** [s.split()]: the maximal runs of non-space characters. *)
Definition emit_word (w : string) : list string :=
  match w with "" => [] | _ => [w] end.

Fixpoint split_from (w s : string) : list string :=
  match s with
  | "" => emit_word w
  | String c s' =>
      if is_space c then emit_word w ++ split_from "" s'
      else split_from (w +:+ String c "") s'
  end.

Definition split (s : string) : list string := split_from "" s.

(** [sep.join(l)] *)
Fixpoint join (sep : string) (l : list string) : string :=
  match l with
  | [] => ""
  | [w] => w
  | w :: l' => w +:+ sep +:+ join sep l'
  end.

(** [" ".join(value.strip().split()).lower()] *)
Definition text (s : string) : string := lower (join " " (split (strip s))).

(** The strict normaliser of [token_replay_ledger] and [safety_gate_registry]: a
    string that is not already in normal form is rejected. *)
Definition text_strict (s : string) : string :=
  let n := text s in if decide (n = s) then n else "".

(** [s.startswith(p)] *)
Fixpoint startswith (p s : string) : bool :=
  match p, s with
  | "", _ => true
  | String a p', String b s' => if decide (a = b) then startswith p' s' else false
  | _, _ => false
  end.

(** [s[:n]] *)
Fixpoint str_take (n : nat) (s : string) : string :=
  match n, s with S n', String c s' => String c (str_take n' s') | _, _ => "" end.

(** ** Rendering *)

(** [str(n)] of an integer. *)
Definition str_of_Z (z : Z) : string := NilZero.string_of_int (Z.to_int z).

(** The double quote, kept out of string literals. *)
Definition dquote : ascii := "034".

Definition hex_digit (n : nat) : ascii :=
  ascii_of_nat (if n <? 10 then 48 + n else 87 + n).

(** The two hexadecimal digits of a code point. *)
Definition hex2 (n : nat) : string :=
  String (hex_digit (n / 16)) (String (hex_digit (n mod 16)) "").

(** One character of [repr(s)] under the quote [q]. *)
Definition repr_char (q c : ascii) : string :=
  let n := code c in
  if bool_decide (c = q) || bool_decide (c = "\"%char) then String "\" (String c "")
  else if n =? 9 then "\t" else if n =? 10 then "\n" else if n =? 13 then "\r"
  else if (n <? 32) || ((127 <=? n) && (n <=? 160)) || (n =? 173)
  then "\x" +:+ hex2 n else String c "".

(** [repr(s)]: double quotes only when the text has a single quote and no double one. *)
Definition str_exists (c : ascii) (s : string) : bool :=
  negb (str_forallb (fun d => negb (bool_decide (d = c))) s).

Fixpoint repr_body (q : ascii) (s : string) : string :=
  match s with "" => "" | String c s' => repr_char q c +:+ repr_body q s' end.

Definition repr (s : string) : string :=
  let q := if str_exists "'" s && negb (str_exists dquote s) then dquote else "'"%char in
  String q (repr_body q s +:+ String q "").

(** [not value.strip()] *)
Definition is_blank (s : string) : bool := negb (is_nonempty (strip s)).

(** ** Facts about characters *)

Lemma lower_char_idem c : lower_char (lower_char c) = lower_char c.
Proof. by destruct c as [[] [] [] [] [] [] [] []]. Qed.

Lemma is_space_lower c : is_space (lower_char c) = is_space c.
Proof. by destruct c as [[] [] [] [] [] [] [] []]. Qed.

#[export] Hint Rewrite lower_char_idem is_space_lower : py.

(** ** Facts about strings *)

Lemma app_nil_str (s : string) : s +:+ "" = s.
Proof. induction s as [|c s IH]; [done|]. by rewrite <- IH at 2. Qed.

Lemma app_assoc_str (s t u : string) : (s +:+ t) +:+ u = s +:+ (t +:+ u).
Proof. induction s as [|c s IH]; [done|]. cbn. by f_equal. Qed.

Lemma app_cons_str c (s t : string) : String c s +:+ t = String c (s +:+ t).
Proof. done. Qed.

Lemma app_nil_inv (s t : string) : s +:+ t = "" -> s = "" /\ t = "".
Proof. by destruct s. Qed.

Lemma app_inj_str (p s t : string) : p +:+ s = p +:+ t -> s = t.
Proof. induction p as [|c p IH]; [done|]. intros H. injection H as H. by apply IH. Qed.

Lemma str_forallb_app f s t : str_forallb f (s +:+ t) = str_forallb f s && str_forallb f t.
Proof. induction s as [|c s IH]; [done|]. cbn. by rewrite IH, andb_assoc. Qed.

Lemma str_forallb_impl (f g : ascii -> bool) s :
  (forall c, f c = true -> g c = true) -> str_forallb f s = true -> str_forallb g s = true.
Proof.
  intros H. induction s as [|c s IH]; [done|]. cbn. rewrite !andb_true_iff. naive_solver.
Qed.

Lemma str_map_app f s t : str_map f (s +:+ t) = str_map f s +:+ str_map f t.
Proof. induction s as [|c s IH]; [done|]. cbn. by f_equal. Qed.

Lemma lower_app s t : lower (s +:+ t) = lower s +:+ lower t.
Proof. apply str_map_app. Qed.

Lemma lower_idem s : lower (lower s) = lower s.
Proof.
  induction s as [|c s IH]; [done|]. unfold lower in *; cbn.
  by rewrite lower_char_idem, IH.
Qed.

Lemma lower_empty s : lower s = "" <-> s = "".
Proof. by destruct s. Qed.

(** ** Words *)

Definition no_space (s : string) : bool := str_forallb (fun c => negb (is_space c)) s.

Definition is_word (w : string) : Prop := w <> "" /\ no_space w = true.

#[export] Instance is_word_dec w : Decision (is_word w).
Proof. unfold is_word; solve_decision. Defined.

Lemma no_space_lower s : no_space (lower s) = no_space s.
Proof.
  induction s as [|c s IH]; [done|]. unfold no_space, lower in *; cbn.
  by rewrite is_space_lower, IH.
Qed.

Lemma is_word_lower w : is_word w -> is_word (lower w).
Proof. intros [Hw Hs]; split; [by rewrite lower_empty | by rewrite no_space_lower]. Qed.

Lemma split_from_no_space u w s :
  no_space u = true -> split_from w (u +:+ s) = split_from (w +:+ u) s.
Proof.
  revert w; induction u as [|c u IH]; intros w; [by rewrite app_nil_str|].
  unfold no_space; cbn. intros [Hc Hu]%andb_true_iff.
  apply negb_true_iff in Hc. rewrite Hc, IH by done. by rewrite app_assoc_str.
Qed.

Lemma emit_word_words w : no_space w = true -> Forall is_word (emit_word w).
Proof. destruct w; [constructor|]. intros; repeat constructor; done. Qed.

Lemma split_from_words w s : no_space w = true -> Forall is_word (split_from w s).
Proof.
  revert w; induction s as [|c s IH]; intros w Hw; cbn; [by apply emit_word_words|].
  destruct (is_space c) eqn:Hc.
  - apply Forall_app; split; [by apply emit_word_words | by apply IH].
  - apply IH. unfold no_space in *. rewrite str_forallb_app, Hw. cbn. by rewrite Hc.
Qed.

Lemma split_words s : Forall is_word (split s).
Proof. by apply split_from_words. Qed.

Lemma emit_word_is_word w : is_word w -> emit_word w = [w].
Proof. by intros [Hw _]; destruct w. Qed.

Lemma split_join ws : Forall is_word ws -> split (join " " ws) = ws.
Proof.
  unfold split. induction 1 as [|w ws Hw Hws IH]; [done|].
  destruct ws as [|v ws].
  - cbn. rewrite <- (app_nil_str w), split_from_no_space by apply Hw.
    cbn. rewrite app_nil_str. by apply emit_word_is_word.
  - change (join " " (w :: v :: ws)) with (w +:+ " " +:+ join " " (v :: ws)).
    rewrite split_from_no_space by apply Hw.
    cbn [split_from]. change ("" +:+ w) with w.
    change (split_from w (" " +:+ join " " (v :: ws)))
      with (emit_word w ++ split_from "" (join " " (v :: ws))).
    by rewrite IH, emit_word_is_word.
Qed.

Lemma lower_join ws : lower (join " " ws) = join " " (lower <$> ws).
Proof.
  induction ws as [|w [|v ws] IH]; [done|done|].
  change (join " " (w :: v :: ws)) with (w +:+ " " +:+ join " " (v :: ws)).
  rewrite !lower_app, IH. done.
Qed.

Lemma split_from_lstrip s : split_from "" (lstrip s) = split_from "" s.
Proof. induction s as [|c s IH]; [done|]. cbn. destruct (is_space c) eqn:Hc; cbn; by rewrite ?Hc. Qed.

Lemma split_from_all_space w s :
  rstrip s = "" -> split_from w s = emit_word w.
Proof.
  revert w; induction s as [|c s IH]; intros w; [done|]. cbn.
  destruct (rstrip s) eqn:Hs; [|done]. destruct (is_space c); [|done].
  intros _. rewrite IH by done. by rewrite app_nil_r.
Qed.

Lemma split_from_rstrip w s : split_from w (rstrip s) = split_from w s.
Proof.
  revert w; induction s as [|c s IH]; intros w; [done|]. cbn.
  destruct (rstrip s) eqn:Hs.
  - destruct (is_space c) eqn:Hc; cbn; rewrite ?Hc.
    + rewrite split_from_all_space by done. by rewrite app_nil_r.
    + by rewrite split_from_all_space.
  - cbn [split_from]. destruct (is_space c); [by rewrite <- IH | by rewrite <- IH].
Qed.

Lemma split_strip s : split (strip s) = split s.
Proof. unfold split, strip. by rewrite split_from_rstrip, split_from_lstrip. Qed.

(** ** The normaliser *)

(** [text] is the words of its argument, lower-cased and single-spaced. *)
Lemma text_words s : text s = join " " (lower <$> split s).
Proof. unfold text. by rewrite split_strip, lower_join. Qed.

Lemma words_of_text s : split (text s) = lower <$> split s.
Proof.
  rewrite text_words, split_join; [done|].
  apply Forall_fmap, (Forall_impl _ _ _ (split_words s)), is_word_lower.
Qed.

(** Normal forms are fixed points. *)
Lemma text_idem s : text (text s) = text s.
Proof.
  rewrite (text_words (text s)), words_of_text, (text_words s).
  f_equal. rewrite <- list_fmap_compose. apply list_fmap_ext.
  intros _ w _. cbn. apply lower_idem.
Qed.

Lemma join_words_empty ws : Forall is_word ws -> join " " ws = "" <-> ws = [].
Proof.
  intros Hws; split; [|by intros ->].
  destruct Hws as [|w [|v ws] [Hw _]]; [done| |]; cbn; [done|].
  by intros [? _]%app_nil_inv.
Qed.

Lemma text_empty s : text s = "" <-> split s = [].
Proof.
  rewrite text_words, join_words_empty.
  - by destruct (split s).
  - apply Forall_fmap, (Forall_impl _ _ _ (split_words s)), is_word_lower.
Qed.

Lemma text_strict_cases s :
  (text_strict s = s /\ text s = s) \/ (text_strict s = "" /\ text s <> s).
Proof. unfold text_strict. case_decide; [left|right]; by rewrite ?H. Qed.

Lemma text_strict_id s : text s = s -> text_strict s = s.
Proof. intros H. by destruct (text_strict_cases s) as [[? _]|[_ ?]]. Qed.

#[export] Hint Rewrite text_idem : py.

(** A character that normalisation leaves alone wherever it stands. *)
Definition plain_char (c : ascii) : bool := negb (is_space c) && bool_decide (lower_char c = c).

Lemma plain_word s : str_forallb plain_char s = true -> no_space s = true /\ lower s = s.
Proof.
  unfold plain_char. induction s as [|c s IH]; [done|]. cbn.
  rewrite !andb_true_iff, bool_decide_eq_true. intros [[Hc Hl] Hs].
  destruct (IH Hs) as [Hn Hf]. unfold no_space, lower in *. cbn. by rewrite Hc, Hn, Hl, Hf.
Qed.

(** One plain word is in normal form. *)
Lemma text_plain s : s <> "" -> str_forallb plain_char s = true -> text s = s.
Proof.
  intros Hne [Hn Hl]%plain_word. rewrite text_words. unfold split.
  rewrite <- (app_nil_str s) at 1. rewrite split_from_no_space by done. cbn.
  by rewrite emit_word_is_word by done; cbn.
Qed.

Lemma str_forallb_take f n : forall s, str_forallb f s = true -> str_forallb f (str_take n s) = true.
Proof.
  induction n as [|n IH]; intros [|c s]; [done..|]. cbn. rewrite !andb_true_iff. naive_solver.
Qed.

(** A string is blank exactly when its normal form is empty. *)
Lemma is_blank_text s : is_blank s = true <-> text s = "".
Proof.
  unfold is_blank. rewrite negb_true_iff, text_empty, <- split_strip.
  split; [by destruct (strip s)|].
  assert (forall r t, r = rstrip t -> split r = [] -> r = "") as H.
  { intros r t; revert r; induction t as [|c t IH]; intros r Hr; [by subst|].
    cbn in Hr. destruct (rstrip t) as [|d u] eqn:Ht.
    - destruct (is_space c) eqn:Hc; subst; [done|]. cbn. by rewrite Hc.
    - subst r. unfold split. cbn [split_from]. destruct (is_space c) eqn:Hc.
      + intros Hs. by specialize (IH _ eq_refl Hs).
      + intros Hs. exfalso. revert Hs. change ("" +:+ String c "") with (String c "").
        assert (forall w v, w <> "" -> split_from w v <> []) as Hne.
        { clear. intros w v; revert w; induction v as [|b v IH]; intros w Hw; cbn; [by destruct w|].
          destruct (is_space b); [by destruct w|]. apply IH. by destruct w. }
        by apply (Hne (String c "") (String d u)). }
  intros Hs. by rewrite (H (strip s) _ eq_refl Hs).
Qed.

(** A string is blank exactly when all its characters are spaces. *)
Lemma lstrip_empty s : lstrip s = "" <-> str_forallb is_space s = true.
Proof. induction s as [|c s IH]; [done|]. cbn. by destruct (is_space c). Qed.

Lemma rstrip_empty s : rstrip s = "" <-> str_forallb is_space s = true.
Proof.
  induction s as [|c s IH]; [done|]. cbn. destruct (rstrip s) as [|d t].
  - destruct (is_space c); cbn; [|done]. rewrite <- IH. done.
  - split; [done|]. intros [_ H]%andb_true_iff. by apply IH in H.
Qed.

Lemma is_blank_spaces s : is_blank s = true <-> str_forallb is_space s = true.
Proof.
  unfold is_blank, strip. rewrite negb_true_iff. rewrite <- lstrip_empty. split.
  - intros H. destruct (lstrip s) as [|c t] eqn:Hl; [done|]. exfalso.
    assert (is_space c = false) as Hc.
    { clear H. induction s as [|b s IH]; [done|]. cbn in Hl. destruct (is_space b) eqn:Hb; [by apply IH|].
      by injection Hl as -> _. }
    assert (rstrip (String c t) = "") as Hr by by destruct (rstrip (String c t)).
    apply rstrip_empty in Hr. cbn in Hr. by rewrite Hc in Hr.
  - by intros ->.
Qed.

Lemma is_blank_app s t : is_blank (s +:+ t) = is_blank s && is_blank t.
Proof.
  apply eq_true_iff_eq. rewrite andb_true_iff, !is_blank_spaces.
  induction s as [|c s IH]; cbn; [naive_solver|]. rewrite !andb_true_iff, IH. tauto.
Qed.

(** ** [sorted] and [tuple(sorted({...}))] *)

(** [sorted(l)] on strings: Python compares them by code points. *)
Definition sorted_strings (l : list string) : list string := merge_sort String.le l.

Definition sorted_set (l : list string) : list string := sorted_strings (remove_dups l).

Lemma sorted_strings_perm l : sorted_strings l ≡ₚ l.
Proof. apply merge_sort_Permutation. Qed.

Lemma elem_of_sorted_strings x l : x ∈ sorted_strings l <-> x ∈ l.
Proof. by rewrite sorted_strings_perm. Qed.

Lemma sorted_strings_sorted l : Sorted String.le (sorted_strings l).
Proof. apply Sorted_merge_sort, _. Qed.

Lemma elem_of_sorted_set x l : x ∈ sorted_set l <-> x ∈ l.
Proof. unfold sorted_set. by rewrite elem_of_sorted_strings, elem_of_remove_dups. Qed.

Lemma NoDup_sorted_set l : NoDup (sorted_set l).
Proof. unfold sorted_set. rewrite sorted_strings_perm. apply NoDup_remove_dups. Qed.

Lemma sorted_set_sorted l : Sorted String.le (sorted_set l).
Proof. apply sorted_strings_sorted. Qed.

(** A sorted duplicate-free list is determined by its elements. *)
Lemma sorted_nodup_unique l1 l2 :
  Sorted String.le l1 -> Sorted String.le l2 -> NoDup l1 -> NoDup l2 ->
  (forall x, x ∈ l1 <-> x ∈ l2) -> l1 = l2.
Proof.
  intros. apply (Sorted_unique String.le); [done..|]. by apply NoDup_Permutation.
Qed.

Lemma sorted_set_ext l1 l2 : (forall x, x ∈ l1 <-> x ∈ l2) -> sorted_set l1 = sorted_set l2.
Proof.
  intros H. apply sorted_nodup_unique;
    auto using sorted_set_sorted, NoDup_sorted_set.
  intros x. rewrite !elem_of_sorted_set. apply H.
Qed.

Lemma sorted_set_id l : Sorted String.le l -> NoDup l -> sorted_set l = l.
Proof.
  intros. apply sorted_nodup_unique; auto using sorted_set_sorted, NoDup_sorted_set.
  intros x. apply elem_of_sorted_set.
Qed.

Lemma sorted_set_idem l : sorted_set (sorted_set l) = sorted_set l.
Proof. apply sorted_set_id; [apply sorted_set_sorted | apply NoDup_sorted_set]. Qed.

Lemma sorted_set_nil l : sorted_set l = [] <-> l = [].
Proof.
  split; [|by intros ->]. intros H. destruct l as [|x l]; [done|exfalso].
  assert (x ∈ sorted_set (x :: l)) as Hx by (apply elem_of_sorted_set; left).
  rewrite H in Hx. by apply elem_of_nil in Hx.
Qed.

#[export] Hint Resolve NoDup_sorted_set sorted_set_sorted : py.

Lemma join_one sep w : join sep [w] = w.
Proof. done. Qed.
Lemma join_cons sep w v ws : join sep (w :: v :: ws) = w +:+ sep +:+ join sep (v :: ws).
Proof. done. Qed.
#[global] Arguments join : simpl never.
