(* ===== verification/PyVal.v ===== *)
(** Python's dynamically typed data, as the code meets it in parameters, receipts and
    JSON documents: [None], booleans, integers, floats, strings, lists, tuples and
    dictionaries (insertion-ordered lists of items with distinct keys). *)

From stdpp Require Import base gmap sets list strings sorting.
From Stdlib Require Import ZArith Ascii SpecFloat.
From S2P Require Import Prelude PyText.

(** A float is an IEEE binary64 datum ([SpecFloat] with 53 bits of precision). *)
#[warnings="-register-all"]
Inductive pyval : Set :=
| PNone
| PBool (b : bool)
| PInt (z : Z)
| PFloat (f : spec_float)
| PStr (s : string)
| PList (l : list pyval)
| PTuple (l : list pyval)
| PDict (kvs : list (pyval * pyval)).

Coercion PStr : string >-> pyval.

(** ** Type tests.  [bool] is a subclass of [int] in Python. *)

Definition is_str (v : pyval) : bool := match v with PStr _ => true | _ => false end.
Definition is_bool (v : pyval) : bool := match v with PBool _ => true | _ => false end.
Definition is_int (v : pyval) : bool :=
  match v with PInt _ | PBool _ => true | _ => false end.
Definition is_float (v : pyval) : bool := match v with PFloat _ => true | _ => false end.
Definition is_list (v : pyval) : bool := match v with PList _ => true | _ => false end.
Definition is_mapping (v : pyval) : bool := match v with PDict _ => true | _ => false end.
Definition is_none (v : pyval) : bool := match v with PNone => true | _ => false end.

(** The integer an [int] (or [bool]) object denotes. *)
Definition as_int (v : pyval) : option Z :=
  match v with PInt z => Some z | PBool b => Some (Z.b2z b) | _ => None end.

(** [bool(v)] *)
Definition truthy (v : pyval) : bool :=
  match v with
  | PNone => false
  | PBool b => b
  | PInt z => negb (Z.eqb z 0)
  | PFloat (S754_zero _) => false
  | PFloat _ => true
  | PStr s => is_nonempty s
  | PList l | PTuple l => match l with [] => false | _ => true end
  | PDict l => match l with [] => false | _ => true end
  end.

(** [value is True] *)
Definition is_true_obj (v : pyval) : bool :=
  match v with PBool true => true | _ => false end.

(** [_text] / [_normalized] on a value of unknown type. *)
Definition text_val (v : pyval) : string := match v with PStr s => text s | _ => "" end.
Definition text_strict_val (v : pyval) : string :=
  match v with PStr s => text_strict s | _ => "" end.

(** ** Equality.  [True == 1 == 1.0]; dictionary equality ignores order and is not
    needed for keys, which are hashable. *)

Definition float_of_Z (z : Z) : spec_float :=
  match z with
  | Z0 => S754_zero false
  | Zpos p => binary_round 53 1024 false p 0
  | Zneg p => binary_round 53 1024 true p 0
  end.

Definition float_eqb (a b : spec_float) : bool := SFeqb a b.

(** Exact comparison of an integer with a float, as CPython does it: the float is
    compared as a rational, not by rounding the integer. *)
Definition int_float_eqb (z : Z) (f : spec_float) : bool :=
  match f with
  | S754_zero _ => Z.eqb z 0
  | S754_finite s m e =>
      let m := if s then Zneg m else Zpos m in
      match e with
      | Zneg p => Z.eqb (Z.shiftl z (Zpos p)) m
      | _ => Z.eqb z (Z.shiftl m e)
      end
  | _ => false
  end.

(** Equality of hashable atoms (the keys of a dictionary, the members of a set). *)
Definition atom_eqb (a b : pyval) : bool :=
  match a, b with
  | PNone, PNone => true
  | PStr s, PStr t => bool_decide (s = t)
  | PFloat f, PFloat g => float_eqb f g
  | PFloat f, _ => match as_int b with Some z => int_float_eqb z f | None => false end
  | _, PFloat f => match as_int a with Some z => int_float_eqb z f | None => false end
  | _, _ =>
      match as_int a, as_int b with Some x, Some y => Z.eqb x y | _, _ => false end
  end.

Definition hashable_atom (v : pyval) : bool :=
  match v with PList _ | PDict _ | PTuple _ => false | _ => true end.

(** [hash(v)] succeeds; a tuple is hashable when its elements are. *)
Fixpoint hashable (v : pyval) : bool :=
  match v with
  | PList _ | PDict _ => false
  | PTuple l => forallb hashable l
  | _ => true
  end.

(** ** Dictionaries *)

Definition items := list (pyval * pyval).

(** [d.get(k)] with no default given: [None] for "absent" at the meta level. *)
Fixpoint dict_get (d : items) (k : pyval) : option pyval :=
  match d with
  | [] => None
  | (k', v) :: d' => if atom_eqb k' k then Some v else dict_get d' k
  end.

(** [d.get(k, default)] *)
Definition dict_get_default (d : items) (k dflt : pyval) : pyval :=
  default dflt (dict_get d k).

(** [d[k] = v]: an existing key keeps its place (and its original key object). *)
Fixpoint dict_set (d : items) (k v : pyval) : items :=
  match d with
  | [] => [(k, v)]
  | (k', v') :: d' =>
      if atom_eqb k' k then (k', v) :: d' else (k', v') :: dict_set d' k v
  end.

(** A dictionary built from a sequence of items: the last value of a key wins. *)
Definition dict_of_items (l : items) : items :=
  fold_left (fun d kv => dict_set d kv.1 kv.2) l [].

(** String-keyed dictionaries (a comprehension [{f(k): v ...}]). *)
Definition str_items (l : list (string * pyval)) : items :=
  (fun kv => (PStr kv.1, kv.2)) <$> l.

(** [mapping.get(key)] for a string key, [None] when absent. *)
Definition get (d : items) (k : string) : pyval := dict_get_default d k PNone.

(** ** Iteration and [dict(x)] *)

Fixpoint str_chars (s : string) : list pyval :=
  match s with "" => [] | String c s' => PStr (String c "") :: str_chars s' end.

(** [iter(v)]: the elements, or [None] for a value that is not iterable. *)
Definition py_iter (v : pyval) : option (list pyval) :=
  match v with
  | PList l | PTuple l => Some l
  | PStr s => Some (str_chars s)
  | PDict d => Some (fst <$> d)
  | _ => None
  end.

Definition iter_or_type_error (v : pyval) : outcome (list pyval) :=
  match py_iter v with
  | Some l => Ok l
  | None => raise TypeError "object is not iterable"
  end.

(** One element of the sequence given to [dict(...)]. *)
Definition dict_item (v : pyval) : outcome (pyval * pyval) :=
  match py_iter v with
  | None => raise TypeError "cannot convert dictionary update sequence element to a sequence"
  | Some [k; x] =>
      if hashable_atom k then Ok (k, x) else raise TypeError "unhashable type"
  | Some _ => raise ValueError "dictionary update sequence element has wrong length"
  end.

(** [dict(v)] *)
Definition py_dict (v : pyval) : outcome items :=
  match v with
  | PDict d => Ok d
  | _ =>
      let? l := iter_or_type_error v in
      let? kvs := mapM_outcome dict_item l in
      Ok (dict_of_items kvs)
  end.

(** ** Objects with attributes ([getattr]) *)

Definition pyobj := list (string * pyval).

Fixpoint obj_attr (o : pyobj) (name : string) : option pyval :=
  match o with
  | [] => None
  | (n, v) :: o' => if decide (n = name) then Some v else obj_attr o' name
  end.

Definition hasattr (o : pyobj) (name : string) : bool :=
  match obj_attr o name with Some _ => true | None => false end.

Definition getattr (o : pyobj) (name : string) (dflt : pyval) : pyval :=
  default dflt (obj_attr o name).

(** ** Dictionaries with string keys *)

Lemma atom_eqb_str (s t : string) : atom_eqb s t = bool_decide (s = t).
Proof. done. Qed.

Lemma dict_set_fresh d (k : string) v :
  Forall (fun kv : pyval * pyval => exists s, kv.1 = PStr s /\ s <> k) d ->
  dict_set d k v = d ++ [(PStr k, v)].
Proof.
  induction 1 as [|[k' v'] d (s & Hs & Hne) _ IH]; [done|].
  cbn in *. subst k'. rewrite atom_eqb_str, bool_decide_false by done. by rewrite IH.
Qed.

Lemma dict_of_items_app_fresh d l :
  NoDup (d ++ l).*1 -> Forall (fun kv : string * pyval => True) d ->
  fold_left (fun d kv => dict_set d kv.1 kv.2) (str_items l) (str_items d) = str_items (d ++ l).
Proof.
  revert d; induction l as [|[k v] l IH]; intros d Hnd Hd; [by rewrite app_nil_r|].
  cbn. rewrite dict_set_fresh.
  - change (str_items d ++ [(PStr k, v)]) with (str_items d ++ str_items [(k, v)]).
    unfold str_items at 1 2. rewrite <- fmap_app. fold (str_items (d ++ [(k, v)])).
    rewrite IH; [by rewrite <- app_assoc|by rewrite <- app_assoc|].
    by apply Forall_true.
  - apply Forall_fmap, Forall_forall. intros [k' v'] Hin. cbn.
    exists k'. split; [done|]. intros ->.
    rewrite fmap_app in Hnd. apply NoDup_app in Hnd as (_ & Hnd & _).
    apply (Hnd k); [|left]. by apply (list_elem_of_fmap_2 fst _ (k, v')).
Qed.

(** A dictionary literal with distinct string keys keeps its items as they are. *)
Lemma dict_of_str_items_nodup l : NoDup l.*1 -> dict_of_items (str_items l) = str_items l.
Proof. intros. by apply (dict_of_items_app_fresh []). Qed.

(** [{f(k): v for ...}] used only for lookup: the last value of a key wins. *)
Definition dict_comp {A} (l : list (string * A)) : gmap string A :=
  fold_left (fun m kv => <[kv.1 := kv.2]> m) l ∅.

Lemma dict_comp_snoc {A} (l : list (string * A)) k v :
  dict_comp (l ++ [(k, v)]) = <[k := v]> (dict_comp l).
Proof. unfold dict_comp. by rewrite fold_left_app. Qed.

Lemma dict_comp_dom {A} (l : list (string * A)) k :
  is_Some (dict_comp l !! k) <-> k ∈ l.*1.
Proof.
  induction l as [|[k' v] l IH] using rev_ind.
  - split; [|by intros ?%elem_of_nil]. unfold dict_comp. cbn. rewrite lookup_empty. by intros [? ?].
  - rewrite dict_comp_snoc, lookup_insert, fmap_app, elem_of_app, <- IH.
    cbn. rewrite list_elem_of_singleton. case_decide; subst; [by split; eauto|].
    naive_solver.
Qed.

(** The value found is that of the last occurrence. *)
Lemma dict_comp_lookup {A} (l : list (string * A)) k v :
  dict_comp l !! k = Some v <->
  exists l1 l2, l = l1 ++ (k, v) :: l2 /\ k ∉ l2.*1.
Proof.
  induction l as [|[k' v'] l IH] using rev_ind.
  - split; [unfold dict_comp; cbn; by rewrite lookup_empty|]. intros (l1 & l2 & H & _). by destruct l1.
  - rewrite dict_comp_snoc, lookup_insert. case_decide as Hk.
    + subst k'. split.
      * intros [= ->]. exists l, []. split; [done|]. by apply not_elem_of_nil.
      * intros (l1 & l2 & Heq & Hnot).
        destruct l2 as [|x l2 _] using rev_ind.
        { apply app_inj_tail in Heq as [_ Heq]. by simplify_eq. }
        exfalso. rewrite app_comm_cons, app_assoc in Heq.
        apply app_inj_tail in Heq as [_ <-]. apply Hnot.
        rewrite fmap_app. apply elem_of_app. right. by apply list_elem_of_singleton.
    + rewrite IH. split; intros (l1 & l2 & Heq & Hnot).
      * exists l1, (l2 ++ [(k', v')]). rewrite Heq, <- app_assoc. split; [done|].
        rewrite fmap_app, elem_of_app. cbn. rewrite list_elem_of_singleton. naive_solver.
      * destruct l2 as [|x l2 _] using rev_ind.
        { apply app_inj_tail in Heq as [_ Heq]. by simplify_eq. }
        rewrite app_comm_cons, app_assoc in Heq.
        apply app_inj_tail in Heq as [-> <-]. exists l1, l2. split; [done|].
        intros Hin. apply Hnot. rewrite fmap_app. apply elem_of_app. by left.
Qed.

(** [record.get(key) == "..."] *)
Definition eq_str (v : pyval) (s : string) : bool :=
  match v with PStr t => bool_decide (t = s) | _ => false end.

Lemma eq_str_spec v s : eq_str v s = true <-> v = PStr s.
Proof. destruct v; cbn; try done. rewrite bool_decide_eq_true. naive_solver. Qed.

Definition strs (l : list string) : pyval := PList (PStr <$> l).

Definition opt_str (o : option string) : pyval :=
  match o with Some s => PStr s | None => PNone end.
