(* ===== verification/Json.v ===== *)
(** The two uses of Python's [json] module: [json.dumps(v, sort_keys=True,
    separators=(",", ":"))], the canonical encoding that tokens are signed over and that
    the replay ledger stores, and [json.loads].  The main facts are that parsing
    inverts the canonical encoding, hence that the encoding is injective, and that the
    parser never runs out of the fuel it is given. *)

From stdpp Require Import base gmap sets list strings sorting.
From Stdlib Require Import ZArith Ascii SpecFloat Decimal DecimalString DecimalFacts DecimalPos DecimalZ.
From S2P Require Import Prelude PyText PyVal.

(** The values the code encodes: no floats, string keys. *)
#[warnings="-register-all"]
Inductive json : Set :=
| JNull
| JBool (b : bool)
| JInt (z : Z)
| JStr (s : string)
| JArr (l : list json)
| JObj (kvs : list (string * json)).

Coercion JStr : string >-> json.

Fixpoint of_json (j : json) : pyval :=
  match j with
  | JNull => PNone
  | JBool b => PBool b
  | JInt z => PInt z
  | JStr s => PStr s
  | JArr l => PList (of_json <$> l)
  | JObj kvs => PDict ((fun kv => (PStr kv.1, of_json kv.2)) <$> kvs)
  end.

(** ** Encoding *)

(** One character of an [ensure_ascii] string. *)
Definition escape_char (c : ascii) : string :=
  let n := code c in
  if n =? 34 then String "\" (String dquote "")
  else if n =? 92 then "\\"
  else if n =? 10 then "\n" else if n =? 13 then "\r" else if n =? 9 then "\t"
  else if n =? 12 then "\f" else if n =? 8 then "\b"
  else if (32 <=? n) && (n <=? 126) then String c "" else "\u00" +:+ hex2 n.

Fixpoint escape (s : string) : string :=
  match s with "" => "" | String c s' => escape_char c +:+ escape s' end.

Definition quote (s : string) : string := String dquote (escape s +:+ String dquote "").

Definition key_le (a b : string * string) : Prop := String.le a.1 b.1.
#[export] Instance key_le_dec : RelDecision key_le.
Proof. intros a b. unfold key_le. apply _. Defined.
#[export] Instance key_le_total : Total key_le.
Proof. intros a b. unfold key_le. apply (total String.le). Qed.
#[export] Instance key_le_trans : Transitive key_le.
Proof. intros a b c. unfold key_le. by etrans. Qed.

Definition dump_items (l : list (string * string)) : string :=
  join "," ((fun kv => quote kv.1 +:+ ":" +:+ kv.2) <$> merge_sort key_le l).

Fixpoint dumps (j : json) : string :=
  match j with
  | JNull => "null"
  | JBool true => "true"
  | JBool false => "false"
  | JInt z => str_of_Z z
  | JStr s => quote s
  | JArr l => "[" +:+ join "," (dumps <$> l) +:+ "]"
  | JObj kvs => "{" +:+ dump_items ((fun kv => (kv.1, dumps kv.2)) <$> kvs) +:+ "}"
  end.

(** ** Decoding *)

Inductive parsed (A : Type) : Type :=
| Parsed (a : A) (rest : string)
| Malformed
| OutOfFuel.
Arguments Parsed {A} a rest.
Arguments Malformed {A}.
Arguments OutOfFuel {A}.

Definition parsed_bind {A B} (p : parsed A) (f : A -> string -> parsed B) : parsed B :=
  match p with
  | Parsed a s => f a s
  | Malformed => Malformed
  | OutOfFuel => OutOfFuel
  end.

Definition json_space (c : ascii) : bool :=
  let n := code c in (n =? 32) || (n =? 9) || (n =? 10) || (n =? 13).

Fixpoint skip_ws (s : string) : string :=
  match s with
  | String c s' => if json_space c then skip_ws s' else s
  | "" => ""
  end.

(** [s] without the literal [p] in front. *)
Fixpoint expect (p s : string) : option string :=
  match p, s with
  | "", _ => Some s
  | String a p', String b s' => if decide (a = b) then expect p' s' else None
  | _, _ => None
  end.

Definition hex_value (c : ascii) : option nat :=
  let n := code c in
  if (48 <=? n) && (n <=? 57) then Some (n - 48)
  else if (97 <=? n) && (n <=? 102) then Some (n - 87)
  else if (65 <=? n) && (n <=? 70) then Some (n - 55)
  else None.

(** The code point of [XXXX] when it is below 256. *)
Definition hex4_char (a b c d : ascii) : option ascii :=
  match hex_value a, hex_value b, hex_value c, hex_value d with
  | Some 0, Some 0, Some x, Some y => Some (ascii_of_nat (16 * x + y))
  | _, _, _, _ => None
  end.

Definition simple_escape (c : ascii) : option ascii :=
  let n := code c in
  if (n =? 34) || (n =? 92) || (n =? 47) then Some c
  else if n =? 110 then Some (ascii_of_nat 10)
  else if n =? 114 then Some (ascii_of_nat 13)
  else if n =? 116 then Some (ascii_of_nat 9)
  else if n =? 102 then Some (ascii_of_nat 12)
  else if n =? 98 then Some (ascii_of_nat 8)
  else None.

Definition parsed_cons (c : ascii) (p : parsed string) : parsed string :=
  match p with Parsed s rest => Parsed (String c s) rest | e => e end.

(** The body of a string literal, after the opening quote. *)
Fixpoint scan_string (s : string) : parsed string :=
  match s with
  | "" => Malformed
  | String c s1 =>
      if code c =? 34 then Parsed "" s1
      else if code c <? 32 then Malformed
      else if code c =? 92 then
        match s1 with
        | "" => Malformed
        | String e s2 =>
            if code e =? 117 then
              match s2 with
              | String h1 (String h2 (String h3 (String h4 s3))) =>
                  match hex4_char h1 h2 h3 h4 with
                  | Some u => parsed_cons u (scan_string s3)
                  | None => Malformed
                  end
              | _ => Malformed
              end
            else match simple_escape e with
                 | Some u => parsed_cons u (scan_string s2)
                 | None => Malformed
                 end
        end
      else parsed_cons c (scan_string s1)
  end.

(** The longest prefix of decimal digits. *)
Definition digit_cons (c : ascii) (d : uint) : option uint :=
  match code c with
  | 48 => Some (D0 d) | 49 => Some (D1 d) | 50 => Some (D2 d) | 51 => Some (D3 d)
  | 52 => Some (D4 d) | 53 => Some (D5 d) | 54 => Some (D6 d) | 55 => Some (D7 d)
  | 56 => Some (D8 d) | 57 => Some (D9 d) | _ => None
  end.

Fixpoint scan_digits (s : string) : uint * string :=
  match s with
  | "" => (Nil, "")
  | String c s' =>
      let (d, rest) := scan_digits s' in
      match digit_cons c d with Some d' => (d', rest) | None => (Nil, s) end
  end.

Definition uint_length (d : uint) : Z := Z.of_nat (Decimal.nb_digits d).

(** The binary64 nearest to [sign N * 10^e]. *)
Definition float_of_decimal (neg : bool) (n : Z) (e : Z) : spec_float :=
  match n with
  | Zpos p =>
      match e with
      | Zneg k => SFdiv 53 1024 (S754_finite neg p 0) (S754_finite false (Pos.pow 10 k) 0)
      | Z0 => binary_round 53 1024 neg p 0
      | Zpos k => binary_round 53 1024 neg (p * Pos.pow 10 k) 0
      end
  | _ => S754_zero neg
  end.

(** [(\.\d+)?] and [([eE][-+]?\d+)?], each absent unless it matches whole. *)
Definition scan_fraction (s : string) : option uint * string :=
  match s with
  | String "." s' =>
      match scan_digits s' with (Nil, _) => (None, s) | (d, rest) => (Some d, rest) end
  | _ => (None, s)
  end.

Definition scan_sign (s : string) : bool * string :=
  match s with
  | String "-" s' => (true, s')
  | String "+" s' => (false, s')
  | _ => (false, s)
  end.

Definition scan_exponent (s : string) : option Z * string :=
  match s with
  | String c s' =>
      if (code c =? 101) || (code c =? 69) then
        let (neg, s2) := scan_sign s' in
        match scan_digits s2 with
        | (Nil, _) => (None, s)
        | (d, rest) => (Some (if neg then - Z.of_uint d else Z.of_uint d)%Z, rest)
        end
      else (None, s)
  | "" => (None, s)
  end.

(** [0|[1-9]\d*] *)
Definition scan_integer_part (s : string) : option (uint * string) :=
  match s with
  | String "0" s' => Some (D0 Nil, s')
  | _ => match scan_digits s with (Nil, _) => None | r => Some r end
  end.

Definition scan_number (s : string) : parsed pyval :=
  let (neg, s1) := match s with String "-" s' => (true, s') | _ => (false, s) end in
  match scan_integer_part s1 with
  | None => match expect "Infinity" s1 with
            | Some rest => Parsed (PFloat (S754_infinity neg)) rest
            | None => Malformed
            end
  | Some (ip, s2) =>
      let (frac, s3) := scan_fraction s2 in
      let (ex, s4) := scan_exponent s3 in
      match frac, ex with
      | None, None =>
          Parsed (PInt (if neg then - Z.of_uint ip else Z.of_uint ip)%Z) s4
      | _, _ =>
          let fd := default Nil frac in
          let n := (Z.of_uint ip * 10 ^ uint_length fd + Z.of_uint fd)%Z in
          Parsed (PFloat (float_of_decimal neg n (default 0 ex - uint_length fd)%Z)) s4
      end
  end.

(** A scalar, or [None] when [s] starts with none of them. *)
Definition scan_literal (s : string) : option (pyval * string) :=
  match expect "null" s with Some r => Some (PNone, r) | None =>
  match expect "true" s with Some r => Some (PBool true, r) | None =>
  match expect "false" s with Some r => Some (PBool false, r) | None =>
  match expect "NaN" s with Some r => Some (PFloat S754_nan, r) | None => None
  end end end end.

Section Scan.
(** [object_pairs_hook]: the object of the members read, or [None] when the hook raises. *)
Context (object_of : items -> option pyval).

(** [scan_once], [JSONArray] (after an element is due) and [JSONObject] (after a key's
    opening quote is due). *)
Fixpoint scan_value (fuel : nat) (s : string) {struct fuel} : parsed pyval :=
  match fuel with
  | O => OutOfFuel
  | S n =>
      match s with
      | "" => Malformed
      | String c s1 =>
          if code c =? 34 then
            parsed_bind (scan_string s1) (fun t r => Parsed (PStr t) r)
          else if code c =? 123 then
            match skip_ws s1 with
            | String c2 s2 =>
                if code c2 =? 125 then match object_of [] with Some v => Parsed v s2 | None => Malformed end
                else parsed_bind (scan_members n (String c2 s2))
                       (fun kvs r => match object_of kvs with Some v => Parsed v r | None => Malformed end)
            | "" => Malformed
            end
          else if code c =? 91 then
            match skip_ws s1 with
            | String c2 s2 =>
                if code c2 =? 93 then Parsed (PList []) s2
                else parsed_bind (scan_elements n (String c2 s2))
                       (fun l r => Parsed (PList l) r)
            | "" => Malformed
            end
          else match scan_literal s with
               | Some (v, r) => Parsed v r
               | None => scan_number s
               end
      end
  end
with scan_elements (fuel : nat) (s : string) {struct fuel} : parsed (list pyval) :=
  match fuel with
  | O => OutOfFuel
  | S n =>
      parsed_bind (scan_value n s) (fun v r =>
        match skip_ws r with
        | String c r' =>
            if code c =? 93 then Parsed [v] r'
            else if code c =? 44 then
              parsed_bind (scan_elements n (skip_ws r')) (fun l r2 => Parsed (v :: l) r2)
            else Malformed
        | "" => Malformed
        end)
  end
with scan_members (fuel : nat) (s : string) {struct fuel} : parsed items :=
  match fuel with
  | O => OutOfFuel
  | S n =>
      match s with
      | String q s1 =>
          if code q =? 34 then
            parsed_bind (scan_string s1) (fun k r =>
              match skip_ws r with
              | String c r' =>
                  if code c =? 58 then
                    parsed_bind (scan_value n (skip_ws r')) (fun v r2 =>
                      match skip_ws r2 with
                      | String c2 r3 =>
                          if code c2 =? 125 then Parsed [(PStr k, v)] r3
                          else if code c2 =? 44 then
                            parsed_bind (scan_members n (skip_ws r3))
                              (fun kvs r4 => Parsed ((PStr k, v) :: kvs) r4)
                          else Malformed
                      | "" => Malformed
                      end)
                  else Malformed
              | "" => Malformed
              end)
          else Malformed
      | "" => Malformed
      end
  end.

End Scan.

(** The text of a key; members read from a text have no other keys. *)
Definition text_key (v : pyval) : string := match v with PStr s => s | _ => "" end.

Definition json_fuel (s : string) : nat := S (2 * String.length s).

(** [json.loads(s, object_pairs_hook=...)]; [JSONDecodeError] is a [ValueError]. *)
Definition loads_with (object_of : items -> option pyval) (s : string) : outcome pyval :=
  match scan_value object_of (json_fuel s) (skip_ws s) with
  | Parsed v rest =>
      match skip_ws rest with
      | "" => Ok v
      | _ => raise ValueError "Extra data"
      end
  | Malformed => raise ValueError "Expecting value"
  | OutOfFuel => raise RuntimeError "maximum recursion depth exceeded"
  end.

(** [json.loads(s)]: the last value of a repeated key wins. *)
Definition plain_object (kvs : items) : option pyval := Some (PDict (dict_of_items kvs)).
Definition loads (s : string) : outcome pyval := loads_with plain_object s.

(** The hooks [_unique_object] of the module services: a repeated field is an error. *)
Definition unique_object (kvs : items) : option pyval :=
  if bool_decide (NoDup (text_key <$> kvs.*1)) then Some (PDict kvs) else None.
Definition loads_unique (s : string) : outcome pyval := loads_with unique_object s.

(** ** Strings and numbers: the scanners invert the printers *)

Lemma hex2_value c :
  exists a b, hex2 (code c) = String a (String b "") /\ hex4_char "0" "0" a b = Some c.
Proof. by destruct c as [[] [] [] [] [] [] [] []]; eexists _, _. Qed.

Lemma scan_string_escape_char c t :
  scan_string (escape_char c +:+ t) = parsed_cons c (scan_string t).
Proof. by destruct c as [[] [] [] [] [] [] [] []]. Qed.

Lemma scan_string_escape s rest :
  scan_string (escape s +:+ String dquote rest) = Parsed s rest.
Proof.
  induction s as [|c s IH]; [done|].
  cbn [escape]. by rewrite app_assoc_str, scan_string_escape_char, IH.
Qed.

(** What may follow a number without extending it. *)
Definition number_end (s : string) : bool :=
  match s with
  | "" => true
  | String c _ =>
      let n := code c in
      negb (((48 <=? n) && (n <=? 57)) || (n =? 46) || (n =? 101) || (n =? 69))
  end.

Lemma digit_cons_number_end c s d :
  number_end (String c s) = true -> digit_cons c d = None.
Proof. by destruct c as [[] [] [] [] [] [] [] []]. Qed.

Lemma scan_digits_end s : number_end s = true -> scan_digits s = (Nil, s).
Proof.
  destruct s as [|c s]; [done|]. intros H. cbn.
  destruct (scan_digits s) as [d r]. by rewrite (digit_cons_number_end c s).
Qed.

Lemma scan_digits_uint d rest :
  number_end rest = true ->
  scan_digits (NilEmpty.string_of_uint d +:+ rest) = (d, rest).
Proof.
  intros Hr. induction d; cbn; rewrite ?IHd; [by apply scan_digits_end|done..].
Qed.

Lemma scan_fraction_end s : number_end s = true -> scan_fraction s = (None, s).
Proof. by destruct s as [|[[] [] [] [] [] [] [] []] s]. Qed.

Lemma scan_exponent_end s : number_end s = true -> scan_exponent s = (None, s).
Proof. by destruct s as [|[[] [] [] [] [] [] [] []] s]. Qed.

(** The digits of a positive number: non-empty, no leading zero. *)
Definition positive_digits (d : uint) : Prop :=
  match d with Nil | D0 _ => False | _ => True end.

Lemma nzhead_positive d : nzhead d = Nil \/ positive_digits (nzhead d).
Proof. induction d; cbn; auto. Qed.

Lemma to_uint_positive p : positive_digits (Pos.to_uint p).
Proof.
  assert (unorm (Pos.to_uint p) = Pos.to_uint p) as H.
  { pose proof (DecimalPos.Unsigned.to_of (Pos.to_uint p)) as H.
    by rewrite DecimalPos.Unsigned.of_to in H. }
  revert H. unfold unorm.
  destruct (nzhead_positive (Pos.to_uint p)) as [Hn|Hp].
  - rewrite Hn. intros H. by destruct (DecimalPos.Unsigned.to_uint_nonzero p).
  - destruct (nzhead (Pos.to_uint p)) eqn:E; [done|..]; intros <-; by cbn.
Qed.

Lemma string_of_positive_digits d :
  positive_digits d -> NilZero.string_of_uint d = NilEmpty.string_of_uint d.
Proof. by destruct d. Qed.

Lemma scan_integer_part_digits d rest :
  positive_digits d -> number_end rest = true ->
  scan_integer_part (NilEmpty.string_of_uint d +:+ rest) = Some (d, rest).
Proof.
  intros Hd Hr. pose proof (scan_digits_uint d rest Hr) as Hs.
  unfold scan_integer_part. destruct d; try done; cbn in *; by rewrite Hs.
Qed.

Lemma Z_of_to_uint p : Z.of_uint (Pos.to_uint p) = Zpos p.
Proof. exact (DecimalZ.of_to (Zpos p)). Qed.

Lemma scan_number_positive p rest :
  number_end rest = true ->
  scan_number (NilEmpty.string_of_uint (Pos.to_uint p) +:+ rest) = Parsed (PInt (Zpos p)) rest /\
  scan_number (String "-" (NilEmpty.string_of_uint (Pos.to_uint p)) +:+ rest)
  = Parsed (PInt (Zneg p)) rest.
Proof.
  intros Hr. pose proof (to_uint_positive p) as Hp.
  pose proof (scan_integer_part_digits _ _ Hp Hr) as Hi.
  pose proof (Z_of_to_uint p) as Hz.
  unfold scan_number. split.
  - destruct (Pos.to_uint p) eqn:E; try done;
      cbn [NilEmpty.string_of_uint String.append] in *; rewrite Hi;
      by rewrite scan_fraction_end, scan_exponent_end, Hz.
  - cbn [String.append]. rewrite Hi, scan_fraction_end, scan_exponent_end by done.
    by rewrite Hz.
Qed.

Lemma scan_number_int z rest :
  number_end rest = true -> scan_number (str_of_Z z +:+ rest) = Parsed (PInt z) rest.
Proof.
  intros Hr. unfold str_of_Z. destruct z as [|p|p]; cbn [Z.to_int NilZero.string_of_int].
  - cbn. by rewrite scan_fraction_end, scan_exponent_end.
  - rewrite string_of_positive_digits by apply to_uint_positive.
    by apply scan_number_positive.
  - rewrite string_of_positive_digits by apply to_uint_positive.
    by apply scan_number_positive.
Qed.

(** An integer literal starts with a digit or a minus sign. *)
Definition int_start (c : ascii) : bool :=
  let n := code c in ((48 <=? n) && (n <=? 57)) || (n =? 45).

Lemma str_of_Z_start z : exists c s, str_of_Z z = String c s /\ int_start c = true.
Proof.
  unfold str_of_Z. destruct z as [|p|p]; cbn [Z.to_int NilZero.string_of_int].
  - by eexists _, _.
  - pose proof (to_uint_positive p).
    rewrite string_of_positive_digits by done.
    destruct (Pos.to_uint p); try done; by eexists _, _.
  - by eexists _, _.
Qed.

Lemma scan_value_int h n z rest :
  number_end rest = true ->
  scan_value h (S n) (str_of_Z z +:+ rest) = Parsed (PInt z) rest.
Proof.
  intros Hr. destruct (str_of_Z_start z) as (c & s & Hs & Hc).
  pose proof (scan_number_int z rest Hr) as Hn. rewrite Hs in *.
  cbn [String.append] in *.
  cbn [scan_value]. rewrite Hn.
  by destruct c as [[] [] [] [] [] [] [] []].
Qed.

(** ** Parsing inverts encoding *)

Section json_induction.
  Variable P : json -> Prop.
  Hypothesis P_null : P JNull.
  Hypothesis P_bool : forall b, P (JBool b).
  Hypothesis P_int : forall z, P (JInt z).
  Hypothesis P_str : forall s, P (JStr s).
  Hypothesis P_arr : forall l, Forall P l -> P (JArr l).
  Hypothesis P_obj : forall kvs, Forall (fun kv => P kv.2) kvs -> P (JObj kvs).

Fixpoint json_nested_ind (j : json) : P j :=
    match j with
    | JNull => P_null
    | JBool b => P_bool b
    | JInt z => P_int z
    | JStr s => P_str s
    | JArr l => P_arr l
        ((fix go l := match l return Forall P l with
                      | [] => Forall_nil_2 _
                      | x :: l' => Forall_cons_2 _ _ _ (json_nested_ind x) (go l')
                      end) l)
    | JObj kvs => P_obj kvs
        ((fix go kvs := match kvs return Forall (fun kv => P kv.2) kvs with
                        | [] => Forall_nil_2 _
                        | x :: l' => Forall_cons_2 _ _ _ (json_nested_ind x.2) (go l')
                        end) kvs)
    end.
End json_induction.

(** Canonical values: the keys of every object are sorted and distinct. *)
#[warnings="-register-all"]
Inductive canonical : json -> Prop :=
| canonical_null : canonical JNull
| canonical_bool b : canonical (JBool b)
| canonical_int z : canonical (JInt z)
| canonical_str s : canonical (JStr s)
| canonical_arr l : Forall canonical l -> canonical (JArr l)
| canonical_obj kvs :
    Sorted String.le kvs.*1 -> NoDup kvs.*1 -> Forall (fun kv => canonical kv.2) kvs ->
    canonical (JObj kvs).

Lemma canonical_arr_inv l : canonical (JArr l) -> Forall canonical l.
Proof. by inversion 1. Qed.
Lemma canonical_obj_inv kvs :
  canonical (JObj kvs) ->
  Sorted String.le kvs.*1 /\ NoDup kvs.*1 /\ Forall (fun kv => canonical kv.2) kvs.
Proof. by inversion 1. Qed.

(** Sorting items whose keys are already sorted and distinct changes nothing. *)
Lemma sorted_keys_unique (l1 l2 : list (string * string)) :
  StronglySorted key_le l1 -> StronglySorted key_le l2 -> NoDup l1.*1 -> l1 ≡ₚ l2 -> l1 = l2.
Proof.
  intros H1; revert l2. induction H1 as [|x l1 H1 IH Hx]; intros l2 H2 Hnd Hp.
  { symmetry in Hp. by apply Permutation_nil_r in Hp as ->. }
  destruct H2 as [|y l2 H2 Hy]; [by apply Permutation_nil_r in Hp|].
  assert (x = y) as <-.
  { assert (y ∈ x :: l1) as Hyx by (rewrite Hp; left).
    assert (x ∈ y :: l2) as Hxy by (rewrite <- Hp; left).
    apply elem_of_cons in Hyx as [->|Hyx], Hxy as [Hxy|Hxy]; try done.
    rewrite Forall_forall in Hx, Hy.
    pose proof (Hx _ Hyx) as L1. pose proof (Hy _ Hxy) as L2.
    assert (x.1 = y.1) as Heq by (by apply (anti_symm String.le)).
    apply NoDup_cons in Hnd as [Hn _]. destruct Hn.
    rewrite Heq. by apply list_elem_of_fmap_2. }
  f_equal. apply IH; [done| |by apply Permutation_cons_inv in Hp].
  by apply NoDup_cons in Hnd as [_ ?].
Qed.

Lemma merge_sort_keys_id (l : list (string * string)) :
  Sorted String.le l.*1 -> NoDup l.*1 -> merge_sort key_le l = l.
Proof.
  intros Hs Hn. symmetry. apply sorted_keys_unique; [| |done|].
  - apply Sorted_StronglySorted; [apply _|]. clear Hn.
    induction l as [|x [|y l] IH]; [constructor|repeat constructor|].
    apply Sorted_inv in Hs as [Hs Hd]. constructor; [by apply IH|].
    constructor. by inversion Hd.
  - apply StronglySorted_merge_sort; apply _.
  - by rewrite merge_sort_Permutation.
Qed.

Definition dump_member (kv : string * json) : string := quote kv.1 +:+ ":" +:+ dumps kv.2.
#[local] Arguments dump_member : simpl never.

Lemma dump_items_sorted (kvs : list (string * json)) :
  Sorted String.le kvs.*1 -> NoDup kvs.*1 ->
  dump_items ((fun kv => (kv.1, dumps kv.2)) <$> kvs) = join "," (dump_member <$> kvs).
Proof.
  intros Hs Hn. unfold dump_items. rewrite merge_sort_keys_id.
  - by rewrite <- list_fmap_compose.
  - by rewrite <- list_fmap_compose.
  - by rewrite <- list_fmap_compose.
Qed.

(** Decide the tests the scanner makes on a known character. *)
Ltac json_token :=
  repeat match goal with
  | |- context [json_space ?c] =>
      let v := eval vm_compute in (json_space c) in
      match v with true => idtac | false => idtac end;
      change (json_space c) with v
  | |- context [code ?c =? ?n] =>
      let v := eval vm_compute in (code c =? n) in
      match v with true => idtac | false => idtac end;
      change (code c =? n) with v
  end; cbn match.

(** How an encoded value starts: never with white space or a closing bracket. *)
Definition value_start (c : ascii) : bool :=
  negb (json_space c) && negb (code c =? 93).

Lemma dumps_start j : exists c s, dumps j = String c s /\ value_start c = true.
Proof.
  destruct j as [|[]|z|s|l|kvs]; try by eexists _, _.
  destruct (str_of_Z_start z) as (c & s & Hs & Hc). exists c, s. split; [done|].
  clear Hs. by destruct c as [[] [] [] [] [] [] [] []].
Qed.

Lemma skip_ws_value j rest : skip_ws (dumps j +:+ rest) = dumps j +:+ rest.
Proof.
  destruct (dumps_start j) as (c & s & -> & Hc). cbn.
  unfold value_start in Hc. by destruct (json_space c).
Qed.

Lemma length_app_str s t : String.length (s +:+ t) = String.length s + String.length t.
Proof. induction s as [|c s IH]; [done|]. cbn. by rewrite IH. Qed.

Lemma dumps_length_pos j : 0 < String.length (dumps j).
Proof. destruct (dumps_start j) as (c & s & -> & _). cbn. lia. Qed.

(** A hook that builds the object of members with distinct keys. *)
Class ObjectHook (h : items -> option pyval) : Prop :=
  object_of_nodup kvs : NoDup kvs.*1 -> h (str_items kvs) = Some (PDict (str_items kvs)).

#[export] Instance plain_object_hook : ObjectHook plain_object.
Proof. intros kvs H. unfold plain_object. by rewrite dict_of_str_items_nodup. Qed.

Lemma text_keys_str_items (kvs : list (string * pyval)) : text_key <$> (str_items kvs).*1 = kvs.*1.
Proof. unfold str_items. by rewrite <- !list_fmap_compose. Qed.

#[export] Instance unique_object_hook : ObjectHook unique_object.
Proof. intros kvs H. unfold unique_object. by rewrite text_keys_str_items, bool_decide_true. Qed.

Section RoundTrip.
Context (h : items -> option pyval) `{Hh : !ObjectHook h}.

(** The round trip of one value inside a larger text. *)
Definition roundtrips (j : json) : Prop := forall n rest,
  number_end rest = true -> 2 * String.length (dumps j) < n ->
  scan_value h n (dumps j +:+ rest) = Parsed (of_json j) rest.

Lemma scan_elements_dumps l : forall n rest,
  l <> [] -> Forall roundtrips l ->
  2 * String.length (join "," (dumps <$> l)) + 1 < n ->
  scan_elements h n (join "," (dumps <$> l) +:+ String "]" rest) = Parsed (of_json <$> l) rest.
Proof.
  induction l as [|j l IH]; intros n rest Hne Hl Hn; [done|].
  apply Forall_cons in Hl as [Hj Hl]. destruct n as [|n]; [lia|].
  pose proof (dumps_length_pos j). destruct l as [|k l].
  - rewrite ?fmap_cons, ?fmap_nil in *. rewrite join_one in *. cbn [scan_elements].
    rewrite Hj by (done || lia). done.
  - rewrite !fmap_cons in *. rewrite join_cons in *.
    rewrite !length_app_str in Hn. cbn [String.length] in Hn.
    cbn [scan_elements]. rewrite app_assoc_str, Hj by (done || lia).
    assert (skip_ws (join "," (dumps k :: (dumps <$> l)) +:+ String "]" rest)
            = join "," (dumps k :: (dumps <$> l)) +:+ String "]" rest) as Hws.
    { destruct l; [apply skip_ws_value|]. rewrite ?fmap_cons, join_cons.
      rewrite app_assoc_str. apply skip_ws_value. }
    cbn. json_token. rewrite Hws. rewrite ?fmap_cons in IH.
    by rewrite (IH n rest) by (done || lia).
Qed.

Lemma scan_string_quote s rest : exists t,
  quote s +:+ rest = String dquote t /\ scan_string t = Parsed s rest.
Proof.
  exists (escape s +:+ String dquote rest). split; [|apply scan_string_escape].
  unfold quote. cbn [String.append]. by rewrite app_assoc_str.
Qed.

Lemma skip_ws_member kv rest : skip_ws (dump_member kv +:+ rest) = dump_member kv +:+ rest.
Proof. done. Qed.

Lemma scan_members_dumps kvs : forall n rest,
  kvs <> [] -> Forall (fun kv => roundtrips kv.2) kvs ->
  2 * String.length (join "," (dump_member <$> kvs)) + 1 < n ->
  scan_members h n (join "," (dump_member <$> kvs) +:+ String "}" rest)
  = Parsed ((fun kv => (PStr kv.1, of_json kv.2)) <$> kvs) rest.
Proof.
  induction kvs as [|[k j] l IH]; intros n rest Hne Hl Hn; [done|].
  apply Forall_cons in Hl as [Hj Hl]. cbn [snd] in Hj. destruct n as [|n]; [lia|].
  assert (forall r, exists t, dump_member (k, j) +:+ r = String dquote t /\
            scan_string t = Parsed k (String ":" (dumps j +:+ r))) as Hm.
  { intros r. destruct (scan_string_quote k (String ":" (dumps j +:+ r))) as (t & Ht & Hs).
    exists t. split; [|done]. unfold dump_member. cbn [fst snd].
    by rewrite !app_assoc_str. }
  assert (2 * String.length (dumps j) < n) as Hfuel.
  { destruct l; rewrite ?fmap_cons, ?fmap_nil in Hn; [rewrite join_one in Hn|rewrite join_cons in Hn];
    rewrite ?length_app_str in Hn; cbn in Hn; unfold dump_member in Hn;
    cbn [fst snd] in Hn; rewrite !length_app_str in Hn; cbn in Hn; lia. }
  destruct l as [|kv l].
  - rewrite ?fmap_cons, ?fmap_nil in *. rewrite join_one in *. destruct (Hm (String "}" rest)) as (t & -> & Hs).
    cbn. json_token. rewrite Hs. cbn. json_token.
    rewrite skip_ws_value, Hj by (done || lia). done.
  - rewrite !fmap_cons in *. rewrite join_cons in *.
    rewrite app_assoc_str.
    destruct (Hm (("," +:+ join "," (dump_member kv :: (dump_member <$> l))) +:+ String "}" rest))
      as (t & -> & Hs).
    rewrite !length_app_str in Hn. cbn [String.length] in Hn.
    cbn. json_token. rewrite Hs. cbn. json_token. rewrite skip_ws_value.
    rewrite Hj by (done || lia). cbn. json_token.
    assert (skip_ws (join "," (dump_member kv :: (dump_member <$> l)) +:+ String "}" rest)
            = join "," (dump_member kv :: (dump_member <$> l)) +:+ String "}" rest) as Hws.
    { destruct l; [apply skip_ws_member|]. rewrite ?fmap_cons, join_cons.
      rewrite app_assoc_str. apply skip_ws_member. }
    json_token. rewrite Hws. rewrite ?fmap_cons in IH. by rewrite (IH n rest) by (done || lia).
Qed.

Lemma canonical_roundtrips j : canonical j -> roundtrips j.
Proof.
  induction j as [|b|z|s|l IH|kvs IH] using json_nested_ind; intros Hc n rest Hr Hn;
    (destruct n as [|n]; [lia|]).
  - done.
  - by destruct b.
  - by apply scan_value_int.
  - destruct (scan_string_quote s rest) as (t & Ht & Hs).
    cbn [dumps]. rewrite Ht. cbn. by rewrite Hs.
  - apply canonical_arr_inv in Hc.
    assert (Forall roundtrips l) as Hl.
    { rewrite Forall_forall in *. auto. }
    destruct l as [|j l]; [done|].
    destruct (dumps_start j) as (c & s & Hs & Hstart).
    assert (exists t, join "," (dumps <$> j :: l) = String c t) as [t Ht].
    { destruct l; rewrite !fmap_cons, ?join_cons, Hs; by eexists. }
    pose proof (scan_elements_dumps (j :: l) n rest ltac:(done) Hl) as He.
    cbn [dumps] in *. rewrite !app_assoc_str, !length_app_str in *.
    rewrite Ht in *. cbn [String.append String.length scan_value] in *.
    json_token. cbn [skip_ws]. unfold value_start in Hstart.
    destruct (json_space c) eqn:Hsp; [done|]. cbn in Hstart.
    destruct (code c =? 93) eqn:Hb; [done|].
    rewrite He by lia. done.
  - apply canonical_obj_inv in Hc as (Hsort & Hnd & Hc).
    assert (Forall (fun kv => roundtrips kv.2) kvs) as Hl.
    { rewrite Forall_forall in *. auto. }
    cbn [dumps]. rewrite dump_items_sorted by done.
    destruct kvs as [|kv l].
    { pose proof (object_of_nodup (h := h) [] (NoDup_nil_2)) as He. cbn in *. by rewrite He. }
    assert (exists t, join "," (dump_member <$> kv :: l) = String dquote t) as [t Ht].
    { destruct l; rewrite !fmap_cons, ?join_cons; by eexists. }
    pose proof (scan_members_dumps (kv :: l) n rest ltac:(done) Hl) as He.
    cbn [dumps] in Hn. rewrite dump_items_sorted in Hn by done.
    rewrite !app_assoc_str, !length_app_str in *. rewrite Ht in *.
    cbn [String.append String.length scan_value] in *.
    json_token. cbn [skip_ws]. json_token.
    rewrite He by lia. cbn [parsed_bind]. f_equal.
    assert ((fun kv => (PStr kv.1, of_json kv.2)) <$> kv :: l
            = str_items ((fun kv => (kv.1, of_json kv.2)) <$> kv :: l)) as Hitems.
    { unfold str_items. by rewrite <- list_fmap_compose. }
    cbn [of_json]. rewrite Hitems, object_of_nodup; [done|]. by rewrite <- list_fmap_compose.
Qed.

(** The decoder also accepts white space after the value, such as a line break. *)
Lemma loads_dumps_ws j ws :
  canonical j -> number_end ws = true -> skip_ws ws = "" -> loads_with h (dumps j +:+ ws) = Ok (of_json j).
Proof.
  intros Hc Hn Hws. unfold loads_with, json_fuel.
  rewrite skip_ws_value, (canonical_roundtrips j Hc), Hws; [done|done|].
  rewrite length_app_str. lia.
Qed.

Lemma loads_with_dumps j : canonical j -> loads_with h (dumps j) = Ok (of_json j).
Proof. intros Hc. rewrite <- (app_nil_str (dumps j)). by apply loads_dumps_ws. Qed.
End RoundTrip.

(** [json.loads(json.dumps(j, sort_keys=True)) == j]. *)
Lemma loads_dumps j : canonical j -> loads (dumps j) = Ok (of_json j).
Proof. apply (loads_with_dumps plain_object). Qed.

Lemma of_json_inj j1 : forall j2, of_json j1 = of_json j2 -> j1 = j2.
Proof.
  induction j1 as [|b|z|s|l IH|kvs IH] using json_nested_ind; intros [|b2|z2|s2|l2|kvs2];
    cbn; intros Heq; simplify_eq; try done; f_equal.
  - revert l2 Heq. induction IH as [|j l Hj _ IHl]; intros [|j2 l2] Heq; simplify_eq/=; try done.
    f_equal; auto.
  - revert kvs2 Heq. induction IH as [|[k j] l Hj _ IHl]; intros [|[k2 j2] l2] Heq;
      simplify_eq/=; try done.
    f_equal; [f_equal|]; auto.
Qed.

(** Different canonical values have different encodings. *)
Lemma dumps_inj j1 j2 : canonical j1 -> canonical j2 -> dumps j1 = dumps j2 -> j1 = j2.
Proof.
  intros H1 H2 Heq. apply of_json_inj.
  assert (Ok (of_json j1) = Ok (of_json j2)) as [= ->]; [|done].
  by rewrite <- !loads_dumps, Heq.
Qed.

(** ** The scanner never runs out of fuel *)

Lemma skip_ws_length s : String.length (skip_ws s) <= String.length s.
Proof. induction s as [|c s IH]; [done|]. cbn. destruct (json_space c); cbn; lia. Qed.

Definition shorter {A} (p : parsed A) (s : string) : Prop :=
  match p with
  | Parsed _ r => String.length r < String.length s
  | Malformed => True
  | OutOfFuel => False
  end.

Lemma parsed_cons_shorter c p s t :
  shorter p s -> String.length s <= String.length t -> shorter (parsed_cons c p) t.
Proof. destruct p; cbn; lia. Qed.

Lemma scan_string_shorter s : shorter (scan_string s) s.
Proof.
  assert (forall n s, String.length s <= n -> shorter (scan_string s) s) as H; [|by eapply H].
  clear s. induction n as [|n IH]; intros [|c s] Hn; cbn in Hn; try done; [lia|].
  cbn [scan_string].
  repeat case_match; subst; cbn in *; try lia; try done;
    eapply parsed_cons_shorter; (apply IH || cbn); lia.
Qed.

Lemma expect_length p : forall s r,
  expect p s = Some r -> String.length s = String.length p + String.length r.
Proof.
  induction p as [|a p IH]; intros [|b s] r; cbn; intros Hr; simplify_eq; try done.
  case_decide; [|done]. by rewrite (IH s r).
Qed.

Lemma scan_digits_length s d r :
  scan_digits s = (d, r) ->
  String.length r <= String.length s /\ (d <> Nil -> String.length r < String.length s).
Proof.
  revert d r; induction s as [|c s IH]; intros d r; cbn.
  - by intros [= <- <-].
  - destruct (scan_digits s) as [d' r'] eqn:E. destruct (IH d' r' eq_refl) as [Hl _].
    destruct (digit_cons c d'); intros [= <- <-]; cbn; split; try done; lia.
Qed.

Lemma scan_fraction_length s d r : scan_fraction s = (d, r) -> String.length r <= String.length s.
Proof.
  unfold scan_fraction. intros H.
  repeat case_match; simplify_eq; cbn; try done;
    match goal with E : scan_digits _ = _ |- _ => apply scan_digits_length in E; lia end.
Qed.

Lemma scan_exponent_length s d r : scan_exponent s = (d, r) -> String.length r <= String.length s.
Proof.
  unfold scan_exponent. destruct s as [|c s]; [by intros [= <- <-]|].
  case_match; [|by intros [= <- <-]].
  destruct (scan_sign s) as [neg s2] eqn:Hs.
  assert (String.length s2 <= String.length s) as Hl.
  { unfold scan_sign in Hs. repeat case_match; simplify_eq; cbn; lia. }
  destruct (scan_digits s2) as [d2 r2] eqn:Hd. apply scan_digits_length in Hd as [Hd _].
  destruct d2; intros [= <- <-]; cbn; lia.
Qed.

Lemma scan_number_shorter s : shorter (scan_number s) s.
Proof.
  unfold scan_number.
  assert (forall neg s1, (neg, s1) = match s with String "-" s' => (true, s') | _ => (false, s) end ->
            String.length s1 <= String.length s) as Hs.
  { intros neg s1 H. repeat case_match; simplify_eq; cbn; lia. }
  destruct (match s with String "-" s' => (true, s') | _ => (false, s) end) as [neg s1].
  specialize (Hs neg s1 eq_refl).
  destruct (scan_integer_part s1) as [[ip s2]|] eqn:Hi.
  - assert (String.length s2 < String.length s1) as Hlt.
    { unfold scan_integer_part in Hi.
      repeat case_match; simplify_eq; cbn; try lia;
        match goal with E : scan_digits _ = _ |- _ =>
          apply scan_digits_length in E as [_ E]; cbn in E; by apply E end. }
    destruct (scan_fraction s2) as [frac s3] eqn:Hf. apply scan_fraction_length in Hf.
    destruct (scan_exponent s3) as [ex s4] eqn:He. apply scan_exponent_length in He.
    repeat case_match; cbn; lia.
  - destruct (expect "Infinity" s1) eqn:E; [|done]. apply expect_length in E. cbn in *. lia.
Qed.

Lemma scan_literal_length s v r :
  scan_literal s = Some (v, r) -> String.length r < String.length s.
Proof.
  unfold scan_literal. intros H. repeat case_match; simplify_eq;
    match goal with E : expect _ s = Some _ |- _ => apply expect_length in E; cbn in E; lia end.
Qed.

Lemma parsed_bind_shorter {A B} (p : parsed A) (f : A -> string -> parsed B) s :
  shorter p s ->
  (forall a r, String.length r < String.length s -> shorter (f a r) s) ->
  shorter (parsed_bind p f) s.
Proof. destruct p; cbn; auto. Qed.

Lemma shorter_mono {A} (p : parsed A) s t :
  shorter p s -> String.length s <= String.length t -> shorter p t.
Proof. destruct p; cbn; lia. Qed.

(** Every call makes the text shorter, and twice the length is fuel enough. *)
Lemma scan_fuel h n : forall s,
  (2 * String.length s < n -> shorter (scan_value h n s) s) /\
  (2 * String.length s + 1 < n -> shorter (scan_elements h n s) s) /\
  (2 * String.length s + 1 < n -> shorter (scan_members h n s) s).
Proof.
  induction n as [|n IH]; intros s; [repeat split; lia|].
  assert (forall t, 2 * String.length t < n -> shorter (scan_value h n t) t) as IHv by apply IH.
  assert (forall t, 2 * String.length t + 1 < n -> shorter (scan_elements h n t) t) as IHe by apply IH.
  assert (forall t, 2 * String.length t + 1 < n -> shorter (scan_members h n t) t) as IHm by apply IH.
  pose proof skip_ws_length as Hws. repeat split; intros Hn.
  - destruct s as [|c s]; [done|]. cbn [scan_value String.length] in *.
    repeat case_match; subst; try done;
      try match goal with E : skip_ws s = _ |- _ => specialize (Hws s); rewrite E in Hws; cbn in Hws end.
    + eapply parsed_bind_shorter; [eapply shorter_mono; [apply scan_string_shorter|cbn; lia]|].
      intros; cbn in *; lia.
    + cbn. lia.
    + eapply parsed_bind_shorter; [eapply shorter_mono; [apply IHm|]|]; cbn; intros; try lia.
      case_match; cbn; [lia|done].
    + cbn. lia.
    + eapply parsed_bind_shorter; [eapply shorter_mono; [apply IHe|]|]; cbn; intros; lia.
    + match goal with E : scan_literal _ = Some _ |- _ => by apply scan_literal_length in E end.
    + apply scan_number_shorter.
  - cbn [scan_elements]. eapply parsed_bind_shorter; [apply IHv; lia|].
    intros v r Hr. pose proof (Hws r) as Hr'. destruct (skip_ws r) as [|c r']; [done|].
    cbn in Hr'. repeat case_match; try done; [cbn; lia|].
    specialize (Hws r'). eapply parsed_bind_shorter.
    + eapply shorter_mono; [apply IHe|]; lia.
    + intros; cbn; lia.
  - cbn [scan_members]. destruct s as [|q s]; [done|]. case_match; [|done].
    cbn [String.length] in *.
    eapply parsed_bind_shorter; [eapply shorter_mono; [apply scan_string_shorter|cbn; lia]|].
    intros k r Hr. cbn in Hr. pose proof (Hws r) as Hr'.
    destruct (skip_ws r) as [|c r']; [done|]. cbn in Hr'. case_match; [|done].
    pose proof (Hws r'). eapply parsed_bind_shorter.
    + eapply shorter_mono; [apply IHv|cbn]; lia.
    + intros v r2 Hr2. cbn in Hr2. pose proof (Hws r2). destruct (skip_ws r2) as [|c2 r3]; [done|].
      cbn in *. repeat case_match; try done; [cbn; lia|]. pose proof (Hws r3).
      eapply parsed_bind_shorter.
      * eapply shorter_mono; [apply IHm|cbn]; lia.
      * intros; cbn in *; lia.
Qed.

(** The recursion limit is never what stops [loads] in this model. *)
Lemma loads_with_error_class h s e : loads_with h s = Err e -> exn_class e = ValueError.
Proof.
  unfold loads_with. destruct (scan_value _ _ _) eqn:E.
  - unfold raise. destruct (skip_ws rest); by intros [= <-].
  - unfold raise. by intros [= <-].
  - exfalso. pose proof (proj1 (scan_fuel h (json_fuel s) (skip_ws s))) as H.
    rewrite E in H. apply H. pose proof (skip_ws_length s). unfold json_fuel. lia.
Qed.

Lemma loads_error_class s e : loads s = Err e -> exn_class e = ValueError.
Proof. apply loads_with_error_class. Qed.

(** ** Encodings are printable ASCII on one line *)

Definition printable (c : ascii) : bool := (32 <=? code c) && (code c <=? 126).
Definition printable_str (s : string) : Prop := str_forallb printable s = true.

Lemma printable_app s t : printable_str s -> printable_str t -> printable_str (s +:+ t).
Proof. unfold printable_str. rewrite str_forallb_app. by intros -> ->. Qed.

Lemma printable_join sep l :
  printable_str sep -> Forall printable_str l -> printable_str (join sep l).
Proof.
  intros Hs. induction 1 as [|x [|y l] Hx Hl IH]; [done|done|].
  rewrite join_cons. auto using printable_app.
Qed.

Lemma printable_escape s : printable_str (escape s).
Proof.
  induction s as [|c s IH]; [done|]. cbn. apply printable_app; [|done].
  by destruct c as [[] [] [] [] [] [] [] []].
Qed.

Lemma printable_quote s : printable_str (quote s).
Proof.
  unfold quote. change (printable_str (String dquote "" +:+ (escape s +:+ String dquote ""))).
  apply printable_app; [done|]. apply printable_app; [apply printable_escape|done].
Qed.

Lemma printable_str_of_Z z : printable_str (str_of_Z z).
Proof.
  assert (forall d, printable_str (NilEmpty.string_of_uint d)) as Hd.
  { induction d; done. }
  assert (forall d, printable_str (NilZero.string_of_uint d)) as Hz.
  { intros d. destruct d; done || apply Hd. }
  unfold str_of_Z. destruct z; cbn; [done|apply Hz|apply Hz].
Qed.

Lemma dumps_printable j : printable_str (dumps j).
Proof.
  induction j as [|[]|z|s|l IH|kvs IH] using json_nested_ind; try done.
  - apply printable_str_of_Z.
  - apply printable_quote.
  - cbn [dumps]. apply printable_app; [done|]. apply printable_app; [|done].
    apply printable_join; [done|]. by apply Forall_fmap.
  - cbn [dumps]. apply printable_app; [done|]. apply printable_app; [|done].
    apply printable_join; [done|]. apply Forall_fmap.
    rewrite merge_sort_Permutation. apply Forall_fmap, (Forall_impl _ _ _ IH).
    intros [k j] Hj. cbn in *. apply printable_app; [apply printable_quote|].
    exact Hj.
Qed.
