(* ===== verification/Sha256.v ===== *)
(** [hashlib.sha256] and [hmac.new(key, msg, hashlib.sha256)] of the standard library,
    executable, so that tokens, digests and fingerprints of the model are the ones the
    runtime computes.  Words are [N] below [2^32] with the wrap-around written out; the
    round constants are computed from their definition (the fractional bits of the
    square and cube roots of the first primes).  The [Example]s check the published test
    vectors. *)

From stdpp Require Import base list strings.
From Stdlib Require Import NArith Ascii.
From S2P Require Import Prelude PyText.

Open Scope N_scope.

Abbreviation byte_string := (list N).

(** [s.encode("utf-8")] for code points below 256. *)
Fixpoint utf8 (s : string) : byte_string :=
  match s with
  | "" => []
  | String c s' =>
      let n := N_of_ascii c in
      if n <? 128 then n :: utf8 s' else (192 + n / 64) :: (128 + n mod 64) :: utf8 s'
  end.

(** [data.decode("utf-8")], for code points below U+0100 (the range of [string]). *)
Fixpoint utf8_decode (bytes : byte_string) : option string :=
  match bytes with
  | [] => Some ""
  | b :: rest =>
      if (b <? 128)%N then String (ascii_of_N b) <$> utf8_decode rest
      else match rest with
      | c :: rest' =>
          if ((194 <=? b) && (b <=? 195) && (128 <=? c) && (c <=? 191))%N
          then String (ascii_of_N (64 * (b - 192) + (c - 128))) <$> utf8_decode rest'
          else None
      | [] => None
      end
  end.

Lemma utf8_decode_char c s : utf8_decode (utf8 (String c s)) = String c <$> utf8_decode (utf8 s).
Proof. by destruct c as [[] [] [] [] [] [] [] []]. Qed.

Lemma utf8_decode_utf8 s : utf8_decode (utf8 s) = Some s.
Proof. induction s as [|c s IH]; [done|]. by rewrite utf8_decode_char, IH. Qed.

(** ** 32-bit words *)

Definition mask32 : N := 4294967295.
Definition add32 (x y : N) : N := N.land (x + y) mask32.
Definition rotr (n x : N) : N :=
  N.lor (N.shiftr x n) (N.land (N.shiftl x (32 - n)) mask32).
Definition not32 (x : N) : N := N.lxor x mask32.

Definition choose_bits (e f g : N) : N := N.lxor (N.land e f) (N.land (not32 e) g).
Definition majority (a b c : N) : N :=
  N.lxor (N.lxor (N.land a b) (N.land a c)) (N.land b c).
Definition big_sigma (i j k x : N) : N := N.lxor (N.lxor (rotr i x) (rotr j x)) (rotr k x).
Definition small_sigma (i j k x : N) : N :=
  N.lxor (N.lxor (rotr i x) (rotr j x)) (N.shiftr x k).

(** ** Constants *)

Definition is_prime (n : N) : bool :=
  forallb (fun d => negb (n mod (N.of_nat d) =? 0)) (seq 2 (N.to_nat n - 2)).
Definition primes (bound : nat) : list N :=
  List.filter is_prime (N.of_nat <$> seq 2 bound).

(** The integer cube root, by fixing one bit after the other from [bit] down. *)
Fixpoint cube_root_from (bits : nat) (acc n : N) : N :=
  match bits with
  | O => acc
  | S b =>
      let t := acc + N.shiftl 1 (N.of_nat b) in
      cube_root_from b (if t * t * t <=? n then t else acc) n
  end.
Definition cube_root (n : N) : N := cube_root_from 40 0 n.

Definition round_constants : list N := Eval vm_compute in
  ((fun p => N.land (cube_root (N.shiftl p 96)) mask32) <$> take 64 (primes 311)).
Definition initial_hash : list N := Eval vm_compute in
  ((fun p => N.land (N.sqrt (N.shiftl p 64)) mask32) <$> take 8 (primes 20)).

(** ** Padding and blocks *)

Definition be_bytes (k : nat) (n : N) : byte_string :=
  (fun i => N.land (N.shiftr n (8 * N.of_nat i)) 255) <$> reverse (seq 0 k).

Definition pad (msg : byte_string) : byte_string :=
  let len := length msg in
  let zeros := Nat.modulo (119 - Nat.modulo len 64) 64 in
  msg ++ [128] ++ replicate zeros 0 ++ be_bytes 8 (8 * N.of_nat len).

Fixpoint words_of_bytes (bs : byte_string) : list N :=
  match bs with
  | a :: b :: c :: d :: rest =>
      N.lor (N.shiftl a 24) (N.lor (N.shiftl b 16) (N.lor (N.shiftl c 8) d))
        :: words_of_bytes rest
  | _ => []
  end.

(** ** Compression *)

Record hash_state := HashState { ha : N; hb : N; hc : N; hd : N; he : N; hf : N; hg : N; hh : N }.

Definition round_step (s : hash_state) (k w : N) : hash_state :=
  let t1 := add32 (hh s) (add32 (big_sigma 6 11 25 (he s))
              (add32 (choose_bits (he s) (hf s) (hg s)) (add32 k w))) in
  let t2 := add32 (big_sigma 2 13 22 (ha s)) (majority (ha s) (hb s) (hc s)) in
  HashState (add32 t1 t2) (ha s) (hb s) (hc s) (add32 (hd s) t1) (he s) (hf s) (hg s).

(** The schedule is a sliding window of sixteen words. *)
Definition next_word (w : list N) : N :=
  add32 (small_sigma 17 19 10 (nth 14 w 0))
    (add32 (nth 9 w 0) (add32 (small_sigma 7 18 3 (nth 1 w 0)) (nth 0 w 0))).

Fixpoint rounds (ks : list N) (w : list N) (s : hash_state) : hash_state :=
  match ks with
  | [] => s
  | k :: ks' => rounds ks' (tail w ++ [next_word w]) (round_step s k (nth 0 w 0))
  end.

Definition state_add (s t : hash_state) : hash_state :=
  HashState (add32 (ha s) (ha t)) (add32 (hb s) (hb t)) (add32 (hc s) (hc t))
    (add32 (hd s) (hd t)) (add32 (he s) (he t)) (add32 (hf s) (hf t))
    (add32 (hg s) (hg t)) (add32 (hh s) (hh t)).

Definition compress (s : hash_state) (block : list N) : hash_state :=
  state_add s (rounds round_constants block s).

Fixpoint compress_all (blocks : nat) (ws : list N) (s : hash_state) : hash_state :=
  match blocks with
  | O => s
  | S n => compress_all n (drop 16 ws) (compress s (take 16 ws))
  end.

Definition start_state : hash_state :=
  let h i := nth i initial_hash 0 in
  HashState (h 0%nat) (h 1%nat) (h 2%nat) (h 3%nat) (h 4%nat) (h 5%nat) (h 6%nat) (h 7%nat).

Definition state_words (s : hash_state) : list N :=
  [ha s; hb s; hc s; hd s; he s; hf s; hg s; hh s].

Definition sha256_words (msg : byte_string) : list N :=
  let ws := words_of_bytes (pad msg) in
  state_words (compress_all (Nat.div (length ws) 16) ws start_state).

(** [sha256(msg).digest()] *)
Definition sha256 (msg : byte_string) : byte_string := sha256_words msg ≫= be_bytes 4.

(** [hexdigest()] of the words of a digest. *)
Definition hex_nibble (w : N) (i : nat) : ascii :=
  hex_digit (N.to_nat (N.land (N.shiftr w (4 * N.of_nat i)) 15)).

Definition hex_word (w : N) (rest : string) : string :=
  foldr (fun i s => String (hex_nibble w i) s) rest (reverse (seq 0 8)).

Definition hex_words (ws : list N) : string := foldr hex_word "" ws.

Definition sha256_hex (msg : byte_string) : string := hex_words (sha256_words msg).

(** ** HMAC *)

Definition hmac_key (key : byte_string) : byte_string :=
  let k := if Nat.ltb 64 (length key) then sha256 key else key in
  k ++ replicate (64 - length k) 0.

Definition hmac_words (key msg : byte_string) : list N :=
  let k := hmac_key key in
  sha256_words ((N.lxor 92 <$> k) ++ sha256 ((N.lxor 54 <$> k) ++ msg)).

(** [hmac.new(key, msg, hashlib.sha256).hexdigest()] *)
Definition hmac_sha256_hex (key msg : byte_string) : string := hex_words (hmac_words key msg).

Close Scope N_scope.

#[global] Arguments hmac_sha256_hex : simpl never.
#[global] Arguments sha256_hex : simpl never.
#[global] Arguments hex_words : simpl never.

(** ** Test vectors *)

Example sha256_abc :
  sha256_hex (utf8 "abc") = "ba7816bf8f01cfea414140de5dae2223b00361a396177a9cb410ff61f20015ad".
Proof. vm_compute. reflexivity. Qed.

Example sha256_two_blocks :
  sha256_hex (utf8 "abcdbcdecdefdefgefghfghighijhijkijkljklmklmnlmnomnopnopq")
  = "248d6a61d20638b8e5c026930c3e6039a33ce45964ff2167f6ecedd419db06c1".
Proof. vm_compute. reflexivity. Qed.

Example hmac_jefe :
  hmac_sha256_hex (utf8 "Jefe") (utf8 "what do ya want for nothing?")
  = "5bdcc146bf60754e6a042426089575c75a003f089d2739839dec58b964ec3843".
Proof. vm_compute. reflexivity. Qed.

(** ** Digests are 64 ASCII characters *)

Lemma hex_digit_ascii n : n < 16 -> is_ascii_char (hex_digit n) = true.
Proof. intros Hn. do 16 (destruct n as [|n]; [done|]). lia. Qed.

Lemma hex_nibble_ascii w i : is_ascii_char (hex_nibble w i) = true.
Proof.
  apply hex_digit_ascii. change 15%N with (N.ones 4). rewrite N.land_ones.
  pose proof (N.mod_lt (N.shiftr w (4 * N.of_nat i)) (2 ^ 4) ltac:(done)). lia.
Qed.

Lemma hex_word_ascii w rest :
  str_forallb is_ascii_char rest = true -> str_forallb is_ascii_char (hex_word w rest) = true.
Proof.
  intros Hr. unfold hex_word. induction (reverse (seq 0 8)) as [|i l IH]; [done|].
  cbn [foldr str_forallb]. by rewrite hex_nibble_ascii.
Qed.

Lemma hex_words_ascii ws : str_forallb is_ascii_char (hex_words ws) = true.
Proof. induction ws; [done|]. by apply hex_word_ascii. Qed.

Lemma hex_words_length ws : String.length (hex_words ws) = 8 * length ws.
Proof.
  unfold hex_words. induction ws as [|w ws IH]; [done|]. cbn. rewrite IH. lia.
Qed.

Lemma hmac_sha256_hex_ascii key msg :
  str_forallb is_ascii_char (hmac_sha256_hex key msg) = true.
Proof. apply hex_words_ascii. Qed.

Lemma sha256_hex_length msg : String.length (sha256_hex msg) = 64.
Proof. unfold sha256_hex. by rewrite hex_words_length. Qed.

(** Hexadecimal text is plain: normalisation does not change it. *)
Lemma hex_digit_plain n : n < 16 -> plain_char (hex_digit n) = true.
Proof. intros Hn. do 16 (destruct n as [|n]; [done|]). lia. Qed.

Lemma hex_nibble_plain w i : plain_char (hex_nibble w i) = true.
Proof.
  apply hex_digit_plain. change 15%N with (N.ones 4). rewrite N.land_ones.
  pose proof (N.mod_lt (N.shiftr w (4 * N.of_nat i)) (2 ^ 4) ltac:(done)). lia.
Qed.

Lemma hex_word_plain w rest :
  str_forallb plain_char rest = true -> str_forallb plain_char (hex_word w rest) = true.
Proof.
  intros Hr. unfold hex_word. induction (reverse (seq 0 8)) as [|i l IH]; [done|].
  cbn [foldr str_forallb]. by rewrite hex_nibble_plain.
Qed.

Lemma hex_words_plain ws : str_forallb plain_char (hex_words ws) = true.
Proof. induction ws; [done|]. by apply hex_word_plain. Qed.

Lemma sha256_hex_plain msg : str_forallb plain_char (sha256_hex msg) = true.
Proof. apply hex_words_plain. Qed.
