(* ===== verification/ExecutionContract.v ===== *)
(** [services/execution_contract.py]: typed execution rules of approved executors.
    [ParameterRule], [ExecutionContract] with their [normalized] forms, [to_dict], and
    [validate_parameters], which checks the caller's parameters against the rules. *)

From stdpp Require Import base gmap sets list strings sorting.
From Stdlib Require Import ZArith.
From S2P Require Import Prelude PyText PyVal.

Record ParameterRule := mkParameterRule {
  rule_name : string;
  value_type : string;
  required : bool
}.

Record ExecutionContract := mkExecutionContract {
  contract_id : string;
  parameters : list ParameterRule;
  allow_extra_parameters : bool;
  idempotency : string;
  max_retries : Z;
  cancellable : bool;
  exclusive_resources : list string;
  expected_completion_state : string;
  required_receipts : list string
}.

(** The dataclass defaults. *)
Definition default_contract : ExecutionContract :=
  mkExecutionContract "runtime.default.v1" [] true "unknown" 0 false [] "completed"
    ["EXECUTION_STARTED"; "EXECUTION_COMPLETED"].

(** [_ALLOWED_PARAMETER_TYPES]: the [isinstance] test of each type name. *)
Definition allowed_parameter_type (vt : string) : option (pyval -> bool) :=
  if decide (vt = "any") then Some (fun _ => true)
  else if decide (vt = "bool") then Some is_bool
  else if decide (vt = "float") then Some (fun v => is_int v || is_float v)
  else if decide (vt = "int") then Some is_int
  else if decide (vt = "mapping") then Some is_mapping
  else if decide (vt = "string") then Some is_str
  else None.

Definition allowed_idempotency : list string := ["idempotent"; "non_idempotent"; "unknown"].
Definition allowed_completion_states : list string := ["completed"; "accepted"; "observed"].
Definition allowed_receipts : list string :=
  ["EXECUTION_STARTED"; "EXECUTION_COMPLETED"; "EXECUTION_FAILED"; "EXECUTION_DENIED"].

(** [_receipt_name] *)
Definition receipt_name (s : string) : string := join "_" (split (upper (strip s))).

(** [ParameterRule.normalized] *)
Definition normalized_rule (r : ParameterRule) : outcome ParameterRule :=
  let name := text (rule_name r) in
  let vt := text (value_type r) in
  if negb (is_nonempty name) then raise ValueError "execution parameter name is required"
  else match allowed_parameter_type vt with
  | None => raise ValueError ("unsupported execution parameter type: " +:+ vt)
  | Some _ => Ok (mkParameterRule name vt (required r))
  end.

(** [ExecutionContract.normalized] *)
Definition normalized (c : ExecutionContract) : outcome ExecutionContract :=
  let cid := text (contract_id c) in
  if negb (is_nonempty cid) then raise ValueError "execution contract identity is required" else
  let? rules := mapM_outcome normalized_rule (parameters c) in
  if negb (bool_decide (NoDup (rule_name <$> rules)))
  then raise ValueError "execution parameter rules must be unique" else
  let idem := text (idempotency c) in
  if negb (bool_decide (idem ∈ allowed_idempotency))
  then raise ValueError ("unsupported execution idempotency: " +:+ idem) else
  if negb ((0 <=? max_retries c)%Z && (max_retries c <=? 10)%Z)
  then raise ValueError "execution max_retries must be between 0 and 10" else
  if bool_decide (idem = "non_idempotent") && negb (max_retries c =? 0)%Z
  then raise ValueError "non-idempotent execution contracts cannot retry" else
  let resources := sorted_set (text <$> exclusive_resources c) in
  if negb (forallb is_nonempty resources)
  then raise ValueError "exclusive resource identities must be non-empty" else
  let completion := text (expected_completion_state c) in
  if negb (bool_decide (completion ∈ allowed_completion_states))
  then raise ValueError ("unsupported expected completion state: " +:+ completion) else
  let receipts := receipt_name <$> required_receipts c in
  if bool_decide (receipts = []) || negb (bool_decide (NoDup receipts))
  then raise ValueError "required execution receipts must be non-empty and unique" else
  if negb (forallb (fun r => bool_decide (r ∈ allowed_receipts)) receipts)
  then raise ValueError "execution contract contains an unsupported receipt" else
  if negb (bool_decide ("EXECUTION_STARTED" ∈ receipts))
  then raise ValueError "execution contract must require EXECUTION_STARTED" else
  if negb (bool_decide ("EXECUTION_COMPLETED" ∈ receipts))
  then raise ValueError "execution contract must require EXECUTION_COMPLETED" else
  Ok (mkExecutionContract cid rules (allow_extra_parameters c) idem (max_retries c)
        (cancellable c) resources completion receipts).

(** [ExecutionContract.to_dict] *)
Definition rule_to_dict (r : ParameterRule) : pyval :=
  PDict [(PStr "name", PStr (rule_name r)); (PStr "value_type", PStr (value_type r));
         (PStr "required", PBool (required r))].

Definition contract_to_dict (c : ExecutionContract) : pyval :=
  PDict [(PStr "contract_id", PStr (contract_id c));
         (PStr "parameters", PList (rule_to_dict <$> parameters c));
         (PStr "allow_extra_parameters", PBool (allow_extra_parameters c));
         (PStr "idempotency", PStr (idempotency c));
         (PStr "max_retries", PInt (max_retries c));
         (PStr "cancellable", PBool (cancellable c));
         (PStr "exclusive_resources", strs (exclusive_resources c));
         (PStr "expected_completion_state", PStr (expected_completion_state c));
         (PStr "required_receipts", strs (required_receipts c))].

(** ** [validate_parameters] *)

(** [{_text(key): value for key, value in parameters.items()}] *)
Definition supplied_parameters (ps : items) : gmap string pyval :=
  dict_comp ((fun kv => (text_val kv.1, kv.2)) <$> ps).

Definition missing_error (name : string) : string :=
  "required execution parameter '" +:+ name +:+ "' is missing".
Definition type_error (name vt : string) : string :=
  "execution parameter '" +:+ name +:+ "' must be " +:+ vt.
Definition extra_error (name : string) : string :=
  "execution parameter '" +:+ name +:+ "' is not allowed".

(** One iteration of the loop over [contract.parameters]. *)
Definition check_rule (supplied : gmap string pyval) (r : ParameterRule)
    : outcome (list string) :=
  let name := rule_name r in
  let vt := value_type r in
  match supplied !! name with
  | None => if required r then Ok [missing_error name] else Ok []
  | Some value =>
      if decide (vt = "any") then Ok [] else
      match allowed_parameter_type vt with
      | None => Err (Exn KeyError (repr vt))
      | Some isinstance =>
          if (bool_decide (vt = "int") || bool_decide (vt = "float")) && is_bool value
          then Ok [type_error name vt]
          else if negb (isinstance value) then Ok [type_error name vt] else Ok []
      end
  end.

Definition validate_parameters (c : ExecutionContract) (ps : pyval) : outcome (list string) :=
  match ps with
  | PDict ps =>
      let supplied := supplied_parameters ps in
      let blank :=
        if bool_decide (is_Some (supplied !! ""))
        then ["execution parameter names must be non-empty strings"] else [] in
      let? checks := mapM_outcome (check_rule supplied) (parameters c) in
      let extras :=
        if allow_extra_parameters c then [] else
        extra_error <$> sorted_strings
          (elements (dom supplied ∖ list_to_set (rule_name <$> parameters c))) in
      Ok (blank ++ concat checks ++ extras)
  | _ => Ok ["execution parameters must be a mapping"]
  end.

(** ** Normalisation *)

Record wf_rule (r : ParameterRule) : Prop := {
  wf_rule_name : rule_name r <> "" /\ text (rule_name r) = rule_name r;
  wf_rule_type : text (value_type r) = value_type r /\
                 is_Some (allowed_parameter_type (value_type r))
}.

Record wf_contract (c : ExecutionContract) : Prop := {
  wf_id : contract_id c <> "" /\ text (contract_id c) = contract_id c;
  wf_rules : Forall wf_rule (parameters c);
  wf_rules_unique : NoDup (rule_name <$> parameters c);
  wf_idempotency : idempotency c ∈ allowed_idempotency;
  wf_retries : (0 <= max_retries c <= 10)%Z;
  wf_no_retry : idempotency c = "non_idempotent" -> max_retries c = 0%Z;
  wf_resources : Forall (fun r => r <> "" /\ text r = r) (exclusive_resources c);
  wf_resources_set : sorted_set (exclusive_resources c) = exclusive_resources c;
  wf_completion : expected_completion_state c ∈ allowed_completion_states;
  wf_receipts_unique : NoDup (required_receipts c);
  wf_receipts : Forall (fun r => r ∈ allowed_receipts) (required_receipts c);
  wf_started : "EXECUTION_STARTED" ∈ required_receipts c;
  wf_completed : "EXECUTION_COMPLETED" ∈ required_receipts c
}.

Lemma is_nonempty_spec s : is_nonempty s = true <-> s <> "".
Proof. by destruct s. Qed.

Lemma normalized_rule_wf r r' : normalized_rule r = Ok r' -> wf_rule r'.
Proof.
  unfold normalized_rule. intros H. destruct (is_nonempty (text (rule_name r))) eqn:Hn; [|done].
  cbn in H. destruct (allowed_parameter_type _) eqn:Ht; [|done]. simplify_eq.
  apply is_nonempty_spec in Hn. split; cbn; rewrite text_idem; eauto.
Qed.

Lemma normalized_rule_id r : wf_rule r -> normalized_rule r = Ok r.
Proof.
  intros [[Hn Hi] [Ht [f Hf]]]. unfold normalized_rule. rewrite Hi, Ht, Hf.
  apply is_nonempty_spec in Hn. rewrite Hn. by destruct r.
Qed.

Lemma allowed_receipt_name r : r ∈ allowed_receipts -> receipt_name r = r.
Proof. unfold allowed_receipts. rewrite !elem_of_cons, elem_of_nil. naive_solver. Qed.

Lemma allowed_text l s :
  s ∈ l -> Forall (fun t => text t = t) l -> text s = s.
Proof. rewrite Forall_forall. auto. Qed.

Lemma allowed_idempotency_text s : s ∈ allowed_idempotency -> text s = s.
Proof. intros. eapply allowed_text; [done|]. by repeat constructor. Qed.
Lemma allowed_completion_text s : s ∈ allowed_completion_states -> text s = s.
Proof. intros. eapply allowed_text; [done|]. by repeat constructor. Qed.

Lemma normalized_ok_wf c c' : normalized c = Ok c' -> wf_contract c'.
Proof.
  unfold normalized. intros H. guards H. simplify_eq.
  split; cbn; rewrite ?text_idem; try done.
  - by rewrite is_nonempty_spec in G.
  - apply mapM_outcome_ok in G0. clear -G0.
    induction G0; constructor; eauto using normalized_rule_wf.
  - naive_solver.
  - rewrite forallb_Forall in G5. rewrite Forall_forall in *.
    intros r Hr. split; [by apply is_nonempty_spec, G5|].
    apply elem_of_sorted_set, list_elem_of_fmap in Hr as (r0 & -> & _). apply text_idem.
  - apply sorted_set_idem.
  - by destruct G7.
  - rewrite forallb_forall in G8. apply Forall_forall. intros r Hr.
    by apply list_elem_of_In, G8, bool_decide_eq_true in Hr.
Qed.

Lemma normalized_wf_id c : wf_contract c -> normalized c = Ok c.
Proof.
  intros [[Hid Hidt] Hr Hu Hi Hret Hno Hres Hset Hc Hru Hrec Hs Hco].
  unfold normalized. rewrite Hidt. apply is_nonempty_spec in Hid. rewrite Hid.
  assert (mapM_outcome normalized_rule (parameters c) = Ok (parameters c)) as ->.
  { apply mapM_outcome_ok. clear -Hr. induction Hr; constructor; auto using normalized_rule_id. }
  assert (text <$> exclusive_resources c = exclusive_resources c) as Hrt.
  { apply fmap_fixed_in. rewrite Forall_forall in Hres. naive_solver. }
  assert (receipt_name <$> required_receipts c = required_receipts c) as ->.
  { apply fmap_fixed_in. rewrite Forall_forall in Hrec. auto using allowed_receipt_name. }
  rewrite (allowed_idempotency_text _ Hi), (allowed_completion_text _ Hc), Hrt, Hset.
  cbn [negb outcome_bind].
  repeat (pass_guard; [py_bools; try naive_solver lia|]).
  - destruct (decide (idempotency c = "non_idempotent")); [right; auto|by left].
  - apply forallb_Forall, (Forall_impl _ _ _ Hres). intros r [? _]. by apply is_nonempty_spec.
  - split; [|done]. intros Hn. rewrite Hn in Hs. by apply elem_of_nil in Hs.
  - apply forallb_Forall, (Forall_impl _ _ _ Hrec). intros r Hr'. by apply bool_decide_eq_true.
  - by destruct c.
Qed.

(** ** Accepted parameters *)

(** The Python type a rule promises: [bool] does not count as a number here. *)
Definition has_type (vt : string) (v : pyval) : bool :=
  match allowed_parameter_type vt with
  | None => false
  | Some isinstance =>
      isinstance v && negb ((bool_decide (vt = "int") || bool_decide (vt = "float")) && is_bool v)
  end.

(** What an empty error list means, read off the parameters under their normalised names. *)
Record accepts (c : ExecutionContract) (supplied : gmap string pyval) : Prop := {
  accepts_names : supplied !! "" = None;
  accepts_required : forall r, r ∈ parameters c -> required r = true ->
    is_Some (supplied !! rule_name r);
  accepts_types : forall r v, r ∈ parameters c -> supplied !! rule_name r = Some v ->
    has_type (value_type r) v = true;
  accepts_extras : allow_extra_parameters c = false ->
    forall k, is_Some (supplied !! k) -> k ∈ rule_name <$> parameters c
}.

Lemma check_rule_total supplied r : wf_rule r -> exists l, check_rule supplied r = Ok l.
Proof.
  intros [_ [_ [f Hf]]]. unfold check_rule. rewrite Hf. repeat case_match; eauto.
Qed.

Lemma check_rule_nil supplied r :
  wf_rule r ->
  check_rule supplied r = Ok [] <->
  (required r = true -> is_Some (supplied !! rule_name r)) /\
  (forall v, supplied !! rule_name r = Some v -> has_type (value_type r) v = true).
Proof.
  intros [_ [_ [f Hf]]]. unfold check_rule, has_type. rewrite Hf.
  destruct (supplied !! rule_name r) as [v|].
  - destruct (decide (value_type r = "any")) as [Hany|Hany].
    + rewrite Hany in *. injection Hf as <-. cbn. naive_solver.
    + assert (forall H : f v && negb ((bool_decide (value_type r = "int")
          || bool_decide (value_type r = "float")) && is_bool v) = true,
          (forall w, Some v = Some w -> f w && negb ((bool_decide (value_type r = "int")
          || bool_decide (value_type r = "float")) && is_bool w) = true)) as Hw by naive_solver.
      destruct (_ && is_bool v) eqn:E1, (f v) eqn:E2; cbn; split; try done.
      all: try (intros [_ H]; specialize (H v eq_refl); by rewrite E2, ?E1 in H).
      intros _. split; [done|]. by apply Hw.
  - destruct (required r); split; try naive_solver.
Qed.

Lemma concat_nil_Forall {A} (l : list (list A)) : concat l = [] <-> Forall (fun x => x = []) l.
Proof.
  induction l as [|x l IH]; [done|]. cbn. rewrite Forall_cons, <- IH. split.
  - intros [? ?]%app_eq_nil. done.
  - by intros [-> ->].
Qed.

(** On a normalised contract the check never raises. *)
Lemma validate_parameters_total c ps :
  wf_contract c -> exists l, validate_parameters c ps = Ok l.
Proof.
  intros Hc. destruct ps; cbn; eauto.
  destruct (mapM_outcome_total (check_rule (supplied_parameters kvs)) (parameters c)) as [l Hl].
  - intros r Hr. apply check_rule_total. by eapply Forall_forall in Hr; [|apply (wf_rules c Hc)].
  - rewrite Hl. cbn. eauto.
Qed.

(** An empty error list is exactly acceptance. *)
Lemma validate_parameters_accepts c ps :
  wf_contract c ->
  validate_parameters c (PDict ps) = Ok [] <-> accepts c (supplied_parameters ps).
Proof.
  intros Hc. pose proof (wf_rules c Hc) as Hr. rewrite Forall_forall in Hr. cbn.
  set (sup := supplied_parameters ps).
  destruct (mapM_outcome_total (check_rule sup) (parameters c)) as [l Hl].
  { intros r ?. apply check_rule_total; auto. }
  rewrite Hl. cbn. apply mapM_outcome_ok in Hl.
  assert (concat l = [] <-> Forall (fun r => check_rule sup r = Ok []) (parameters c)) as Hconcat.
  { rewrite concat_nil_Forall. clear -Hl. induction Hl as [|r x rs xs Hx _ IH]; [done|].
    rewrite !Forall_cons, IH, Hx. naive_solver. }
  split.
  - intros [= H]. apply app_eq_nil in H as [Hb H]. apply app_eq_nil in H as [Hcs He].
    apply Hconcat in Hcs. rewrite Forall_forall in Hcs. split.
    + case_bool_decide; [done|]. by apply eq_None_not_Some.
    + intros r Hin. by apply check_rule_nil; auto.
    + intros r v Hin. apply check_rule_nil; auto.
    + intros Hx k Hk. rewrite Hx in He. apply fmap_nil_inv in He.
      destruct (decide (k ∈ rule_name <$> parameters c)) as [|Hn]; [done|exfalso].
      apply (not_elem_of_nil k). rewrite <- He, elem_of_sorted_strings, elem_of_elements.
      rewrite elem_of_difference, elem_of_dom, elem_of_list_to_set. done.
  - intros [Hn Hq Ht Hx]. f_equal. rewrite bool_decide_false by (rewrite Hn; by intros [? ?]).
    cbn. assert (concat l = []) as ->.
    { apply Hconcat, Forall_forall. intros r Hin. apply check_rule_nil; auto. }
    cbn. destruct (allow_extra_parameters c); [done|].
    assert (dom sup ∖ list_to_set (rule_name <$> parameters c) = (∅ : gset string)) as ->; [|done].
    apply set_eq. intros k. rewrite elem_of_difference, elem_of_dom, elem_of_list_to_set.
    split; [|set_solver]. intros [Hk Hnot]. by destruct Hnot; auto.
Qed.
