(* ===== verification/Court.v ===== *)
(** The Court's vocabulary: [services/court_intent.py] (the strict intent schema),
    [services/court_reasons.py] (machine-readable reasons of decision states) and
    [services/court_authority.py] (precedence among authority identities). *)

From stdpp Require Import base gmap sets list strings sorting.
From Stdlib Require Import ZArith.
From S2P Require Import Prelude PyText PyVal.

(** ** [court_intent.py] *)

Module CourtIntent.

Record Intent := mkIntent {
  intent_id : string;
  action : string;
  capability : string;
  target : string;
  profile_id : string;
  session_id : string;
  body_id : string;
  surface : string;
  requested_at : Z
}.

(** [normalize] *)
Definition normalize (s : string) : string := lower (join " " (split (strip s))).

(** The fields [validate_intent] loops over, with their names. *)
Definition intent_fields (i : Intent) : list (string * string) :=
  [("intent_id", intent_id i); ("action", action i); ("capability", capability i);
   ("target", target i); ("profile_id", profile_id i); ("session_id", session_id i);
   ("body_id", body_id i); ("surface", surface i)].

Definition field_errors (f : string * string) : list string :=
  let (field, value) := f in
  if is_blank value then [field +:+ " must be a non-empty string"]
  else if bool_decide (value <> normalize value)
  then [field +:+ " must already be normalized"] else [].

Definition validate_intent (i : Intent) : list string :=
  (intent_fields i ≫= field_errors) ++
  (if (requested_at i <? 0)%Z then ["requested_at must be a non-negative integer"] else []).

Lemma normalize_text s : normalize s = text s.
Proof. done. Qed.

(** A field passes exactly when it is a non-empty normal form. *)
Lemma field_errors_nil f v : field_errors (f, v) = [] <-> v <> "" /\ text v = v.
Proof.
  cbn. destruct (is_blank v) eqn:Hb.
  - split; [done|]. apply is_blank_text in Hb. intros [Hv Ht]. congruence.
  - assert (text v <> "") by (intros H%is_blank_text; congruence).
    case_bool_decide as Hn; rewrite normalize_text in Hn; split; naive_solver congruence.
Qed.

Definition wf_intent (i : Intent) : Prop :=
  Forall (fun f => f.2 <> "" /\ text f.2 = f.2) (intent_fields i) /\ (0 <= requested_at i)%Z.

Lemma validate_intent_nil i : validate_intent i = [] <-> wf_intent i.
Proof.
  unfold validate_intent, wf_intent. rewrite app_nil, bind_nil_iff.
  assert (Forall (fun f => field_errors f = []) (intent_fields i) <->
          Forall (fun f => f.2 <> "" /\ text f.2 = f.2) (intent_fields i)) as ->.
  { apply Forall_iff. intros [f v]. apply field_errors_nil. }
  destruct (Z.ltb_spec (requested_at i) 0); naive_solver lia.
Qed.

End CourtIntent.

(** ** [court_reasons.py] *)

Module CourtReasons.

Inductive CourtReasonCode : Set :=
| POLICY_MATCH | INVALID_INTENT | AUTHORIZATION_REQUIRED | AUTHORITY_CONFLICT
| AUTHORITY_UNKNOWN | CONTEXT_MISMATCH | CAPABILITY_NOT_PROPOSED | POLICY_DENIED
| TARGET_DENIED | RECEIPT_PERSISTENCE_FAILED.

#[export] Instance CourtReasonCode_eq_dec : EqDecision CourtReasonCode.
Proof. solve_decision. Defined.

(** [CourtReasonCode.value] *)
Definition code_value (c : CourtReasonCode) : string :=
  match c with
  | POLICY_MATCH => "POLICY_MATCH"
  | INVALID_INTENT => "INVALID_INTENT"
  | AUTHORIZATION_REQUIRED => "AUTHORIZATION_REQUIRED"
  | AUTHORITY_CONFLICT => "AUTHORITY_CONFLICT"
  | AUTHORITY_UNKNOWN => "AUTHORITY_UNKNOWN"
  | CONTEXT_MISMATCH => "CONTEXT_MISMATCH"
  | CAPABILITY_NOT_PROPOSED => "CAPABILITY_NOT_PROPOSED"
  | POLICY_DENIED => "POLICY_DENIED"
  | TARGET_DENIED => "TARGET_DENIED"
  | RECEIPT_PERSISTENCE_FAILED => "RECEIPT_PERSISTENCE_FAILED"
  end.

Record CourtReason := mkCourtReason {
  reason_code : CourtReasonCode;
  summary : string;
  details : list string
}.

Definition reason_to_dict (r : CourtReason) : pyval :=
  PDict [(PStr "code", PStr (code_value (reason_code r)));
         (PStr "summary", PStr (summary r));
         (PStr "details", strs (details r))].

(** [_STATE_REASONS] *)
Definition state_reasons : list (string * (CourtReasonCode * string)) :=
  [("authorized",
     (POLICY_MATCH, "Active context and policy permitted the request."));
   ("invalid_intent",
     (INVALID_INTENT, "The intent failed schema or normalization checks."));
   ("invalid_capability_context",
     (AUTHORIZATION_REQUIRED,
      "The active capability context did not require Court authorization."));
   ("authority_conflict",
     (AUTHORITY_CONFLICT,
      "The active authority identity conflicted with the Court hierarchy."));
   ("authority_unknown",
     (AUTHORITY_UNKNOWN, "Court could not recognize a verified authority identity."));
   ("context_mismatch",
     (CONTEXT_MISMATCH,
      "The intent identity did not match the active capability context."));
   ("capability_not_proposed",
     (CAPABILITY_NOT_PROPOSED,
      "The requested capability was outside the active proposed context."));
   ("policy_denied",
     (POLICY_DENIED, "The active Court policy did not permit the requested capability."));
   ("target_denied",
     (TARGET_DENIED, "The active Court policy did not permit the requested target."));
   ("authorization_unreceipted",
     (RECEIPT_PERSISTENCE_FAILED,
      "Authorization was withheld because its receipt could not be persisted."))].

Fixpoint assoc {A} (l : list (string * A)) (k : string) : option A :=
  match l with
  | [] => None
  | (k', v) :: l' => if decide (k' = k) then Some v else assoc l' k
  end.

Definition reason_for_state (state : string) (ds : list string) : outcome CourtReason :=
  match assoc state_reasons state with
  | None => raise ValueError ("unregistered Court decision state: " +:+ state)
  | Some (c, s) => Ok (mkCourtReason c s (filter (fun d => is_blank d = false) ds))
  end.

End CourtReasons.

(** ** [court_authority.py] *)

Module CourtAuthority.

(** [_AUTHORITY_RANKS] *)
Definition authority_ranks : list (string * Z) :=
  [("emergency", 800%Z); ("medical", 700%Z); ("owner", 600%Z); ("service", 500%Z);
   ("guest", 400%Z); ("oem", 300%Z); ("remote", 200%Z); ("unknown", 0%Z)].

Definition registered (p : string) : bool := bool_decide (p ∈ authority_ranks.*1).

(** [_AUTHORITY_RANKS[p]] of a registered identity. *)
Definition rank_of (p : string) : Z := default 0%Z (CourtReasons.assoc authority_ranks p).

Record AuthorityResolution := mkAuthorityResolution {
  active_profile : string;
  candidates : list string;
  selected_profile : string;
  selected_rank : Z;
  valid : bool;
  res_state : option string;
  res_detail : option string
}.

Definition resolution_to_dict (r : AuthorityResolution) : pyval :=
  PDict [(PStr "active_profile", PStr (active_profile r));
         (PStr "candidates", strs (candidates r));
         (PStr "selected_profile", PStr (selected_profile r));
         (PStr "selected_rank", PInt (selected_rank r));
         (PStr "valid", PBool (valid r));
         (PStr "state", opt_str (res_state r));
         (PStr "detail", opt_str (res_detail r))].

Definition invalid (active : string) (cands : list string) (state detail : string)
    : AuthorityResolution :=
  mkAuthorityResolution active cands "unknown" 0 false (Some state) (Some detail).

(** [max(candidates, key=rank)]: the first candidate of the highest rank. *)
Fixpoint max_by_rank (best : string) (l : list string) : string :=
  match l with
  | [] => best
  | c :: l' => max_by_rank (if (rank_of best <? rank_of c)%Z then c else best) l'
  end.

(** The outcome once the candidates are known to be registered and distinct. *)
Definition select_authority (active : string) (c : string) (cs : list string)
    : AuthorityResolution :=
  let cands := c :: cs in
  let selected := max_by_rank c cs in
  let rank := rank_of selected in
  if bool_decide (selected = "unknown") then
    mkAuthorityResolution active cands selected rank false (Some "authority_unknown")
      (Some "unknown authority cannot authorize a Court request")
  else if bool_decide (active <> selected) then
    mkAuthorityResolution active cands selected rank false (Some "authority_conflict")
      (Some ("active authority '" +:+ active +:+
             "' does not match highest verified candidate '" +:+ selected +:+ "'"))
  else mkAuthorityResolution active cands selected rank true None None.

(** [resolve_authority].  The context is any object; [getattr] decides which of the two
    generations of fields it carries. *)
Definition resolve_authority (ctx : pyobj) : outcome AuthorityResolution :=
  let explicit := hasattr ctx "court_authority" in
  let active := text_val (getattr ctx
    (if explicit then "court_authority" else "authority_profile") PNone) in
  let label := if explicit then "court_authorities" else "authority_profiles" in
  let configured := getattr ctx label PNone in
  if negb (registered active) then
    Ok (invalid active [] "authority_unknown"
          "active Court authority is not registered in the Court hierarchy")
  else match configured with
  | PNone => Ok (select_authority active active [])
  | PStr _ =>
      Ok (invalid active [] "authority_conflict"
            (label +:+ " must be an ordered collection, not a string"))
  | _ =>
      let? values := iter_or_type_error configured in
      let cands := text_val <$> values in
      match cands with
      | [] => Ok (invalid active [] "authority_conflict"
                    "Court authority candidate set is empty")
      | c :: cs =>
          match filter (fun p => registered p = false) cands with
          | u :: _ => Ok (invalid active cands "authority_unknown"
                            ("Court authority candidate '" +:+ u +:+ "' is not registered"))
          | [] =>
              if negb (bool_decide (NoDup cands)) then
                Ok (invalid active cands "authority_conflict"
                      "Court authority candidate identities must be unique")
              else Ok (select_authority active c cs)
          end
      end
  end.

(** [authority_rank] *)
Definition authority_rank (profile : string) : outcome Z :=
  let normalized := text profile in
  if registered normalized then Ok (rank_of normalized)
  else raise ValueError ("unregistered authority profile: " +:+ profile).

Definition rank_ge (a b : string * Z) : Prop := (b.2 <= a.2)%Z.
#[export] Instance rank_ge_dec : RelDecision rank_ge.
Proof. intros a b. unfold rank_ge. apply _. Defined.

(** [hierarchy] *)
Definition hierarchy : list string := (merge_sort rank_ge authority_ranks).*1.

(** *** Facts *)

Lemma max_by_rank_spec l : forall best,
  max_by_rank best l ∈ best :: l /\
  (forall x, x ∈ best :: l -> (rank_of x <= rank_of (max_by_rank best l))%Z).
Proof.
  induction l as [|c l IH]; intros best; cbn [max_by_rank].
  - split; [left|]. intros x Hx%list_elem_of_singleton. by subst.
  - specialize (IH (if (rank_of best <? rank_of c)%Z then c else best)) as [Hin Hmax].
    destruct (Z.ltb_spec (rank_of best) (rank_of c)).
    + split; [by right|]. intros x [->|Hx]%elem_of_cons; [|by apply Hmax].
      specialize (Hmax c ltac:(left)). lia.
    + split; [apply elem_of_cons in Hin as [->|?]; [left|right; by right]|].
      intros x [->|[->|Hx]%elem_of_cons]%elem_of_cons.
      * apply Hmax. left.
      * specialize (Hmax best ltac:(left)). lia.
      * apply Hmax. by right.
Qed.

(** Registered identities have pairwise different ranks. *)
Lemma rank_of_inj p q :
  registered p = true -> registered q = true -> rank_of p = rank_of q -> p = q.
Proof.
  unfold registered. rewrite !bool_decide_eq_true. cbn.
  rewrite !elem_of_cons, !elem_of_nil. intros Hp Hq.
  destruct_or! Hp; destruct_or! Hq; subst; intros Hr; try done; by vm_compute in Hr.
Qed.

Lemma rank_of_unknown_least p : registered p = true -> (rank_of "unknown" <= rank_of p)%Z.
Proof.
  unfold registered. rewrite bool_decide_eq_true. cbn.
  rewrite !elem_of_cons, elem_of_nil. intros Hp. destruct_or! Hp; subst; vm_compute; done.
Qed.

Lemma select_authority_valid active c cs :
  valid (select_authority active c cs) = true <->
  active = max_by_rank c cs /\ active <> "unknown".
Proof.
  unfold select_authority. repeat case_bool_decide; cbn; split; naive_solver congruence.
Qed.

(** The candidates the context declares, when it declares them as a collection. *)
Definition declared_candidates (ctx : pyobj) (active : string) : option (list string) :=
  let label := if hasattr ctx "court_authority" then "court_authorities"
               else "authority_profiles" in
  match getattr ctx label PNone with
  | PNone => Some [active]
  | PStr _ => None
  | v => (fun l : list pyval => text_val <$> l) <$> py_iter v
  end.

Definition declared_active (ctx : pyobj) : string :=
  text_val (getattr ctx (if hasattr ctx "court_authority"
                         then "court_authority" else "authority_profile") PNone).

Lemma filter_nil_Forall {A} (f : A -> bool) (l : list A) :
  filter (fun x => f x = false) l = [] <-> Forall (fun x => f x = true) l.
Proof.
  induction l as [|x l IH]; [done|]. rewrite filter_cons, Forall_cons.
  destruct (f x) eqn:Hx; [rewrite decide_False by congruence|rewrite decide_True by done];
    naive_solver.
Qed.

(** A resolution is valid exactly when the active identity is the strictly highest of a
    set of distinct registered candidates and is not ["unknown"]. *)
Definition authority_spec (active : string) (cands : list string) : Prop :=
  active ∈ cands /\ NoDup cands /\ Forall (fun p => registered p = true) cands /\
  (forall p, p ∈ cands -> p <> active -> (rank_of p < rank_of active)%Z) /\
  active <> "unknown".

Lemma select_authority_spec active c cs :
  NoDup (c :: cs) -> Forall (fun p => registered p = true) (c :: cs) ->
  valid (select_authority active c cs) = true <-> authority_spec active (c :: cs).
Proof.
  intros Hnd Hreg. rewrite select_authority_valid.
  destruct (max_by_rank_spec cs c) as [Hin Hmax]. rewrite Forall_forall in Hreg.
  split.
  - intros [-> Hu]. split_and!; try done; [by apply Forall_forall|].
    intros p Hp Hne. specialize (Hmax p Hp).
    destruct (Z.eq_dec (rank_of p) (rank_of (max_by_rank c cs))) as [He|]; [|lia].
    destruct Hne. apply rank_of_inj; auto.
  - intros (Ha & _ & _ & Hlt & Hu). split; [|done].
    destruct (decide (max_by_rank c cs = active)) as [|Hne]; [done|].
    specialize (Hlt _ Hin Hne). specialize (Hmax _ Ha). lia.
Qed.

Lemma resolve_authority_valid ctx r :
  resolve_authority ctx = Ok r ->
  valid r = true <->
  exists cands, declared_candidates ctx (declared_active ctx) = Some cands /\
    authority_spec (declared_active ctx) cands.
Proof.
  unfold resolve_authority, declared_candidates.
  fold (declared_active ctx).
  set (active := declared_active ctx).
  set (v := getattr ctx _ PNone).
  destruct (registered active) eqn:Hact; cbn [negb].
  2:{ intros [= <-]. cbn. split; [done|]. intros (cands & _ & Ha & _ & Hr & _).
      rewrite Forall_forall in Hr. specialize (Hr _ Ha). cbn in Hr. congruence. }
  assert (forall vs,
    (match text_val <$> vs with
     | [] => Ok (invalid active [] "authority_conflict" "Court authority candidate set is empty")
     | c :: cs =>
         match filter (fun p => registered p = false) (text_val <$> vs) with
         | u :: _ => Ok (invalid active (text_val <$> vs) "authority_unknown"
             ("Court authority candidate '" +:+ u +:+ "' is not registered"))
         | [] => if negb (bool_decide (NoDup (text_val <$> vs)))
                 then Ok (invalid active (text_val <$> vs) "authority_conflict"
                   "Court authority candidate identities must be unique")
                 else Ok (select_authority active c cs)
         end
     end) = Ok r ->
    valid r = true <-> exists cands, Some (text_val <$> vs) = Some cands /\ authority_spec active cands)
    as Hcore.
  { intros vs. generalize (text_val <$> vs) as l. intros [|c cs] H.
    - injection H as <-. cbn. split; [done|].
      intros (? & [= <-] & Ha & _). by apply elem_of_nil in Ha.
    - destruct (filter _ (c :: cs)) as [|u us] eqn:Hf.
      + apply filter_nil_Forall in Hf. case_bool_decide as Hnd; cbn in H; injection H as <-.
        * rewrite select_authority_spec by done. naive_solver.
        * cbn. split; [done|]. by intros (? & [= <-] & _ & Hn & _).
      + injection H as <-. cbn. split; [done|]. intros (? & [= <-] & _ & _ & Hr & _).
        by apply filter_nil_Forall in Hr; rewrite Hr in Hf. }
  destruct v; try (by cbn; intros); cbn [py_iter iter_or_type_error outcome_bind fmap option_fmap option_map].
  - intros [= <-]. rewrite select_authority_spec; [naive_solver| |].
    + by apply NoDup_singleton.
    + by repeat constructor.
  - intros [= <-]. cbn. naive_solver.
  - apply Hcore.
  - apply Hcore.
  - apply Hcore.
Qed.

Lemma hierarchy_order :
  hierarchy = ["emergency"; "medical"; "owner"; "service"; "guest"; "oem"; "remote"; "unknown"].
Proof. reflexivity. Qed.

End CourtAuthority.
