(* ===== verification/CourtPolicy.v ===== *)
(** [services/court_policy_resolution.py]: restrictive resolution of the active Court
    policy set.  Every selected policy must permit both the capability and the target;
    the shortest token lifetime wins.  The policy file is passed as its text ([None] when
    the path is not a file) and parsed with [Json.loads]. *)

From stdpp Require Import base gmap sets list strings sorting.
From Stdlib Require Import ZArith.
From S2P Require Import Prelude PyText PyVal Json.

Record PolicyFinding := mkPolicyFinding {
  finding_policy_id : string;
  capability_allowed : bool;
  target_allowed : bool;
  finding_ttl : Z
}.

(** [PolicyFinding.allowed] *)
Definition finding_allowed (f : PolicyFinding) : bool :=
  capability_allowed f && target_allowed f.

Definition finding_to_dict (f : PolicyFinding) : pyval :=
  PDict [(PStr "policy_id", PStr (finding_policy_id f));
         (PStr "capability_allowed", PBool (capability_allowed f));
         (PStr "target_allowed", PBool (target_allowed f));
         (PStr "token_ttl_seconds", PInt (finding_ttl f));
         (PStr "allowed", PBool (finding_allowed f))].

Record PolicyResolution := mkPolicyResolution {
  policy_ids : list string;
  policy_set_id : string;
  findings : list PolicyFinding;
  resolution_allowed : bool;
  token_ttl_seconds : Z;
  denial_state : option string;
  denial_detail : option string
}.

(** [_normalize_policy_ids] *)
Definition normalize_policy_ids (values : list pyval) : outcome (list string) :=
  let ids := text_val <$> values in
  if bool_decide (ids = []) || negb (forallb is_nonempty ids)
  then raise ValueError "Court requires at least one valid policy identity"
  else if negb (bool_decide (NoDup ids))
  then raise ValueError "Court policy identities must be unique"
  else Ok ids.

(** [policy_ids_from_context] *)
Definition policy_ids_from_context (ctx : pyobj) : outcome (list string) :=
  match getattr ctx "policy_ids" PNone with
  | PNone => normalize_policy_ids [getattr ctx "policy_id" PNone]
  | PStr _ => raise ValueError "policy_ids must be an ordered collection, not a string"
  | v => let? values := iter_or_type_error v in normalize_policy_ids values
  end.

(** [_load_document] *)
Definition load_document (path : string) (file : option string) : outcome items :=
  match file with
  | None => raise FileNotFoundError ("Court policy not found: " +:+ path)
  | Some content =>
      let? document := loads content in
      match document with
      | PDict d =>
          if negb (eq_str (get d "schema") "velvet.court.policy.v1")
          then raise ValueError "unsupported Court policy schema"
          else if negb (is_list (get d "policies"))
          then raise ValueError "Court policy requires a policies list"
          else Ok d
      | _ => raise ValueError "unsupported Court policy schema"
      end
  end.

(** The text set [{_text(value) for value in policy.get(key, [])}]. *)
Definition text_set (d : items) (key : string) : outcome (list string) :=
  let? values := iter_or_type_error (dict_get_default d (PStr key) (PList [])) in
  Ok (text_val <$> values).

(** [_evaluate] *)
Definition evaluate (policy : items) (capability target : string) : outcome PolicyFinding :=
  let policy_id := text_val (get policy "policy_id") in
  let? capabilities := text_set policy "allowed_capabilities" in
  let? targets := text_set policy "allowed_targets" in
  match as_int (dict_get_default policy (PStr "token_ttl_seconds") (PInt 30)) with
  | Some ttl =>
      if negb ((1 <=? ttl)%Z && (ttl <=? 300)%Z)
      then raise ValueError ("policy '" +:+ policy_id +:+ "' has invalid token_ttl_seconds")
      else Ok (mkPolicyFinding policy_id
                 (bool_decide (capability ∈ capabilities))
                 (bool_decide ("*" ∈ targets) || bool_decide (target ∈ targets))
                 ttl)
  | None => raise ValueError ("policy '" +:+ policy_id +:+ "' has invalid token_ttl_seconds")
  end.

(** The active policies of a document, by normalised identity; the last one wins. *)
Definition active_policies (policies : list pyval) : gmap string items :=
  dict_comp (omap (fun item => match item with
    | PDict d => if eq_str (get d "status") "active"
                 then Some (text_val (get d "policy_id"), d) else None
    | _ => None
    end) policies).

Definition select_policy (active : gmap string items) (policy_id : string) : outcome items :=
  match active !! policy_id with
  | Some p => Ok p
  | None => raise ValueError ("Court requires one active policy for '" +:+ policy_id +:+ "'")
  end.

Fixpoint min_ttl (best : Z) (fs : list PolicyFinding) : Z :=
  match fs with [] => best | f :: fs' => min_ttl (Z.min best (finding_ttl f)) fs' end.

(** The loop over the findings: the first refusal decides. *)
Fixpoint first_denial (fs : list PolicyFinding) : option (string * string) :=
  match fs with
  | [] => None
  | f :: fs' =>
      if negb (capability_allowed f)
      then Some ("policy_denied", "policy '" +:+ finding_policy_id f +:+ "' denied capability")
      else if negb (target_allowed f)
      then Some ("target_denied", "policy '" +:+ finding_policy_id f +:+ "' denied target")
      else first_denial fs'
  end.

Definition decide_findings (ids : list string) (fs : list PolicyFinding) : outcome PolicyResolution :=
  match fs with
  | [] => raise ValueError "min() iterable argument is empty"
  | f :: fs' =>
      let ttl := min_ttl (finding_ttl f) fs' in
      let set_id := join "+" ids in
      match first_denial fs with
      | Some (state, detail) =>
          Ok (mkPolicyResolution ids set_id fs false ttl (Some state) (Some detail))
      | None => Ok (mkPolicyResolution ids set_id fs true ttl None None)
      end
  end.

(** [resolve_policy_set] *)
Definition resolve_policy_set (path : string) (file : option string)
    (requested : list string) (capability target : string) : outcome PolicyResolution :=
  let? ids := normalize_policy_ids (PStr <$> requested) in
  let? document := load_document path file in
  match get document "policies" with
  | PList policies =>
      let active := active_policies policies in
      let? selected := mapM_outcome (select_policy active) ids in
      let? fs := mapM_outcome (fun p => evaluate p capability target) selected in
      decide_findings ids fs
  | _ => raise TypeError "policies is not iterable"
  end.

(** ** Facts *)

Lemma min_ttl_spec fs : forall best,
  (min_ttl best fs <= best)%Z /\
  Forall (fun f => (min_ttl best fs <= finding_ttl f)%Z) fs /\
  (min_ttl best fs = best \/ Exists (fun f => min_ttl best fs = finding_ttl f) fs).
Proof.
  induction fs as [|f fs IH]; intros best; cbn; [by repeat split; [|constructor|left]|].
  destruct (IH (Z.min best (finding_ttl f))) as (Hb & Hf & Hex). split_and!; [lia| |].
  - constructor; [lia|done].
  - destruct Hex as [He|He]; [|by right; right].
    destruct (Z.min_spec best (finding_ttl f)) as [[_ Hm]|[_ Hm]]; rewrite Hm in *.
    + by left.
    + right. by left.
Qed.

Lemma first_denial_none fs :
  first_denial fs = None <-> Forall (fun f => finding_allowed f = true) fs.
Proof.
  induction fs as [|f fs IH]; cbn; [by split; [constructor|]|].
  rewrite Forall_cons, <- IH. unfold finding_allowed.
  destruct (capability_allowed f), (target_allowed f); naive_solver.
Qed.

Lemma first_denial_state fs st d :
  first_denial fs = Some (st, d) -> st = "policy_denied" \/ st = "target_denied".
Proof.
  induction fs as [|f fs IH]; cbn; [done|].
  destruct (capability_allowed f); cbn; [destruct (target_allowed f); cbn|]; naive_solver.
Qed.

Lemma normalize_policy_ids_ok values ids :
  normalize_policy_ids values = Ok ids <->
  ids = text_val <$> values /\ ids <> [] /\ Forall (fun i => i <> "") ids /\ NoDup ids.
Proof.
  unfold normalize_policy_ids. split.
  - intros H. guards H. simplify_eq. split_and!; try done; [naive_solver|].
    destruct G as [_ G]. apply forallb_Forall in G. apply (Forall_impl _ _ _ G). by intros [].
  - intros (-> & Hne & Hf & Hnd). rewrite bool_decide_false by done.
    rewrite (bool_decide_true (NoDup _)) by done.
    assert (forallb is_nonempty (text_val <$> values) = true) as ->; [|done].
    apply forallb_Forall, (Forall_impl _ _ _ Hf). by intros [].
Qed.

(** Identities from a context are already normal, so resolution keeps them. *)
Lemma normalize_policy_ids_text values ids :
  normalize_policy_ids values = Ok ids -> normalize_policy_ids (PStr <$> ids) = Ok ids.
Proof.
  rewrite !normalize_policy_ids_ok. intros (-> & ?). split; [|done].
  rewrite <- !list_fmap_compose. apply list_fmap_ext. intros _ v _. cbn.
  destruct v; cbn; by rewrite ?text_idem.
Qed.

Lemma policy_ids_from_context_normal ctx ids :
  policy_ids_from_context ctx = Ok ids ->
  ids <> [] /\ NoDup ids /\ normalize_policy_ids (PStr <$> ids) = Ok ids.
Proof.
  unfold policy_ids_from_context. intros H.
  assert (exists values, normalize_policy_ids values = Ok ids) as [values Hv].
  { destruct (getattr ctx "policy_ids" PNone); try done; eauto;
      apply outcome_bind_ok in H as (? & _ & ?); eauto. }
  split_and!; [| |by eapply normalize_policy_ids_text];
    by apply normalize_policy_ids_ok in Hv as (? & ? & ? & ?).
Qed.

Lemma evaluate_ttl p cap tgt f : evaluate p cap tgt = Ok f -> (1 <= finding_ttl f <= 300)%Z.
Proof.
  unfold evaluate. intros H. guards H. destruct (as_int _); [|done].
  guards H. simplify_eq. by cbn.
Qed.

(** What a resolution says about the findings it was made from. *)
Record resolution_spec (ids : list string) (fs : list PolicyFinding)
    (r : PolicyResolution) : Prop := {
  spec_ids : policy_ids r = ids;
  spec_set_id : policy_set_id r = join "+" ids;
  spec_findings : findings r = fs;
  spec_allowed : resolution_allowed r = true <-> Forall (fun f => finding_allowed f = true) fs;
  spec_ttl_least : Forall (fun f => (token_ttl_seconds r <= finding_ttl f)%Z) fs;
  spec_ttl_attained : Exists (fun f => token_ttl_seconds r = finding_ttl f) fs;
  spec_denial : resolution_allowed r = false ->
    denial_state r = Some "policy_denied" \/ denial_state r = Some "target_denied"
}.

Lemma decide_findings_spec ids fs r :
  decide_findings ids fs = Ok r -> resolution_spec ids fs r.
Proof.
  unfold decide_findings. destruct fs as [|f fs]; [done|].
  pose proof (first_denial_none (f :: fs)) as Hnone.
  pose proof (first_denial_state (f :: fs)) as Hst.
  destruct (min_ttl_spec fs (finding_ttl f)) as (Hb & Hf & Hex).
  destruct (first_denial (f :: fs)) as [[st d]|]; intros [= <-]; split; cbn; try done.
  - split; [done|]. intros H. by apply Hnone in H.
  - by constructor.
  - destruct Hex; [by left|by right].
  - intros _. destruct (Hst _ _ eq_refl) as [-> | ->]; auto.
  - split; [|done]. intros _. by apply Hnone.
  - by constructor.
  - destruct Hex; [by left|by right].
Qed.

(** One finding per requested policy, in order, evaluated on the selected policy. *)
Lemma resolve_policy_set_ok path file ids cap tgt r :
  normalize_policy_ids (PStr <$> ids) = Ok ids ->
  resolve_policy_set path file ids cap tgt = Ok r ->
  exists d policies fs,
    load_document path file = Ok d /\ get d "policies" = PList policies /\
    Forall2 (fun id f => exists p, active_policies policies !! id = Some p /\
                                   evaluate p cap tgt = Ok f) ids fs /\
    resolution_spec ids fs r.
Proof.
  intros Hids H. unfold resolve_policy_set in H. rewrite Hids in H. cbn [outcome_bind] in H.
  destruct (load_document path file) as [d|] eqn:Hd; [|done]. cbn [outcome_bind] in H.
  destruct (get d "policies") as [| | | | |policies| |] eqn:Hp; try done.
  apply outcome_bind_ok in H as (sel & Hsel & H). apply outcome_bind_ok in H as (fs & Hfs & H).
  exists d, policies, fs. split_and!; try done; [|by apply decide_findings_spec].
  apply mapM_outcome_ok in Hsel, Hfs. clear -Hsel Hfs. revert fs Hfs.
  induction Hsel as [|i p ids ps Hi _ IH]; intros fs Hfs; inversion Hfs; subst; constructor; auto.
  exists p. split; [|done]. unfold select_policy in Hi. by destruct (active_policies _ !! i); simplify_eq.
Qed.

Lemma resolve_policy_set_ttl path file ids cap tgt r :
  normalize_policy_ids (PStr <$> ids) = Ok ids ->
  resolve_policy_set path file ids cap tgt = Ok r -> (1 <= token_ttl_seconds r <= 300)%Z.
Proof.
  intros Hids H. destruct (resolve_policy_set_ok _ _ _ _ _ _ Hids H) as (d & ps & fs & _ & _ & Hf & Hs).
  pose proof (spec_ttl_attained _ _ _ Hs) as (f & Hin & Ht)%Exists_exists. rewrite Ht.
  apply list_elem_of_lookup in Hin as [i Hi].
  destruct (Forall2_lookup_r _ _ _ _ _ Hf Hi) as (id & _ & p & _ & He).
  by eapply evaluate_ttl.
Qed.

(** A policy permits a request: it lists the capability, and the target or ["*"]. *)
Definition policy_permits (p : items) (capability target : string) : Prop :=
  exists caps targets, text_set p "allowed_capabilities" = Ok caps /\
    text_set p "allowed_targets" = Ok targets /\
    capability ∈ caps /\ ("*" ∈ targets \/ target ∈ targets).

Lemma evaluate_permits p cap tgt f :
  evaluate p cap tgt = Ok f -> finding_allowed f = true <-> policy_permits p cap tgt.
Proof.
  unfold evaluate, policy_permits. intros H. guards H. destruct (as_int _) as [ttl|]; [|done].
  guards H. injection H as <-. unfold finding_allowed. cbn. py_bools. naive_solver.
Qed.
