(* ===== verification/CourtToken.v ===== *)
(** [services/court_token.py]: short-lived capability tokens, bound to an intent and
    signed with HMAC-SHA256 over their canonical JSON encoding. *)

From stdpp Require Import base gmap sets list strings sorting.
From Stdlib Require Import ZArith.
From S2P Require Import Prelude PyText PyVal Json Sha256 Court.

Record CapabilityToken := mkToken {
  token_id : string;
  tok_intent_id : string;
  tok_capability : string;
  tok_target : string;
  tok_profile_id : string;
  tok_session_id : string;
  tok_body_id : string;
  tok_surface : string;
  issued_at : Z;
  expires_at : Z;
  tok_policy_id : string;
  signature : string
}.

(** [_canonical]: [json.dumps(value, sort_keys=True, separators=(",", ":")).encode()]. *)
Definition canonical_bytes (kvs : list (string * json)) : byte_string :=
  utf8 (dumps (JObj kvs)).

(** The [unsigned] dictionary of [issue_token]. *)
Definition unsigned_fields (t : CapabilityToken) : list (string * json) :=
  [("intent_id", JStr (tok_intent_id t)); ("capability", JStr (tok_capability t));
   ("target", JStr (tok_target t)); ("profile_id", JStr (tok_profile_id t));
   ("session_id", JStr (tok_session_id t)); ("body_id", JStr (tok_body_id t));
   ("surface", JStr (tok_surface t)); ("issued_at", JInt (issued_at t));
   ("expires_at", JInt (expires_at t)); ("policy_id", JStr (tok_policy_id t))].

(** [asdict(token)] without its signature: what is signed. *)
Definition signed_fields (t : CapabilityToken) : list (string * json) :=
  ("token_id", JStr (token_id t)) :: unsigned_fields t.

(** The token of [issue_token] before its identity and signature are known. *)
Definition draft_token (i : CourtIntent.Intent) (policy_id : string) (ttl_seconds now : Z)
    (tid sig : string) : CapabilityToken :=
  mkToken tid (CourtIntent.intent_id i) (CourtIntent.capability i) (CourtIntent.target i)
    (CourtIntent.profile_id i) (CourtIntent.session_id i) (CourtIntent.body_id i)
    (CourtIntent.surface i) now (now + ttl_seconds) policy_id sig.

(** [hashlib.sha256(_canonical(unsigned)).hexdigest()[:24]] *)
Definition derive_token_id (t : CapabilityToken) : string :=
  str_take 24 (sha256_hex (canonical_bytes (unsigned_fields t))).

(** [hmac.new(signing_key, _canonical(signed), hashlib.sha256).hexdigest()] *)
Definition sign (key : byte_string) (t : CapabilityToken) : string :=
  hmac_sha256_hex key (canonical_bytes (signed_fields t)).

(** The checks [issue_token] makes before it reads the clock. *)
Definition issue_guard (signing_key : byte_string) (ttl_seconds : Z) : outcome unit :=
  if length signing_key <? 32
  then raise ValueError "Court signing key must contain at least 32 bytes"
  else if negb ((1 <=? ttl_seconds)%Z && (ttl_seconds <=? 300)%Z)
  then raise ValueError "token_ttl_seconds must be between 1 and 300"
  else Ok tt.

(** [issue_token] with [now] resolved to the integer [now]. *)
Definition issue_token (i : CourtIntent.Intent) (policy_id : string) (signing_key : byte_string)
    (ttl_seconds now : Z) : outcome CapabilityToken :=
  let? _ := issue_guard signing_key ttl_seconds in
  let draft := draft_token i policy_id ttl_seconds now in
  let tid := derive_token_id (draft "" "") in
  Ok (draft tid (sign signing_key (draft tid ""))).

(** [hmac.compare_digest] on strings refuses non-ASCII text. *)
Definition compare_digest (a b : string) : outcome bool :=
  if str_forallb is_ascii_char a && str_forallb is_ascii_char b
  then Ok (bool_decide (a = b))
  else raise TypeError "comparing strings with non-ASCII characters is not supported".

(** [verify_token] with [now] resolved to the integer [now]. *)
Definition verify_token (t : CapabilityToken) (signing_key : byte_string) (now : Z) : outcome bool :=
  let expected := sign signing_key t in
  let? matches := compare_digest (signature t) expected in
  Ok (matches && ((issued_at t <=? now)%Z && (now <=? expires_at t)%Z)).

(** ** The encoding determines the token *)

(** The fields of a token in sorted order. *)
Definition sorted_fields (t : CapabilityToken) : list (string * json) :=
  [("body_id", JStr (tok_body_id t)); ("capability", JStr (tok_capability t));
   ("expires_at", JInt (expires_at t)); ("intent_id", JStr (tok_intent_id t));
   ("issued_at", JInt (issued_at t)); ("policy_id", JStr (tok_policy_id t));
   ("profile_id", JStr (tok_profile_id t)); ("session_id", JStr (tok_session_id t));
   ("surface", JStr (tok_surface t)); ("target", JStr (tok_target t));
   ("token_id", JStr (token_id t))].

Lemma sorted_fields_canonical t : canonical (JObj (sorted_fields t)).
Proof.
  assert (bool_decide (Sorted String.le (sorted_fields t).*1) = true) as Hs by reflexivity.
  assert (bool_decide (NoDup (sorted_fields t).*1) = true) as Hn by reflexivity.
  constructor; [by apply bool_decide_eq_true in Hs|by apply bool_decide_eq_true in Hn|].
  repeat constructor.
Qed.

Lemma dumps_signed_fields t :
  dumps (JObj (signed_fields t)) = dumps (JObj (sorted_fields t)).
Proof. reflexivity. Qed.

(** [canonical_bytes] is plain ASCII, so encoding it loses nothing. *)
Lemma utf8_inj s1 : forall s2,
  str_forallb is_ascii_char s1 = true -> str_forallb is_ascii_char s2 = true ->
  utf8 s1 = utf8 s2 -> s1 = s2.
Proof.
  assert (forall c s, is_ascii_char c = true -> utf8 (String c s) = Ascii.N_of_ascii c :: utf8 s) as Hc.
  { intros c s. by destruct c as [[] [] [] [] [] [] [] []]. }
  induction s1 as [|c1 s1 IH]; intros [|c2 s2]; cbn [str_forallb]; rewrite ?andb_true_iff;
    intros H1 H2 Heq; try done.
  - destruct H2 as [H2 _]. by rewrite Hc in Heq.
  - destruct H1 as [H1 _]. by rewrite Hc in Heq.
  - destruct H1 as [H1 H1'], H2 as [H2 H2']. rewrite !Hc in Heq by done.
    injection Heq as Hcode Hrest. f_equal; [|by apply IH].
    by rewrite <- (Ascii.ascii_N_embedding c1), Hcode, Ascii.ascii_N_embedding.
Qed.

Definition ascii_str (s : string) : Prop := str_forallb is_ascii_char s = true.

Lemma dumps_ascii j : ascii_str (dumps j).
Proof.
  apply (str_forallb_impl printable); [|apply dumps_printable].
  intros c. by destruct c as [[] [] [] [] [] [] [] []].
Qed.

(** Two tokens signed over the same bytes agree on every signed field. *)
Lemma canonical_signed_inj t1 t2 :
  canonical_bytes (signed_fields t1) = canonical_bytes (signed_fields t2) ->
  signed_fields t1 = signed_fields t2.
Proof.
  intros H. apply utf8_inj in H; [|apply dumps_ascii..].
  rewrite !dumps_signed_fields in H.
  apply dumps_inj in H; [|apply sorted_fields_canonical..].
  unfold signed_fields, unsigned_fields. unfold sorted_fields in H.
  by injection H as -> -> -> -> -> -> -> -> -> -> ->.
Qed.

Lemma signed_fields_eq t1 t2 :
  signed_fields t1 = signed_fields t2 -> signature t1 = signature t2 -> t1 = t2.
Proof. destruct t1, t2. cbn. intros. by simplify_eq. Qed.

(** ** Issuing and verifying *)

Lemma compare_digest_ascii a b :
  ascii_str a -> ascii_str b -> compare_digest a b = Ok (bool_decide (a = b)).
Proof. unfold ascii_str, compare_digest. by intros -> ->. Qed.

Lemma sign_ascii key t : ascii_str (sign key t).
Proof. apply hmac_sha256_hex_ascii. Qed.

#[global] Arguments sign : simpl never.
#[global] Arguments derive_token_id : simpl never.

Lemma verify_token_true t key now :
  verify_token t key now = Ok true <->
  signature t = sign key t /\ (issued_at t <= now <= expires_at t)%Z.
Proof.
  unfold verify_token, compare_digest. pose proof (sign_ascii key t) as Hh.
  revert Hh. unfold ascii_str. generalize (sign key t) as h.
  intros h Hh. rewrite Hh, andb_true_r.
  destruct (str_forallb is_ascii_char (signature t)) eqn:Ha; cbn [outcome_bind].
  - split.
    + intros [= H]. by py_bools.
    + intros H. f_equal. by py_bools.
  - split; [done|]. intros [Hs _]. congruence.
Qed.

(** A verification raises only on a signature that is not ASCII text. *)
Lemma verify_token_raises t key now e :
  verify_token t key now = Err e -> exn_class e = TypeError /\ ~ ascii_str (signature t).
Proof.
  unfold verify_token, compare_digest. pose proof (sign_ascii key t) as Hh.
  revert Hh. unfold ascii_str. generalize (sign key t) as h.
  intros h Hh. rewrite Hh, andb_true_r.
  destruct (str_forallb is_ascii_char (signature t)); cbn [outcome_bind]; intros H; [discriminate H|].
  injection H as <-. by split.
Qed.

(** The signature does not cover itself. *)
Lemma signed_fields_draft i pid ttl now tid s1 s2 :
  signed_fields (draft_token i pid ttl now tid s1) = signed_fields (draft_token i pid ttl now tid s2).
Proof. done. Qed.

(** The fields an issued token copies from its intent and policy. *)
Record token_for (i : CourtIntent.Intent) (pid : string) (ttl now : Z) (t : CapabilityToken)
    : Prop := {
  tf_issued : issued_at t = now;
  tf_expires : expires_at t = (now + ttl)%Z;
  tf_policy : tok_policy_id t = pid;
  tf_intent : tok_intent_id t = CourtIntent.intent_id i;
  tf_capability : tok_capability t = CourtIntent.capability i;
  tf_target : tok_target t = CourtIntent.target i;
  tf_profile : tok_profile_id t = CourtIntent.profile_id i;
  tf_session : tok_session_id t = CourtIntent.session_id i;
  tf_body : tok_body_id t = CourtIntent.body_id i;
  tf_surface : tok_surface t = CourtIntent.surface i
}.

Lemma draft_token_for i pid ttl now tid sig : token_for i pid ttl now (draft_token i pid ttl now tid sig).
Proof. by split. Qed.

Lemma issue_guard_ok key ttl u :
  issue_guard key ttl = Ok u <-> 32 <= length key /\ (1 <= ttl <= 300)%Z.
Proof.
  unfold issue_guard. destruct u, (Nat.ltb_spec (length key) 32); [split; [done|lia]|].
  destruct (Z.leb_spec 1 ttl), (Z.leb_spec ttl 300); cbn; split; try done; lia.
Qed.

Lemma issue_token_ok i pid key ttl now t :
  issue_token i pid key ttl now = Ok t ->
  32 <= length key /\ (1 <= ttl <= 300)%Z /\ signature t = sign key t /\
  token_id t = derive_token_id t /\ token_for i pid ttl now t.
Proof.
  unfold issue_token. intros H. destruct (issue_guard key ttl) eqn:G; [|discriminate H].
  apply issue_guard_ok in G as [Hk Ht]. cbn [outcome_bind] in H. apply Ok_inj in H. subst t.
  split_and!; [done|lia|lia|done|done|apply draft_token_for].
Qed.

Lemma issue_token_total i pid key ttl now :
  32 <= length key -> (1 <= ttl <= 300)%Z -> exists t, issue_token i pid key ttl now = Ok t.
Proof.
  intros Hk Ht. unfold issue_token.
  rewrite (proj2 (issue_guard_ok key ttl tt) (conj Hk Ht)). eexists. reflexivity.
Qed.
