(* ===== verification/Resources.v ===== *)
(** [services/resource_coordinator.py]: the in-memory table of exclusive resources.
    [ResourceCoordinator] grants a complete set of resources to one owner or nothing;
    each method runs under one lock, so an operation is one step on the state. *)

From stdpp Require Import base gmap sets list strings sorting.
From Stdlib Require Import ZArith.
From S2P Require Import Prelude PyText PyVal.

Record ResourceConflict := mkConflict { conflict_resource : string; conflict_owner : string }.

Record ResourceLease := mkLease { lease_owner : string; lease_resources : list string }.

#[export] Instance ResourceLease_eq_dec : EqDecision ResourceLease.
Proof. solve_decision. Defined.

Record ResourceDecision := mkDecision {
  granted : bool;
  state : string;
  lease : option ResourceLease;
  conflicts : list ResourceConflict;
  errors : list string
}.

Definition conflict_to_dict (c : ResourceConflict) : pyval :=
  PDict [(PStr "resource", PStr (conflict_resource c)); (PStr "owner_id", PStr (conflict_owner c))].

Record coordinator := mkCoordinator {
  owners : gmap string string;
  leases : gmap string ResourceLease
}.

(** [ResourceCoordinator()] *)
Definition empty_coordinator : coordinator := mkCoordinator ∅ ∅.

(** [_resources] *)
Definition requested_resources (values : pyval) : outcome (list string) :=
  match values with
  | PStr _ => Ok []
  | _ =>
      let? vs := iter_or_type_error values in
      let normalized := sorted_set (text_val <$> vs) in
      Ok (if forallb is_nonempty normalized then normalized else [])
  end.

(** The comprehension over [requested]: the resources other owners hold. *)
Definition find_conflicts (s : coordinator) (owner : string) (requested : list string)
    : list ResourceConflict :=
  omap (fun r => match owners s !! r with
                 | Some o => if decide (o = owner) then None else Some (mkConflict r o)
                 | None => None
                 end) requested.

Definition set_owners (owner : string) (rs : list string) (m : gmap string string)
    : gmap string string :=
  fold_left (fun m r => <[r := owner]> m) rs m.

(** [if self._owners.get(resource) == owner: del self._owners[resource]] for each. *)
Definition drop_owned (owner : string) (rs : list string) (m : gmap string string)
    : gmap string string :=
  fold_left (fun m r => if decide (m !! r = Some owner) then delete r m else m) rs m.

(** [ResourceCoordinator.acquire] *)
Definition acquire (owner_id : string) (resources : pyval) (s : coordinator)
    : outcome (ResourceDecision * coordinator) :=
  let owner := text owner_id in
  let? requested := requested_resources resources in
  if negb (is_nonempty owner) then
    Ok (mkDecision false "invalid_owner" None [] ["resource owner identity is required"], s)
  else if bool_decide (requested = []) then
    Ok (mkDecision true "no_resources_required" (Some (mkLease owner [])) [] [], s)
  else match leases s !! owner with
  | Some existing =>
      if bool_decide (lease_resources existing = requested)
      then Ok (mkDecision true "already_acquired" (Some existing) [] [], s)
      else Ok (mkDecision false "owner_lease_mismatch" None []
                 ["owner already holds a different resource lease"], s)
  | None =>
      match find_conflicts s owner requested with
      | [] =>
          let l := mkLease owner requested in
          Ok (mkDecision true "acquired" (Some l) [] [],
              mkCoordinator (set_owners owner requested (owners s)) (<[owner := l]> (leases s)))
      | cs => Ok (mkDecision false "resource_conflict" None cs [], s)
      end
  end.

(** [ResourceCoordinator.release] *)
Definition release (owner_id : string) (s : coordinator) : ResourceDecision * coordinator :=
  let owner := text owner_id in
  if negb (is_nonempty owner) then
    (mkDecision false "invalid_owner" None [] ["resource owner identity is required"], s)
  else match leases s !! owner with
  | None => (mkDecision false "lease_not_found" None [] [], s)
  | Some l =>
      (mkDecision true "released" (Some l) [] [],
       mkCoordinator (drop_owned owner (lease_resources l) (owners s)) (delete owner (leases s)))
  end.

(** [lease_for], [owner_of], [snapshot], [count] *)
Definition lease_for (owner_id : string) (s : coordinator) : option ResourceLease :=
  leases s !! text owner_id.
Definition owner_of (resource : string) (s : coordinator) : option string :=
  owners s !! text resource.
Definition snapshot (s : coordinator) : list ResourceLease :=
  omap (fun k => leases s !! k) (sorted_strings (elements (dom (leases s)))).
Definition count (s : coordinator) : nat := size (leases s).

(** ** Invariant *)

(** A requested set as [acquire] normalises it. *)
Definition resource_set (rs : list string) : Prop := sorted_set rs = rs.

Record coordinator_inv (s : coordinator) : Prop := {
  inv_lease : forall o l, leases s !! o = Some l ->
    lease_owner l = o /\ o <> "" /\ lease_resources l <> [] /\ resource_set (lease_resources l) /\
    forall r, r ∈ lease_resources l -> owners s !! r = Some o;
  inv_owner : forall r o, owners s !! r = Some o ->
    exists l, leases s !! o = Some l /\ r ∈ lease_resources l
}.

Lemma empty_coordinator_inv : coordinator_inv empty_coordinator.
Proof. split; cbn; intros ? ?; by rewrite lookup_empty. Qed.

Lemma requested_resources_set values rs : requested_resources values = Ok rs -> resource_set rs.
Proof.
  unfold requested_resources, resource_set. intros H.
  destruct values; try done; cbn in H; simplify_eq; try done;
    case_match; simplify_eq; auto using sorted_set_idem.
Qed.

Lemma set_owners_lookup owner rs m r :
  set_owners owner rs m !! r = if decide (r ∈ rs) then Some owner else m !! r.
Proof.
  unfold set_owners. revert m. induction rs as [|x rs IH]; intros m; cbn.
  - case_decide as H; [by apply elem_of_nil in H|done].
  - rewrite IH. destruct (decide (r ∈ rs)).
    + rewrite decide_True; [done|by right].
    + rewrite lookup_insert. case_decide; subst.
      * rewrite decide_True; [done|left].
      * rewrite decide_False; [done|]. rewrite elem_of_cons. naive_solver.
Qed.

Lemma drop_owned_lookup owner rs m r :
  drop_owned owner rs m !! r
  = if decide (r ∈ rs /\ m !! r = Some owner) then None else m !! r.
Proof.
  unfold drop_owned. revert m. induction rs as [|x rs IH]; intros m; cbn.
  - rewrite decide_False; [done|]. by intros [?%elem_of_nil _].
  - rewrite IH. destruct (decide (m !! x = Some owner)) as [Hx|Hx].
    + rewrite lookup_delete. repeat case_decide; subst; set_solver.
    + repeat case_decide; set_solver.
Qed.

Lemma find_conflicts_nil s owner rs :
  find_conflicts s owner rs = [] <->
  forall r o, r ∈ rs -> owners s !! r = Some o -> o = owner.
Proof.
  unfold find_conflicts. induction rs as [|x rs IH]; cbn.
  - split; [|done]. by intros _ r o ?%elem_of_nil.
  - destruct (owners s !! x) as [o|] eqn:Ho; [case_decide as Hd|]; cbn.
    + rewrite IH. split; [|set_solver]. intros H r o' [->|Hr]%elem_of_cons; naive_solver.
    + split; [done|]. intros H. destruct Hd. apply (H x); [left|done].
    + rewrite IH. split; [|set_solver]. intros H r o' [->|Hr]%elem_of_cons; naive_solver.
Qed.

Lemma acquire_inv owner_id rs s d s' :
  coordinator_inv s -> acquire owner_id rs s = Ok (d, s') -> coordinator_inv s'.
Proof.
  intros [Hl Ho]. unfold acquire. intros H.
  apply outcome_bind_ok in H as (req & Hreq & H). apply requested_resources_set in Hreq.
  destruct (is_nonempty (text owner_id)) eqn:Hne; cbn [negb] in H; [|by simplify_eq].
  case_bool_decide as Hempty; [by simplify_eq|].
  destruct (leases s !! text owner_id) as [l|] eqn:Hlease; [case_bool_decide; by simplify_eq|].
  destruct (find_conflicts s (text owner_id) req) as [|c cs] eqn:Hc; cbn in H; [|by simplify_eq].
  rewrite find_conflicts_nil in Hc. simplify_eq. split; cbn.
  - intros o l. rewrite lookup_insert. case_decide as Hd.
    + intros [= <-]. subst o. cbn. split_and!; try done; [by destruct (text owner_id)|].
      intros r Hr. by rewrite set_owners_lookup, decide_True.
    + intros Hol. destruct (Hl o l Hol) as (? & ? & ? & ? & Hr). split_and!; try done.
      intros r Hin. rewrite set_owners_lookup, decide_False; [by apply Hr|].
      intros Hreq'. destruct Hd. symmetry. by apply (Hc r o), Hr.
  - intros r o. rewrite set_owners_lookup. case_decide.
    + intros [= <-]. rewrite lookup_insert_eq. by eexists.
    + intros Hro. destruct (Ho r o Hro) as (l & Hol & Hin). exists l. split; [|done].
      rewrite lookup_insert_ne; [done|]. by intros <-; rewrite Hlease in Hol.
Qed.

Lemma release_inv owner_id s : coordinator_inv s -> coordinator_inv (release owner_id s).2.
Proof.
  intros [Hl Ho]. unfold release. destruct (is_nonempty _) eqn:Hne; cbn; [|done].
  destruct (leases s !! text owner_id) as [l|] eqn:Hlease; [|done]. cbn.
  destruct (Hl _ _ Hlease) as (_ & _ & _ & _ & Hown). split; cbn.
  - intros o l'. rewrite lookup_delete. case_decide as Hd; [done|].
    intros Hol. destruct (Hl o l' Hol) as (? & ? & ? & ? & Hr). split_and!; try done.
    intros r Hin. rewrite drop_owned_lookup, decide_False; [by apply Hr|].
    rewrite (Hr r Hin). naive_solver.
  - intros r o. rewrite drop_owned_lookup. case_decide as Hd; [done|].
    intros Hro. destruct (Ho r o Hro) as (l' & Hol & Hin). exists l'. split; [|done].
    rewrite lookup_delete_ne; [done|]. intros <-. rewrite Hlease in Hol. naive_solver.
Qed.

(** Leases of different owners never share a resource. *)
Lemma leases_disjoint s o1 o2 l1 l2 r :
  coordinator_inv s -> leases s !! o1 = Some l1 -> leases s !! o2 = Some l2 ->
  r ∈ lease_resources l1 -> r ∈ lease_resources l2 -> o1 = o2.
Proof.
  intros [Hl _] H1 H2 Hr1 Hr2.
  destruct (Hl _ _ H1) as (_ & _ & _ & _ & E1). destruct (Hl _ _ H2) as (_ & _ & _ & _ & E2).
  specialize (E1 _ Hr1). specialize (E2 _ Hr2). congruence.
Qed.

(** ** Abstract table: who holds which set *)

Definition holdings (s : coordinator) : gmap string (gset string) :=
  (fun l => list_to_set (lease_resources l)) <$> leases s.

(** The contract of [acquire]: all of a set or nothing. *)
Inductive grant_spec (A : gmap string (gset string)) (o : string) (R : gset string)
  : bool -> gmap string (gset string) -> Prop :=
| grant_nothing : R = ∅ -> grant_spec A o R true A
| grant_again : R <> ∅ -> A !! o = Some R -> grant_spec A o R true A
| deny_mismatch R' : R <> ∅ -> A !! o = Some R' -> R' <> R -> grant_spec A o R false A
| deny_conflict o' R' :
    R <> ∅ -> A !! o = None -> A !! o' = Some R' -> R ∩ R' <> ∅ -> grant_spec A o R false A
| grant_new :
    R <> ∅ -> A !! o = None -> (forall o' R', A !! o' = Some R' -> R ## R') ->
    grant_spec A o R true (<[o := R]> A).

Lemma resource_set_eq l1 l2 :
  resource_set l1 -> resource_set l2 ->
  list_to_set l1 = (list_to_set l2 : gset string) -> l1 = l2.
Proof.
  intros H1 H2 H. rewrite <- H1, <- H2. apply sorted_set_ext. intros x.
  by rewrite <- !(elem_of_list_to_set (C:=gset string)), H.
Qed.

Lemma list_to_set_nonempty (l : list string) : l <> [] -> list_to_set l <> (∅ : gset string).
Proof. destruct l; [done|]. cbn. intros _ H. set_solver. Qed.

Lemma holdings_insert om lm o l :
  holdings (mkCoordinator om (<[o := l]> lm))
  = <[o := list_to_set (lease_resources l)]> (holdings (mkCoordinator om lm)).
Proof. unfold holdings. cbn [leases]. by rewrite fmap_insert. Qed.

Lemma acquire_grant_spec owner_id rs s d s' req :
  coordinator_inv s -> text owner_id <> "" -> requested_resources rs = Ok req ->
  acquire owner_id rs s = Ok (d, s') ->
  grant_spec (holdings s) (text owner_id) (list_to_set req) (granted d) (holdings s').
Proof.
  intros Hinv Hne Hreq H. pose proof Hinv as [Hl Ho].
  pose proof (requested_resources_set _ _ Hreq) as Hset.
  unfold acquire in H. rewrite Hreq in H. cbn [outcome_bind] in H.
  destruct (is_nonempty (text owner_id)) eqn:E; [|by destruct (text owner_id)]. cbn [negb] in H.
  case_bool_decide as Hempty.
  { simplify_eq. by apply grant_nothing. }
  pose proof (list_to_set_nonempty req Hempty) as Hreq0.
  destruct (leases s !! text owner_id) as [l|] eqn:Hlease.
  - assert (holdings s !! text owner_id = Some (list_to_set (lease_resources l))) as Hh.
    { unfold holdings. by rewrite lookup_fmap, Hlease. }
    case_bool_decide as Heq; simplify_eq; cbn; [by apply grant_again|].
    eapply deny_mismatch; [done..|]. intros Hsets. destruct Heq.
    apply resource_set_eq; [|done..]. by apply Hl in Hlease as (_ & _ & _ & ? & _).
  - assert (holdings s !! text owner_id = None) as Hh.
    { unfold holdings. by rewrite lookup_fmap, Hlease. }
    destruct (find_conflicts s (text owner_id) req) as [|c cs] eqn:Hc; injection H as <- <-; cbn [granted].
    + rewrite find_conflicts_nil in Hc.
      rewrite holdings_insert. change (holdings _) with (holdings s) at 2.
      apply grant_new; [done..|]. intros o' R'. unfold holdings. rewrite lookup_fmap.
      destruct (leases s !! o') as [l'|] eqn:Hl'; [|done]. intros [= <-].
      intros r Hr Hr'. rewrite elem_of_list_to_set in Hr, Hr'.
      apply Hl in Hl' as Hl2. destruct Hl2 as (_ & _ & _ & _ & Hown).
      rewrite (Hc r o' Hr (Hown r Hr')) in Hl'. by rewrite Hlease in Hl'.
    + assert (exists r o, r ∈ req /\ owners s !! r = Some o) as (r & o & Hr & Hro).
      { clear -Hc. unfold find_conflicts in Hc. induction req as [|x req IH]; [done|].
        cbn in Hc. destruct (owners s !! x) as [o|] eqn:Hx.
        - exists x, o. split; [left|done].
        - destruct (IH Hc) as (r & o & ? & ?). exists r, o. split; [by right|done]. }
      destruct (Ho _ _ Hro) as (l' & Hl' & Hin).
      apply (deny_conflict _ _ _ o (list_to_set (lease_resources l'))); [done..| |].
      * unfold holdings. by rewrite lookup_fmap, Hl'.
      * set_solver.
Qed.

(** [release] removes exactly the owner's entry. *)
Lemma release_holdings owner_id s :
  text owner_id <> "" ->
  holdings (release owner_id s).2 = delete (text owner_id) (holdings s) /\
  granted (release owner_id s).1 = bool_decide (is_Some (holdings s !! text owner_id)).
Proof.
  intros Hne. unfold release, holdings.
  destruct (is_nonempty (text owner_id)) eqn:E; [|by destruct (text owner_id)]. cbn [negb].
  rewrite lookup_fmap. destruct (leases s !! text owner_id) eqn:Hl; cbn.
  - by rewrite fmap_delete.
  - split; [|done]. by rewrite delete_id by (by rewrite lookup_fmap, Hl).
Qed.

(** ** Any sequence of calls *)

Inductive coordinator_call (s : coordinator) : coordinator -> Prop :=
| call_acquire owner_id rs d s' : acquire owner_id rs s = Ok (d, s') -> coordinator_call s s'
| call_release owner_id : coordinator_call s (release owner_id s).2.

(** The tables a coordinator can reach from its construction. *)
Definition reachable (s : coordinator) : Prop := rtc coordinator_call empty_coordinator s.

Lemma reachable_inv s : reachable s -> coordinator_inv s.
Proof.
  unfold reachable. revert s. apply rtc_ind_r.
  - apply empty_coordinator_inv.
  - intros s1 s2 _ Hstep IH. destruct Hstep as [owner rs d s' H|owner]; [by eapply acquire_inv|].
    by apply release_inv.
Qed.
