(* ===== verification/ReplayLedger.v ===== *)
(** [services/token_replay_ledger.py]: the append-only JSONL file of consumed token
    identifiers.  The file is its text ([None] when it does not exist); [consume] holds
    an exclusive file lock from reading to appending, so it is one step on the file. *)

From stdpp Require Import base gmap sets list strings sorting.
From Stdlib Require Import ZArith Ascii.
From S2P Require Import Prelude PyText PyVal Json.

(** ** Lines of a text file *)

Definition newline : ascii := "010".
Definition carriage_return : ascii := "013".
Definition nl : string := String newline "".

(** Iterating over a text file: universal newlines, each line with its terminator. *)
Fixpoint lines_from (cur s : string) : list string :=
  match s with
  | "" => emit_word cur
  | String c s' =>
      if decide (c = newline) then (cur +:+ nl) :: lines_from "" s'
      else if decide (c = carriage_return) then
        match s' with
        | String d s2 =>
            if decide (d = newline) then (cur +:+ nl) :: lines_from "" s2
            else (cur +:+ nl) :: lines_from "" s'
        | "" => [cur +:+ nl]
        end
      else lines_from (cur +:+ String c "") s'
  end.
Definition file_lines (s : string) : list string := lines_from "" s.

(** ** The ledger *)

Definition replay_schema : string := "velvet.token.replay.v1".

Definition line_error (n : nat) (msg : string) : string :=
  "token replay ledger line " +:+ str_of_Z (Z.of_nat n) +:+ msg.

(** The body of the loop of [_load_handle]: the identifier on a line, [None] for a blank
    line. *)
Definition load_line (n : nat) (line : string) : outcome (option string) :=
  if is_blank line then Ok None else
  match loads line with
  | Err e =>
      if decide (exn_class e = ValueError)
      then raise ValueError (line_error n (" is invalid JSON: " +:+ exn_message e))
      else Err e
  | Ok (PDict d) =>
      if negb (eq_str (get d "schema") replay_schema)
      then raise ValueError (line_error n " has an unsupported schema")
      else if negb (eq_str (get d "state") "consumed")
      then raise ValueError (line_error n " has an invalid state")
      else
        let id := text_strict_val (get d "token_id") in
        if is_nonempty id then Ok (Some id)
        else raise ValueError (line_error n " has an invalid token_id")
  | Ok _ => raise ValueError (line_error n " must be an object")
  end.

Fixpoint load_lines (n : nat) (ls : list string) (ids : gset string) : outcome (gset string) :=
  match ls with
  | [] => Ok ids
  | l :: ls' =>
      let? id := load_line n l in
      load_lines (S n) ls' (match id with Some i => {[i]} ∪ ids | None => ids end)
  end.

(** [_load_handle] *)
Definition load_handle (content : string) : outcome (gset string) :=
  load_lines 1 (file_lines content) ∅.

(** A ledger object: the file it shares with other processes and its cached set. *)
Record ledger := mkLedger { file : option string; token_ids : gset string }.

(** [TokenReplayLedger._load] *)
Definition load (file : option string) : outcome (gset string) :=
  match file with None => Ok ∅ | Some content => load_handle content end.

(** [TokenReplayLedger(path)] *)
Definition open_ledger (file : option string) : outcome ledger :=
  let? ids := load file in Ok (mkLedger file ids).

(** [token_id in ledger] *)
Definition contains (token_id : pyval) (l : ledger) : outcome (bool * ledger) :=
  match token_id with
  | PStr s =>
      let normalized := text_strict s in
      if negb (is_nonempty normalized) then Ok (false, l) else
      let? ids := load (file l) in
      Ok (bool_decide (normalized ∈ ids), mkLedger (file l) ids)
  | _ => Ok (false, l)
  end.

(** The record [consume] appends, as one line of JSON. *)
Definition consumed_record (id : string) : list (string * json) :=
  [("schema", JStr replay_schema); ("token_id", JStr id); ("state", JStr "consumed")].
Definition record_line (id : string) : string := dumps (JObj (consumed_record id)) +:+ nl.

(** [TokenReplayLedger.consume] *)
Definition consume (token_id : string) (l : ledger) : outcome (bool * ledger) :=
  let normalized := text_strict token_id in
  if negb (is_nonempty normalized)
  then raise ValueError "token_id must be a non-empty normalized string" else
  let content := default "" (file l) in
  let? current := load_handle content in
  if decide (normalized ∈ current)
  then Ok (false, mkLedger (Some content) current)
  else Ok (true, mkLedger (Some (content +:+ record_line normalized)) ({[normalized]} ∪ current)).

(** [TokenReplayLedger.add] *)
Definition add (token_id : string) (l : ledger) : outcome ledger :=
  let? r := consume token_id l in Ok r.2.

(** [TokenReplayLedger.snapshot] *)
Definition ledger_snapshot (l : ledger) : outcome (gset string * ledger) :=
  let? ids := load (file l) in Ok (ids, mkLedger (file l) ids).

(** ** Reading back what was appended *)

(** A file whose last line is terminated (what [consume] always leaves). *)
Fixpoint ends_with_newline (s : string) : bool :=
  match s with
  | "" => true
  | String c "" => bool_decide (c = newline)
  | String _ s' => ends_with_newline s'
  end.

(** No line break inside. *)
Definition single_line (s : string) : bool :=
  str_forallb (fun c => negb (bool_decide (c = newline)) && negb (bool_decide (c = carriage_return))) s.

Lemma lines_from_single s : forall cur,
  single_line s = true -> lines_from cur (s +:+ nl) = [cur +:+ s +:+ nl].
Proof.
  induction s as [|c s IH]; intros cur Hs; [done|].
  unfold single_line in *. cbn in Hs. py_bools. destruct Hs as [[Hn Hr] Hs].
  cbn [String.append lines_from]. rewrite decide_False, decide_False by done.
  rewrite IH by done. by rewrite app_assoc_str.
Qed.

Lemma emit_word_app_nl cur s : exists w, lines_from cur (nl +:+ s) = w :: lines_from "" s.
Proof. by eexists. Qed.

Lemma ends_with_newline_cons c s :
  ends_with_newline (String c s) = true -> s <> "" -> ends_with_newline s = true.
Proof. by destruct s. Qed.

(** Text appended after a complete line starts a new line. *)
Lemma lines_from_app s : forall cur t,
  ends_with_newline s = true -> (s = "" -> cur = "") ->
  lines_from cur (s +:+ t) = lines_from cur s ++ lines_from "" t.
Proof.
  assert (forall n s, String.length s <= n -> forall cur t,
    ends_with_newline s = true -> (s = "" -> cur = "") ->
    lines_from cur (s +:+ t) = lines_from cur s ++ lines_from "" t) as H; [|by intros; eapply H].
  clear s. induction n as [|n IH]; intros [|c s] Hlen cur t He Hc; cbn in Hlen; try lia.
  { by rewrite Hc. }
  { by rewrite Hc. }
  cbn [String.append lines_from].
  destruct (decide (c = newline)) as [->|Hn].
  { cbn [app]. f_equal. destruct s as [|d s]; [done|].
    apply IH; [lia|by eapply ends_with_newline_cons|done]. }
  assert (s <> "") as Hs. { intros ->. cbn in He. by py_bools. }
  apply ends_with_newline_cons in He; [|done].
  destruct (decide (c = carriage_return)) as [Hcr|Hcr].
  - destruct s as [|d s]; [done|]. cbn [String.append String.length] in *.
    destruct (decide (d = newline)) as [->|Hd]; cbn [app]; f_equal.
    + destruct s as [|e s]; [done|]. apply IH; [cbn in *; lia|by eapply ends_with_newline_cons|done].
    + by apply (IH (String d s)); [cbn in *; lia| |].
  - apply IH; [lia|done|done].
Qed.

Lemma load_lines_app ls1 : forall n ls2 ids,
  load_lines n (ls1 ++ ls2) ids
  = (let? i := load_lines n ls1 ids in load_lines (n + length ls1) ls2 i).
Proof.
  induction ls1 as [|l ls1 IH]; intros n ls2 ids; cbn [load_lines app length].
  - cbn. by rewrite Nat.add_0_r.
  - destruct (load_line n l) as [id|e]; [|done]. cbn [outcome_bind].
    rewrite IH. by rewrite Nat.add_succ_r.
Qed.

Lemma consumed_record_sorted id :
  dumps (JObj (consumed_record id))
  = dumps (JObj [("schema", JStr replay_schema); ("state", JStr "consumed"); ("token_id", JStr id)]).
Proof. reflexivity. Qed.

Lemma consumed_record_canonical id :
  canonical (JObj [("schema", JStr replay_schema); ("state", JStr "consumed"); ("token_id", JStr id)]).
Proof.
  set (kvs := [("schema", JStr replay_schema); ("state", JStr "consumed"); ("token_id", JStr id)]).
  assert (bool_decide (Sorted String.le kvs.*1) = true) as Hs by reflexivity.
  assert (bool_decide (NoDup kvs.*1) = true) as Hn by reflexivity.
  constructor; [by apply bool_decide_eq_true in Hs|by apply bool_decide_eq_true in Hn|].
  repeat constructor.
Qed.

Lemma dumps_single_line j : single_line (dumps j) = true.
Proof.
  apply (str_forallb_impl printable); [|apply dumps_printable].
  intros c. by destruct c as [[] [] [] [] [] [] [] []].
Qed.

Lemma is_blank_cons c s : is_space c = false -> is_blank (String c s) = false.
Proof.
  intros Hc. unfold is_blank, strip. cbn [lstrip]. rewrite Hc. cbn [rstrip].
  destruct (rstrip s); [by rewrite Hc|done].
Qed.

(** What [load_line] makes of a record: the identifier it was written for. *)
Lemma load_record_line n id :
  id <> "" -> text id = id -> load_line n (record_line id) = Ok (Some id).
Proof.
  intros Hne Hid. unfold load_line, record_line. rewrite consumed_record_sorted.
  unfold loads. rewrite (loads_dumps_ws plain_object _ nl (consumed_record_canonical id)) by done.
  assert (is_blank (dumps (JObj [("schema", JStr replay_schema); ("state", JStr "consumed");
    ("token_id", JStr id)]) +:+ nl) = false) as -> by (by apply is_blank_cons).
  cbn [of_json].
  set (d := _ <$> _). change (get d "schema") with (PStr replay_schema).
  change (get d "state") with (PStr "consumed"). change (get d "token_id") with (PStr id).
  cbn -[text_strict]. rewrite (text_strict_id _ Hid). by destruct id.
Qed.

Lemma ends_with_newline_app s t : t <> "" -> ends_with_newline t = true -> ends_with_newline (s +:+ t) = true.
Proof.
  intros Ht He. induction s as [|c s IH]; [done|]. cbn [String.append].
  destruct (s +:+ t) as [|d u] eqn:E; [|done]. by destruct s.
Qed.

Lemma load_lines_union ls : forall n ids ids',
  load_lines n ls ids = Ok ids' ->
  exists new, ids' = new ∪ ids /\ forall ids2, load_lines n ls ids2 = Ok (new ∪ ids2).
Proof.
  induction ls as [|l ls IH]; intros n ids ids' H; cbn [load_lines] in *.
  - injection H as <-. exists ∅. split; [set_solver|]. intros ids2. f_equal. set_solver.
  - destruct (load_line n l) as [id|e]; [cbn [outcome_bind] in *|discriminate H].
    destruct (IH _ _ _ H) as (new & -> & Hnew). destruct id as [i|].
    + exists (new ∪ {[i]}). split; [set_solver|]. intros ids2. rewrite Hnew. f_equal. set_solver.
    + by exists new.
Qed.

(** ** The state of a ledger that is in use *)

(** The file parses and its last line is complete. *)
Definition file_ok (l : ledger) (ids : gset string) : Prop :=
  load_handle (default "" (file l)) = Ok ids /\
  ends_with_newline (default "" (file l)) = true.

Lemma load_appended content ids id :
  ends_with_newline content = true -> load_handle content = Ok ids -> id <> "" -> text id = id ->
  load_handle (content +:+ record_line id) = Ok ({[id]} ∪ ids).
Proof.
  intros He Hl Hne Hid. unfold load_handle, file_lines in *.
  rewrite lines_from_app by done. rewrite load_lines_app, Hl. cbn [outcome_bind].
  unfold record_line at 1. rewrite lines_from_single by apply dumps_single_line.
  cbn [load_lines String.append]. fold (record_line id).
  by rewrite (load_record_line _ id Hne Hid).
Qed.

Lemma load_file_ok l ids : file_ok l ids -> load (file l) = Ok ids.
Proof. intros [H _]. unfold load. destruct (file l); [done|]. cbn in H. by injection H as <-. Qed.

Lemma text_strict_nonempty s : text_strict s <> "" -> text_strict s = s /\ text s = s.
Proof. destruct (text_strict_cases s) as [H|[H _]]; [done|]. by rewrite H. Qed.

(** [consume] on a usable ledger: it answers whether the identifier is new, and leaves a
    usable ledger that contains it. *)
Lemma consume_ok id l ids :
  file_ok l ids -> id <> "" -> text id = id ->
  exists l', consume id l = Ok (negb (bool_decide (id ∈ ids)), l') /\
    file_ok l' ({[id]} ∪ ids) /\ token_ids l' = {[id]} ∪ ids.
Proof.
  intros [Hl He] Hne Hid. unfold consume.
  rewrite (text_strict_id _ Hid).
  destruct (is_nonempty id) eqn:Hn; [cbn [negb]|by destruct id].
  rewrite Hl. cbn [outcome_bind].
  destruct (decide (id ∈ ids)) as [Hin|Hnin].
  - rewrite bool_decide_true by done. eexists. split; [done|].
    assert ({[id]} ∪ ids = ids) as -> by set_solver. by split_and!.
  - rewrite bool_decide_false by done. eexists. split; [done|]. split; [|done]. split; cbn [file default].
    + by apply load_appended.
    + apply ends_with_newline_app; [by unfold record_line; destruct (dumps (JObj (consumed_record id)))|]. unfold record_line. by apply ends_with_newline_app.
Qed.

Lemma consume_invalid id l : text_strict id = "" ->
  consume id l = raise ValueError "token_id must be a non-empty normalized string".
Proof. intros H. unfold consume. by rewrite H. Qed.

Lemma contains_ok v l ids :
  file_ok l ids ->
  exists l', contains v l = Ok (match v with
      | PStr s => is_nonempty (text_strict s) && bool_decide (text_strict s ∈ ids)
      | _ => false end, l') /\ file l' = file l.
Proof.
  intros Hok. unfold contains. destruct v; try by eexists.
  destruct (is_nonempty (text_strict s)); cbn; [|by eexists].
  rewrite (load_file_ok _ _ Hok). by eexists.
Qed.

(** ** A sequence of consumptions *)

Fixpoint consume_all (ids : list string) (l : ledger) : outcome (list bool * ledger) :=
  match ids with
  | [] => Ok ([], l)
  | id :: rest =>
      let? r := consume id l in
      let? rs := consume_all rest r.2 in Ok (r.1 :: rs.1, rs.2)
  end.

(** Which of them are the first use of their identifier. *)
Fixpoint first_uses (seen : gset string) (ids : list string) : list bool :=
  match ids with
  | [] => []
  | id :: rest => negb (bool_decide (id ∈ seen)) :: first_uses ({[id]} ∪ seen) rest
  end.

Lemma consume_all_ok ids : forall l seen,
  file_ok l seen -> Forall (fun id => id <> "" /\ text id = id) ids ->
  exists l', consume_all ids l = Ok (first_uses seen ids, l') /\
    file_ok l' (list_to_set ids ∪ seen).
Proof.
  induction ids as [|id ids IH]; intros l seen Hok Hn.
  - exists l. split; [done|]. assert (list_to_set [] ∪ seen = seen) as -> by set_solver. done.
  - apply Forall_cons in Hn as [[Hne Hid] Hn]. cbn [consume_all first_uses].
    destruct (consume_ok id l seen Hok Hne Hid) as (l1 & -> & Hok1 & _). cbn [outcome_bind fst snd].
    destruct (IH l1 _ Hok1 Hn) as (l2 & -> & Hok2). cbn [outcome_bind fst snd]. exists l2.
    split; [done|].
    assert (list_to_set (id :: ids) ∪ seen = list_to_set ids ∪ ({[id]} ∪ seen)) as -> by set_solver.
    done.
Qed.
