(* ===== verification/SafetyGates.v ===== *)
(** [services/safety_gate_registry.py]: named safety gates bound to a capability and
    targets.  A gate's [check] is a callback: a parameter of [evaluate], which answers or
    raises. *)

From stdpp Require Import base gmap sets list strings.
From S2P Require Import Prelude PyText PyVal CourtToken.

Record SafetyGateSpec := mkGate {
  gate_name : string;
  gate_capability : string;
  gate_targets : list string;
  gate_check : option string  (* the callback's identity; [None] when not callable *)
}.

(** The dictionary [_gates], in insertion order. *)
Abbreviation gates := (list SafetyGateSpec).

Definition find_gate (g : gates) (name : string) : option SafetyGateSpec :=
  head (filter (fun s => gate_name s = name) g).

(** [SafetyGateRegistry.register] *)
Definition register_gate (spec : SafetyGateSpec) (g : gates) : outcome gates :=
  let name := text_strict (gate_name spec) in
  let capability := text_strict (gate_capability spec) in
  let targets := sorted_set (text_strict <$> gate_targets spec) in
  if negb (is_nonempty name) || negb (is_nonempty capability) || bool_decide (targets = [])
  then raise ValueError "safety gate name, capability, and targets are required"
  else if negb (forallb is_nonempty targets)
  then raise ValueError "safety gate targets must be normalized strings"
  else match gate_check spec with
  | None => raise ValueError "safety gate check must be callable"
  | Some check =>
      if bool_decide (is_Some (find_gate g name))
      then raise ValueError ("safety gate " +:+ repr name +:+ " is already registered")
      else Ok (g ++ [mkGate name capability targets (Some check)])
  end.

(** [SafetyGateRegistry.get] *)
Definition get_gate (g : gates) (name : string) : outcome SafetyGateSpec :=
  let normalized := text_strict name in
  match find_gate g normalized with
  | Some s => Ok s
  | None => raise KeyError (repr ("safety gate " +:+ repr normalized +:+ " is not registered"))
  end.

(** [names], [count], [is_registered] *)
Definition gate_names (g : gates) : list string := sorted_strings (gate_name <$> g).
Definition gate_count (g : gates) : nat := length g.
Definition gate_is_registered (g : gates) (name : string) : bool :=
  is_nonempty (text_strict name) && bool_decide (is_Some (find_gate g (text_strict name))).

Definition gate_matches (t : CapabilityToken) (s : SafetyGateSpec) : bool :=
  bool_decide (gate_capability s = tok_capability t) &&
  (bool_decide ("*" ∈ gate_targets s) || bool_decide (tok_target t ∈ gate_targets s)).

(** The callback of each gate. *)
Definition gate_callbacks := string -> CapabilityToken -> pyval -> outcome (pyval * string).

Definition or_else (reason dflt : string) : string := if is_nonempty reason then reason else dflt.

(** [SafetyGateRegistry.evaluate] *)
Definition evaluate (check : gate_callbacks) (g : gates) (t : CapabilityToken) (ps : pyval)
    : outcome (bool * string) :=
  match filter (fun s => gate_matches t s = true) g with
  | [] => Ok (false, "no matching safety gate is registered")
  | [gate] =>
      let answer := match gate_check gate with
                    | Some c => check c t ps
                    | None => raise TypeError "object is not callable" end in
      match answer with
      | Err exc =>
          if is_Exception exc
          then Ok (false, "safety gate " +:+ gate_name gate +:+ " failed: " +:+ exn_message exc)
          else Err exc
      | Ok (allowed, reason) =>
          if negb (is_true_obj allowed)
          then Ok (false, or_else reason ("safety gate " +:+ gate_name gate +:+ " denied execution"))
          else Ok (true, or_else reason ("safety gate " +:+ gate_name gate +:+ " approved execution"))
      end
  | _ => Ok (false, "multiple safety gates match capability and target")
  end.

(** ** Facts *)

Record wf_gate (s : SafetyGateSpec) : Prop := {
  wfg_name : gate_name s <> "" /\ text (gate_name s) = gate_name s;
  wfg_capability : gate_capability s <> "" /\ text (gate_capability s) = gate_capability s;
  wfg_targets : gate_targets s <> [] /\ sorted_set (gate_targets s) = gate_targets s /\
    Forall (fun x => x <> "" /\ text x = x) (gate_targets s);
  wfg_check : is_Some (gate_check s)
}.

Definition gates_inv (g : gates) : Prop := NoDup (gate_name <$> g) /\ Forall wf_gate g.

Lemma nonempty_strict s : is_nonempty (text_strict s) = true ->
  text_strict s <> "" /\ text (text_strict s) = text_strict s.
Proof. destruct (text_strict_cases s) as [[-> ?]|[-> _]]; [|done]. by destruct s. Qed.

Lemma find_gate_none g name : find_gate g name = None <-> name ∉ gate_name <$> g.
Proof.
  unfold find_gate. induction g as [|s g IH]; [by split; [intros _ ?%elem_of_nil|]|].
  rewrite filter_cons, fmap_cons, elem_of_cons. case_decide as H; cbn; [naive_solver|].
  rewrite IH. naive_solver.
Qed.

Lemma register_gate_inv spec g g' :
  gates_inv g -> register_gate spec g = Ok g' -> gates_inv g'.
Proof.
  intros [Hnd Hwf] H. unfold register_gate in H. guards H.
  destruct (gate_check spec) as [c|]; [|done]. guards H. injection H as <-.
  rewrite <- eq_None_not_Some in G1. destruct G as [[Hn Hc] Ht]. split.
  - rewrite fmap_app. apply NoDup_app. split_and!; [done| |by apply NoDup_singleton].
    intros x Hx [= ->]%list_elem_of_singleton. by apply find_gate_none in G1.
  - apply Forall_app. split; [done|]. apply Forall_singleton.
    split; cbn; [by apply nonempty_strict..| |by eexists].
    split_and!; [done|apply sorted_set_idem|]. apply Forall_forall. intros x Hx.
    apply forallb_Forall in G0. rewrite Forall_forall in G0. specialize (G0 x Hx). cbn in G0.
    apply elem_of_sorted_set, list_elem_of_fmap in Hx as (y & -> & _). by apply nonempty_strict.
Qed.

Lemma find_gate_app g1 s name :
  find_gate g1 name = None ->
  find_gate (g1 ++ [s]) name = if decide (gate_name s = name) then Some s else None.
Proof.
  unfold find_gate. intros H. rewrite filter_app.
  destruct (filter _ g1); [|done]. cbn. by case_decide.
Qed.

(** What [evaluate] approves: exactly one gate matches, and its check answered [True]. *)
Lemma evaluate_true check g t ps reason :
  evaluate check g t ps = Ok (true, reason) <->
  exists gate c r, filter (fun s => gate_matches t s = true) g = [gate] /\
    gate_check gate = Some c /\ check c t ps = Ok (PBool true, r) /\
    reason = or_else r ("safety gate " +:+ gate_name gate +:+ " approved execution").
Proof.
  unfold evaluate. destruct (filter _ g) as [|gate [|gate2 rest]].
  1,3: split; [done|by intros (? & ? & ? & ? & _)].
  split.
  - intros H. destruct (gate_check gate) as [c|] eqn:Hc; [|done].
    destruct (check c t ps) as [[v r]|e] eqn:Ha; [|by destruct (is_Exception e)].
    destruct v as [|[]| | | | | |]; try done. injection H as <-. by exists gate, c, r.
  - intros (g' & c & r & [= <-] & -> & -> & ->). done.
Qed.

(** It never approves by accident, and only a [BaseException] escapes. *)
Lemma evaluate_raises check g t ps e : evaluate check g t ps = Err e -> is_Exception e = false.
Proof.
  unfold evaluate. destruct (filter _ g) as [|gate [|gate2 rest]]; [done| |done].
  destruct (gate_check gate) as [c|] eqn:Hc; [|done].
  destruct (check c t ps) as [[v r]|e'] eqn:Ha.
  - by destruct (is_true_obj v).
  - destruct (is_Exception e') eqn:He; naive_solver.
Qed.
