(* ===== verification/ResponderIntake.v ===== *)
(** [services/responder_action_intake.py]: admission of responder proposals as evidence.
    A dataclass with a [__post_init__] is a record with a checking constructor. *)

From stdpp Require Import base gmap sets list strings.
From Stdlib Require Import ZArith Ascii.
From S2P Require Import Prelude PyText PyVal.

(** [_PLAN_KEYS] *)
Definition plan_keys : list string :=
  ["request_id"; "action_name"; "incident_id"; "source"; "authority"; "requires_runtime_court"].

(** [_SYMBOLIC_ACTION.fullmatch]: [[a-z0-9][a-z0-9._-]{0,127}] *)
Definition lower_alnum (c : ascii) : bool :=
  ((97 <=? code c) && (code c <=? 122)) || ((48 <=? code c) && (code c <=? 57)).
Definition symbolic_char (c : ascii) : bool :=
  lower_alnum c || (code c =? 46) || (code c =? 95) || (code c =? 45).
Definition symbolic_action (s : string) : bool :=
  match s with
  | "" => false
  | String c s' => lower_alnum c && str_forallb symbolic_char s' && (String.length s' <=? 127)
  end.

(** [_require_identifier] *)
Definition control_char (c : ascii) : bool := (code c <? 32) || (code c =? 127).
Definition require_identifier (value name : string) : outcome unit :=
  if 128 <? String.length value then raise ValueError (name +:+ " exceeds 128 characters")
  else if negb (str_forallb (fun c => negb (control_char c)) value)
  then raise ValueError (name +:+ " contains control characters")
  else Ok tt.

(** [_required_text] *)
Definition required_text (value : pyval) (name : string) : outcome string :=
  match value with
  | PStr s =>
      if negb (is_nonempty s) || bool_decide (strip s <> s)
      then raise ValueError (name +:+ " must be a non-empty trimmed string")
      else Ok s
  | _ => raise ValueError (name +:+ " must be a non-empty trimmed string")
  end.

Record ResponderActionProposal := mkProposal {
  prop_request_id : string;
  prop_action_name : string;
  prop_incident_id : string;
  prop_source : string;
  prop_authority : string;
  prop_requires_runtime_court : pyval
}.

(** [ResponderActionProposal.__post_init__] *)
Definition make_proposal (p : ResponderActionProposal) : outcome ResponderActionProposal :=
  let? _ := require_identifier (prop_request_id p) "request_id" in
  let? _ := require_identifier (prop_incident_id p) "incident_id" in
  if negb (symbolic_action (prop_action_name p))
  then raise ValueError "action_name must be a normalized symbolic action using lowercase letters, numbers, dots, underscores, or hyphens"
  else if bool_decide (prop_source p <> "responder-conversation")
  then raise ValueError "responder action source must be responder-conversation"
  else if bool_decide (prop_authority p <> "none")
  then raise ValueError "responder action proposals cannot carry authority"
  else if negb (is_true_obj (prop_requires_runtime_court p))
  then raise ValueError "responder action proposals must require Runtime/Court"
  else Ok p.

Record ResponderActionCandidate := mkCandidate {
  request_id : string;
  incident_id : string;
  action_name : string;
  source : string;
  requester_context : string;
  requester_identity_state : string;
  authority : string;
  requires_runtime_court : bool;
  next_stage : string;
  intent_created : bool;
  court_authorized : bool;
  execution_performed : bool;
  actuation_performed : bool
}.

(** [ResponderActionCandidate.__post_init__] *)
Definition make_candidate (c : ResponderActionCandidate) : outcome ResponderActionCandidate :=
  if bool_decide (authority c <> "none")
  then raise ValueError "responder action candidate cannot carry authority"
  else if negb (requires_runtime_court c)
  then raise ValueError "responder action candidate must require Runtime/Court"
  else if bool_decide (requester_identity_state c <> "unresolved")
  then raise ValueError "responder identity cannot be pre-resolved by proposal intake"
  else if intent_created c || court_authorized c || execution_performed c || actuation_performed c
  then raise ValueError "proposal intake cannot create authority or execution state"
  else Ok c.

(** [ResponderActionCandidate.to_evidence] *)
Definition to_evidence (c : ResponderActionCandidate) : pyval :=
  PDict [(PStr "request_id", PStr (request_id c)); (PStr "incident_id", PStr (incident_id c));
         (PStr "action_name", PStr (action_name c)); (PStr "source", PStr (source c));
         (PStr "requester_context", PStr (requester_context c));
         (PStr "requester_identity_state", PStr (requester_identity_state c));
         (PStr "authority", PStr (authority c));
         (PStr "requires_runtime_court", PBool (requires_runtime_court c));
         (PStr "next_stage", PStr (next_stage c));
         (PStr "intent_created", PBool (intent_created c));
         (PStr "court_authorized", PBool (court_authorized c));
         (PStr "execution_performed", PBool (execution_performed c));
         (PStr "actuation_performed", PBool (actuation_performed c))].

Record ResponderActionIntakeDecision := mkIntake {
  admitted : bool;
  intake_state : string;
  intake_reason : string;
  candidate : option ResponderActionCandidate
}.

(** [repr] of a list of strings. *)
Definition repr_strings (l : list string) : string := "[" +:+ join ", " (repr <$> l) +:+ "]".

(** Whether [sorted] can order these distinct keys: text with text, numbers with numbers. *)
Definition is_number (v : pyval) : bool := is_int v || is_float v.
Definition sortable (l : list pyval) : bool :=
  (length l <=? 1) || forallb is_str l || forallb is_number l.

(** [repr] of a key in an error message; keys that are all text are sorted, numbers are
    listed as the mapping has them. *)
Definition key_repr (v : pyval) : string :=
  match v with
  | PStr s => repr s
  | PInt z => str_of_Z z
  | PBool b => if b then "True" else "False"
  | PNone => "None"
  | _ => "..."
  end.
Definition repr_keys (l : list pyval) : string :=
  if forallb is_str l
  then repr_strings (sorted_strings ((fun v => match v with PStr s => s | _ => "" end) <$> l))
  else "[" +:+ join ", " (key_repr <$> l) +:+ "]".

(** [parse_responder_action_proposal] *)
Definition parse_responder_action_proposal (plan : pyval) : outcome ResponderActionProposal :=
  match plan with
  | PDict d =>
      let keys := d.*1 in
      let unknown := filter (fun k => existsb (eq_str k) plan_keys = false) keys in
      let missing := filter (fun k => existsb (fun v => eq_str v k) keys = false) plan_keys in
      if bool_decide (0 < length unknown) then
        (if sortable unknown
         then raise ValueError ("unsupported responder action fields: " +:+
                                repr_keys unknown)
         else raise TypeError "'<' not supported between instances")
      else if bool_decide (missing <> [])
      then raise ValueError ("missing responder action fields: " +:+ repr_strings (sorted_strings missing))
      else
        let? rid := required_text (get d "request_id") "request_id" in
        let? act := required_text (get d "action_name") "action_name" in
        let? iid := required_text (get d "incident_id") "incident_id" in
        let? src := required_text (get d "source") "source" in
        let? auth := required_text (get d "authority") "authority" in
        make_proposal (mkProposal rid act iid src auth (get d "requires_runtime_court"))
  | _ => raise TypeError "responder action proposal must be a mapping"
  end.

(** A candidate with the dataclass defaults. *)
Definition default_candidate (rid iid act src : string) : ResponderActionCandidate :=
  mkCandidate rid iid act src "responder-conversation" "unresolved" "none" true
    "incident-action-policy" false false false false.

(** [admit_responder_action_proposal] *)
Definition admit_responder_action_proposal (plan : pyval) (incident_active : bool)
    (active_incident_id : option string) : outcome ResponderActionIntakeDecision :=
  let? proposal := parse_responder_action_proposal plan in
  if negb incident_active then
    Ok (mkIntake false "no-active-incident" "responder action proposal requires an active incident" None)
  else match active_incident_id with
  | None =>
      Ok (mkIntake false "active-incident-id-unavailable" "active incident identity is unavailable" None)
  | Some active =>
      let? active_id := required_text (PStr active) "active_incident_id" in
      let? _ := require_identifier active_id "active_incident_id" in
      if bool_decide (prop_incident_id proposal <> active_id) then
        Ok (mkIntake false "incident-mismatch"
              "responder action proposal does not match the active incident" None)
      else
        let? c := make_candidate (default_candidate (prop_request_id proposal)
                    (prop_incident_id proposal) (prop_action_name proposal) (prop_source proposal)) in
        Ok (mkIntake true "proposal-admitted" "proposal preserved for incident-action policy review"
              (Some c))
  end.

(** ** Facts *)

(** The invariant of every candidate object. *)
Record wf_candidate (c : ResponderActionCandidate) : Prop := {
  cand_authority : authority c = "none";
  cand_court : requires_runtime_court c = true;
  cand_identity : requester_identity_state c = "unresolved";
  cand_inert : intent_created c = false /\ court_authorized c = false /\
    execution_performed c = false /\ actuation_performed c = false
}.

Lemma make_candidate_wf c c' : make_candidate c = Ok c' -> c' = c /\ wf_candidate c.
Proof.
  unfold make_candidate. intros H. guards H. injection H as <-. split; [done|].
  destruct G2 as [[[? ?] ?] ?]. split; try done; by apply dec_stable.
Qed.

(** The proposals that parse. *)
Record wf_proposal (p : ResponderActionProposal) : Prop := {
  wfp_request : prop_request_id p <> "" /\ String.length (prop_request_id p) <= 128;
  wfp_incident : prop_incident_id p <> "" /\ String.length (prop_incident_id p) <= 128;
  wfp_action : symbolic_action (prop_action_name p) = true;
  wfp_source : prop_source p = "responder-conversation";
  wfp_authority : prop_authority p = "none"
}.

Lemma required_text_ok v name s : required_text v name = Ok s -> v = PStr s /\ s <> "" /\ strip s = s.
Proof.
  unfold required_text. destruct v; try done. intros H. guards H. injection H as <-.
  destruct G as [Hne Ht]. split_and!; [done|by destruct s0|by apply dec_stable].
Qed.

Lemma require_identifier_ok v name u : require_identifier v name = Ok u -> String.length v <= 128.
Proof. unfold require_identifier. intros H. guards H. by apply Nat.ltb_ge in G. Qed.

(** The mapping a proposal was read from: exactly the six keys, with the fields as values. *)
Record parsed_from (d : items) (p : ResponderActionProposal) : Prop := {
  pf_known : Forall (fun k => exists s, k = PStr s /\ s ∈ plan_keys) d.*1;
  pf_all : Forall (fun k => PStr k ∈ d.*1) plan_keys;
  pf_request : get d "request_id" = PStr (prop_request_id p);
  pf_action : get d "action_name" = PStr (prop_action_name p);
  pf_incident : get d "incident_id" = PStr (prop_incident_id p);
  pf_court : get d "requires_runtime_court" = PBool true
}.

Lemma is_true_obj_spec v : is_true_obj v = true -> v = PBool true.
Proof. by destruct v as [|[]| | | | | |]. Qed.

Lemma make_proposal_ok p p' :
  make_proposal p = Ok p' -> prop_request_id p <> "" -> prop_incident_id p <> "" ->
  p' = p /\ wf_proposal p /\ prop_requires_runtime_court p = PBool true.
Proof.
  unfold make_proposal. intros H Hr Hi. guards H. injection H as <-.
  apply require_identifier_ok in G, G0. split_and!; [done| |by apply is_true_obj_spec].
  split; try done; by apply dec_stable.
Qed.

Lemma parse_ok plan p :
  parse_responder_action_proposal plan = Ok p ->
  exists d, plan = PDict d /\ parsed_from d p /\ wf_proposal p.
Proof.
  unfold parse_responder_action_proposal. destruct plan as [| | | | | | |d]; try done.
  cbv zeta. intros H. exists d. split; [done|].
  case_bool_decide as Hunk; [by destruct (sortable _)|].
  case_bool_decide as Hmis; [done|]. guards H.
  apply required_text_ok in G as (? & ? & _), G0 as (? & ? & _), G1 as (? & ? & _),
    G2 as (? & ? & _), G3 as (? & ? & _).
  apply make_proposal_ok in H as (-> & Hwf & Hc); [|done..]. split; [|done]. split; try done.
  - apply Forall_forall. intros k Hk.
    destruct (existsb (eq_str k) plan_keys) eqn:He.
    + apply existsb_Exists, Exists_exists in He as (s & Hs & <-%eq_str_spec%symmetry). by exists s.
    + exfalso. apply Hunk. assert (k ∈ filter (fun k => existsb (eq_str k) plan_keys = false) d.*1) as Hin
        by (by apply list_elem_of_filter).
      destruct (filter _ d.*1); [by apply elem_of_nil in Hin|cbn; lia].
  - apply Forall_forall. intros s Hs.
    destruct (existsb (fun v => eq_str v s) d.*1) eqn:He.
    + apply existsb_Exists, Exists_exists in He as (v & Hv & ->%eq_str_spec). done.
    + exfalso. assert (s ∈ filter (fun k => existsb (fun v => eq_str v k) d.*1 = false) plan_keys) as Hin
        by (by apply list_elem_of_filter).
      rewrite Hmis in Hin. by apply elem_of_nil in Hin.
Qed.
