(* ===== verification/Incident.v ===== *)
(** The emergency path before the Court: [services/emergency_action_eligibility.py],
    [services/incident_action_policy.py] and [services/incident_action_resolver.py].
    Each stage is a total decision on the responder's candidate; none of them creates
    authority. *)

From stdpp Require Import base gmap sets list strings.
From Stdlib Require Import ZArith Ascii.
From S2P Require Import Prelude PyText PyVal Court ResponderIntake.

(** ** [emergency_action_eligibility.py] *)

Inductive EmergencyActivation : Set := CONFIRMED_EMERGENCY | ACCIDENT | MANUAL_EMERGENCY_PROTOCOL.

Definition activation_value (a : EmergencyActivation) : string :=
  match a with
  | CONFIRMED_EMERGENCY => "confirmed-emergency"
  | ACCIDENT => "accident"
  | MANUAL_EMERGENCY_PROTOCOL => "manual-emergency-protocol"
  end.

Record EmergencyIncidentContext := mkEmergency {
  em_incident_id : string;
  active : bool;
  activation : EmergencyActivation;
  activation_verified : bool
}.

(** [_require_identifier] of this module, which also wants a trimmed, non-empty text. *)
Definition require_trimmed_identifier (value name : string) : outcome unit :=
  if negb (is_nonempty value) || bool_decide (strip value <> value)
  then raise ValueError (name +:+ " must be a non-empty trimmed string")
  else require_identifier value name.

(** [EmergencyIncidentContext.__post_init__] *)
Definition make_emergency (c : EmergencyIncidentContext) : outcome EmergencyIncidentContext :=
  let? _ := require_trimmed_identifier (em_incident_id c) "incident_id" in Ok c.

Record EmergencyEligibilityDecision := mkEligibility {
  eligible : bool;
  el_state : string;
  el_priority_band : string;
  el_priority_rank : Z;
  preempts_ordinary_work : bool;
  expedited_policy_path : bool;
  el_requires_runtime_court : bool;
  bypasses_authority : bool;
  bypasses_safety : bool;
  el_reason : string
}.

(** [_deny] *)
Definition deny_eligibility (state reason : string) : EmergencyEligibilityDecision :=
  mkEligibility false state "ordinary" 100 false false true false false reason.

(** [evaluate_emergency_first_eligibility] *)
Definition evaluate_emergency_first_eligibility (c : ResponderActionCandidate)
    (ctx : EmergencyIncidentContext) : EmergencyEligibilityDecision :=
  if bool_decide (authority c <> "none") || negb (requires_runtime_court c) then
    deny_eligibility "invalid-proposal-boundary" "proposal no longer preserves the responder authority boundary"
  else if bool_decide (incident_id c <> em_incident_id ctx) then
    deny_eligibility "incident-mismatch" "proposal does not belong to the active emergency incident"
  else if negb (active ctx) then
    deny_eligibility "incident-inactive" "emergency-first eligibility requires an active incident"
  else if negb (activation_verified ctx) then
    deny_eligibility "activation-unverified"
      "emergency activation must already be verified by its trusted incident boundary"
  else
    mkEligibility true "emergency-first-eligible" "life-safety" 0 true true true false false
      ("verified active " +:+ activation_value (activation ctx) +:+
       " incident receives first-priority policy evaluation before ordinary work").

(** ** [incident_action_policy.py] *)

Inductive IncidentActionFamily : Set := VISIBILITY | RESCUE_ACCESS | MOTION_OR_POWER | UNKNOWN.
#[export] Instance family_eq_dec : EqDecision IncidentActionFamily.
Proof. solve_decision. Defined.

Definition visibility_actions : list string := ["hazards-on"; "cabin-light-on"; "exterior-light-on"].
Definition rescue_access_actions : list string :=
  ["unlock-door"; "unlock.driver-door"; "unlock.passenger-door"; "unlock-all-doors"].
Definition motion_or_power_actions : list string :=
  ["start-engine"; "stop-engine"; "shift-gear"; "release-parking-brake"; "apply-throttle";
   "apply-brake"; "steer"; "drive"; "propulsion-on"; "propulsion-off"].
Definition motion_or_power_prefixes : list string :=
  ["steer."; "throttle."; "brake."; "shift."; "drive."; "propulsion."; "powertrain."].

Record IncidentActionEvidence := mkEvidence {
  vehicle_stationary_verified : bool;
  rescue_access_needed : bool;
  responder_on_scene_verified : bool
}.

Record IncidentActionPolicyDecision := mkPolicyDecision {
  may_advance : bool;
  pol_state : string;
  action_family : IncidentActionFamily;
  priority_band : string;
  priority_rank : Z;
  required_evidence : list string;
  missing_evidence : list string;
  pol_requires_runtime_court : bool;
  requires_safety_gate : bool;
  pol_authority : string;
  creates_intent : bool;
  selects_capability : bool;
  selects_target : bool;
  selects_executor : bool;
  pol_reason : string
}.

(** [_classify] *)
Definition classify (name : string) : IncidentActionFamily :=
  if bool_decide (name ∈ visibility_actions) then VISIBILITY
  else if bool_decide (name ∈ rescue_access_actions) then RESCUE_ACCESS
  else if bool_decide (name ∈ motion_or_power_actions) ||
          existsb (fun p => startswith p name) motion_or_power_prefixes then MOTION_OR_POWER
  else UNKNOWN.

(** [_advance] *)
Definition advance (family : IncidentActionFamily) (required : list string) (reason : string)
    : IncidentActionPolicyDecision :=
  mkPolicyDecision true "eligible-for-governed-resolution" family "life-safety" 0 required [] true
    true "none" false false false false reason.

(** [_deny] *)
Definition deny_policy (state : string) (family : IncidentActionFamily) (reason : string)
    (established : bool) : IncidentActionPolicyDecision :=
  mkPolicyDecision false state family (if established then "life-safety" else "ordinary")
    (if established then 0 else 100) [] [] true true "none" false false false false reason.

Definition rescue_evidence : list string :=
  ["vehicle-stationary-verified"; "rescue-access-needed"; "responder-on-scene-verified"].

Definition missing_rescue_evidence (e : IncidentActionEvidence) : list string :=
  (if negb (vehicle_stationary_verified e) then ["vehicle-stationary-verified"] else []) ++
  (if negb (rescue_access_needed e) then ["rescue-access-needed"] else []) ++
  (if negb (responder_on_scene_verified e) then ["responder-on-scene-verified"] else []).

(** [evaluate_incident_action_policy] *)
Definition evaluate_incident_action_policy (c : ResponderActionCandidate)
    (emergency : EmergencyEligibilityDecision) (ctx : EmergencyIncidentContext)
    (evidence : IncidentActionEvidence) : IncidentActionPolicyDecision :=
  let family := classify (action_name c) in
  if bool_decide (authority c <> "none") || negb (requires_runtime_court c) then
    deny_policy "invalid-proposal-boundary" family
      "proposal no longer preserves the responder authority boundary" false
  else if bool_decide (incident_id c <> em_incident_id ctx) then
    deny_policy "incident-context-mismatch" family
      "responder proposal does not match the emergency incident context" false
  else if negb (active ctx) || negb (activation_verified ctx) then
    deny_policy "emergency-context-not-active-verified" family
      "incident action policy requires an active verified emergency context" false
  else if negb (eligible emergency) || bool_decide (el_priority_band emergency <> "life-safety") then
    deny_policy "emergency-first-not-established" family
      "responder action policy requires verified emergency-first eligibility" false
  else match family with
  | MOTION_OR_POWER =>
      deny_policy "separate-emergency-maneuver-policy-required" family
        "motion and powertrain requests cannot advance from responder conversation policy" true
  | UNKNOWN =>
      deny_policy "action-not-policy-mapped" family
        "unknown responder action has no incident policy mapping" true
  | VISIBILITY =>
      advance family []
        "verified emergency visibility request may advance immediately to governed resolution"
  | RESCUE_ACCESS =>
      let missing := missing_rescue_evidence evidence in
      if bool_decide (missing <> []) then
        mkPolicyDecision false "specific-evidence-required" family "life-safety" 0 rescue_evidence
          missing true true "none" false false false false
          "rescue-access request stays first-priority while waiting only for its required evidence"
      else advance family rescue_evidence
             "verified on-scene rescue-access request may advance to governed resolution"
  end.

(** ** [incident_action_resolver.py] *)

Record IncidentActionResolution := mkResolution {
  resolved : bool;
  rs_state : string;
  rs_request_id : string;
  rs_incident_id : string;
  rs_action_name : string;
  rs_family : IncidentActionFamily;
  capability : option string;
  logical_target : option string;
  rs_priority_band : string;
  rs_priority_rank : Z;
  rs_authority : string;
  requires_context_binding : bool;
  rs_requires_runtime_court : bool;
  rs_requires_safety_gate : bool;
  rs_creates_intent : bool;
  rs_court_authorized : bool;
  rs_selects_executor : bool;
  token_issued : bool;
  rs_execution_performed : bool;
  rs_actuation_performed : bool;
  rs_reason : string
}.

(** [IncidentActionResolution.__post_init__] *)
Definition make_resolution (r : IncidentActionResolution) : outcome IncidentActionResolution :=
  if bool_decide (rs_authority r <> "none")
  then raise ValueError "incident action resolution cannot carry authority"
  else if negb (requires_context_binding r)
  then raise ValueError "incident action resolution must require trusted context binding"
  else if negb (rs_requires_runtime_court r)
  then raise ValueError "incident action resolution must require Runtime/Court"
  else if negb (rs_requires_safety_gate r)
  then raise ValueError "incident action resolution must require safety gating"
  else if rs_creates_intent r || rs_court_authorized r || rs_selects_executor r || token_issued r ||
          rs_execution_performed r || rs_actuation_performed r
  then raise ValueError "resolver cannot create authorization or execution state"
  else Ok r.

(** [_ACTION_MAP] *)
Definition action_map : list (string * (IncidentActionFamily * string * string)) :=
  [("hazards-on", (VISIBILITY, "visibility.request", "vehicle.visibility.hazards"));
   ("cabin-light-on", (VISIBILITY, "visibility.request", "vehicle.visibility.cabin"));
   ("exterior-light-on", (VISIBILITY, "visibility.request", "vehicle.visibility.exterior"));
   ("unlock.driver-door", (RESCUE_ACCESS, "access.request", "vehicle.access.door.driver"));
   ("unlock.passenger-door", (RESCUE_ACCESS, "access.request", "vehicle.access.door.passenger"));
   ("unlock-all-doors", (RESCUE_ACCESS, "access.request", "vehicle.access.doors.all"))].

(** [_AMBIGUOUS_ACTIONS] *)
Definition ambiguous_actions : list (string * IncidentActionFamily) := [("unlock-door", RESCUE_ACCESS)].

(** [_unresolved] *)
Definition unresolved (c : ResponderActionCandidate) (family : IncidentActionFamily)
    (state reason : string) (established : bool) : outcome IncidentActionResolution :=
  make_resolution (mkResolution false state (request_id c) (incident_id c) (action_name c) family
    None None (if established then "life-safety" else "ordinary") (if established then 0 else 100)
    "none" true true true false false false false false false reason).

(** [resolve_incident_action] *)
Definition resolve_incident_action (c : ResponderActionCandidate)
    (policy : IncidentActionPolicyDecision) (ctx : EmergencyIncidentContext)
    : outcome IncidentActionResolution :=
  let family := action_family policy in
  if bool_decide (authority c <> "none") || negb (requires_runtime_court c) then
    unresolved c family "invalid-proposal-boundary" "responder proposal boundary is no longer intact" false
  else if bool_decide (incident_id c <> em_incident_id ctx) then
    unresolved c family "incident-context-mismatch"
      "proposal does not match the active emergency incident" false
  else if negb (active ctx) || negb (activation_verified ctx) then
    unresolved c family "emergency-context-not-active-verified"
      "resolver requires the same active verified emergency context" false
  else
  let boundary_clean :=
    bool_decide (pol_authority policy = "none") && pol_requires_runtime_court policy &&
    requires_safety_gate policy && negb (creates_intent policy) && negb (selects_capability policy) &&
    negb (selects_target policy) && negb (selects_executor policy) in
  if negb boundary_clean then
    unresolved c family "invalid-policy-boundary"
      "incident policy carries authority or execution state the resolver cannot accept" false
  else if negb (may_advance policy) then
    unresolved c family "incident-policy-not-ready"
      "incident action is still waiting on policy-required evidence"
      (bool_decide (pol_state policy = "specific-evidence-required") &&
       bool_decide (priority_band policy = "life-safety") && (priority_rank policy =? 0)%Z)
  else if bool_decide (pol_state policy <> "eligible-for-governed-resolution") ||
          bool_decide (priority_band policy <> "life-safety") || negb (priority_rank policy =? 0)%Z then
    unresolved c family "incident-policy-not-ready"
      "incident action has not reached a clean eligible policy state" false
  else match CourtReasons.assoc ambiguous_actions (action_name c) with
  | Some ambiguous_family =>
      if bool_decide (family <> ambiguous_family)
      then unresolved c family "policy-family-mismatch"
             "policy family does not match the ambiguous action mapping" true
      else unresolved c ambiguous_family "target-resolution-required"
             "generic rescue-access request must not guess which door is intended" true
  | None =>
      match CourtReasons.assoc action_map (action_name c) with
      | None =>
          unresolved c family "action-not-resolver-mapped"
            "eligible action has no reviewed capability/target mapping" true
      | Some (mapped_family, cap, target) =>
          if bool_decide (family <> mapped_family)
          then unresolved c family "policy-family-mismatch"
                 "incident policy family does not match the resolver mapping" true
          else make_resolution (mkResolution true "logical-candidate-resolved" (request_id c)
                 (incident_id c) (action_name c) mapped_family (Some cap) (Some target) "life-safety" 0
                 "none" true true true false false false false false false
                 "reviewed logical capability and target are ready for trusted context binding before Court intent construction")
      end
  end.

(** ** Facts *)

Definition emergency_live (c : ResponderActionCandidate) (ctx : EmergencyIncidentContext) : Prop :=
  incident_id c = em_incident_id ctx /\ active ctx = true /\ activation_verified ctx = true.

Definition boundary_intact (c : ResponderActionCandidate) : Prop :=
  authority c = "none" /\ requires_runtime_court c = true.

Lemma eligible_iff c ctx :
  eligible (evaluate_emergency_first_eligibility c ctx) = true <->
  boundary_intact c /\ emergency_live c ctx.
Proof.
  unfold evaluate_emergency_first_eligibility, boundary_intact, emergency_live.
  repeat case_bool_decide; destruct (requires_runtime_court c), (active ctx), (activation_verified ctx);
    cbn; naive_solver.
Qed.

Lemma missing_none e :
  missing_rescue_evidence e = [] <->
  vehicle_stationary_verified e = true /\ rescue_access_needed e = true /\
  responder_on_scene_verified e = true.
Proof. destruct e as [[] [] []]; cbn; naive_solver. Qed.

(** What a request needs to advance. *)
Definition advances (c : ResponderActionCandidate) (ctx : EmergencyIncidentContext)
    (e : IncidentActionEvidence) : Prop :=
  boundary_intact c /\ emergency_live c ctx /\
  (classify (action_name c) = VISIBILITY \/
   (classify (action_name c) = RESCUE_ACCESS /\ missing_rescue_evidence e = [])).

Lemma may_advance_iff c ctx e :
  may_advance (evaluate_incident_action_policy c (evaluate_emergency_first_eligibility c ctx) ctx e) = true
  <-> advances c ctx e.
Proof.
  unfold advances.
  destruct (eligible (evaluate_emergency_first_eligibility c ctx)) eqn:Hel.
  - apply eligible_iff in Hel as Hb. unfold evaluate_incident_action_policy. rewrite Hel.
    assert (el_priority_band (evaluate_emergency_first_eligibility c ctx) = "life-safety") as Hband.
    { revert Hel. unfold evaluate_emergency_first_eligibility.
      repeat case_match; done. }
    rewrite Hband. destruct Hb as [[Ha Hc] (Hi & Hac & Hve)]. rewrite Hc, Hac, Hve.
    rewrite !bool_decide_false by (by intros []). cbn [negb orb].
    unfold boundary_intact, emergency_live.
    destruct (classify (action_name c)) eqn:Hcl; cbn; try (split; [done|naive_solver]); [naive_solver|].
    case_bool_decide as Hm; cbn; naive_solver.
  - split.
    + intros H. exfalso. revert H. unfold evaluate_incident_action_policy. rewrite Hel.
      repeat case_match; cbn in *; try done; by rewrite ?orb_true_l in *.
    + intros (Hb & Hl & _). exfalso.
      assert (eligible (evaluate_emergency_first_eligibility c ctx) = true) by (by apply eligible_iff).
      congruence.
Qed.

Lemma unresolved_ok c f st rs b : exists r, unresolved c f st rs b = Ok r /\ resolved r = false.
Proof. by eexists. Qed.

(** A resolution that carries an action forward. *)
Record resolved_as (c : ResponderActionCandidate) (ctx : EmergencyIncidentContext)
    (r : IncidentActionResolution) (cap target : string) : Prop := {
  ra_boundary : boundary_intact c;
  ra_live : emergency_live c ctx;
  ra_mapped : CourtReasons.assoc action_map (action_name c) = Some (rs_family r, cap, target);
  ra_state : rs_state r = "logical-candidate-resolved";
  ra_capability : capability r = Some cap;
  ra_target : logical_target r = Some target;
  ra_provenance : rs_request_id r = request_id c /\ rs_incident_id r = incident_id c /\
    rs_action_name r = action_name c;
  ra_priority : rs_priority_band r = "life-safety" /\ rs_priority_rank r = 0%Z;
  ra_inert : make_resolution r = Ok r
}.

(** The resolver always answers, and what it resolves is in the reviewed map. *)
Lemma resolve_cases c policy ctx :
  exists r, resolve_incident_action c policy ctx = Ok r /\
    (resolved r = false \/
     (may_advance policy = true /\ rs_family r = action_family policy /\
      exists cap target, resolved_as c ctx r cap target)).
Proof.
  unfold resolve_incident_action. cbv zeta.
  repeat match goal with
  | |- context [if ?b then unresolved _ _ _ _ _ else _] =>
      let E := fresh "G" in destruct b eqn:E; [eexists; split; [reflexivity|by left]|]
  end.
  py_bools. destruct (CourtReasons.assoc ambiguous_actions (action_name c)) as [f|].
  { case_bool_decide; eexists; (split; [reflexivity|by left]). }
  destruct (CourtReasons.assoc action_map (action_name c)) as [[[f cap] tgt]|] eqn:Hm;
    [|eexists; split; [reflexivity|by left]].
  case_bool_decide as Hf; [eexists; split; [reflexivity|by left]|].
  eexists. split; [reflexivity|]. right. cbn. split_and!; [done|by symmetry|].
  exists cap, tgt. destruct G as [Ga Gc]. destruct G1 as [Gd Ge].
  split; cbn; try done; [split|split_and!]; try done; by apply dec_stable.
Qed.

(** The reviewed map only has actions of the families that can advance. *)
Lemma action_map_family name f cap tgt :
  CourtReasons.assoc action_map name = Some (f, cap, tgt) ->
  classify name = f /\ (f = VISIBILITY \/ f = RESCUE_ACCESS) /\ name <> "unlock-door" /\
  text name = name /\ name <> "" /\ text cap = cap /\ cap <> "" /\ text tgt = tgt /\ tgt <> "" /\
  (cap = "visibility.request" /\ f = VISIBILITY \/ cap = "access.request" /\ f = RESCUE_ACCESS).
Proof.
  cbn. repeat case_decide; intros [= <- <- <-]; subst; vm_compute; naive_solver.
Qed.

(** A decision that advances is a clean one, for the family of the action. *)
Lemma may_advance_clean c el ctx e :
  may_advance (evaluate_incident_action_policy c el ctx e) = true ->
  exists required why, evaluate_incident_action_policy c el ctx e = advance (classify (action_name c)) required why.
Proof.
  unfold evaluate_incident_action_policy. cbv zeta. intros H.
  repeat (case_match; try done; eauto).
Qed.

(** A clean decision on an action of the reviewed map is resolved. *)
Lemma resolve_mapped c ctx f cap tgt required why :
  boundary_intact c -> emergency_live c ctx ->
  CourtReasons.assoc action_map (action_name c) = Some (f, cap, tgt) ->
  exists r, resolve_incident_action c (advance f required why) ctx = Ok r /\ resolved r = true.
Proof.
  intros [Ha Hc] (Hi & Hac & Hv) Hm. pose proof (action_map_family _ _ _ _ Hm) as (_ & _ & Hne & _).
  unfold resolve_incident_action. cbv zeta. rewrite Hc, Hac, Hv, Hm.
  assert (CourtReasons.assoc ambiguous_actions (action_name c) = None) as ->
    by (cbn; by rewrite decide_False by congruence).
  rewrite (bool_decide_false (authority c <> "none")) by (by intros []).
  rewrite (bool_decide_false (incident_id c <> em_incident_id ctx)) by (by intros []).
  destruct f; eexists; (split; [reflexivity|done]).
Qed.
