(* ===== verification/Effects.v ===== *)
(** Effectful Python code as a tree of calls.  A [prog] performs an operation, continues
    with the operation's result or exception, and ends with a value or an exception.
    The file gives the constructs of Python the code uses ([try]/[except Exception],
    [finally], early [return]), partial and complete traces, a program logic over a
    monitor of the trace, an evaluator, and the interleavings of several programs. *)

From stdpp Require Import base gmap sets list strings.
From S2P Require Import Prelude.

Section Programs.
Context {E : Type -> Type}.

Inductive prog (A : Type) : Type :=
| Ret (a : A)
| Raise (e : exn)
| Vis {X : Type} (op : E X) (k : outcome X -> prog A).
Arguments Ret {A} a.
Arguments Raise {A} e.
Arguments Vis {A X} op k.

Definition of_outcome {A} (o : outcome A) : prog A :=
  match o with Ok a => Ret a | Err e => Raise e end.

(** One operation. *)
Definition call {X} (op : E X) : prog X := Vis op of_outcome.

(** Runs [m] and continues with how it ended. *)
Fixpoint handle {A B} (m : prog A) (f : outcome A -> prog B) : prog B :=
  match m with
  | Ret a => f (Ok a)
  | Raise e => f (Err e)
  | Vis op k => Vis op (fun r => handle (k r) f)
  end.

Definition bind {A B} (m : prog A) (f : A -> prog B) : prog B :=
  handle m (fun o => match o with Ok a => f a | Err e => Raise e end).

(** [try: m except Exception as exc: h(exc)] followed by the code of [f]. *)
Definition try_except {A B} (m : prog A) (h : exn -> prog B) (f : A -> prog B) : prog B :=
  handle m (fun o => match o with
    | Ok a => f a
    | Err e => if is_Exception e then h e else Raise e
    end).

End Programs.

Arguments prog E A : clear implicits.
Arguments Ret {E A} a.
Arguments Raise {E A} e.
Arguments Vis {E A X} op k.

Notation "'let*' x := m 'in' k" := (bind m (fun x => k))
  (at level 10, x pattern, m at level 100, k at level 200) : py_scope.

(** ** Traces *)

Section Traces.
Context {E : Type -> Type} {Ev : Type} (log : forall X, E X -> outcome X -> Ev).

(** A partial execution: the operations answered so far, and what is left to run.  The
    environment answers an operation with any value or exception. *)
Inductive steps {A} : prog E A -> list Ev -> prog E A -> Prop :=
| steps_nil p : steps p [] p
| steps_cons X (op : E X) k r tr p :
    steps (k r) tr p -> steps (Vis op k) (log X op r :: tr) p.

(** A complete execution. *)
Definition exec {A} (p : prog E A) (tr : list Ev) (o : outcome A) : Prop :=
  steps p tr (of_outcome o).

(** A complete execution, read off the program. *)
Lemma steps_inv {A} (p : prog E A) tr q : steps p tr q ->
  match p with
  | Vis op k => tr = [] /\ q = Vis op k \/ exists r tr', tr = log _ op r :: tr' /\ steps (k r) tr' q
  | _ => tr = [] /\ q = p
  end.
Proof. intros [p'|X op k r tr' p' H]; [destruct p'; auto|]. right. by exists r, tr'. Qed.

Lemma exec_of_outcome {A} (o : outcome A) tr o' : exec (of_outcome o) tr o' <-> tr = [] /\ o' = o.
Proof.
  unfold exec. split; [|intros [-> ->]; constructor]. intros H%steps_inv.
  destruct o, o', H as [-> H]; by simplify_eq/=.
Qed.

Lemma exec_vis {A X} (op : E X) (k : outcome X -> prog E A) tr o :
  exec (Vis op k) tr o <-> exists r tr', tr = log X op r :: tr' /\ exec (k r) tr' o.
Proof.
  unfold exec. split.
  - intros H%steps_inv. destruct H as [[_ H]|H]; [by destruct o|done].
  - intros (r & tr' & -> & H). by constructor.
Qed.

Lemma exec_handle {A B} (p : prog E A) (f : outcome A -> prog E B) tr o :
  exec (handle p f) tr o <-> exists tr1 tr2 o1, tr = tr1 ++ tr2 /\ exec p tr1 o1 /\ exec (f o1) tr2 o.
Proof.
  revert tr. induction p as [a|e|X op k IH]; intros tr; cbn.
  - split; [intros H; by exists [], tr, (Ok a); repeat split; [constructor|]|].
    intros (tr1 & tr2 & o1 & -> & [-> ->]%(exec_of_outcome (Ok a)) & H). done.
  - split; [intros H; by exists [], tr, (Err e); repeat split; [constructor|]|].
    intros (tr1 & tr2 & o1 & -> & [-> ->]%(exec_of_outcome (Err e)) & H). done.
  - rewrite exec_vis. setoid_rewrite IH. setoid_rewrite exec_vis. split.
    + intros (r & tr' & -> & tr1 & tr2 & o1 & -> & H1 & H2). by exists (log X op r :: tr1), tr2, o1; split_and!; eauto.
    + intros (tr1 & tr2 & o1 & -> & (r & tr' & -> & H1) & H2). exists r, (tr' ++ tr2). split; [done|]. eauto 6.
Qed.

(** *** A program logic *)

Section Logic.
Context {M : Type} (allowed : M -> Ev -> Prop) (next : M -> Ev -> M).

(** [wp p m Q]: from monitor state [m], every event of [p] is allowed where it happens,
    and [p] ends in an outcome and state that satisfy [Q]. *)
Fixpoint wp {A} (p : prog E A) (m : M) (Q : outcome A -> M -> Prop) : Prop :=
  match p with
  | Ret a => Q (Ok a) m
  | Raise e => Q (Err e) m
  | Vis op k => forall r, allowed m (log _ op r) /\ wp (k r) (next m (log _ op r)) Q
  end.

Lemma wp_of_outcome {A} (o : outcome A) m Q : wp (of_outcome o) m Q <-> Q o m.
Proof. by destruct o. Qed.

Lemma wp_mono {A} (p : prog E A) : forall m (Q R : outcome A -> M -> Prop),
  (forall o m', Q o m' -> R o m') -> wp p m Q -> wp p m R.
Proof.
  induction p as [a|e|X op k IH]; intros m Q R HQ; cbn; [apply HQ..|].
  intros H r. destruct (H r) as [Ha Hk]. split; [done|]. by apply (IH r _ Q).
Qed.

Lemma wp_handle {A B} (p : prog E A) (f : outcome A -> prog E B) : forall m Q,
  wp (handle p f) m Q <-> wp p m (fun o m' => wp (f o) m' Q).
Proof.
  induction p as [a|e|X op k IH]; intros m Q; cbn; [done..|].
  split; intros H r; destruct (H r) as [Ha Hk]; (split; [done|]); by apply IH.
Qed.

Lemma wp_ret {A} (a : A) m (Q : outcome A -> M -> Prop) : wp (Ret a) m Q <-> Q (Ok a) m.
Proof. done. Qed.

Lemma wp_raise {A} e m (Q : outcome A -> M -> Prop) : wp (Raise e) m Q <-> Q (Err e) m.
Proof. done. Qed.

Lemma wp_call {X} (op : E X) m (Q : outcome X -> M -> Prop) :
  wp (call op) m Q <->
  forall r, allowed m (log _ op r) /\ Q r (next m (log _ op r)).
Proof. unfold call. cbn. by setoid_rewrite wp_of_outcome. Qed.

Lemma wp_bind {A B} (p : prog E A) (f : A -> prog E B) m Q :
  wp (bind p f) m Q <->
  wp p m (fun o m' => match o with Ok a => wp (f a) m' Q | Err e => Q (Err e) m' end).
Proof.
  unfold bind. rewrite wp_handle. split; apply wp_mono; by intros [].
Qed.

Lemma wp_try_except {A B} (p : prog E A) (h : exn -> prog E B) (f : A -> prog E B) m Q :
  wp (try_except p h f) m Q <->
  wp p m (fun o m' => match o with
    | Ok a => wp (f a) m' Q
    | Err e => if is_Exception e then wp (h e) m' Q else Q (Err e) m' end).
Proof.
  unfold try_except. rewrite wp_handle. split; apply wp_mono; intros [a|e] m'; try done;
    by destruct (is_Exception e).
Qed.

(** Every event of a partial execution is allowed, and the logic still holds of the rest. *)
Lemma wp_steps {A} (p : prog E A) tr p' : steps p tr p' -> forall m Q, wp p m Q ->
  (forall tr1 e tr2, tr = tr1 ++ e :: tr2 -> allowed (fold_left next tr1 m) e) /\
  wp p' (fold_left next tr m) Q.
Proof.
  induction 1 as [p|X op k r tr p Hs IH]; intros m Q Hwp.
  - split; [|done]. intros [] ? ? ?; simplify_eq.
  - destruct (Hwp r) as [Ha Hk]. destruct (IH _ _ Hk) as [IHa IHk]. split; [|done].
    intros [|e' tr1] e tr2 Heq; injection Heq as <- Heq; [done|]. by apply (IHa tr1 e tr2).
Qed.

Lemma wp_exec {A} (p : prog E A) tr o m Q :
  exec p tr o -> wp p m Q -> Q o (fold_left next tr m).
Proof. intros Hx Hwp. destruct (wp_steps _ _ _ Hx _ _ Hwp) as [_ H]. by apply wp_of_outcome in H. Qed.
End Logic.

(** The monitor that remembers the whole trace. *)
Definition wpt (allowed : list Ev -> Ev -> Prop) {A} (p : prog E A) (tr : list Ev)
    (Q : outcome A -> list Ev -> Prop) : Prop :=
  wp allowed (fun tr e => tr ++ [e]) p tr Q.

Lemma fold_left_snoc (tr : list Ev) : forall acc, fold_left (fun tr e => tr ++ [e]) tr acc = acc ++ tr.
Proof.
  induction tr as [|e tr IH]; intros acc; cbn; [by rewrite app_nil_r|].
  by rewrite IH, <- app_assoc.
Qed.

Lemma wpt_steps allowed {A} (p : prog E A) tr p' Q :
  steps p tr p' -> wpt allowed p [] Q ->
  forall tr1 e tr2, tr = tr1 ++ e :: tr2 -> allowed tr1 e.
Proof.
  intros Hs Hwp tr1 e tr2 Heq. destruct (wp_steps _ _ _ _ _ Hs _ _ Hwp) as [H _].
  specialize (H _ _ _ Heq). by rewrite fold_left_snoc in H.
Qed.

Lemma wpt_exec allowed {A} (p : prog E A) tr o Q :
  exec p tr o -> wpt allowed p [] Q -> Q o tr.
Proof. intros Hx Hwp. apply (wp_exec _ _ _ _ _ _ _ Hx) in Hwp. by rewrite fold_left_snoc in Hwp. Qed.

Lemma wpt_mono (al1 al2 : list Ev -> Ev -> Prop) {A} (p : prog E A) : forall tr (Q R : outcome A -> list Ev -> Prop),
  (forall tr e, al1 tr e -> al2 tr e) -> (forall o tr', Q o tr' -> R o tr') ->
  wpt al1 p tr Q -> wpt al2 p tr R.
Proof.
  unfold wpt. induction p as [a|e|X op k IH]; intros tr Q R Hal HQ; cbn; [apply HQ..|].
  intros H r. destruct (H r) as [Ha Hk]. split; [by apply Hal|]. by apply (IH r _ Q).
Qed.

(** Every execution of a program is one of its traces. *)
Lemma wpt_self {A} (p : prog E A) : forall tr0,
  wpt (fun _ _ => True) p tr0 (fun o tr => exists tr', tr = tr0 ++ tr' /\ exec p tr' o).
Proof.
  unfold wpt, exec. induction p as [a|e|X op k IH]; intros tr0; cbn [wp].
  1,2: exists []; rewrite app_nil_r; split; [done|constructor].
  intros r. split; [done|]. eapply wp_mono; [|apply IH].
  cbn. intros o tr (tr' & -> & Hx). rewrite <- app_assoc. eexists. split; [done|].
  by constructor.
Qed.

(** The events a program adds are allowed, each where it happened. *)
Lemma wpt_events allowed {A} (p : prog E A) : forall tr0 Q,
  wpt allowed p tr0 Q ->
  wpt allowed p tr0 (fun o tr => Q o tr /\ exists tr', tr = tr0 ++ tr' /\
    forall tr1 e tr2, tr' = tr1 ++ e :: tr2 -> allowed (tr0 ++ tr1) e).
Proof.
  unfold wpt. induction p as [a|e|X op k IH]; intros tr0 Q; cbn [wp].
  1,2: intros H; split; [done|]; exists []; rewrite app_nil_r; split; [done|]; by intros [].
  intros H r. destruct (H r) as [Ha Hk]. split; [done|].
  eapply wp_mono; [|apply (IH r _ _ Hk)]. cbn. intros o m' [HQ (tr' & -> & Hall)].
  split; [done|]. eexists (log X op r :: tr'). rewrite <- app_assoc. split; [done|].
  intros [|e1 tr1] e tr2 Heq; injection Heq as <- Heq; [by rewrite app_nil_r|].
  specialize (Hall tr1 e tr2 Heq). by rewrite <- app_assoc in Hall.
Qed.

(** *** Evaluation against a deterministic environment *)

Section Run.
Context {S : Type} (env : forall X, E X -> S -> outcome X * S).

Fixpoint run {A} (p : prog E A) (s : S) : outcome A * list Ev * S :=
  match p with
  | Ret a => (Ok a, [], s)
  | Raise e => (Err e, [], s)
  | Vis op k =>
      let '(r, s1) := env _ op s in
      let '(o, tr, s2) := run (k r) s1 in (o, log _ op r :: tr, s2)
  end.

Lemma run_exec {A} (p : prog E A) : forall s o tr s', run p s = (o, tr, s') -> exec p tr o.
Proof.
  induction p as [a|e|X op k IH]; intros s o tr s'; cbn.
  - intros [= <- <- _]. constructor.
  - intros [= <- <- _]. constructor.
  - destruct (env X op s) as [r s1]. destruct (run (k r) s1) as [[o1 tr1] s2] eqn:Hr.
    intros [= <- <- <-]. constructor. by eapply IH.
Qed.
End Run.

(** *** Interleaving *)

Section Interleave.
Context {A W : Type} (wstep : W -> Ev -> W -> Prop).

(** One thread of the pool performs one operation on the shared world. *)
Inductive pool_step : W * list (prog E A) -> nat * Ev -> W * list (prog E A) -> Prop :=
| pool_step_op w w' ps i X (op : E X) k r :
    ps !! i = Some (Vis op k) -> wstep w (log X op r) w' ->
    pool_step (w, ps) (i, log X op r) (w', <[i := k r]> ps).

Inductive pool_steps : W * list (prog E A) -> list (nat * Ev) -> W * list (prog E A) -> Prop :=
| pool_nil c : pool_steps c [] c
| pool_snoc c tr c' e c'' :
    pool_steps c tr c' -> pool_step c' e c'' -> pool_steps c (tr ++ [e]) c''.

(** The events of thread [i]. *)
Definition thread_events (i : nat) (tr : list (nat * Ev)) : list Ev :=
  omap (fun e => if decide (e.1 = i) then Some e.2 else None) tr.

Lemma thread_events_snoc i tr j e :
  thread_events i (tr ++ [(j, e)])
  = if decide (j = i) then thread_events i tr ++ [e] else thread_events i tr.
Proof.
  unfold thread_events. rewrite omap_app. cbn. case_decide; [done|]. by rewrite app_nil_r.
Qed.

Lemma steps_snoc (p : prog E A) tr X (op : E X) k r :
  steps p tr (Vis op k) -> steps p (tr ++ [log X op r]) (k r).
Proof.
  intros Hs. remember (Vis op k) as q eqn:Hq. revert Hq.
  induction Hs as [p|Y op' k' r' tr p Hs IH]; intros ->; cbn.
  - repeat constructor.
  - constructor. by apply IH.
Qed.

(** What the pool did is, thread by thread, an execution of each program. *)
Lemma pool_thread_steps c tr c' :
  pool_steps c tr c' -> forall i p, c.2 !! i = Some p ->
  exists p', c'.2 !! i = Some p' /\ steps p (thread_events i tr) p'.
Proof.
  induction 1 as [c|c tr c1 e c2 Hs IH Hstep]; intros i p Hp.
  - exists p. split; [done|constructor].
  - destruct (IH i p Hp) as (p1 & Hp1 & Hs1). inversion Hstep as [w w' ps j X op k r Hj Hw]; subst.
    cbn in *. rewrite thread_events_snoc. case_decide as Hd.
    + subst j. rewrite Hj in Hp1. injection Hp1 as <-. exists (k r). split; [|by apply steps_snoc].
      apply list_lookup_insert_eq. by eapply lookup_lt_Some.
    + exists p1. split; [|done]. by rewrite list_lookup_insert_ne.
Qed.

(** An invariant that ties the world to the state of each thread's monitor. *)
Section Invariant.
Context {M : Type} (allowed : nat -> M -> Ev -> Prop) (next : M -> Ev -> M).
Context (Inv : W -> list M -> Prop).
Context (Inv_step : forall w ms i m e w',
  Inv w ms -> ms !! i = Some m -> allowed i m e -> wstep w e w' -> Inv w' (<[i := next m e]> ms)).

Definition obeys (i : nat) (p : prog E A) (m : M) : Prop :=
  wp (allowed i) next p m (fun _ _ => True).

Definition pool_obeys (ps : list (prog E A)) (ms : list M) : Prop :=
  length ps = length ms /\
  forall i p m, ps !! i = Some p -> ms !! i = Some m -> obeys i p m.

Lemma pool_invariant w ps ms tr c' :
  pool_steps (w, ps) tr c' -> Inv w ms -> pool_obeys ps ms ->
  exists ms', Inv c'.1 ms' /\ pool_obeys c'.2 ms' /\
    forall i m, ms !! i = Some m -> ms' !! i = Some (fold_left next (thread_events i tr) m).
Proof.
  intros Hs. remember (w, ps) as c eqn:Hc. revert Hc.
  induction Hs as [c|c tr c1 e c2 Hs IH Hstep]; intros -> HInv Hob.
  - by exists ms.
  - destruct (IH eq_refl HInv Hob) as (ms1 & HInv1 & [Hlen Hob1] & Hms1).
    inversion Hstep as [w1 w2 ps1 j X op k r Hj Hw]; subst. cbn [fst snd] in *.
    destruct (lookup_lt_is_Some_2 ms1 j) as [m Hm].
    { rewrite <- Hlen. by eapply lookup_lt_Some. }
    destruct (Hob1 j _ m Hj Hm r) as [Ha Hk].
    exists (<[j := next m (log X op r)]> ms1). split_and!; [by eapply Inv_step|split|].
    + by rewrite !length_insert.
    + intros i p m' Hp Hm'. destruct (decide (i = j)) as [->|Hne].
      * rewrite list_lookup_insert_eq in Hp by (eapply lookup_lt_Some; done).
        rewrite list_lookup_insert_eq in Hm' by (eapply lookup_lt_Some; done).
        injection Hp as <-. by injection Hm' as <-.
      * rewrite list_lookup_insert_ne in Hp by done. rewrite list_lookup_insert_ne in Hm' by done.
        by eapply Hob1.
    + intros i m0 Hm0. specialize (Hms1 _ _ Hm0). rewrite thread_events_snoc. case_decide as Hd.
      * subst j. rewrite fold_left_app. cbn. rewrite Hm in Hms1. injection Hms1 as <-.
        apply list_lookup_insert_eq. by eapply lookup_lt_Some.
      * by rewrite list_lookup_insert_ne.
Qed.
End Invariant.
End Interleave.
End Traces.

Arguments wp {E Ev} log {M} allowed next {A} p m Q : simpl never.
Arguments wpt {E Ev} log allowed {A} p tr Q : simpl never.

(** One step of symbolic execution with the program logic. *)
Ltac wp_step :=
  lazymatch goal with
  | |- wp _ _ _ (bind _ _) _ _ => apply wp_bind
  | |- wp _ _ _ (handle _ _) _ _ => apply wp_handle
  | |- wp _ _ _ (try_except _ _ _) _ _ => apply wp_try_except
  | |- wp _ _ _ (Ret _) _ _ => apply wp_ret
  | |- wp _ _ _ (Raise _) _ _ => apply wp_raise
  | |- wp _ _ _ (of_outcome _) _ _ => apply wp_of_outcome
  | |- wp _ _ _ (call _) _ _ => apply wp_call; intros ?answer; split
  end.
