(* ===== verification/RuntimeOps.v ===== *)
(** The operations through which the execution spine meets its environment: the clock,
    the policy file, and the objects the caller passes in (receipt sink, safety check,
    registered handlers, replay ledger, resource coordinator).  An event is an operation
    with its answer; a handler's call and return are two events, so that handlers of
    different threads can overlap. *)

From stdpp Require Import base gmap sets list strings.
From Stdlib Require Import ZArith.
From S2P Require Import Prelude PyText PyVal Effects CourtToken Resources.

Inductive op : Type -> Type :=
| OpTime : op Z
| OpReadFile (path : string) : op (option string)
| OpReceipt (receipt : pyval) : op unit
| OpSafety (token : CapabilityToken) (parameters : pyval) : op (pyval * string)
| OpHandlerCall (handler : string) (arguments : items) : op unit
| OpHandlerReturn (handler : string) : op pyval
| OpLedgerHas (token_id : string) : op bool
| OpLedgerConsume (token_id : string) : op bool
| OpLedgerAdd (token_id : string) : op unit
| OpAcquire (owner_id : string) (resources : list string) : op ResourceDecision
| OpRelease (owner_id : string) : op ResourceDecision.

Inductive event : Type :=
| ETime (o : outcome Z)
| EReadFile (path : string) (o : outcome (option string))
| EReceipt (receipt : pyval) (o : outcome unit)
| ESafety (token : CapabilityToken) (parameters : pyval) (o : outcome (pyval * string))
| EHandlerCall (handler : string) (arguments : items) (o : outcome unit)
| EHandlerReturn (handler : string) (o : outcome pyval)
| ELedgerHas (token_id : string) (o : outcome bool)
| ELedgerConsume (token_id : string) (o : outcome bool)
| ELedgerAdd (token_id : string) (o : outcome unit)
| EAcquire (owner_id : string) (resources : list string) (o : outcome ResourceDecision)
| ERelease (owner_id : string) (o : outcome ResourceDecision).

Definition log (X : Type) (o : op X) : outcome X -> event :=
  match o in op X return outcome X -> event with
  | OpTime => ETime
  | OpReadFile p => EReadFile p
  | OpReceipt r => EReceipt r
  | OpSafety t ps => ESafety t ps
  | OpHandlerCall h args => EHandlerCall h args
  | OpHandlerReturn h => EHandlerReturn h
  | OpLedgerHas i => ELedgerHas i
  | OpLedgerConsume i => ELedgerConsume i
  | OpLedgerAdd i => ELedgerAdd i
  | OpAcquire o rs => EAcquire o rs
  | OpRelease o => ERelease o
  end.

Abbreviation runtime := (prog op).

(** [now if now is not None else int(time.time())] *)
Definition current_time (now : option Z) : runtime Z :=
  match now with Some n => Ret n | None => call OpTime end.

(** [_persist] of the executors: a sink that raises an [Exception] is a failed write. *)
Definition persist (receipt : pyval) : runtime bool :=
  try_except (call (OpReceipt receipt)) (fun _ => Ret false) (fun _ => Ret true).

(** [verify_token(token, signing_key=..., now=now)] *)
Definition verify_token_at (t : CapabilityToken) (key : Sha256.byte_string) (now : option Z) : runtime bool :=
  let* current := current_time now in of_outcome (verify_token t key current).

Definition is_handler_call (e : event) : bool :=
  match e with EHandlerCall _ _ _ => true | _ => false end.

(** A receipt event: what was written, and whether the sink accepted it. *)
Definition receipt_accepted (e : event) : bool :=
  match e with EReceipt _ (Ok _) => true | _ => false end.

(** The answers of an environment that follows a script, one per operation. *)
Inductive answer : Type :=
| ATime (z : Z) | AFile (f : option string) | AUnit | ASafety (v : pyval) (s : string)
| AVal (v : pyval) | ABool (b : bool) | ADecision (d : ResourceDecision) | AErr (e : exn).

Definition bad_answer {A} : outcome A := raise OtherError "the script does not fit the program".

Definition interpret (X : Type) (o : op X) (a : answer) : outcome X :=
  match a with
  | AErr e => Err e
  | _ =>
    match o in op X return outcome X with
    | OpTime => match a with ATime z => Ok z | _ => bad_answer end
    | OpReadFile _ => match a with AFile f => Ok f | _ => bad_answer end
    | OpReceipt _ | OpHandlerCall _ _ | OpLedgerAdd _ =>
        match a with AUnit => Ok tt | _ => bad_answer end
    | OpSafety _ _ => match a with ASafety v s => Ok (v, s) | _ => bad_answer end
    | OpHandlerReturn _ => match a with AVal v => Ok v | _ => bad_answer end
    | OpLedgerHas _ | OpLedgerConsume _ => match a with ABool b => Ok b | _ => bad_answer end
    | OpAcquire _ _ | OpRelease _ => match a with ADecision d => Ok d | _ => bad_answer end
    end
  end.

Definition scripted (X : Type) (o : op X) (script : list answer) : outcome X * list answer :=
  match script with
  | a :: rest => (interpret X o a, rest)
  | [] => (bad_answer, [])
  end.

Definition run_script {A} (p : runtime A) (script : list answer) : outcome A * list event * list answer :=
  run log scripted p script.

Definition outcome_of {A} (r : outcome A * list event * list answer) : outcome A := r.1.1.
Definition trace_of {A} (r : outcome A * list event * list answer) : list event := r.1.2.

Lemma run_script_exec {A} (p : runtime A) script :
  exec log p (trace_of (run_script p script)) (outcome_of (run_script p script)).
Proof.
  unfold run_script. destruct (run log scripted p script) as [[o tr] s] eqn:Hr.
  by eapply run_exec.
Qed.

(** ** Symbolic execution of the shared helpers *)

Section Helpers.
Context {M : Type} (allowed : M -> event -> Prop) (next : M -> event -> M).

Lemma wp_persist r m Q :
  wp log allowed next (persist r) m Q <->
  forall o, allowed m (EReceipt r o) /\
    match o with
    | Ok _ => Q (Ok true) (next m (EReceipt r o))
    | Err e => if is_Exception e then Q (Ok false) (next m (EReceipt r o))
               else Q (Err e) (next m (EReceipt r o))
    end.
Proof.
  unfold persist. rewrite wp_try_except, wp_call. cbn [log].
  split; intros H o; destruct (H o) as [Ha Ho]; (split; [done|]);
    destruct o as [|e]; try done; by destruct (is_Exception e).
Qed.

(** The clock is read only when the caller gives no time. *)
Lemma wp_current_time now m Q :
  match now with
  | Some n => Q (Ok n) m
  | None => forall o, allowed m (ETime o) /\ Q o (next m (ETime o))
  end -> wp log allowed next (current_time now) m Q.
Proof. destruct now as [n|]; cbn [current_time]; intros H; [done|]. by apply wp_call. Qed.

(** The clock may be read without consequence for the monitor. *)
Lemma wp_verify_quiet t key now m Q :
  (forall o, allowed m (ETime o) /\ next m (ETime o) = m) ->
  (forall o, Q o m) ->
  wp log allowed next (verify_token_at t key now) m Q.
Proof.
  intros Ht HQ. unfold verify_token_at. apply wp_bind, wp_current_time. destruct now as [n|].
  - apply wp_of_outcome, HQ.
  - intros o. destruct (Ht o) as [Ha Hn]. split; [done|]. rewrite Hn.
    destruct o; [apply wp_of_outcome|]; apply HQ.
Qed.
End Helpers.

(** The clock readings of one call: at most one, and the time it was given or read. *)
Inductive clock_events : option Z -> Z -> list event -> Prop :=
| clock_given n : clock_events (Some n) n []
| clock_read z : clock_events None z [ETime (Ok z)].

Lemma wpt_verify_token_at allowed t key now tr Q :
  (forall tr o, allowed tr (ETime o)) ->
  (forall current clock, clock_events now current clock -> Q (verify_token t key current) (tr ++ clock)) ->
  (now = None -> forall e, Q (Err e) (tr ++ [ETime (Err e)])) ->
  wpt log allowed (verify_token_at t key now) tr Q.
Proof.
  intros Ha HQ Herr. unfold wpt, verify_token_at. apply wp_bind, wp_current_time.
  destruct now as [n|].
  - apply wp_of_outcome. specialize (HQ n [] (clock_given n)). by rewrite app_nil_r in HQ.
  - intros o. split; [apply Ha|]. destruct o as [z|e].
    + apply wp_of_outcome. apply HQ. constructor.
    + by apply Herr.
Qed.

Ltac wp_call_step :=
  lazymatch goal with
  | |- wp _ _ _ (persist _) _ _ => apply wp_persist; intros ?answer; split
  | _ => wp_step
  end.
