(* ===== verification/ApprovedExecutor.v ===== *)
(** [services/approved_executor.py]: the registry of named executors and
    [execute_authorized], which runs one registered handler after every gate passed. *)

From stdpp Require Import base gmap sets list strings.
From Stdlib Require Import ZArith.
From S2P Require Import Prelude PyText PyVal Sha256 ExecutionContract CourtToken Effects.
From S2P Require Import RuntimeOps.

(** What [ExecutorSpec.handler] holds; [callable] tells the two apart. *)
Inductive handler_ref : Set :=
| Callable (h : string)
| NotCallable.

Record ExecutorSpec := mkExecutorSpec {
  spec_name : string;
  spec_capability : string;
  spec_targets : list string;
  spec_handler : handler_ref;
  spec_contract : ExecutionContract
}.

Record ExecutionResult := mkResult {
  executed : bool;
  result_state : string;
  executor_name : string;
  result_token_id : string;
  output : option items;
  start_receipt_persisted : bool;
  final_receipt_persisted : bool;
  result_errors : list string;
  result_contract_id : option string
}.

(** ** [ExecutorRegistry] *)

Abbreviation registry := (gmap string ExecutorSpec).

(** [ExecutorRegistry.register] *)
Definition register (spec : ExecutorSpec) (r : registry) : outcome registry :=
  let name := text (spec_name spec) in
  let capability := text (spec_capability spec) in
  let targets := sorted_set (text <$> spec_targets spec) in
  if negb (is_nonempty name) || negb (is_nonempty capability) || bool_decide (targets = [])
  then raise ValueError "executor name, capability, and targets are required" else
  match spec_handler spec with
  | NotCallable => raise ValueError "executor handler must be callable"
  | Callable h =>
      let? contract := normalized (spec_contract spec) in
      if bool_decide (is_Some (r !! name))
      then raise ValueError ("executor " +:+ repr name +:+ " is already registered")
      else Ok (<[name := mkExecutorSpec name capability targets (Callable h) contract]> r)
  end.

(** [ExecutorRegistry.get]; the message of a [KeyError] prints as its [repr]. *)
Definition registry_get (r : registry) (name : string) : outcome ExecutorSpec :=
  let normalized := text name in
  match r !! normalized with
  | Some spec => Ok spec
  | None => raise KeyError (repr ("executor " +:+ repr normalized +:+ " is not registered"))
  end.

Definition registry_names (r : registry) : list string := sorted_strings (elements (dom r)).
Definition registry_count (r : registry) : nat := size r.
Definition is_registered (r : registry) (name : string) : bool :=
  is_nonempty (text name) && bool_decide (is_Some (r !! text name)).

(** What [register] stores. *)
Record wf_spec (name : string) (s : ExecutorSpec) : Prop := {
  wfs_name : spec_name s = name /\ name <> "" /\ text name = name;
  wfs_capability : spec_capability s <> "" /\ text (spec_capability s) = spec_capability s;
  wfs_targets : spec_targets s <> [] /\ sorted_set (spec_targets s) = spec_targets s /\
    Forall (fun x => text x = x) (spec_targets s);
  wfs_handler : exists h, spec_handler s = Callable h;
  wfs_contract : wf_contract (spec_contract s)
}.

Definition registry_inv (r : registry) : Prop := map_Forall wf_spec r.

Lemma register_spec spec r r' :
  register spec r = Ok r' ->
  exists s, wf_spec (text (spec_name spec)) s /\ r !! text (spec_name spec) = None /\
    r' = <[text (spec_name spec) := s]> r /\
    spec_capability s = text (spec_capability spec) /\ spec_handler s = spec_handler spec /\
    normalized (spec_contract spec) = Ok (spec_contract s) /\
    (forall x, x ∈ spec_targets s <-> exists y, y ∈ spec_targets spec /\ x = text y).
Proof.
  unfold register. intros H. guards H. destruct G as [[Hn Hc] Ht].
  destruct (spec_handler spec) as [h|] eqn:Hh; [|done]. guards H. injection H as <-.
  rewrite <- eq_None_not_Some in G0. eexists. split_and!; [|done|done|done|done|done|].
  - split; cbn; [split_and!; [done|by apply is_nonempty_spec|apply text_idem]| | |by eexists|].
    + split; [by apply is_nonempty_spec|apply text_idem].
    + split_and!; [done|apply sorted_set_idem|]. apply Forall_forall. intros x Hx.
      apply elem_of_sorted_set, list_elem_of_fmap in Hx as (y & -> & _). apply text_idem.
    + by eapply normalized_ok_wf.
  - intros x. cbn. rewrite elem_of_sorted_set, list_elem_of_fmap. naive_solver.
Qed.

Lemma register_inv spec r r' : registry_inv r -> register spec r = Ok r' -> registry_inv r'.
Proof.
  intros Hr (s & Hs & _ & -> & _)%register_spec. by apply map_Forall_insert_2.
Qed.

(** ** Receipts *)

Definition optional_contract (c : option ExecutionContract) : pyval :=
  match c with Some c => contract_to_dict c | None => PNone end.

Definition opt_output (o : option items) : pyval :=
  match o with Some d => PDict d | None => PNone end.

(** [_receipt] *)
Definition execution_receipt (event_type state name : string) (t : CapabilityToken)
    (contract : option ExecutionContract) (out : option items) (errors : list string)
    (actuation : pyval) : pyval :=
  PDict [(PStr "event_type", PStr event_type);
         (PStr "source", PStr "velvet-runtime");
         (PStr "subject_id", PStr (tok_profile_id t));
         (PStr "payload", PDict [
           (PStr "state", PStr state);
           (PStr "executor_name", PStr name);
           (PStr "execution_contract", optional_contract contract);
           (PStr "token_id", PStr (token_id t));
           (PStr "intent_id", PStr (tok_intent_id t));
           (PStr "capability", PStr (tok_capability t));
           (PStr "target", PStr (tok_target t));
           (PStr "body_id", PStr (tok_body_id t));
           (PStr "surface", PStr (tok_surface t));
           (PStr "output", opt_output out);
           (PStr "errors", strs errors);
           (PStr "actuation_performed", actuation)])].

(** [_deny] *)
Definition deny (state name : string) (t : CapabilityToken) (contract : option ExecutionContract)
    (errors : list string) : runtime ExecutionResult :=
  let* persisted := persist (execution_receipt "EXECUTION_DENIED" state name t contract None errors
                               (PBool false)) in
  Ret (mkResult false state name (token_id t) None false persisted errors (contract_id <$> contract)).

(** [_validate_completion] *)
Definition validate_completion (c : ExecutionContract) (out : items) : string :=
  match get out "state" with
  | PNone => ""
  | reported =>
      let normalized := text_val reported in
      if bool_decide (normalized <> expected_completion_state c)
      then "executor reported state '" +:+ normalized +:+ "' but contract requires '" +:+
           expected_completion_state c +:+ "'"
      else ""
  end.

(** Whether the [used_token_ids] object has an atomic [consume], or is a plain set. *)
Inductive ledger_kind : Set := AtomicLedger | PlainSet.

(** [_consume_token] *)
Definition consume_token (kind : ledger_kind) (id : string) : runtime bool :=
  match kind with
  | AtomicLedger => call (OpLedgerConsume id)
  | PlainSet =>
      let* present := call (OpLedgerHas id) in
      if (present : bool) then Ret false else
      let* _ := call (OpLedgerAdd id) in Ret true
  end.

(** [dict(spec.handler(dict(parameters)))] *)
Definition run_handler (spec : ExecutorSpec) (parameters : pyval) : runtime items :=
  let* arguments := of_outcome (py_dict parameters) in
  match spec_handler spec with
  | NotCallable => Raise (Exn TypeError "object is not callable")
  | Callable h =>
      let* _ := call (OpHandlerCall h arguments) in
      let* returned := call (OpHandlerReturn h) in
      of_outcome (py_dict returned)
  end.

Definition reported_actuation (out : items) : pyval :=
  PBool (truthy (dict_get_default out (PStr "actuation_performed") (PBool false))).

(** The part of [execute_authorized] after the handler returned [out]. *)
Definition complete (spec : ExecutorSpec) (name : string) (t : CapabilityToken) (out : items)
    : runtime ExecutionResult :=
  let contract := spec_contract spec in
  let cid := Some (contract_id contract) in
  let completion_error := validate_completion contract out in
  if is_nonempty completion_error then
    let errors := [completion_error] in
    let* persisted := persist (execution_receipt "EXECUTION_FAILED" "contract_completion_mismatch"
      (spec_name spec) t (Some contract) (Some out) errors (reported_actuation out)) in
    Ret (mkResult false "contract_completion_mismatch" name (token_id t) (Some out) true persisted
           errors cid)
  else
    let* final_persisted := persist (execution_receipt "EXECUTION_COMPLETED"
      (expected_completion_state contract) (spec_name spec) t (Some contract) (Some out) []
      (reported_actuation out)) in
    let state := if (final_persisted : bool) then expected_completion_state contract
                 else "completed_unreceipted" in
    let errors := if (final_persisted : bool) then [] else ["final execution receipt could not be persisted"] in
    Ret (mkResult true state name (token_id t) (Some out) true final_persisted errors cid).

(** The refusals after the start receipt: [replay_ledger_failed] and [token_replay]. *)
Definition deny_started (state : string) (spec : ExecutorSpec) (name : string) (t : CapabilityToken)
    (errors : list string) : runtime ExecutionResult :=
  let contract := spec_contract spec in
  let* persisted := persist (execution_receipt "EXECUTION_DENIED" state (spec_name spec) t
    (Some contract) None errors (PBool false)) in
  Ret (mkResult false state name (token_id t) None true persisted errors (Some (contract_id contract))).

(** The part of [execute_authorized] from token consumption on. *)
Definition consume_and_run (kind : ledger_kind) (spec : ExecutorSpec) (name : string)
    (t : CapabilityToken) (parameters : pyval) : runtime ExecutionResult :=
  let contract := spec_contract spec in
  try_except (consume_token kind (token_id t))
    (fun exc => deny_started "replay_ledger_failed" spec name t
       ["token consumption could not be persisted: " +:+ exn_message exc])
    (fun consumed =>
       if negb consumed then
         deny_started "token_replay" spec name t
           ["capability token was consumed by another execution process"]
       else
         try_except (run_handler spec parameters)
           (fun exc =>
              let errors := [exn_message exc] in
              let* persisted := persist (execution_receipt "EXECUTION_FAILED" "failed"
                (spec_name spec) t (Some contract) None errors PNone) in
              Ret (mkResult false "executor_failed" name (token_id t) None true persisted errors
                     (Some (contract_id contract))))
           (complete spec name t)).

Definition target_bound (spec : ExecutorSpec) (target : string) : bool :=
  bool_decide ("*" ∈ spec_targets spec) || bool_decide (target ∈ spec_targets spec).

Definition start_receipt (spec : ExecutorSpec) (t : CapabilityToken) : pyval :=
  execution_receipt "EXECUTION_STARTED" "started" (spec_name spec) t (Some (spec_contract spec))
    None [] (PBool false).

(** The part of [execute_authorized] after parameter validation. *)
Definition gated_run (kind : ledger_kind) (spec : ExecutorSpec) (name : string)
    (t : CapabilityToken) (parameters : pyval) : runtime ExecutionResult :=
  let contract := spec_contract spec in
  let* verdict := call (OpSafety t parameters) in
  let (safe, reason) := (verdict : pyval * string) in
  if negb (is_true_obj safe) then
    deny "safety_denied" name t (Some contract)
      [if is_nonempty reason then reason else "safety check denied execution"]
  else
    let* started := persist (start_receipt spec t) in
    if negb started then
      Ret (mkResult false "start_receipt_unpersisted" name (token_id t) None false false
             ["execution-start receipt could not be persisted"] (Some (contract_id contract)))
    else consume_and_run kind spec name t parameters.

(** [execute_authorized] *)
Definition execute_authorized (t : CapabilityToken) (executor_name : string) (parameters : pyval)
    (reg : registry) (signing_key : byte_string) (kind : ledger_kind) (now : option Z)
    : runtime ExecutionResult :=
  let name := text executor_name in
  let* used := call (OpLedgerHas (token_id t)) in
  if (used : bool) then
    deny "token_replay" name t None ["capability token was already consumed"]
  else
  let* verified := verify_token_at t signing_key now in
  if negb verified then
    deny "invalid_token" name t None ["capability token failed signature or expiry verification"]
  else
  match registry_get reg name with
  | Err exc => deny "executor_not_registered" name t None [exn_message exc]
  | Ok spec =>
      let contract := spec_contract spec in
      if bool_decide (spec_capability spec <> tok_capability t) then
        deny "executor_capability_mismatch" name t (Some contract)
          ["executor is not bound to token capability"]
      else if negb (target_bound spec (tok_target t)) then
        deny "executor_target_mismatch" name t (Some contract)
          ["executor is not bound to token target"]
      else
      let* parameter_errors := of_outcome (validate_parameters contract parameters) in
      if bool_decide (parameter_errors <> []) then
        deny "execution_contract_denied" name t (Some contract) parameter_errors
      else gated_run kind spec name t parameters
  end.

(** ** What a trace shows *)

(** The event types of receipts. *)
Definition receipt_type (r : pyval) : pyval :=
  match r with PDict d => get d "event_type" | _ => PNone end.

Definition persisted_as (ty : string) (e : event) : bool :=
  match e with EReceipt r (Ok _) => eq_str (receipt_type r) ty | _ => false end.

(** A receipt other than the start receipt. *)
Definition is_final_receipt (e : event) : bool :=
  match e with EReceipt r _ => negb (eq_str (receipt_type r) "EXECUTION_STARTED") | _ => false end.

Definition is_receipt (e : event) : bool := match e with EReceipt _ _ => true | _ => false end.

(** What the handler returned, if it did. *)
Definition handler_value (e : event) : option pyval :=
  match e with EHandlerReturn _ (Ok v) => Some v | _ => None end.

Definition handler_output (tr : list event) : option items :=
  match omap handler_value tr with
  | v :: _ => match py_dict v with Ok out => Some out | Err _ => None end
  | [] => None
  end.

(** The events of a successful consumption. *)
Inductive consumption : ledger_kind -> string -> list event -> Prop :=
| consumed_atomic id : consumption AtomicLedger id [ELedgerConsume id (Ok true)]
| consumed_plain id : consumption PlainSet id [ELedgerHas id (Ok false); ELedgerAdd id (Ok tt)].

(** Everything that must have happened, in this order, before a handler is called. *)
Definition gate_events (t : CapabilityToken) (ps : pyval) (spec : ExecutorSpec)
    (clock : list event) (reason : string) (consumed : list event) : list event :=
  ELedgerHas (token_id t) (Ok false) :: clock ++
  [ESafety t ps (Ok (PBool true, reason)); EReceipt (start_receipt spec t) (Ok tt)] ++ consumed.

Section Authorized.
Context (t : CapabilityToken) (name : string) (ps : pyval) (reg : registry) (key : byte_string)
  (kind : ledger_kind) (now : option Z).

(** The checks that are computations. *)
Record admitted (spec : ExecutorSpec) (current : Z) : Prop := {
  adm_spec : registry_get reg (text name) = Ok spec;
  adm_capability : spec_capability spec = tok_capability t;
  adm_target : target_bound spec (tok_target t) = true;
  adm_parameters : validate_parameters (spec_contract spec) ps = Ok [];
  adm_token : verify_token t key current = Ok true
}.

(** The trace before a call of handler [h] with [args]. *)
Definition cleared (tr0 : list event) (h : string) (args : items) (tr : list event) : Prop :=
  exists spec current clock reason consumed,
    admitted spec current /\ clock_events now current clock /\
    consumption kind (token_id t) consumed /\
    spec_handler spec = Callable h /\ py_dict ps = Ok args /\
    tr = tr0 ++ gate_events t ps spec clock reason consumed.

(** Handlers are called only when cleared; the coordinator is not touched. *)
Definition only_cleared_calls (tr0 : list event) (tr : list event) (e : event) : Prop :=
  match e with
  | EHandlerCall h args _ => cleared tr0 h args tr
  | EAcquire _ _ _ | ERelease _ _ => False
  | _ => True
  end.

(** A result tells the truth about the trace [tr] it ends. *)
Record truthful (tr : list event) (r : ExecutionResult) : Prop := {
  truth_name : executor_name r = text name;
  truth_token_id : result_token_id r = token_id t;
  truth_output : output r = handler_output tr;
  truth_executed : executed r =
    match handler_output tr, registry_get reg (text name) with
    | Some out, Ok spec => negb (is_nonempty (validate_completion (spec_contract spec) out))
    | _, _ => false
    end;
  truth_started : start_receipt_persisted r = existsb (persisted_as "EXECUTION_STARTED") tr;
  truth_final : exists e, last tr = Some e /\ is_receipt e = true /\
    final_receipt_persisted r = is_final_receipt e && receipt_accepted e /\
    length (filter (fun e => is_final_receipt e = true) tr) = (if is_final_receipt e then 1 else 0);
  truth_errors : result_errors r = [] <-> executed r = true /\ final_receipt_persisted r = true
}.

(** An exception that escapes before any handler ran, or is not an [Exception]. *)
Definition escapes (tr : list event) (e : exn) : Prop :=
  is_Exception e = true -> forallb (fun e => negb (is_handler_call e)) tr = true.

Definition authorized_post (tr0 : list event) (o : outcome ExecutionResult) (tr : list event) : Prop :=
  exists tr', tr = tr0 ++ tr' /\
    match o with Ok r => truthful tr' r | Err e => escapes tr' e end.


(** *** Block by block *)

(** The trace so far has no handler result and no final receipt. *)
Record unfinished (tr : list event) (started : bool) : Prop := {
  unf_output : omap handler_value tr = [];
  unf_final : filter (fun e => is_final_receipt e = true) tr = [];
  unf_started : existsb (persisted_as "EXECUTION_STARTED") tr = started
}.

Lemma unfinished_nil : unfinished [] false.
Proof. done. Qed.

Lemma unfinished_app tr1 tr2 b1 b2 :
  unfinished tr1 b1 -> unfinished tr2 b2 -> unfinished (tr1 ++ tr2) (b1 || b2).
Proof.
  intros [H1 H2 H3] [H4 H5 H6]. split.
  - by rewrite omap_app, H1, H4.
  - by rewrite filter_app, H2, H5.
  - by rewrite existsb_app, H3, H6.
Qed.

(** An event that is neither a receipt nor a handler's result changes nothing. *)
Definition neutral (e : event) : bool :=
  match e with EReceipt _ _ | EHandlerReturn _ (Ok _) => false | _ => true end.

Lemma unfinished_neutral tr1 tr2 b :
  unfinished tr1 b -> forallb neutral tr2 = true -> unfinished (tr1 ++ tr2) b.
Proof.
  intros H1 H2. rewrite <- (orb_false_r b). apply unfinished_app; [done|].
  induction tr2 as [|e tr2 IH]; [done|]. cbn in H2. apply andb_true_iff in H2 as [He H2].
  apply IH in H2. apply (unfinished_app [e] tr2 false false); [|done].
  destruct e as [| | | | |? []| | | | |]; try done.
Qed.

Lemma clock_neutral current clock : clock_events now current clock -> forallb neutral clock = true.
Proof. by destruct 1. Qed.

Lemma handler_output_snoc tr e :
  omap handler_value tr = [] ->
  handler_output (tr ++ [e]) = match handler_value e with
    | Some v => match py_dict v with Ok out => Some out | Err _ => None end
    | None => None end.
Proof.
  intros H. unfold handler_output. rewrite omap_app, H. cbn. by destruct (handler_value e).
Qed.

Abbreviation executes tr0 p tr :=
  (wp log (only_cleared_calls tr0) (fun acc e => acc ++ [e]) p (tr0 ++ tr) (authorized_post tr0)).

Definition final_type (rc : pyval) : bool := negb (eq_str (receipt_type rc) "EXECUTION_STARTED").

(** How every path ends: a final receipt, and a result that says whether it was kept. *)
Lemma truthful_final tr rc o r :
  filter (fun e => is_final_receipt e = true) tr = [] -> final_type rc = true ->
  handler_output (tr ++ [EReceipt rc o]) = handler_output tr ->
  executor_name r = text name -> result_token_id r = token_id t ->
  output r = handler_output tr ->
  executed r = match handler_output tr, registry_get reg (text name) with
    | Some out, Ok spec => negb (is_nonempty (validate_completion (spec_contract spec) out))
    | _, _ => false
    end ->
  start_receipt_persisted r = existsb (persisted_as "EXECUTION_STARTED") tr ->
  final_receipt_persisted r = is_ok o ->
  (result_errors r = [] <-> executed r = true /\ is_ok o = true) ->
  truthful (tr ++ [EReceipt rc o]) r.
Proof.
  intros Hf Hrc Ho Hn Ht Hout Hx Hs Hfin Herr.
  split; rewrite ?Ho; try done.
  - rewrite existsb_app, Hs. cbn. unfold final_type in Hrc. apply negb_true_iff in Hrc.
    rewrite Hrc. destruct o; by rewrite !orb_false_r.
  - eexists. rewrite last_snoc. split_and!; [done..| |].
    + cbn. unfold final_type in Hrc. rewrite Hrc, Hfin. by destruct o.
    + rewrite filter_app, Hf. cbn. unfold final_type in Hrc. by rewrite Hrc.
  - by rewrite Hfin.
Qed.

Lemma handler_output_receipt tr rc o : handler_output (tr ++ [EReceipt rc o]) = handler_output tr.
Proof. unfold handler_output. rewrite omap_app. cbn. by rewrite app_nil_r. Qed.

(** A refusal: no output, some explanation. *)
Lemma wp_refuse tr0 tr started rc state errors cid :
  handler_output tr = None -> filter (fun e => is_final_receipt e = true) tr = [] ->
  existsb (persisted_as "EXECUTION_STARTED") tr = started ->
  final_type rc = true -> errors <> [] ->
  executes tr0 (let* persisted := persist rc in
    Ret (mkResult false state (text name) (token_id t) None started persisted errors cid)) tr.
Proof.
  intros Hout Hf Hs Hrc Herr. wp_step. wp_call_step; [done|].
  assert (forall o, truthful (tr ++ [EReceipt rc o])
    (mkResult false state (text name) (token_id t) None started (is_ok o) errors cid)) as H.
  { intros o. apply truthful_final; cbn; rewrite ?Hout; try done.
    - rewrite handler_output_receipt. by rewrite Hout.
    - by split; [|intros []]. }
  destruct answer as [u|e]; [|destruct (is_Exception e) eqn:He].
  - wp_step. eexists. split; [by rewrite <- app_assoc|]. apply (H (Ok u)).
  - wp_step. eexists. split; [by rewrite <- app_assoc|]. apply (H (Err e)).
  - eexists. split; [by rewrite <- app_assoc|]. intros ?. congruence.
Qed.

Lemma wp_refuse_unfinished tr0 tr started rc state errors cid :
  unfinished tr started -> final_type rc = true -> errors <> [] ->
  executes tr0 (let* persisted := persist rc in
    Ret (mkResult false state (text name) (token_id t) None started persisted errors cid)) tr.
Proof.
  intros [H1 H2 H3] Hrc Herr. apply wp_refuse; try done. unfold handler_output. by rewrite H1.
Qed.

(** After the handler returned. *)
Lemma wp_complete tr0 tr spec out :
  registry_get reg (text name) = Ok spec ->
  handler_output tr = Some out -> filter (fun e => is_final_receipt e = true) tr = [] ->
  existsb (persisted_as "EXECUTION_STARTED") tr = true ->
  executes tr0 (complete spec (text name) t out) tr.
Proof.
  intros Hreg Hout Hf Hs. unfold complete. cbv zeta.
  destruct (is_nonempty (validate_completion (spec_contract spec) out)) eqn:Hc;
    wp_step; (wp_call_step; [done|]);
    (destruct answer as [u|e]; [|destruct (is_Exception e) eqn:He; [|
      eexists; (split; [by rewrite <- app_assoc|]); intros ?; congruence]]);
    wp_step; eexists; (split; [by rewrite <- app_assoc|]).
  all: eapply truthful_final; rewrite ?handler_output_receipt, ?Hout, ?Hreg, ?Hc; try done.
  all: cbn; naive_solver.
Qed.

(** A stop that is an exception leaves the caller with no result. *)
Lemma escape_post tr0 tr e : escapes tr e -> authorized_post tr0 (Err e) (tr0 ++ tr).
Proof. intros H. by exists tr. Qed.

Lemma base_exit_post tr0 tr e : is_Exception e = false -> authorized_post tr0 (Err e) (tr0 ++ tr).
Proof. intros H. exists tr. split; [done|]. intros ?. congruence. Qed.

Ltac assoc := rewrite <- ?app_assoc; cbn [app].

(** Symbolic execution of the handler's call, for the [except Exception] around it. *)
Lemma wp_guarded_handler tr0 tr spec (f : exn -> runtime ExecutionResult) :
  registry_get reg (text name) = Ok spec -> unfinished tr true ->
  (forall h args, spec_handler spec = Callable h -> py_dict ps = Ok args ->
     cleared tr0 h args (tr0 ++ tr)) ->
  (forall e tr', handler_output (tr ++ tr') = None ->
     filter (fun e => is_final_receipt e = true) (tr ++ tr') = [] ->
     existsb (persisted_as "EXECUTION_STARTED") (tr ++ tr') = true ->
     executes tr0 (f e) (tr ++ tr')) ->
  executes tr0 (try_except (run_handler spec ps) f (complete spec (text name) t)) tr.
Proof.
  intros Hreg Hun Hcl Hf. unfold run_handler. do 2 wp_step. wp_step.
  assert (forall e tr', unfinished (tr ++ tr') true -> executes tr0 (f e) (tr ++ tr')) as Hf'.
  { intros e tr' [H1 H2 H3]. apply Hf; try done. unfold handler_output. by rewrite H1. }
  destruct (py_dict ps) as [args|e] eqn:Hargs.
  2:{ destruct (is_Exception e) eqn:He; [|by apply base_exit_post].
      specialize (Hf' e []). rewrite app_nil_r in Hf'. by apply Hf'. }
  destruct (spec_handler spec) as [h|] eqn:Hh; wp_step.
  2:{ specialize (Hf' (Exn TypeError "object is not callable") []). rewrite app_nil_r in Hf'.
      by apply Hf'. }
  wp_step; [by apply Hcl|]. cbn [log]. destruct answer as [u|e].
  2:{ destruct (is_Exception e) eqn:He; assoc; [|by apply base_exit_post].
      apply Hf'. by apply unfinished_neutral. }
  wp_step. wp_step; [done|]. cbn [log]. assoc. destruct answer as [v|e].
  2:{ destruct (is_Exception e) eqn:He; [|by apply base_exit_post].
      apply Hf'. by apply unfinished_neutral. }
  wp_step.
  set (tr1 := [EHandlerCall h args (Ok u); EHandlerReturn h (Ok v)]).
  destruct Hun as [H1 H2 H3].
  assert (handler_output (tr ++ tr1)
          = match py_dict v with Ok out => Some out | Err _ => None end) as Hout.
  { unfold handler_output. by rewrite omap_app, H1. }
  assert (filter (fun e => is_final_receipt e = true) (tr ++ tr1) = []) as Hfin.
  { by rewrite filter_app, H2. }
  assert (existsb (persisted_as "EXECUTION_STARTED") (tr ++ tr1) = true) as Hst.
  { by rewrite existsb_app, H3. }
  destruct (py_dict v) as [out|e]; [by apply wp_complete|].
  destruct (is_Exception e) eqn:He; [by apply Hf|by apply base_exit_post].
Qed.

Lemma wp_consume_and_run tr0 tr spec :
  registry_get reg (text name) = Ok spec -> unfinished tr true ->
  (forall consumed h args, consumption kind (token_id t) consumed ->
     spec_handler spec = Callable h -> py_dict ps = Ok args ->
     cleared tr0 h args (tr0 ++ tr ++ consumed)) ->
  executes tr0 (consume_and_run kind spec (text name) t ps) tr.
Proof.
  intros Hreg Hun Hcl. unfold consume_and_run. cbv zeta.
  assert (forall e tr', unfinished (tr ++ tr') true ->
    executes tr0 (deny_started "replay_ledger_failed" spec (text name) t [e]) (tr ++ tr')) as Hfail.
  { intros e tr' Hu. unfold deny_started. by apply wp_refuse_unfinished. }
  assert (forall tr', unfinished (tr ++ tr') true ->
    executes tr0 (deny_started "token_replay" spec (text name) t
      ["capability token was consumed by another execution process"]) (tr ++ tr')) as Hreplay.
  { intros tr' Hu. unfold deny_started. by apply wp_refuse_unfinished. }
  assert (forall consumed, consumption kind (token_id t) consumed ->
    forallb neutral consumed = true ->
    executes tr0 (try_except (run_handler spec ps)
      (fun exc => let* persisted := persist (execution_receipt "EXECUTION_FAILED" "failed"
           (spec_name spec) t (Some (spec_contract spec)) None [exn_message exc] PNone) in
         Ret (mkResult false "executor_failed" (text name) (token_id t) None true persisted
                [exn_message exc] (Some (contract_id (spec_contract spec)))))
      (complete spec (text name) t)) (tr ++ consumed)) as Hrun.
  { intros consumed Hc Hneu. apply wp_guarded_handler; [done|by apply unfinished_neutral|by eauto|].
    intros e tr' H1 H2 H3. by apply wp_refuse. }
  wp_step. destruct kind; cbn [consume_token].
  - wp_step; [done|]. cbn [log]. assoc. destruct answer as [[]|e]; cbn [negb].
    + apply Hrun; [constructor|done].
    + apply Hreplay. by apply unfinished_neutral.
    + destruct (is_Exception e) eqn:He; [|by apply base_exit_post].
      apply Hfail. by apply unfinished_neutral.
  - wp_step. wp_step; [done|]. cbn [log]. assoc. destruct answer as [[]|e].
    + wp_step. cbn [negb]. apply Hreplay. by apply unfinished_neutral.
    + wp_step. wp_step; [done|]. cbn [log]. assoc. destruct answer as [[]|e].
      * wp_step. cbn [negb]. apply Hrun; [constructor|done].
      * destruct (is_Exception e) eqn:He; [|by apply base_exit_post].
        apply Hfail. by apply unfinished_neutral.
    + destruct (is_Exception e) eqn:He; [|by apply base_exit_post].
      apply Hfail. by apply unfinished_neutral.
Qed.

Lemma wp_gated_run tr0 spec current clock :
  admitted spec current -> clock_events now current clock ->
  executes tr0 (gated_run kind spec (text name) t ps) (ELedgerHas (token_id t) (Ok false) :: clock).
Proof.
  intros Hadm Hclock. set (tr := ELedgerHas (token_id t) (Ok false) :: clock).
  assert (forallb neutral tr = true) as Hneu by exact (clock_neutral _ _ Hclock).
  assert (forallb (fun e => negb (is_handler_call e)) tr = true) as Hnocall by (by destruct Hclock).
  assert (unfinished tr false) as Hun.
  { apply (unfinished_neutral [] tr false unfinished_nil Hneu). }
  unfold gated_run. cbv zeta. wp_step. wp_step; [done|]. cbn [log]. assoc.
  destruct answer as [[safe reason]|e].
  2:{ apply escape_post. intros _. rewrite forallb_app, Hnocall. done. }
  destruct (is_true_obj safe) eqn:Hsafe; cbn [negb].
  2:{ apply wp_refuse_unfinished; [by apply unfinished_neutral|done|done]. }
  assert (safe = PBool true) as -> by (by destruct safe as [|[]| | | | | |]).
  wp_step. wp_call_step; [done|]. assoc. destruct answer as [[]|e].
  - cbn [negb]. apply wp_consume_and_run; [by apply Hadm| |].
    + apply (unfinished_app tr _ false true); done.
    + intros consumed h args Hc Hh Hargs. exists spec, current, clock, reason, consumed.
      split_and!; try done. unfold gate_events, tr. cbn [app]. by rewrite <- !app_assoc.
  - destruct (is_Exception e) eqn:He; [|by apply base_exit_post].
    cbn [negb]. wp_step. eexists. split; [done|]. clearbody tr.
    split; cbn; try done; unfold handler_output; rewrite ?omap_app, ?(unf_output _ _ Hun); try done.
    + rewrite existsb_app, (unf_started _ _ Hun). done.
    + exists (EReceipt (start_receipt spec t) (Err e)). rewrite (last_app tr [_; _]).
      split_and!; try done. by rewrite filter_app, (unf_final _ _ Hun).
    + naive_solver.
Qed.

Lemma wpt_execute_authorized tr0 :
  wpt log (only_cleared_calls tr0) (execute_authorized t name ps reg key kind now) tr0
    (authorized_post tr0).
Proof.
  unfold wpt, execute_authorized. cbv zeta. wp_step. wp_step; [done|]. cbn [log].
  destruct answer as [[]|e].
  { by apply wp_refuse_unfinished. }
  2:{ by apply escape_post. }
  wp_step. apply wpt_verify_token_at; [done| |].
  2:{ intros _ e. assoc. by apply escape_post. }
  intros current clock Hclock. assoc.
  set (tr := ELedgerHas (token_id t) (Ok false) :: clock).
  assert (unfinished tr false) as Hun.
  { apply (unfinished_neutral [] tr false unfinished_nil). exact (clock_neutral _ _ Hclock). }
  assert (forall e, escapes tr e) as Hesc by (intros e _; by destruct Hclock).
  destruct (verify_token t key current) as [[]|e] eqn:Hv; cbn [negb].
  2:{ by apply wp_refuse_unfinished. }
  2:{ by apply escape_post. }
  destruct (registry_get reg (text name)) as [spec|e] eqn:Hreg; [|by apply wp_refuse_unfinished].
  case_bool_decide as Hcap; [by apply wp_refuse_unfinished|].
  destruct (target_bound spec (tok_target t)) eqn:Htgt; cbn [negb]; [|by apply wp_refuse_unfinished].
  do 2 wp_step. destruct (validate_parameters (spec_contract spec) ps) as [errs|e] eqn:Hp.
  2:{ by apply escape_post. }
  case_bool_decide as Herrs; [by apply wp_refuse_unfinished|].
  subst errs. by eapply wp_gated_run.
Qed.

End Authorized.
