(* ===== verification/CoordinatedExecutor.v ===== *)
(** [services/coordinated_executor.py]: [execute_coordinated] acquires the exclusive
    resources of a contract, executes, and releases them on every exit path. *)

From stdpp Require Import base gmap sets list strings.
From Stdlib Require Import ZArith.
From S2P Require Import Prelude PyText PyVal Sha256 ExecutionContract CourtToken Resources.
From S2P Require Import Effects RuntimeOps ApprovedExecutor.

(** [_preflight]: the first reason to refuse that needs no resource. *)
Definition preflight (t : CapabilityToken) (name : string) (parameters : pyval) (reg : registry)
    (key : byte_string) (now : option Z) : runtime (option string) :=
  let* used := call (OpLedgerHas (token_id t)) in
  if (used : bool) then Ret (Some "token_replay") else
  let* verified := verify_token_at t key now in
  if negb verified then Ret (Some "invalid_token") else
  match registry_get reg name with
  | Err _ => Ret (Some "executor_not_registered")
  | Ok spec =>
      if bool_decide (spec_capability spec <> tok_capability t)
      then Ret (Some "executor_capability_mismatch")
      else if negb (target_bound spec (tok_target t)) then Ret (Some "executor_target_mismatch")
      else
      let* errors := of_outcome (validate_parameters (spec_contract spec) parameters) in
      if bool_decide (errors <> []) then Ret (Some "execution_contract_denied") else Ret None
  end.

(** [_resource_receipt] *)
Definition resource_receipt (event_type state owner_id name : string) (t : CapabilityToken)
    (resources : list string) (d : ResourceDecision) (errs : list string) : pyval :=
  PDict [(PStr "event_type", PStr event_type);
         (PStr "source", PStr "velvet-runtime");
         (PStr "subject_id", PStr (tok_profile_id t));
         (PStr "payload", PDict [
           (PStr "state", PStr state);
           (PStr "resource_owner_id", PStr owner_id);
           (PStr "resources", strs resources);
           (PStr "executor_name", PStr name);
           (PStr "token_id", PStr (token_id t));
           (PStr "intent_id", PStr (tok_intent_id t));
           (PStr "capability", PStr (tok_capability t));
           (PStr "target", PStr (tok_target t));
           (PStr "conflicts", PList (conflict_to_dict <$> conflicts d));
           (PStr "errors", strs errs);
           (PStr "execution_performed", PBool false);
           (PStr "actuation_performed", PBool false)])].

(** [_resource_errors] *)
Definition resource_errors (d : ResourceDecision) : list string :=
  errors d ++ ((fun c => "resource '" +:+ conflict_resource c +:+ "' is owned by '" +:+
                        conflict_owner c +:+ "'") <$> conflicts d).

(** ["execution:{}".format(token.token_id)] *)
Definition owner_of_token (t : CapabilityToken) : string := "execution:" +:+ token_id t.
#[global] Arguments owner_of_token : simpl never.

(** [replace(result, state=..., errors=...)] *)
Definition replace_state (r : ExecutionResult) (state : string) (errs : list string)
    : ExecutionResult :=
  mkResult (executed r) state (executor_name r) (result_token_id r) (output r)
    (start_receipt_persisted r) (final_receipt_persisted r) errs (result_contract_id r).

(** The [finally] block, entered with the outcome [o] of the execution. *)
Definition release_after (t : CapabilityToken) (name : string) (resources : list string)
    (o : outcome ExecutionResult) : runtime ExecutionResult :=
  let owner_id := owner_of_token t in
  let* release := call (OpRelease owner_id) in
  let* released := persist (resource_receipt
    (if granted release then "RESOURCE_RELEASED" else "RESOURCE_RELEASE_FAILED")
    (state release) owner_id name t resources release (resource_errors release)) in
  match o with
  | Err e => Raise e
  | Ok r =>
      if negb (granted release) || negb released then
        Ret (replace_state r
          (if negb (granted release) then "resource_release_failed" else "resource_release_unreceipted")
          (result_errors r ++ [if negb (granted release) then "resource lease release failed"
                               else "resource-release receipt could not be persisted"]))
      else Ret r
  end.

(** The part of [execute_coordinated] that runs with resources. *)
Definition execute_holding (t : CapabilityToken) (name : string) (parameters : pyval)
    (reg : registry) (key : byte_string) (kind : ledger_kind) (now : option Z)
    (contract : ExecutionContract) : runtime ExecutionResult :=
  let resources := exclusive_resources contract in
  let cid := Some (contract_id contract) in
  let owner_id := owner_of_token t in
  let* acquisition := call (OpAcquire owner_id resources) in
  if negb (granted acquisition) then
    let errs := resource_errors acquisition in
    let* persisted := persist (resource_receipt "RESOURCE_DENIED" (state acquisition) owner_id name t
                                 resources acquisition errs) in
    Ret (mkResult false (state acquisition) name (token_id t) None false persisted errs cid)
  else
    let* acquired := persist (resource_receipt "RESOURCE_ACQUIRED" (state acquisition) owner_id name t
                                resources acquisition []) in
    if negb acquired then
      let* _ := call (OpRelease owner_id) in
      Ret (mkResult false "resource_receipt_unpersisted" name (token_id t) None false false
             ["resource-acquisition receipt could not be persisted"] cid)
    else handle (execute_authorized t name parameters reg key kind now) (release_after t name resources).

(** [execute_coordinated] *)
Definition execute_coordinated (t : CapabilityToken) (executor_name : string) (parameters : pyval)
    (reg : registry) (key : byte_string) (kind : ledger_kind) (now : option Z)
    : runtime ExecutionResult :=
  let name := text executor_name in
  let* refusal := preflight t name parameters reg key now in
  match refusal with
  | Some _ => execute_authorized t name parameters reg key kind now
  | None =>
      let* spec := of_outcome (registry_get reg name) in
      let contract := spec_contract spec in
      if bool_decide (exclusive_resources contract = [])
      then execute_authorized t name parameters reg key kind now
      else execute_holding t name parameters reg key kind now contract
  end.

(** ** Facts *)

Lemma registry_get_text reg name : registry_get reg (text name) = registry_get reg name.
Proof. unfold registry_get. by rewrite text_idem. Qed.

Definition is_resource_event (e : event) : bool :=
  match e with EAcquire _ _ _ | ERelease _ _ => true | _ => false end.
Definition resource_free (tr : list event) : Prop := forallb (fun e => negb (is_resource_event e)) tr = true.

Lemma resource_free_app tr1 tr2 : resource_free (tr1 ++ tr2) <-> resource_free tr1 /\ resource_free tr2.
Proof. unfold resource_free. by rewrite forallb_app, andb_true_iff. Qed.

(** How one call uses the coordinator. *)
Inductive lease_protocol (owner : string) (rs : list string) : list event -> Prop :=
| no_lease tr : resource_free tr -> lease_protocol owner rs tr
| lease_error pre e :
    resource_free pre -> lease_protocol owner rs (pre ++ [EAcquire owner rs (Err e)])
| lease_refused pre d rc o :
    resource_free pre -> granted d = false ->
    lease_protocol owner rs (pre ++ [EAcquire owner rs (Ok d); EReceipt rc o])
| lease_unreceipted pre d rc e r :
    resource_free pre -> granted d = true -> is_Exception e = true ->
    lease_protocol owner rs
      (pre ++ [EAcquire owner rs (Ok d); EReceipt rc (Err e); ERelease owner r])
| lease_interrupted pre d rc e :
    resource_free pre -> granted d = true -> is_Exception e = false ->
    lease_protocol owner rs (pre ++ [EAcquire owner rs (Ok d); EReceipt rc (Err e)])
| lease_held pre d rc mid r fin :
    resource_free pre -> granted d = true -> resource_free mid -> resource_free fin ->
    lease_protocol owner rs
      (pre ++ [EAcquire owner rs (Ok d); EReceipt rc (Ok tt)] ++ mid ++ ERelease owner r :: fin).

Section Coordinated.
Context (t : CapabilityToken) (name : string) (ps : pyval) (reg : registry) (key : byte_string)
  (kind : ledger_kind) (now : option Z).

Abbreviation cleared_from := (cleared t (text name) ps reg key kind now).

(** The events of a preflight that found nothing to refuse. *)
Definition preflight_events (pre : list event) : Prop :=
  exists current clock, clock_events now current clock /\
    pre = ELedgerHas (token_id t) (Ok false) :: clock.

(** The trace before a handler's call: resources, if any are declared, are held. *)
Definition coordinated_clear (tr0 : list event) (h : string) (args : items) (tr : list event) : Prop :=
  exists spec pre, registry_get reg name = Ok spec /\ preflight_events pre /\
    let rs := exclusive_resources (spec_contract spec) in
    (rs = [] /\ cleared_from (tr0 ++ pre) h args tr) \/
    (rs <> [] /\ exists d rc, granted d = true /\
       cleared_from (tr0 ++ pre ++ [EAcquire (owner_of_token t) rs (Ok d); EReceipt rc (Ok tt)])
         h args tr).

(** The ledger never forgets: after "consumed" it does not answer "not consumed". *)
Definition ledger_monotone (tr : list event) : Prop :=
  forall id tr1 tr2, tr = tr1 ++ ELedgerHas id (Ok false) :: tr2 -> ELedgerHas id (Ok true) ∉ tr1.

Definition declared_resources : list string :=
  match registry_get reg name with Ok spec => exclusive_resources (spec_contract spec) | Err _ => [] end.

(** With a fixed clock and such a ledger, the resources are held at a handler's call. *)
Definition clear_if_stable (tr0 : list event) (h : string) (args : items) (tr : list event) : Prop :=
  forall tr', tr = tr0 ++ tr' -> is_Some now -> ledger_monotone tr' -> coordinated_clear tr0 h args tr.

(** What a call may do at each point, after the trace [tr0]. *)
Definition coordinated_allowed (tr0 tr : list event) (e : event) : Prop :=
  match e with
  | EHandlerCall h args _ =>
      (exists pre, forallb (fun e => negb (is_handler_call e)) pre = true /\
         cleared_from (tr0 ++ pre) h args tr) /\
      clear_if_stable tr0 h args tr
  | EAcquire o rs _ =>
      o = owner_of_token t /\ rs = declared_resources /\ rs <> [] /\
      exists tr', tr = tr0 ++ tr' /\ resource_free tr'
  | ERelease o _ => o = owner_of_token t
  | _ => True
  end.

(** A result agrees with the trace on what the handler did. *)
Record reports (tr : list event) (r : ExecutionResult) : Prop := {
  rep_name : executor_name r = text name;
  rep_token_id : result_token_id r = token_id t;
  rep_output : output r = handler_output tr;
  rep_executed : executed r =
    match handler_output tr, registry_get reg name with
    | Some out, Ok spec => negb (is_nonempty (validate_completion (spec_contract spec) out))
    | _, _ => false
    end;
  rep_started : start_receipt_persisted r = existsb (persisted_as "EXECUTION_STARTED") tr
}.

Definition coordinated_post (tr0 : list event) (o : outcome ExecutionResult) (tr : list event) : Prop :=
  exists tr', tr = tr0 ++ tr' /\
    lease_protocol (owner_of_token t) declared_resources tr' /\
    match o with Ok r => reports tr' r | Err _ => True end.

Lemma wpt_preflight allowed tr0 (Q : outcome (option string) -> list event -> Prop) :
  (forall tr o, allowed tr (ELedgerHas (token_id t) o)) -> (forall tr o, allowed tr (ETime o)) ->
  (forall e tr', forallb neutral tr' = true -> resource_free tr' -> Q (Err e) (tr0 ++ tr')) ->
  Q (Ok (Some "token_replay")) (tr0 ++ [ELedgerHas (token_id t) (Ok true)]) ->
  (forall current clock st, clock_events now current clock ->
     (forall spec, ~ admitted t name ps reg key spec current) ->
     Q (Ok (Some st)) (tr0 ++ ELedgerHas (token_id t) (Ok false) :: clock)) ->
  (forall current clock spec, clock_events now current clock -> admitted t name ps reg key spec current ->
     Q (Ok None) (tr0 ++ ELedgerHas (token_id t) (Ok false) :: clock)) ->
  wpt log allowed (preflight t (text name) ps reg key now) tr0 Q.
Proof.
  intros Hhas Htime Herr Hused Hno Hyes. unfold wpt, preflight.
  wp_step. wp_step; [apply Hhas|]. cbn [log].
  destruct answer as [[]|e]; [done| |by apply Herr].
  wp_step. apply wpt_verify_token_at; [done| |].
  2:{ intros _ e. rewrite <- app_assoc. by apply Herr. }
  intros current clock Hclock. rewrite <- app_assoc. cbn [app].
  assert (forall e, Q (Err e) (tr0 ++ ELedgerHas (token_id t) (Ok false) :: clock)) as Herr'.
  { intros e. apply Herr; by destruct Hclock. }
  destruct (verify_token t key current) as [[]|e] eqn:Hv; cbn [negb]; [| |done].
  2:{ wp_step. apply (Hno current); [done|]. intros spec Ha.
      pose proof (adm_token _ _ _ _ _ _ _ Ha). congruence. }
  destruct (registry_get reg (text name)) as [spec|e] eqn:Hreg.
  2:{ wp_step. apply (Hno current); [done|]. intros spec Ha.
      pose proof (adm_spec _ _ _ _ _ _ _ Ha). congruence. }
  assert (forall spec', admitted t name ps reg key spec' current -> spec' = spec) as Huniq.
  { intros spec' Ha. pose proof (adm_spec _ _ _ _ _ _ _ Ha). congruence. }
  case_bool_decide as Hcap.
  { wp_step. apply (Hno current); [done|]. intros spec' Ha. pose proof (Huniq _ Ha). subst.
    by pose proof (adm_capability _ _ _ _ _ _ _ Ha). }
  destruct (target_bound spec (tok_target t)) eqn:Htgt; cbn [negb].
  2:{ wp_step. apply (Hno current); [done|]. intros spec' Ha. pose proof (Huniq _ Ha). subst.
      pose proof (adm_target _ _ _ _ _ _ _ Ha). congruence. }
  do 2 wp_step. destruct (validate_parameters (spec_contract spec) ps) as [errs|e] eqn:Hp; [|done].
  case_bool_decide as Herrs; wp_step.
  - apply (Hno current); [done|]. intros spec' Ha. pose proof (Huniq _ Ha). subst.
    pose proof (adm_parameters _ _ _ _ _ _ _ Ha). congruence.
  - subst errs. by apply (Hyes current clock spec).
Qed.

(** The wrapped call, started after [tr1]. *)
Lemma wpt_inner (allowed : list event -> event -> Prop) tr1 :
  (forall tr e, only_cleared_calls t (text name) ps reg key kind now tr1 tr e -> allowed tr e) ->
  wpt log allowed (execute_authorized t (text name) ps reg key kind now) tr1
    (fun o tr => exists tr', tr = tr1 ++ tr' /\ resource_free tr' /\
       match o with Ok r => truthful t (text name) reg tr' r | Err _ => True end).
Proof.
  intros Hal. eapply wpt_mono; [exact Hal| |apply wpt_events, wpt_execute_authorized].
  cbn. intros o tr [(tr' & -> & Ho) (tr2 & Heq & Hev)]. apply app_inv_head in Heq. subst tr2.
  exists tr'. split_and!; [done| |by destruct o].
  apply forallb_Forall, Forall_forall. intros e Hin.
  apply list_elem_of_split in Hin as (a & b & ->). specialize (Hev a e b eq_refl). by destruct e.
Qed.

(** Events around the wrapped call that say nothing about the handler. *)
Definition silent (tr : list event) : Prop :=
  omap handler_value tr = [] /\ existsb (persisted_as "EXECUTION_STARTED") tr = false.

Lemma silent_app tr1 tr2 : silent tr1 -> silent tr2 -> silent (tr1 ++ tr2).
Proof. intros [H1 H2] [H3 H4]. split; [by rewrite omap_app, H1, H3|by rewrite existsb_app, H2, H4]. Qed.

Lemma silent_clock current clock : clock_events now current clock -> silent clock.
Proof. by destruct 1. Qed.

Lemma reports_frame pre mid fin r :
  silent pre -> silent fin -> truthful t (text name) reg mid r -> reports (pre ++ mid ++ fin) r.
Proof.
  intros [H1 H2] [H3 H4] Ht.
  assert (handler_output (pre ++ mid ++ fin) = handler_output mid) as Ho.
  { unfold handler_output. by rewrite !omap_app, H1, H3, app_nil_r. }
  split; rewrite ?Ho.
  - rewrite (truth_name _ _ _ _ _ Ht). apply text_idem.
  - apply Ht.
  - apply Ht.
  - rewrite (truth_executed _ _ _ _ _ Ht). by rewrite text_idem, registry_get_text.
  - rewrite (truth_started _ _ _ _ _ Ht). by rewrite !existsb_app, H2, H4, orb_false_r.
Qed.

Lemma reports_replace tr r state errs : reports tr r -> reports tr (replace_state r state errs).
Proof. intros [H1 H2 H3 H4 H5]. by split. Qed.

(** Refusals of the wrapper itself, which never reach the handler. *)
Lemma reports_refusal tr state persisted errs cid :
  silent tr -> reports tr (mkResult false state (text name) (token_id t) None false persisted errs cid).
Proof. intros [H1 H2]. split; unfold handler_output; rewrite ?H1, ?H2; done. Qed.

(** The wrapped call without resources. *)
Lemma wpt_plain tr0 pre :
  silent pre -> resource_free pre -> forallb (fun e => negb (is_handler_call e)) pre = true ->
  (forall h args tr, cleared_from (tr0 ++ pre) h args tr -> clear_if_stable tr0 h args tr) ->
  wpt log (coordinated_allowed tr0) (execute_authorized t (text name) ps reg key kind now) (tr0 ++ pre)
    (coordinated_post tr0).
Proof.
  intros Hs Hf Hcalls Hcl. eapply wpt_mono; [| |apply wpt_inner].
  - intros tr e H. exact H.
  - cbn. intros o tr (tr' & -> & Hfree & Ho). exists (pre ++ tr'). split_and!.
    + by rewrite <- app_assoc.
    + apply no_lease, resource_free_app. done.
    + destruct o as [r|]; [|done]. rewrite <- (app_nil_r tr'). by apply reports_frame.
  - intros tr e. destruct e; try done. cbn. intros H. split; [by exists pre|by apply Hcl].
Qed.

Lemma silent_receipt rc o : eq_str (receipt_type rc) "EXECUTION_STARTED" = false -> silent [EReceipt rc o].
Proof. intros H. split; [done|]. cbn. rewrite H. by destruct o. Qed.

(** The [finally] block. *)
Lemma wp_release_after tr0 pre d rc mid o :
  resource_free pre -> granted d = true -> resource_free mid -> silent pre ->
  match o with Ok r => truthful t (text name) reg mid r | Err _ => True end ->
  eq_str (receipt_type rc) "EXECUTION_STARTED" = false ->
  wp log (coordinated_allowed tr0) (fun acc e => acc ++ [e])
    (release_after t (text name) declared_resources o)
    (tr0 ++ pre ++ [EAcquire (owner_of_token t) declared_resources (Ok d); EReceipt rc (Ok tt)] ++ mid)
    (coordinated_post tr0).
Proof.
  intros Hpre Hd Hmid Hsil Ho Hrc. unfold release_after. cbv zeta.
  set (acq := [EAcquire (owner_of_token t) declared_resources (Ok d); EReceipt rc (Ok tt)]).
  assert (silent (pre ++ acq)) as Hsil1.
  { apply silent_app; [done|]. split; [done|]. cbn. by rewrite Hrc. }
  assert (forall rel fin, resource_free fin -> silent fin ->
    lease_protocol (owner_of_token t) declared_resources
      (pre ++ acq ++ mid ++ ERelease (owner_of_token t) rel :: fin) /\
    match o with Ok r => reports (pre ++ acq ++ mid ++ ERelease (owner_of_token t) rel :: fin) r
    | Err _ => True end) as Hend.
  { intros rel fin Hf Hs. split; [by apply lease_held|]. destruct o as [r|]; [|done].
    rewrite app_assoc. apply reports_frame; [done| |done].
    by apply (silent_app [_] fin). }
  wp_step. wp_step; [done|]. cbn [log].
  rewrite <- !app_assoc. cbn [app]. destruct answer as [rel|e].
  2:{ eexists. split; [done|]. destruct (Hend (Err e) []); by split. }
  wp_step. wp_call_step; [done|]. rewrite <- !app_assoc. cbn [app].
  match goal with |- context [EReceipt ?rc0 answer] =>
    assert (silent [EReceipt rc0 answer]) as Hs by (apply silent_receipt; by destruct (granted rel));
    destruct (Hend (Ok rel) [EReceipt rc0 answer] eq_refl Hs) as [Hp Hr] end.
  destruct answer as [u|e]; [|destruct (is_Exception e) eqn:He; [|by eexists]].
  all: destruct o as [r|e']; [|wp_step; by eexists].
  all: destruct (granted rel); cbn [negb orb]; wp_step; eexists; (split; [done|]); split; try done.
  all: by apply reports_replace.
Qed.

Lemma wp_execute_holding tr0 pre spec :
  registry_get reg name = Ok spec -> exclusive_resources (spec_contract spec) <> [] ->
  preflight_events pre ->
  wp log (coordinated_allowed tr0) (fun acc e => acc ++ [e])
    (execute_holding t (text name) ps reg key kind now (spec_contract spec))
    (tr0 ++ pre) (coordinated_post tr0).
Proof.
  intros Hreg Hrs Hpre.
  assert (exclusive_resources (spec_contract spec) = declared_resources) as Hdecl.
  { unfold declared_resources. by rewrite Hreg. }
  destruct Hpre as (current & clock & Hclock & Hpre).
  assert (resource_free pre) as Hfree by (subst; by destruct Hclock).
  assert (silent pre) as Hsil by (subst; by destruct Hclock).
  unfold execute_holding. rewrite Hdecl. cbv zeta.
  wp_step. wp_step. { split_and!; [done..|congruence|by exists pre]. }
  cbn [log]. rewrite <- app_assoc. cbn [app]. destruct answer as [d|e].
  2:{ eexists. split_and!; [done|by apply lease_error|done]. }
  destruct (granted d) eqn:Hd; cbn [negb]; wp_step; (wp_call_step; [done|]);
    rewrite <- !app_assoc; cbn [app].
  2:{ destruct answer as [u|e]; [|destruct (is_Exception e) eqn:He]; try wp_step;
        (eexists; split; [done|]; split; [by apply lease_refused|]); try done;
        apply reports_refusal, silent_app; done. }
  destruct answer as [[]|e]; [|destruct (is_Exception e) eqn:He]; cbn [negb].
  3:{ eexists. split_and!; [done|by apply lease_interrupted|done]. }
  2:{ wp_step. wp_step; [done|]. cbn [log]. rewrite <- !app_assoc. cbn [app].
      destruct answer as [rel|e']; [wp_step|]; eexists; (split; [done|]);
        (split; [by apply lease_unreceipted|]); [|done].
      apply reports_refusal, silent_app; done. }
  apply wp_handle. match goal with |- context [EReceipt ?rc0 (Ok tt)] => set (rc := rc0) end.
  set (acq := [EAcquire (owner_of_token t) declared_resources (Ok d); EReceipt rc (Ok tt)]).
  eapply wpt_mono; [intros tr e H; exact H| |apply wpt_inner].
  - cbn. intros o tr (mid & -> & Hmid & Ho). rewrite <- !app_assoc.
    apply wp_release_after; try done.
  - intros tr e Hal. destruct e; try done. cbn in Hal |- *. split.
    { exists (pre ++ acq). split; [|done]. rewrite forallb_app. subst pre. by destruct Hclock. }
    intros tr' -> Hnow Hmono. exists spec, pre. split_and!; [done|by exists current, clock|]. right. split; [done|].
    exists d, rc. split; [done|]. by rewrite Hdecl.
Qed.

Lemma wpt_execute_coordinated tr0 :
  wpt log (coordinated_allowed tr0) (execute_coordinated t name ps reg key kind now) tr0
    (coordinated_post tr0).
Proof.
  unfold wpt, execute_coordinated. cbv zeta. wp_step. apply wpt_preflight; try done.
  - intros e tr' Hneu Hfree. exists tr'. split_and!; [done|by apply no_lease|done].
  - apply wpt_plain; try done. intros h args tr Hcl tr' -> _ Hmono. exfalso.
    destruct Hcl as (spec & current & clock & reason & consumed & _ & _ & _ & _ & _ & Heq).
    rewrite <- app_assoc in Heq. apply app_inv_head in Heq. subst tr'.
    apply (Hmono (token_id t) [ELedgerHas (token_id t) (Ok true)] _ eq_refl). left.
  - intros current clock st Hclock Hno. apply wpt_plain; [by destruct Hclock..|].
    intros h args tr Hcl tr' -> [n ->] _. exfalso.
    destruct Hcl as (spec & c2 & clock2 & reason & consumed & Hadm & Hclock2 & _).
    inversion Hclock; inversion Hclock2; subst. apply (Hno spec).
    destruct Hadm as [Ha1 Ha2 Ha3 Ha4 Ha5]. rewrite text_idem in Ha1. by split.
  - intros current clock spec Hclock Hadm. do 2 wp_step.
    pose proof (adm_spec _ _ _ _ _ _ _ Hadm) as Hreg. rewrite Hreg.
    rewrite registry_get_text in Hreg.
    case_bool_decide as Hrs.
    + apply wpt_plain; [by destruct Hclock..|]. intros h args tr Hcl tr' -> _ _.
      exists spec, (ELedgerHas (token_id t) (Ok false) :: clock). split_and!; [done| |].
      * by exists current, clock.
      * by left.
    + apply wp_execute_holding; try done. by exists current, clock.
Qed.
End Coordinated.
