(* ===== verification/Samples.v ===== *)
(** A small concrete configuration used to evaluate the definitions: one intent, one
    signing key, one executor that needs an exclusive resource, and a policy file. *)

From stdpp Require Import base gmap sets list strings.
From Stdlib Require Import ZArith.
From S2P Require Import Prelude PyText PyVal Json Sha256 ExecutionContract Court CourtToken.
From S2P Require Import Effects RuntimeOps ApprovedExecutor CoordinatedExecutor Resources.

Definition sample_intent : CourtIntent.Intent :=
  CourtIntent.mkIntent "intent-1" "set" "lights.set" "cabin" "owner-1" "session-1" "body-1"
    "dash" 1000.

Definition sample_key : byte_string := repeat 7%N 32.

Definition blank_token : CapabilityToken := mkToken "" "" "" "" "" "" "" "" 0 0 "" "".

Definition sample_token : CapabilityToken :=
  match issue_token sample_intent "cabin-policy" sample_key 30 1000 with
  | Ok t => t
  | Err _ => blank_token
  end.

Definition sample_contract : ExecutionContract :=
  mkExecutionContract "lights.v1" [mkParameterRule "level" "int" true] false "idempotent" 0 false
    ["cabin_lights"] "completed" ["EXECUTION_STARTED"; "EXECUTION_COMPLETED"].

Definition sample_spec : ExecutorSpec :=
  mkExecutorSpec "lights" "lights.set" ["cabin"] (Callable "set_lights") sample_contract.

Definition sample_registry : registry :=
  match register sample_spec ∅ with Ok r => r | Err _ => ∅ end.

Definition sample_parameters : pyval := PDict [(PStr "level", PInt 3)].

(** The answers of an environment in which everything succeeds. *)
Definition sample_script : list answer :=
  [ABool false; ASafety (PBool true) "ok"; AUnit; ABool true; AUnit;
   AVal (PDict [(PStr "state", PStr "completed")]); AUnit].

Definition sample_execution : runtime ExecutionResult :=
  execute_authorized sample_token "Lights" sample_parameters sample_registry sample_key
    AtomicLedger (Some 1010%Z).

Definition sample_run := run_script sample_execution sample_script.

Example sample_run_completes :
  match outcome_of sample_run with
  | Ok r => executed r && bool_decide (result_state r = "completed") && final_receipt_persisted r
  | Err _ => false
  end = true.
Proof. vm_compute. reflexivity. Qed.

Lemma sample_run_exec : exec log sample_execution (trace_of sample_run) (outcome_of sample_run).
Proof. unfold sample_run. apply run_script_exec. Qed.

(** The same execution with resources. *)
Definition coordinated_script : list answer :=
  [ABool false; ADecision (mkDecision true "acquired" None [] []); AUnit; ABool false;
   ASafety (PBool true) ""; AUnit; ABool true; AUnit; AVal (PDict []); AUnit;
   ADecision (mkDecision true "released" None [] []); AUnit].

Definition coordinated_execution : runtime ExecutionResult :=
  execute_coordinated sample_token "lights" sample_parameters sample_registry sample_key AtomicLedger
    (Some 1010%Z).

Definition coordinated_run := run_script coordinated_execution coordinated_script.

Lemma coordinated_run_exec :
  exec log coordinated_execution (trace_of coordinated_run) (outcome_of coordinated_run).
Proof. unfold coordinated_run. apply run_script_exec. Qed.
