(* ===== verification/ComponentTheorems.v ===== *)
(** The properties of the components the spine is built from: contracts and parameters,
    the replay ledger, the resource coordinator, and the two registries. *)

From stdpp Require Import base gmap sets list strings.
From Stdlib Require Import ZArith.
From S2P Require Import Prelude PyText PyVal Json Sha256 ExecutionContract CourtToken Resources.
From S2P Require Import ReplayLedger SafetyGates Effects RuntimeOps ApprovedExecutor.
From S2P Require Import CoordinatedExecutor Samples.

(** ** Execution contracts *)

(** Normalising a contract yields a well-formed one (identities and resources normal
    and non-empty, rules and receipts unique and of known kinds, retries between 0 and 10
    and none for non-idempotent contracts, both mandatory receipts present), and
    well-formed contracts are exactly the ones normalisation leaves as they are. *)
Theorem contract_normalisation c c' :
  normalized c = Ok c' -> wf_contract c' /\ normalized c' = Ok c' /\ (wf_contract c <-> c' = c).
Proof.
  intros H. pose proof (normalized_ok_wf _ _ H) as Hwf. split_and!; [done|by apply normalized_wf_id|].
  split; [|by intros <-]. intros Hc. rewrite (normalized_wf_id _ Hc) in H. by injection H.
Qed.

Definition loose_contract : ExecutionContract :=
  mkExecutionContract " Lights.V1 " [mkParameterRule " Level" "INT" true] false "Idempotent" 2 false
    ["seat"; " Cabin"; "seat "] "Completed" ["execution completed"; "execution_started"].

Lemma contract_normalisation_witness :
  let c' := mkExecutionContract "lights.v1" [mkParameterRule "level" "int" true] false "idempotent" 2
    false ["cabin"; "seat"] "completed" ["EXECUTION_COMPLETED"; "EXECUTION_STARTED"] in
  wf_contract c' /\ normalized c' = Ok c' /\ (wf_contract loose_contract <-> c' = loose_contract).
Proof. cbv zeta. apply contract_normalisation. vm_compute. reflexivity. Defined.

(** On a well-formed contract the parameter check always returns, and it returns no
    error exactly when every parameter name is a non-empty string, every required
    parameter is supplied, every supplied value has its rule's type (booleans are not
    numbers), and undeclared parameters are absent unless allowed; a value that is not a
    mapping is always refused. *)
Theorem parameters_accepted_iff c ps :
  wf_contract c ->
  (exists errors, validate_parameters c ps = Ok errors) /\
  (validate_parameters c ps = Ok [] <->
   exists d, ps = PDict d /\ accepts c (supplied_parameters d)).
Proof.
  intros Hc. split; [by apply validate_parameters_total|].
  destruct ps as [| | | | | | |d]; try (split; [done|by intros (? & ? & _)]).
  rewrite validate_parameters_accepts by done. naive_solver.
Qed.

Lemma sample_contract_wf : wf_contract sample_contract.
Proof. by apply (normalized_ok_wf sample_contract). Qed.

Lemma parameters_accepted_iff_witness :
  (exists errors, validate_parameters sample_contract sample_parameters = Ok errors) /\
  (validate_parameters sample_contract sample_parameters = Ok [] <->
   exists d, sample_parameters = PDict d /\ accepts sample_contract (supplied_parameters d)).
Proof. apply (parameters_accepted_iff sample_contract sample_parameters). exact sample_contract_wf. Defined.

(** ** The replay ledger *)

(** The replay ledger is durable and exact: on a file whose last line is complete, any
    sequence of consumptions answers [True] exactly for the first use of an identifier
    that the file did not record before, every call returns, and a ledger opened later on
    the resulting file knows exactly the old and the consumed identifiers. *)
Theorem ledger_consumes_once ids l seen :
  file_ok l seen -> Forall (fun id => id <> "" /\ text id = id) ids ->
  exists l', consume_all ids l = Ok (first_uses seen ids, l') /\
    (open_ledger (file l') = Ok (mkLedger (file l') (list_to_set ids ∪ seen))) /\
    (forall id, id <> "" -> text id = id -> exists l2,
       contains (PStr id) l' = Ok (bool_decide (id ∈ (list_to_set ids ∪ seen : gset string)), l2)).
Proof.
  intros Hok Hids. destruct (consume_all_ok ids l seen Hok Hids) as (l' & Hc & Hok').
  exists l'. split_and!; [done| |].
  - unfold open_ledger. by rewrite (load_file_ok _ _ Hok').
  - intros id Hne Hid. destruct (contains_ok (PStr id) _ _ Hok') as (l2 & Hl2 & _). exists l2.
    rewrite Hl2. rewrite (text_strict_id _ Hid). by destruct id.
Qed.

Lemma ledger_consumes_once_witness :
  exists l', consume_all ["a1"; "b2"; "a1"] (mkLedger None ∅) = Ok ([true; true; false], l') /\
    (open_ledger (file l') = Ok (mkLedger (file l') (list_to_set ["a1"; "b2"; "a1"] ∪ ∅))) /\
    (forall id, id <> "" -> text id = id -> exists l2,
       contains (PStr id) l' = Ok (bool_decide (id ∈ (list_to_set ["a1"; "b2"; "a1"] ∪ ∅ : gset string)), l2)).
Proof.
  assert (first_uses ∅ ["a1"; "b2"; "a1"] = [true; true; false]) as <- by (vm_compute; reflexivity).
  apply (ledger_consumes_once ["a1"; "b2"; "a1"] (mkLedger None ∅) ∅); [done|].
  by repeat constructor.
Defined.

(** ** The resource coordinator *)

(** In every state a coordinator can reach, by any sequence of acquisitions and
    releases with any arguments, a resource is in at most one lease, and it is owned in
    the owner table exactly by the owner whose lease contains it. *)
Theorem coordinator_exclusive s r o1 o2 l1 l2 :
  reachable s -> leases s !! o1 = Some l1 -> leases s !! o2 = Some l2 ->
  r ∈ lease_resources l1 -> r ∈ lease_resources l2 ->
  o1 = o2 /\ owners s !! r = Some o1 /\ lease_owner l1 = o1.
Proof.
  intros Hr H1 H2 Hr1 Hr2. apply reachable_inv in Hr as Hinv.
  split; [by eapply leases_disjoint|]. destruct (inv_lease _ Hinv _ _ H1) as (? & _ & _ & _ & Ho).
  split; [by apply Ho|done].
Qed.

Definition two_leases : coordinator :=
  match acquire "Exec A" (PTuple [PStr "seat"; PStr "door"]) empty_coordinator with
  | Ok (_, s) => match acquire "exec b" (PTuple [PStr "door"]) s with Ok (_, s') => s' | Err _ => s end
  | Err _ => empty_coordinator
  end.

Lemma coordinator_exclusive_witness :
  "exec a" = "exec a" /\ owners two_leases !! "door" = Some "exec a" /\
  lease_owner (mkLease "exec a" ["door"; "seat"]) = "exec a".
Proof.
  apply (coordinator_exclusive two_leases "door" "exec a" "exec a" (mkLease "exec a" ["door"; "seat"])
    (mkLease "exec a" ["door"; "seat"])).
  - unfold two_leases. destruct (acquire "Exec A" _ _) as [[d s]|] eqn:H1; [|apply rtc_refl].
    eapply rtc_l; [by eapply call_acquire|].
    destruct (acquire "exec b" _ s) as [[d' s']|] eqn:H2; [|apply rtc_refl].
    eapply rtc_l; [by eapply call_acquire|apply rtc_refl].
  - vm_compute. reflexivity.
  - vm_compute. reflexivity.
  - left.
  - left.
Defined.

(** [acquire] refines the abstract table "owner to set of resources": a set is granted
    whole or not at all; a new set is granted exactly when it is disjoint from every
    other owner's, an owner that holds a set gets the same set again and no other, and
    refusals change nothing. *)
Theorem acquire_refines_table owner_id rs s d s' req :
  reachable s -> text owner_id <> "" -> requested_resources rs = Ok req ->
  acquire owner_id rs s = Ok (d, s') ->
  grant_spec (holdings s) (text owner_id) (list_to_set req) (granted d) (holdings s').
Proof. intros Hr. apply acquire_grant_spec. by apply reachable_inv. Qed.

Lemma acquire_refines_table_witness :
  grant_spec (holdings two_leases) "exec b" (list_to_set ["door"]) false (holdings two_leases).
Proof.
  apply (acquire_refines_table "exec b" (PTuple [PStr "door"]) two_leases
    (mkDecision false "resource_conflict" None [mkConflict "door" "exec a"] [])).
  - unfold two_leases. destruct (acquire "Exec A" _ _) as [[d s]|] eqn:H1; [|apply rtc_refl].
    eapply rtc_l; [by eapply call_acquire|].
    destruct (acquire "exec b" _ s) as [[d' s']|] eqn:H2; [|apply rtc_refl].
    eapply rtc_l; [by eapply call_acquire|apply rtc_refl].
  - done.
  - vm_compute. reflexivity.
  - vm_compute. reflexivity.
Defined.

(** [release] removes exactly the caller's set and nothing else, and reports success
    exactly when there was one. *)
Theorem release_refines_table owner_id s :
  text owner_id <> "" ->
  holdings (release owner_id s).2 = delete (text owner_id) (holdings s) /\
  granted (release owner_id s).1 = bool_decide (is_Some (holdings s !! text owner_id)).
Proof. apply release_holdings. Qed.

Lemma release_refines_table_witness :
  holdings (release "EXEC a" two_leases).2 = delete (text "EXEC a") (holdings two_leases) /\
  granted (release "EXEC a" two_leases).1 = bool_decide (is_Some (holdings two_leases !! text "EXEC a")).
Proof. by apply (release_refines_table "EXEC a" two_leases). Defined.

(** ** Registries *)

(** Registering an executor stores a normalised, callable specification with a
    well-formed contract under its normalised name; looking the name up, in any spelling,
    returns it, every other name is unaffected, and an existing name is never
    overwritten. *)
Theorem executor_registration spec reg reg' :
  registry_inv reg -> register spec reg = Ok reg' ->
  registry_inv reg' /\
  (forall name, text name = text (spec_name spec) -> exists s, registry_get reg' name = Ok s /\
     wf_spec (text name) s /\ spec_handler s = spec_handler spec /\
     normalized (spec_contract spec) = Ok (spec_contract s)) /\
  (forall name, text name <> text (spec_name spec) -> registry_get reg' name = registry_get reg name) /\
  is_registered reg (spec_name spec) = false.
Proof.
  intros Hinv H. pose proof (register_inv _ _ _ Hinv H) as Hinv'.
  destruct (register_spec _ _ _ H) as (s & Hs & Hnone & -> & Hcap & Hh & Hc & _).
  split_and!; [done| | |].
  - intros name Hn. exists s. unfold registry_get. rewrite Hn, lookup_insert_eq. by rewrite <- Hn in *.
  - intros name Hn. unfold registry_get. by rewrite lookup_insert_ne.
  - unfold is_registered. rewrite Hnone. by rewrite andb_false_r.
Qed.

Lemma executor_registration_witness :
  registry_inv sample_registry /\
  (forall name, text name = "lights" -> exists s, registry_get sample_registry name = Ok s /\
     wf_spec (text name) s /\ spec_handler s = Callable "set_lights" /\
     normalized sample_contract = Ok (spec_contract s)) /\
  (forall name, text name <> "lights" -> registry_get sample_registry name = registry_get ∅ name) /\
  is_registered ∅ "lights" = false.
Proof.
  apply (executor_registration sample_spec ∅ sample_registry).
  - apply map_Forall_empty.
  - vm_compute. reflexivity.
Defined.

(** Safety gates fail closed: [evaluate] approves exactly when one and only one
    registered gate matches the token's capability and target and its check returned
    [True]; no gate, several gates, any other answer or an exception in the check refuse,
    and only a [BaseException] escapes. *)
Theorem safety_gate_approves_iff check g t ps :
  (forall reason, evaluate check g t ps = Ok (true, reason) <->
   exists gate c r, filter (fun s => gate_matches t s = true) g = [gate] /\
     gate_check gate = Some c /\ check c t ps = Ok (PBool true, r) /\
     reason = or_else r ("safety gate " +:+ gate_name gate +:+ " approved execution")) /\
  (forall e, evaluate check g t ps = Err e -> is_Exception e = false).
Proof. split; intros; [apply evaluate_true|by eapply evaluate_raises]. Qed.

(** The gate registry keeps its gates normalised, callable and uniquely named: every
    accepted registration preserves this, adds exactly one gate, and the new gate is what
    its name finds. *)
Theorem gate_registration spec g g' :
  gates_inv g -> register_gate spec g = Ok g' ->
  gates_inv g' /\ gate_count g' = S (gate_count g) /\
  exists s, get_gate g' (gate_name spec) = Ok s /\ wf_gate s /\ gate_check s = gate_check spec /\
    gate_name s = gate_name spec /\ gate_is_registered g (gate_name spec) = false.
Proof.
  intros Hinv H. pose proof (register_gate_inv _ _ _ Hinv H) as Hinv'. split; [done|].
  unfold register_gate in H. guards H. destruct (gate_check spec) as [c|] eqn:Hck; [|done].
  guards H. injection H as <-. rewrite <- eq_None_not_Some in G1. destruct G as [[Hn Hc] Ht].
  split; [unfold gate_count; rewrite length_app; cbn; lia|].
  assert (text_strict (gate_name spec) = gate_name spec) as Hname.
  { apply text_strict_nonempty, is_nonempty_spec, Hn. }
  match type of Hinv' with gates_inv (g ++ [?s]) => exists s end. split_and!.
  - unfold get_gate. rewrite find_gate_app by done. by rewrite decide_True.
  - destruct Hinv' as [_ Hf]. apply Forall_app in Hf as [_ Hf]. by apply Forall_cons in Hf as [? _].
  - done.
  - exact Hname.
  - unfold gate_is_registered. rewrite G1. by rewrite andb_false_r.
Qed.

Lemma gate_registration_witness :
  let spec := mkGate "cabin gate" "lights.set" ["cabin"; "*"] (Some "check") in
  let s' := mkGate "cabin gate" "lights.set" ["*"; "cabin"] (Some "check") in
  gates_inv [s'] /\ gate_count [s'] = S (gate_count []) /\
  exists s, get_gate [s'] (gate_name spec) = Ok s /\ wf_gate s /\ gate_check s = gate_check spec /\
    gate_name s = gate_name spec /\ gate_is_registered [] (gate_name spec) = false.
Proof.
  cbv zeta. apply (gate_registration (mkGate "cabin gate" "lights.set" ["cabin"; "*"] (Some "check")) []).
  - split; constructor.
  - vm_compute. reflexivity.
Defined.
