(* ===== verification/CourtAuthorization.v ===== *)
(** [services/court_authorization.py]: [authorize_intent], the decision layer of the
    Court.  It validates the intent, resolves authority and the active policy set,
    persists a decision receipt and may issue a token.  The capability context is any
    object; its attributes are read with [getattr]. *)

From stdpp Require Import base gmap sets list strings.
From Stdlib Require Import ZArith.
From S2P Require Import Prelude PyText PyVal Json Sha256 Court CourtPolicy CourtToken Resources.
From S2P Require Import Effects RuntimeOps.
Import CourtIntent CourtReasons CourtAuthority.

Record CourtDecision := mkCourtDecision {
  allowed : bool;
  decision_state : string;
  decision_policy_id : option string;
  token : option CapabilityToken;
  decision_errors : list string;
  receipt_persisted : bool;
  reason : CourtReason;
  decision_policy_ids : list string;
  policy_findings : list pyval;
  authority_profile : option string;
  decision_rank : option Z;
  authority_candidates : list string
}.

(** [_CONTEXT_BINDINGS], with the intent's field of the same name. *)
Definition context_bindings (i : Intent) : list (string * string * string) :=
  [("profile_id", "profile", profile_id i); ("session_id", "session", session_id i);
   ("body_id", "body", body_id i); ("surface", "surface", surface i)].

(** One iteration of [_validate_context_binding]. *)
Definition binding_errors (ctx : pyobj) (b : string * string * string) : list string :=
  let '(field, label, value) := b in
  match getattr ctx field PNone with
  | PStr expected =>
      if is_blank expected then ["capability context " +:+ label +:+ " identity is missing"]
      else if bool_decide (text expected <> value)
      then ["intent " +:+ label +:+ " does not match active capability context"]
      else []
  | _ => ["capability context " +:+ label +:+ " identity is missing"]
  end.

(** [_validate_context_binding] *)
Definition validate_context_binding (i : Intent) (ctx : pyobj) : list string :=
  context_bindings i ≫= binding_errors ctx.

(** [set(getattr(capability_context, "proposed_capabilities", ()))] *)
Definition proposed_capabilities (ctx : pyobj) : outcome (list pyval) :=
  let? values := iter_or_type_error (getattr ctx "proposed_capabilities" (PTuple [])) in
  if forallb hashable values then Ok values else raise TypeError "unhashable type".

Definition proposes (values : list pyval) (capability : string) : bool :=
  existsb (fun v => eq_str v capability) values.

(** [_decision_receipt] *)
Definition decision_receipt (event_type state : string) (i : Intent) (policy_id : option string)
    (policy_ids : list string) (findings : list pyval) (authority : option AuthorityResolution)
    (tid : option string) (errors : list string) (r : CourtReason) : pyval :=
  PDict [(PStr "event_type", PStr event_type);
         (PStr "source", PStr "velvet-runtime");
         (PStr "subject_id", PStr (if is_nonempty (profile_id i) then profile_id i else "unknown"));
         (PStr "payload", PDict [
           (PStr "state", PStr state);
           (PStr "reason", reason_to_dict r);
           (PStr "intent_id", PStr (intent_id i));
           (PStr "capability", PStr (capability i));
           (PStr "target", PStr (target i));
           (PStr "profile_id", PStr (profile_id i));
           (PStr "session_id", PStr (session_id i));
           (PStr "body_id", PStr (body_id i));
           (PStr "surface", PStr (surface i));
           (PStr "authority", match authority with Some a => resolution_to_dict a | None => PNone end);
           (PStr "policy_id", opt_str policy_id);
           (PStr "policy_ids", strs policy_ids);
           (PStr "policy_findings", PList findings);
           (PStr "token_id", opt_str tid);
           (PStr "errors", strs errors);
           (PStr "execution_performed", PBool false);
           (PStr "actuation_performed", PBool false)])].

(** [_persist]: whether the receipt was kept, and the error if not. *)
Definition court_persist (receipt : pyval) : runtime (bool * list string) :=
  try_except (call (OpReceipt receipt))
    (fun exc => Ret (false, ["receipt persistence failed: " +:+ exn_message exc]))
    (fun _ => Ret (true, [])).

(** [_decision] *)
Definition decision (alw : bool) (state : string) (policy_id : option string)
    (tok : option CapabilityToken) (errors : list string) (persisted : bool) (r : CourtReason)
    (policy_ids : list string) (findings : list pyval) (authority : option AuthorityResolution)
    : CourtDecision :=
  mkCourtDecision alw state policy_id tok errors persisted r policy_ids findings
    (selected_profile <$> authority) (selected_rank <$> authority)
    (match authority with Some a => candidates a | None => [] end).

(** [_deny] *)
Definition court_deny (state : string) (i : Intent) (policy_id : option string)
    (policy_ids : list string) (findings : list pyval) (authority : option AuthorityResolution)
    (errors : list string) : runtime CourtDecision :=
  let* r := of_outcome (reason_for_state state errors) in
  let* kept := court_persist (decision_receipt "COURT_DENIED" state i policy_id policy_ids findings
                                authority None errors r) in
  Ret (decision false state policy_id None (errors ++ kept.2) kept.1 r policy_ids findings authority).

(** [_authorization_details] *)
Definition authorization_details (r : PolicyResolution) (a : AuthorityResolution) : list string :=
  ["authority '" +:+ selected_profile a +:+ "' resolved at rank " +:+ str_of_Z (selected_rank a);
   "all " +:+ str_of_Z (Z.of_nat (length (policy_ids r))) +:+ " active policies permitted the request";
   "token lifetime restricted to " +:+ str_of_Z (token_ttl_seconds r) +:+ " seconds"].

(** [issue_token(..., now=now)] *)
Definition issue_token_at (i : Intent) (policy_id : string) (key : byte_string) (ttl : Z)
    (now : option Z) : runtime CapabilityToken :=
  let* _ := of_outcome (issue_guard key ttl) in
  let* issued := current_time now in
  of_outcome (issue_token i policy_id key ttl issued).

(** The part of [authorize_intent] after the policy set permitted the request. *)
Definition grant (i : Intent) (res : PolicyResolution) (authority : AuthorityResolution)
    (key : byte_string) (now : option Z) : runtime CourtDecision :=
  let fs := finding_to_dict <$> findings res in
  let* t := issue_token_at i (policy_set_id res) key (token_ttl_seconds res) now in
  let* r := of_outcome (reason_for_state "authorized" (authorization_details res authority)) in
  let* kept := court_persist (decision_receipt "COURT_AUTHORIZED" "authorized" i
    (Some (policy_set_id res)) (policy_ids res) fs (Some authority) (Some (token_id t)) [] r) in
  if negb kept.1 then
    let* failed := of_outcome (reason_for_state "authorization_unreceipted" kept.2) in
    Ret (decision false "authorization_unreceipted" (Some (policy_set_id res)) None kept.2 false
           failed (policy_ids res) fs (Some authority))
  else
    Ret (decision true "authorized" (Some (policy_set_id res)) (Some t) [] true r (policy_ids res)
           fs (Some authority)).

Definition or_default (o : option string) (dflt : string) : string :=
  match o with Some s => if is_nonempty s then s else dflt | None => dflt end.

(** [authorize_intent] *)
Definition authorize_intent (i : Intent) (ctx : pyobj) (policy_path : string) (key : byte_string)
    (now : option Z) : runtime CourtDecision :=
  let errors := validate_intent i in
  if bool_decide (errors <> []) then court_deny "invalid_intent" i None [] [] None errors else
  let* requested := of_outcome (policy_ids_from_context ctx) in
  let set_id := join "+" requested in
  let* authority := of_outcome (resolve_authority ctx) in
  let deny state errors := court_deny state i (Some set_id) requested [] (Some authority) errors in
  if negb (valid authority) then
    deny (or_default (res_state authority) "authority_unknown")
      [or_default (res_detail authority) "authority resolution failed"]
  else if negb (is_true_obj (getattr ctx "authorization_required" (PBool true))) then
    deny "invalid_capability_context" ["authorization must be required"]
  else
  let context_errors := validate_context_binding i ctx in
  if bool_decide (context_errors <> []) then deny "context_mismatch" context_errors else
  let* proposed := of_outcome (proposed_capabilities ctx) in
  if negb (proposes proposed (capability i)) then
    deny "capability_not_proposed" ["capability is outside the proposed context"]
  else
  let* file := call (OpReadFile policy_path) in
  let* res := of_outcome (resolve_policy_set policy_path file requested (capability i) (target i)) in
  if negb (resolution_allowed res) then
    court_deny (or_default (denial_state res) "policy_denied") i (Some (policy_set_id res))
      (policy_ids res) (finding_to_dict <$> findings res) (Some authority)
      [or_default (denial_detail res) "policy set denied request"]
  else grant i res authority key now.

(** ** What the Court decides *)

(** The Court reads the clock and the policy file and writes receipts, nothing else. *)
Definition court_allowed (tr : list event) (e : event) : Prop :=
  match e with ETime _ | EReadFile _ _ | EReceipt _ _ => True | _ => False end.

Section Decision.
Context (i : Intent) (ctx : pyobj) (policy_path : string) (key : byte_string) (now : option Z).

(** Everything the Court requires of an intent, given the text of the policy file. *)
Record conditions (file : option string) (requested : list string)
    (authority : AuthorityResolution) (res : PolicyResolution) : Prop := {
  cond_intent : wf_intent i;
  cond_policies : policy_ids_from_context ctx = Ok requested;
  cond_authority : resolve_authority ctx = Ok authority /\ valid authority = true;
  cond_required : getattr ctx "authorization_required" (PBool true) = PBool true;
  cond_binding : validate_context_binding i ctx = [];
  cond_proposed : exists values, proposed_capabilities ctx = Ok values /\
    proposes values (capability i) = true;
  cond_resolution : resolve_policy_set policy_path file requested (capability i) (target i) = Ok res /\
    resolution_allowed res = true
}.

Definition permitted (tr : list event) : Prop :=
  exists file requested authority res,
    EReadFile policy_path (Ok file) ∈ tr /\ conditions file requested authority res.

(** The receipt of an authorization. *)
Definition grant_receipt (requested : list string) (authority : AuthorityResolution)
    (res : PolicyResolution) (t : CapabilityToken) (r : CourtReason) : pyval :=
  decision_receipt "COURT_AUTHORIZED" "authorized" i (Some (policy_set_id res)) (policy_ids res)
    (finding_to_dict <$> findings res) (Some authority) (Some (token_id t)) [] r.

(** A grant: a fresh token for this intent, with its receipt accepted by the sink. *)
Definition granted_as (tr : list event) (d : CourtDecision) : Prop :=
  exists file requested authority res current clock t r,
    conditions file requested authority res /\ clock_events now current clock /\
    issue_token i (policy_set_id res) key (token_ttl_seconds res) current = Ok t /\
    token d = Some t /\ decision_state d = "authorized" /\ receipt_persisted d = true /\
    decision_policy_ids d = requested /\ decision_errors d = [] /\
    tr = EReadFile policy_path (Ok file) :: clock ++
         [EReceipt (grant_receipt requested authority res t r) (Ok tt)].

Definition is_receipt_event (e : event) : bool := match e with EReceipt _ _ => true | _ => false end.

(** A refusal: no token, a reason, and one receipt, offered last. *)
Definition refused_as (tr : list event) (d : CourtDecision) : Prop :=
  allowed d = false /\ token d = None /\ decision_state d <> "authorized" /\
  decision_errors d <> [] /\
  exists pre rc o, tr = pre ++ [EReceipt rc o] /\ existsb is_receipt_event pre = false /\
    receipt_persisted d = is_ok o /\
    (~ permitted tr \/ is_ok o = false).

(** An exception leaves no accepted receipt behind. *)
Definition court_post (tr0 : list event) (o : outcome CourtDecision) (tr : list event) : Prop :=
  exists tr', tr = tr0 ++ tr' /\
    match o with
    | Ok d => (allowed d = true /\ granted_as tr' d) \/ refused_as tr' d
    | Err e => existsb receipt_accepted tr' = false
    end.

Abbreviation decides tr0 p tr :=
  (wp log court_allowed (fun acc e => acc ++ [e]) p (tr0 ++ tr) (court_post tr0)).

Lemma wp_court_persist {M} allowed next r (m : M) Q :
  wp log allowed next (court_persist r) m Q <->
  forall o, allowed m (EReceipt r o) /\
    match o with
    | Ok _ => Q (Ok (true, [])) (next m (EReceipt r o))
    | Err e => if is_Exception e
               then Q (Ok (false, ["receipt persistence failed: " +:+ exn_message e])) (next m (EReceipt r o))
               else Q (Err e) (next m (EReceipt r o))
    end.
Proof.
  unfold court_persist. rewrite wp_try_except, wp_call. cbn [log].
  split; intros H o; destruct (H o) as [Ha Ho]; (split; [done|]);
    destruct o as [|e]; try done; by destruct (is_Exception e).
Qed.

Lemma no_receipt_snoc pre rc e :
  existsb is_receipt_event pre = false -> existsb receipt_accepted (pre ++ [EReceipt rc (Err e)]) = false.
Proof.
  intros H. rewrite existsb_app. cbn. rewrite orb_false_r.
  induction pre as [|x pre IH]; [done|]. cbn in *. apply orb_false_iff in H as [Hx H].
  rewrite (IH H), orb_false_r. by destruct x.
Qed.

(** A denial of a request the Court does not permit. *)
Lemma wp_court_deny tr0 tr state policy_id pids fs a errors :
  existsb is_receipt_event tr = false -> state <> "authorized" -> errors <> [] ->
  (exists r, reason_for_state state errors = Ok r) ->
  ~ permitted tr ->
  decides tr0 (court_deny state i policy_id pids fs a errors) tr.
Proof.
  intros Hq Hst Herr [r Hr] Hnp. unfold court_deny. do 2 wp_step. rewrite Hr.
  wp_step. apply wp_court_persist. intros o. split; [done|].
  assert (forall o rc, ~ permitted (tr ++ [EReceipt rc o])) as Hnp'.
  { intros o' rc (f & rq & au & rs & Hin & Hc). apply Hnp. exists f, rq, au, rs. split; [|done].
    by apply elem_of_app in Hin as [?|?%list_elem_of_singleton]. }
  destruct o as [u|e]; [|destruct (is_Exception e) eqn:He].
  - wp_step. eexists. split; [by rewrite <- app_assoc|]. right.
    split_and!; try done; [cbn; by rewrite app_nil_r|]. eexists tr, _, _. split_and!; try done.
    by left; apply Hnp'.
  - wp_step. eexists. split; [by rewrite <- app_assoc|]. right.
    split_and!; try done; [by destruct errors|]. eexists tr, _, _. split_and!; try done. by right.
  - eexists. split; [by rewrite <- app_assoc|]. by apply no_receipt_snoc.
Qed.

Lemma wp_grant tr0 file requested authority res :
  conditions file requested authority res ->
  decides tr0 (grant i res authority key now) [EReadFile policy_path (Ok file)].
Proof.
  intros Hc. unfold grant, issue_token_at. cbv zeta. do 3 wp_step.
  destruct (issue_guard key (token_ttl_seconds res)) as [u|e] eqn:Hg; [|by eexists].
  wp_step. apply wp_current_time.
  assert (forall current clock, clock_events now current clock ->
    match issue_token i (policy_set_id res) key (token_ttl_seconds res) current with
    | Ok t => decides tr0 (let* r := of_outcome (reason_for_state "authorized" (authorization_details res authority)) in
        let* kept := court_persist (decision_receipt "COURT_AUTHORIZED" "authorized" i
          (Some (policy_set_id res)) (policy_ids res) (finding_to_dict <$> findings res)
          (Some authority) (Some (token_id t)) [] r) in
        if negb kept.1 then
          let* failed := of_outcome (reason_for_state "authorization_unreceipted" kept.2) in
          Ret (decision false "authorization_unreceipted" (Some (policy_set_id res)) None kept.2 false
                 failed (policy_ids res) (finding_to_dict <$> findings res) (Some authority))
        else
          Ret (decision true "authorized" (Some (policy_set_id res)) (Some t) [] true r (policy_ids res)
                 (finding_to_dict <$> findings res) (Some authority)))
        (EReadFile policy_path (Ok file) :: clock)
    | Err e => court_post tr0 (Err e) (tr0 ++ EReadFile policy_path (Ok file) :: clock)
    end) as H.
  { intros current clock Hclock.
    assert (existsb is_receipt_event (EReadFile policy_path (Ok file) :: clock) = false) as Hq
      by (by destruct Hclock).
    destruct (issue_token _ _ _ _ current) as [t|e] eqn:Ht.
    2:{ eexists. split; [done|]. by destruct Hclock. }
    do 2 wp_step. apply wp_bind, wp_court_persist. intros o. split; [done|].
    destruct o as [[]|e]; [|destruct (is_Exception e) eqn:He]; cbn [negb fst snd].
    - wp_step. eexists. split; [by rewrite <- app_assoc|]. left. split; [done|].
      eexists file, requested, authority, res, current, clock, t, _. split_and!; try done.
      cbn. pose proof (cond_resolution _ _ _ _ Hc) as [Hres _].
      pose proof (policy_ids_from_context_normal _ _ (cond_policies _ _ _ _ Hc)) as (_ & _ & Hn).
      destruct (resolve_policy_set_ok _ _ _ _ _ _ Hn Hres) as (? & ? & ? & _ & _ & _ & Hs).
      apply Hs.
    - do 2 wp_step. apply wp_ret. eexists. split; [by rewrite <- app_assoc|]. right.
      split_and!; try done. eexists _, _, _. split_and!; try done. by right.
    - eexists. split; [by rewrite <- app_assoc|]. by apply no_receipt_snoc. }
  destruct now as [n|].
  - wp_step. apply (H n [] (clock_given n)).
  - intros o. split; [done|]. rewrite <- app_assoc. destruct o as [z|e]; [|by eexists].
    wp_step. apply (H z _ (clock_read z)).
Qed.

(** The Court's denial states are always registered. *)
Lemma resolve_authority_state a :
  resolve_authority ctx = Ok a -> valid a = false ->
  exists d, res_detail a = Some d /\
    (res_state a = Some "authority_unknown" \/ res_state a = Some "authority_conflict").
Proof.
  unfold resolve_authority. intros H.
  assert (forall act c cs, valid (select_authority act c cs) = false ->
    exists d, res_detail (select_authority act c cs) = Some d /\
      (res_state (select_authority act c cs) = Some "authority_unknown" \/
       res_state (select_authority act c cs) = Some "authority_conflict")) as Hsel.
  { intros act c cs. unfold select_authority. repeat case_bool_decide; cbn; eauto. done. }
  repeat (case_match; simplify_eq/=; eauto; try done).
Qed.

Lemma wpt_authorize_intent tr0 :
  wpt log court_allowed (authorize_intent i ctx policy_path key now) tr0 (court_post tr0).
Proof.
  unfold wpt, authorize_intent. cbv zeta. rewrite <- (app_nil_r tr0) at 1.
  assert (~ permitted []) as Hnone by (by intros (? & ? & ? & ? & ?%elem_of_nil & _)).
  case_bool_decide as Hi; [apply wp_court_deny; try done; by eexists|].
  apply validate_intent_nil in Hi.
  do 2 wp_step. destruct (policy_ids_from_context ctx) as [requested|e] eqn:Hp; [|by exists []].
  do 2 wp_step. destruct (resolve_authority ctx) as [a|e] eqn:Ha; [|by exists []].
  destruct (valid a) eqn:Hv; cbn [negb].
  2:{ destruct (resolve_authority_state a Ha Hv) as (d & -> & [-> | ->]);
        apply wp_court_deny; try done; by eexists. }
  destruct (is_true_obj _) eqn:Hr; cbn [negb]; [|apply wp_court_deny; try done; by eexists].
  assert (getattr ctx "authorization_required" (PBool true) = PBool true) as Hreq.
  { by destruct (getattr _ _ _) as [|[]| | | | | |]. }
  case_bool_decide as Hb; [apply wp_court_deny; try done; by eexists|].
  do 2 wp_step. destruct (proposed_capabilities ctx) as [vs|e] eqn:Hpr; [|by exists []].
  destruct (proposes vs (capability i)) eqn:Hin; cbn [negb]; [|apply wp_court_deny; try done; by eexists].
  wp_step. wp_step; [done|]. cbn [log]. rewrite <- app_assoc. cbn [app].
  destruct answer as [file|e]; [|by eexists].
  do 2 wp_step.
  destruct (resolve_policy_set policy_path file requested (capability i) (target i)) as [res|e] eqn:Hres;
    [|by eexists].
  destruct (resolution_allowed res) eqn:Hall; cbn [negb].
  - apply (wp_grant tr0 file requested). split; eauto.
  - pose proof (policy_ids_from_context_normal _ _ Hp) as (_ & _ & Hn).
    destruct (resolve_policy_set_ok _ _ _ _ _ _ Hn Hres) as (? & ? & ? & _ & _ & _ & Hs).
    assert (~ permitted [EReadFile policy_path (Ok file)]) as Hnp.
    { intros (f & rq & au & rs & [= ->]%list_elem_of_singleton & Hc).
      pose proof (cond_policies _ _ _ _ Hc). destruct (cond_resolution _ _ _ _ Hc). congruence. }
    destruct (spec_denial _ _ _ Hs Hall) as [-> | ->]; apply wp_court_deny; try done; by eexists.
Qed.

(** A decision authorizes exactly what is permitted and receipted. *)
Lemma court_allowed_iff tr d :
  (allowed d = true /\ granted_as tr d) \/ refused_as tr d ->
  allowed d = true <-> permitted tr /\ Exists (fun e => receipt_accepted e = true) tr.
Proof.
  intros [[Hall Hg]|Href].
  - split; [|done]. intros _.
    destruct Hg as (file & rq & au & rs & cur & clock & t & r & Hc & _ & _ & _ & _ & _ & _ & _ & ->).
    split; [exists file, rq, au, rs; by split; [left|]|].
    apply Exists_cons. right. apply Exists_app. right. by constructor.
  - destruct Href as (Hall & _ & _ & _ & pre & rc & o & -> & Hpre & _ & Hor). rewrite Hall.
    split; [done|]. intros [Hp Hex]. exfalso. destruct Hor as [Hnp|Hko]; [by apply Hnp|].
    apply Exists_app in Hex as [Hex|Hex].
    + apply Exists_exists in Hex as (e & Hin & He). destruct e; try done.
      apply not_true_iff_false in Hpre. apply Hpre, existsb_Exists, Exists_exists. by eexists.
    + apply Exists_cons in Hex as [He|He%Exists_nil]; [|done]. by destruct o.
Qed.
End Decision.

(** *** The receipts the Court offers *)

Definition is_decision_receipt (rc : pyval) : Prop :=
  exists ev st i p ps fs a t es r, rc = decision_receipt ev st i p ps fs a t es r.

Definition offers_decisions (_ : unit) (e : event) : Prop :=
  match e with EReceipt rc _ => is_decision_receipt rc | _ => True end.

Abbreviation offering p := (wp log offers_decisions (fun m _ => m) p tt (fun _ _ => True)).

Lemma offering_bind {A B} (p : runtime A) (f : A -> runtime B) :
  offering p -> (forall a, offering (f a)) -> offering (bind p f).
Proof.
  intros Hp Hf. apply wp_bind. revert Hp. apply wp_mono. by intros [a|e] [] _; [apply Hf|].
Qed.

Lemma offering_outcome {A} (o : outcome A) : offering (of_outcome o).
Proof. by apply wp_of_outcome. Qed.

Lemma offering_persist ev st i p ps fs a t es r :
  offering (court_persist (decision_receipt ev st i p ps fs a t es r)).
Proof.
  apply wp_court_persist. intros o. split; [by repeat eexists|].
  destruct o as [|e]; [done|]. by destruct (is_Exception e).
Qed.

Lemma offering_deny st i p ps fs a es : offering (court_deny st i p ps fs a es).
Proof.
  apply offering_bind; [apply offering_outcome|]. intros r.
  apply offering_bind; [apply offering_persist|done].
Qed.

Lemma offering_grant i res a key now : offering (grant i res a key now).
Proof.
  unfold grant, issue_token_at. cbv zeta. apply offering_bind.
  { apply offering_bind; [apply offering_outcome|]. intros _.
    apply offering_bind; [|intros; apply offering_outcome].
    apply wp_current_time. by destruct now. }
  intros t. apply offering_bind; [apply offering_outcome|]. intros r.
  apply offering_bind; [apply offering_persist|]. intros [[] es]; cbn [fst snd negb]; [done|].
  apply offering_bind; [apply offering_outcome|done].
Qed.

Lemma authorize_intent_receipts i ctx path key now : offering (authorize_intent i ctx path key now).
Proof.
  unfold authorize_intent. cbv zeta. case_bool_decide; [apply offering_deny|].
  apply offering_bind; [apply offering_outcome|]. intros ids.
  apply offering_bind; [apply offering_outcome|]. intros a.
  destruct (valid a); cbn [negb]; [|apply offering_deny].
  destruct (is_true_obj _); cbn [negb]; [|apply offering_deny].
  case_bool_decide; [apply offering_deny|].
  apply offering_bind; [apply offering_outcome|]. intros vs.
  destruct (proposes _ _); cbn [negb]; [|apply offering_deny].
  apply offering_bind; [by apply wp_call|]. intros file.
  apply offering_bind; [apply offering_outcome|]. intros res.
  destruct (resolution_allowed res); cbn [negb]; [apply offering_grant|apply offering_deny].
Qed.
