(* ===== verification/Pipeline.v ===== *)
(** [services/runtime_pipeline.py]: [RuntimePipeline.submit], the path of an intent from
    the Court to a handler. *)

From stdpp Require Import base gmap sets list strings.
From Stdlib Require Import ZArith.
From S2P Require Import Prelude PyText PyVal Sha256 ExecutionContract Court CourtPolicy.
From S2P Require Import CourtToken Resources Effects RuntimeOps ApprovedExecutor.
From S2P Require Import CoordinatedExecutor CourtAuthorization.

Record PipelineResult := mkPipelineResult {
  pipeline_authorized : bool;
  pipeline_executed : bool;
  pipeline_state : string;
  court : CourtDecision;
  execution : option ExecutionResult
}.

(** The constructor's arguments that are data; sink, safety check, ledger and coordinator
    are reached through operations. *)
Record RuntimePipeline := mkPipeline {
  capability_context : pyobj;
  court_policy_path : string;
  pipeline_key : byte_string;
  executor_registry : registry;
  replay_ledger : ledger_kind
}.

(** [RuntimePipeline.submit] *)
Definition submit (p : RuntimePipeline) (intent : CourtIntent.Intent) (executor_name : string)
    (parameters : pyval) (now : option Z) : runtime PipelineResult :=
  let* court := authorize_intent intent (capability_context p) (court_policy_path p)
                  (pipeline_key p) now in
  match allowed court, token court with
  | true, Some t =>
      let* params := of_outcome (py_dict parameters) in
      let* execution := execute_coordinated t executor_name (PDict params) (executor_registry p)
                          (pipeline_key p) (replay_ledger p) now in
      Ret (mkPipelineResult true (executed execution) (result_state execution) court (Some execution))
  | _, _ => Ret (mkPipelineResult false false (decision_state court) court None)
  end.

Section Submit.
Context (p : RuntimePipeline) (i : CourtIntent.Intent) (name : string) (ps : pyval) (now : option Z).

Abbreviation court_grants := (granted_as i (capability_context p) (court_policy_path p) (pipeline_key p) now).

(** The trace before a handler's call: the Court granted a token, whose receipt was
    accepted, and the executor cleared that token. *)
Definition submit_clear (h : string) (args : items) (tr : list event) : Prop :=
  exists court_tr d t params, court_grants court_tr d /\ token d = Some t /\ allowed d = true /\
    py_dict ps = Ok params /\ (exists tr', tr = court_tr ++ tr') /\
    coordinated_allowed t name (PDict params) (executor_registry p) (pipeline_key p)
      (replay_ledger p) now court_tr tr (EHandlerCall h args (Ok tt)).

Definition submit_allowed (tr : list event) (e : event) : Prop :=
  match e with EHandlerCall h args _ => submit_clear h args tr | _ => True end.

(** A result splits the trace between the Court and the executor. *)
Definition submit_post (o : outcome PipelineResult) (tr : list event) : Prop :=
  match o with
  | Err _ => True
  | Ok r =>
      exists court_tr exec_tr, tr = court_tr ++ exec_tr /\
      pipeline_authorized r = allowed (court r) /\
      ((allowed (court r) = false /\ refused_as i (capability_context p) (court_policy_path p) court_tr (court r) /\
        exec_tr = [] /\ execution r = None /\ pipeline_executed r = false /\
        pipeline_state r = decision_state (court r)) \/
       (allowed (court r) = true /\ court_grants court_tr (court r) /\
        exists t x, token (court r) = Some t /\ execution r = Some x /\
        pipeline_executed r = executed x /\ pipeline_state r = result_state x /\
        reports t name (executor_registry p) exec_tr x /\
        lease_protocol (owner_of_token t) (declared_resources name (executor_registry p)) exec_tr))
  end.

Lemma wpt_submit : wpt log submit_allowed (submit p i name ps now) [] submit_post.
Proof.
  unfold wpt, submit. wp_step.
  eapply wpt_mono; [| |apply (wpt_authorize_intent i (capability_context p) (court_policy_path p) (pipeline_key p) now [])].
  { intros tr e. by destruct e. }
  intros o tr (court_tr & -> & Ho). destruct o as [d|e]; [|done]. cbn [app].
  destruct Ho as [[Hall Hg]|Href].
  - pose proof Hg as (file & rq & au & rs & cur & clock & t & r & _ & _ & _ & Htok & _).
    rewrite Hall, Htok. do 2 wp_step. destruct (py_dict ps) as [params|e] eqn:Hps; [|done].
    wp_step. eapply wpt_mono; [| |apply wpt_events, wpt_execute_coordinated].
    + intros tr e Ha. destruct e; try done. exists court_tr, d, t, params. split_and!; try done.
      destruct Ha as [(pre & _ & spec & c & cl & rsn & cons & _ & _ & _ & _ & _ & ->) _].
      rewrite <- app_assoc. by eexists.
    + cbn. intros o tr [(tr' & -> & Hp & Hr) _]. destruct o as [x|e]; [|done]. wp_step.
      exists court_tr, tr'. split_and!; [done|done|]. right. split_and!; [done..|]. by exists t, x.
  - pose proof Href as (Hall & Htok & _). rewrite Hall. wp_step.
    exists court_tr, []. split_and!; [by rewrite app_nil_r|done|]. by left.
Qed.
End Submit.
