(* ===== verification/Interleaving.v ===== *)
(** Concurrent submissions.  Several threads run [execute_coordinated] against one replay
    ledger and one resource coordinator, interleaved operation by operation in any order,
    while receipts, safety checks, clocks and handlers answer as they like.  The ledger
    is any implementation of the interface [ReplayStore]; the file ledger of
    [token_replay_ledger.py] is one. *)

From stdpp Require Import base gmap sets list strings.
From Stdlib Require Import ZArith.
From S2P Require Import Prelude PyText PyVal Json Sha256 ExecutionContract CourtToken Resources.
From S2P Require Import ReplayLedger Effects RuntimeOps ApprovedExecutor CoordinatedExecutor.

(** ** What the executors rely on of a replay ledger *)

Class ReplayStore (L : Type) := {
  store_has : string -> L -> outcome (bool * L);
  store_consume : string -> L -> outcome (bool * L);
  (** what an interrupted [consume] may leave behind *)
  store_fault : string -> L -> L -> Prop;
  (** the identifiers recorded as consumed *)
  store_state : L -> gset string -> Prop;
  store_has_ok l S id b l' :
    store_state l S -> store_has id l = Ok (b, l') ->
    store_state l' S /\ (b = true <-> id ∈ S);
  store_consume_ok l S id b l' :
    store_state l S -> store_consume id l = Ok (b, l') ->
    store_state l' ({[id]} ∪ S) /\ (b = true <-> id ∉ S);
  store_fault_ok l S id l' :
    store_state l S -> store_fault id l l' -> exists S', S ⊆ S' /\ store_state l' S'
}.

(** *** The file ledger *)

Definition normal_ids (ids : gset string) : Prop := forall x, x ∈ ids -> x <> "" /\ text x = x.

Lemma load_line_normal n l id : load_line n l = Ok (Some id) -> id <> "" /\ text id = id.
Proof.
  unfold load_line. intros H. destruct (is_blank l); [done|].
  destruct (loads l) as [v|e]; [|by destruct (decide _)].
  destruct v as [| | | | | | |d]; try done.
  destruct (negb (eq_str (get d "schema") replay_schema)); [done|].
  destruct (negb (eq_str (get d "state") "consumed")); [done|].
  destruct (is_nonempty (text_strict_val (get d "token_id"))) eqn:Hne; [|done].
  injection H as <-. destruct (get d "token_id") as [| | | |s| | |]; try done. cbn in *.
  destruct (text_strict_cases s) as [[-> ?]|[Hs _]]; [by destruct s|by rewrite Hs in Hne].
Qed.

Lemma load_lines_normal ls : forall n ids ids',
  load_lines n ls ids = Ok ids' -> normal_ids ids -> normal_ids ids'.
Proof.
  induction ls as [|l ls IH]; intros n ids ids' H Hn; cbn [load_lines] in H.
  - by injection H as <-.
  - destruct (load_line n l) as [id|e] eqn:Hl; [|done]. cbn [outcome_bind] in H.
    apply (IH _ _ _ H). destruct id as [i|]; [|done]. apply load_line_normal in Hl.
    intros x [->%elem_of_singleton|Hx]%elem_of_union; [done|by apply Hn].
Qed.

Lemma file_ok_normal l ids : file_ok l ids -> normal_ids ids.
Proof.
  intros [H _]. eapply load_lines_normal; [exact H|]. intros x Hx. by apply elem_of_empty in Hx.
Qed.

(** A write that was interrupted after the record reached the file, or before. *)
Inductive ledger_fault (id : string) (l : ledger) : ledger -> Prop :=
| fault_before : ledger_fault id l l
| fault_after b l' : consume id l = Ok (b, l') -> ledger_fault id l (mkLedger (file l') (token_ids l)).

Lemma consume_state l ids id b l' :
  file_ok l ids -> consume id l = Ok (b, l') ->
  file_ok l' ({[id]} ∪ ids) /\ (b = true <-> id ∉ ids).
Proof.
  intros Hok H. destruct (decide (text_strict id = "")) as [He|Hne].
  { by rewrite consume_invalid in H. }
  apply text_strict_nonempty in Hne as Ht. destruct Ht as [Ht Htext].
  destruct (consume_ok id l ids Hok) as (l2 & Hc & Hok' & _); [congruence|done|].
  rewrite Hc in H. injection H as <- <-. split; [done|].
  by rewrite negb_true_iff, bool_decide_eq_false.
Qed.

#[export] Program Instance file_ledger_store : ReplayStore ledger := {|
  store_has id l := contains (PStr id) l;
  store_consume := consume;
  store_fault := ledger_fault;
  store_state := file_ok
|}.
Next Obligation.
  intros l S id b l' Hok H. destruct (contains_ok (PStr id) l S Hok) as (l2 & Hc & Hf).
  change (contains (PStr id) l = Ok (b, l')) in H. rewrite Hc in H. injection H as <- <-.
  split; [unfold file_ok; by rewrite Hf|].
  rewrite andb_true_iff, bool_decide_eq_true.
  destruct (text_strict_cases id) as [[-> _]|[Hs Hne]].
  - split; [by intros [_ ?]|]. intros Hin. split; [|done].
    apply (file_ok_normal _ _ Hok) in Hin as [? _]. by destruct id.
  - rewrite Hs. split; [by intros [? _]|]. intros Hin.
    by apply (file_ok_normal _ _ Hok) in Hin as [_ ?].
Qed.
Next Obligation. intros. by eapply consume_state. Qed.
Next Obligation.
  intros l S id l' Hok [|b l2 H]; [by exists S|].
  destruct (consume_state _ _ _ _ _ Hok H) as [Hok2 _]. exists ({[id]} ∪ S).
  split; [set_solver|]. exact Hok2.
Qed.

(** ** The shared world *)

Record world (L : Type) := mkWorld { w_ledger : L; w_coordinator : coordinator }.
Arguments mkWorld {L} _ _.
Arguments w_ledger {L} _.
Arguments w_coordinator {L} _.

Section World.
Context {L : Type} `{ReplayStore L}.

(** The answers the shared objects give; everything else is unconstrained. *)
Inductive world_step (w : world L) : event -> world L -> Prop :=
| step_time o : world_step w (ETime o) w
| step_read p o : world_step w (EReadFile p o) w
| step_receipt r o : world_step w (EReceipt r o) w
| step_safety t ps o : world_step w (ESafety t ps o) w
| step_call h args o : world_step w (EHandlerCall h args o) w
| step_return h o : world_step w (EHandlerReturn h o) w
| step_has id b l' :
    store_has id (w_ledger w) = Ok (b, l') ->
    world_step w (ELedgerHas id (Ok b)) (mkWorld l' (w_coordinator w))
| step_has_error id e : world_step w (ELedgerHas id (Err e)) w
| step_consume id b l' :
    store_consume id (w_ledger w) = Ok (b, l') ->
    world_step w (ELedgerConsume id (Ok b)) (mkWorld l' (w_coordinator w))
| step_consume_error id e l' :
    store_fault id (w_ledger w) l' ->
    world_step w (ELedgerConsume id (Err e)) (mkWorld l' (w_coordinator w))
| step_acquire owner rs d c' :
    acquire owner (PTuple (PStr <$> rs)) (w_coordinator w) = Ok (d, c') ->
    world_step w (EAcquire owner rs (Ok d)) (mkWorld (w_ledger w) c')
| step_release owner d c' :
    release owner (w_coordinator w) = (d, c') ->
    world_step w (ERelease owner (Ok d)) (mkWorld (w_ledger w) c').

(** ** The threads *)

Record job := mkJob {
  job_token : CapabilityToken;
  job_executor : string;
  job_parameters : pyval;
  job_key : byte_string;
  job_now : option Z
}.

Context (reg : registry).

Definition job_program (j : job) : runtime ExecutionResult :=
  execute_coordinated (job_token j) (job_executor j) (job_parameters j) reg (job_key j) AtomicLedger
    (job_now j).

Definition job_allowed (j : job) (tr : list event) (e : event) : Prop :=
  coordinated_allowed (job_token j) (job_executor j) (job_parameters j) reg (job_key j) AtomicLedger
    (job_now j) [] tr e.

Definition job_resources (j : job) : list string := declared_resources (job_executor j) reg.
Definition job_owner (j : job) : string := text (owner_of_token (job_token j)).

(** The configurations the threads of [jobs] can reach from [w]. *)
Definition reaches (w : world L) (jobs : list job) (tr : list (nat * event)) (w' : world L) : Prop :=
  exists ps', pool_steps log world_step (w, job_program <$> jobs) tr (w', ps').

(** The invariant lemma of [Effects], with each thread's own trace as its monitor. *)
Lemma reaches_invariant (Inv : world L -> list (list event) -> Prop) (jobs : list job) w tr w' :
  (forall w ms i j m e w', Inv w ms -> length ms = length jobs -> jobs !! i = Some j -> ms !! i = Some m ->
     job_allowed j m e -> world_step w e w' -> Inv w' (<[i := m ++ [e]]> ms)) ->
  Inv w (replicate (length jobs) []) -> reaches w jobs tr w' ->
  exists ms, Inv w' ms /\ length ms = length jobs /\
    forall i, i < length jobs -> ms !! i = Some (thread_events i tr).
Proof.
  intros Hstep Hinit [ps' Hs].
  pose (al := fun i m e => exists j, jobs !! i = Some j /\ job_allowed j m e).
  pose (Inv' := fun w ms => Inv w ms /\ length ms = length jobs).
  destruct (pool_invariant (A := ExecutionResult) log world_step al (fun m e => m ++ [e]) Inv') with
    (w := w) (ps := job_program <$> jobs) (ms := replicate (length jobs) ([] : list event))
    (tr := tr) (c' := (w', ps')) as (ms & [HInv Hlen] & _ & Hms).
  - intros w1 ms1 i m e w2 [HI Hl] Hm (j & Hj & Ha) Hw. split; [by eapply Hstep|].
    by rewrite length_insert.
  - done.
  - split; [done|]. by rewrite length_replicate.
  - split; [by rewrite length_fmap, length_replicate|].
    intros i p m Hp Hm. apply lookup_replicate in Hm as [-> _].
    rewrite list_lookup_fmap in Hp. destruct (jobs !! i) as [j|] eqn:Hj; [|done].
    injection Hp as <-. eapply wpt_mono; [| |apply wpt_execute_coordinated].
    + intros tr1 e Ha. by exists j.
    + done.
  - exists ms. split_and!; [done..|]. intros i Hi.
    rewrite (Hms i []); [by rewrite fold_left_snoc|]. by apply lookup_replicate.
Qed.

(** ** A token is executed at most once *)

Definition calls (tr : list event) : nat := length (filter (fun e => is_handler_call e = true) tr).
Definition wins (id : string) (tr : list event) : Prop := ELedgerConsume id (Ok true) ∈ tr.

Lemma calls_app tr1 tr2 : calls (tr1 ++ tr2) = calls tr1 + calls tr2.
Proof. unfold calls. by rewrite filter_app, length_app. Qed.

Lemma calls_none tr : forallb (fun e => negb (is_handler_call e)) tr = true -> calls tr = 0.
Proof.
  unfold calls. induction tr as [|e tr IH]; [done|]. cbn [forallb]. rewrite andb_true_iff. intros [He Ht].
  rewrite filter_cons_False; [by apply IH|]. by destruct e.
Qed.

(** A handler's call is the thread's first, and follows its own consumption. *)
Lemma allowed_call j m h args o :
  job_allowed j m (EHandlerCall h args o) -> calls m = 0 /\ wins (token_id (job_token j)) m.
Proof.
  intros [(pre & Hpre & spec & c & clock & rsn & cons & _ & Hclock & Hcons & _ & _ & ->) _].
  inversion Hcons; subst. split.
  - cbn [app]. rewrite calls_app, (calls_none _ Hpre). by destruct Hclock.
  - unfold wins, gate_events. cbn [app].
    apply elem_of_app. right. right. apply elem_of_app. right. set_solver.
Qed.

Record once_inv (jobs : list job) (w : world L) (ms : list (list event)) (S : gset string) : Prop := {
  once_state : store_state (w_ledger w) S;
  once_recorded : forall i m id, ms !! i = Some m -> wins id m -> id ∈ S;
  once_unique : forall i j m m' id, i <> j -> ms !! i = Some m -> ms !! j = Some m' ->
    wins id m -> wins id m' -> False;
  once_calls : forall i j m, jobs !! i = Some j -> ms !! i = Some m ->
    calls m <= 1 /\ (calls m = 1 -> wins (token_id (job_token j)) m)
}.

Lemma wins_snoc id m e : wins id (m ++ [e]) <-> wins id m \/ e = ELedgerConsume id (Ok true).
Proof. unfold wins. rewrite elem_of_app, list_elem_of_singleton. naive_solver. Qed.

(** The ledger of a step, and what a step that consumes tells. *)
Lemma step_state w e w' S :
  store_state (w_ledger w) S -> world_step w e w' ->
  exists S', S ⊆ S' /\ store_state (w_ledger w') S' /\
    forall id, e = ELedgerConsume id (Ok true) -> (id ∉ S) /\ (id ∈ S').
Proof.
  intros Hs Hw. destruct Hw as [| | | | | |id b l' Hh| |id b l' Hc|id ? l' Hf|owner rs d c' Ha|owner d c' Hr];
    try (by exists S).
  - destruct (store_has_ok _ _ _ _ _ Hs Hh). by exists S.
  - destruct (store_consume_ok _ _ _ _ _ Hs Hc) as [Hs' Hb]. exists ({[id]} ∪ S).
    split_and!; [set_solver|done|]. intros id' [= -> ->]. split; [by apply Hb|set_solver].
  - destruct (store_fault_ok _ _ _ _ Hs Hf) as (S' & ? & ?). by exists S'.
Qed.

Lemma once_step jobs w ms i j m e w' S :
  once_inv jobs w ms S -> jobs !! i = Some j -> ms !! i = Some m ->
  job_allowed j m e -> world_step w e w' -> exists S', once_inv jobs w' (<[i := m ++ [e]]> ms) S'.
Proof.
  intros [Hst Hrec Huniq Hcalls] Hj Hm Ha Hw.
  destruct (step_state _ _ _ _ Hst Hw) as (S' & Hsub & Hst' & Hnew). exists S'.
  assert (forall k mk, <[i := m ++ [e]]> ms !! k = Some mk ->
    (k = i /\ mk = m ++ [e]) \/ (k <> i /\ ms !! k = Some mk)) as Hlook.
  { intros k mk Hk. destruct (decide (k = i)) as [->|Hne].
    - rewrite list_lookup_insert_eq in Hk by (by eapply lookup_lt_Some). left. by injection Hk.
    - rewrite list_lookup_insert_ne in Hk by done. by right. }
  split; [done| | |].
  - intros k mk id Hk Hwin. destruct (Hlook _ _ Hk) as [[-> ->]|[_ Hk']].
    + apply wins_snoc in Hwin as [Hwin|He]; [apply Hsub; by eapply Hrec|by apply (Hnew id)].
    + apply Hsub. by eapply Hrec.
  - intros k1 k2 m1 m2 id Hne H1 H2 Hw1 Hw2.
    destruct (Hlook _ _ H1) as [[-> ->]|[Hn1 H1']], (Hlook _ _ H2) as [[-> ->]|[Hn2 H2']]; [done| | |].
    + apply wins_snoc in Hw1 as [Hw1|He]; [by eapply (Huniq i k2)|].
      destruct (Hnew id He) as [Hnot _]. by apply Hnot, (Hrec k2 m2).
    + apply wins_snoc in Hw2 as [Hw2|He]; [by eapply (Huniq k1 i)|].
      destruct (Hnew id He) as [Hnot _]. by apply Hnot, (Hrec k1 m1).
    + by eapply (Huniq k1 k2).
  - intros k jk mk Hjk Hk. destruct (Hlook _ _ Hk) as [[-> ->]|[Hne Hk']]; [|by eapply Hcalls].
    assert (jk = j) as -> by congruence. destruct (Hcalls _ _ _ Hj Hm) as [Hle Hwin].
    rewrite calls_app. destruct (is_handler_call e) eqn:Hc.
    + destruct e; try done. destruct (allowed_call _ _ _ _ _ Ha) as [H0 Hw0]. rewrite H0.
      split; [done|]. intros _. apply wins_snoc. by left.
    + assert (calls [e] = 0) as -> by (apply calls_none; cbn; by rewrite Hc).
      rewrite Nat.add_0_r. split; [done|]. intros H1. apply wins_snoc. left. by apply Hwin.
Qed.

(** The handler calls of the whole pool that execute the token [id]. *)
Definition executions (jobs : list job) (id : string) (tr : list (nat * event)) : list (nat * event) :=
  filter (fun e => is_handler_call e.2 = true /\
                   (token_id ∘ job_token) <$> jobs !! e.1 = Some id) tr.

Lemma elem_of_thread_events i e (tr : list (nat * event)) : e ∈ thread_events i tr <-> (i, e) ∈ tr.
Proof.
  unfold thread_events. rewrite list_elem_of_omap. split.
  - intros ([k e'] & Hin & Hk). cbn in Hk. case_decide; simplify_eq. done.
  - intros Hin. exists (i, e). split; [done|]. cbn. by rewrite decide_True.
Qed.

Lemma calls_positive tr e : e ∈ tr -> is_handler_call e = true -> 1 <= calls tr.
Proof.
  intros Hin He. unfold calls. destruct (filter _ tr) as [|x l] eqn:Hf; [|cbn; lia].
  assert (e ∈ filter (fun e => is_handler_call e = true) tr) as H'.
  { by apply list_elem_of_filter. }
  rewrite Hf in H'. by apply elem_of_nil in H'.
Qed.

(** Calls made by one thread are counted in its own trace. *)
Lemma executions_one_thread jobs id tr i :
  (forall e, e ∈ executions jobs id tr -> e.1 = i) ->
  length (executions jobs id tr) <= calls (thread_events i tr).
Proof.
  unfold executions. induction tr as [|[k e] tr IH]; intros Hall; [done|].
  assert (forall e0, e0 ∈ filter (fun e => is_handler_call e.2 = true /\
    (token_id ∘ job_token) <$> jobs !! e.1 = Some id) tr -> e0.1 = i) as Hall'.
  { intros e0 He0. apply Hall. rewrite filter_cons. case_decide; [by right|done]. }
  specialize (IH Hall'). unfold thread_events. cbn [omap list_omap fst snd].
  rewrite filter_cons in Hall |- *. case_decide as Hd.
  - specialize (Hall (k, e) ltac:(left)). cbn in Hall. subst k. rewrite decide_True by done.
    unfold calls in *. rewrite filter_cons_True by apply Hd. cbn. unfold thread_events in IH. lia.
  - unfold thread_events in IH. destruct (decide (k = i)); [|done].
    unfold calls in *. rewrite filter_cons. case_decide; cbn; lia.
Qed.

Lemma executions_le_one jobs w tr w' S id :
  store_state (w_ledger w) S -> reaches w jobs tr w' -> length (executions jobs id tr) <= 1.
Proof.
  intros Hst Hr.
  destruct (reaches_invariant (fun w ms => exists S, once_inv jobs w ms S) jobs w tr w')
    as (ms & (S' & Hinv) & Hlen & Hms); [| |done|].
  - intros w1 ms1 i j m e w2 [S1 HI] _ Hj Hm Ha Hw. by eapply once_step.
  - exists S. split; [done|..].
    + intros i m id' [-> _]%lookup_replicate Hw. by apply elem_of_nil in Hw.
    + intros i j m m' id' _ [-> _]%lookup_replicate _ Hw _. by apply elem_of_nil in Hw.
    + intros i j m _ [-> _]%lookup_replicate. cbn. split; [lia|done].
  - destruct (executions jobs id tr) as [|[i e] rest] eqn:Hex; [cbn; lia|].
    assert (forall k e, (k, e) ∈ executions jobs id tr ->
      exists j, jobs !! k = Some j /\ token_id (job_token j) = id /\ wins id (thread_events k tr)) as Hwin.
    { intros k e' [[Hc Hk] Hin]%list_elem_of_filter. cbn in *.
      destruct (jobs !! k) as [j|] eqn:Hj; [|done]. injection Hk as Hid. exists j. split_and!; [done..|].
      pose proof (Hms k (lookup_lt_Some _ _ _ Hj)) as Hmk.
      destruct (once_calls _ _ _ _ Hinv k j _ Hj Hmk) as [Hle Hw].
      assert (1 <= calls (thread_events k tr)).
      { apply (calls_positive _ e'); [by apply elem_of_thread_events|done]. }
      rewrite <- Hid. apply Hw. lia. }
    rewrite <- Hex.
    destruct (Hwin i e) as (j & Hj & _ & Hwi); [rewrite Hex; left|].
    pose proof (Hms i (lookup_lt_Some _ _ _ Hj)) as Hmi.
    transitivity (calls (thread_events i tr)).
    + apply executions_one_thread. intros [k e'] Hin. cbn.
      destruct (decide (k = i)) as [->|Hne]; [done|exfalso].
      destruct (Hwin k e' Hin) as (jk & Hjk & _ & Hwk).
      eapply (once_unique _ _ _ _ Hinv k i); [done|apply Hms; by eapply lookup_lt_Some|done|done|done].
    + by eapply (once_calls _ _ _ _ Hinv i j).
Qed.

(** ** Exclusive resources *)

Definition granted_acquire (e : event) : bool :=
  match e with EAcquire _ _ (Ok d) => granted d | _ => false end.
Definition is_release (e : event) : bool := match e with ERelease _ _ => true | _ => false end.

(** Between a granted acquisition and the release. *)
Definition holding (m : list event) : bool := existsb granted_acquire m && negb (existsb is_release m).

(** The thread's last operation is the call of its handler, which has not returned. *)
Definition in_handler (m : list event) : bool :=
  match last m with Some (EHandlerCall _ _ (Ok _)) => true | _ => false end.

Lemma holding_snoc m e : holding (m ++ [e]) = (holding m || granted_acquire e && negb (existsb is_release m))
  && negb (is_release e).
Proof.
  unfold holding. rewrite !existsb_app. cbn. rewrite !orb_false_r.
  by destruct (existsb granted_acquire m), (granted_acquire e), (existsb is_release m), (is_release e).
Qed.

Lemma in_handler_snoc m e :
  in_handler (m ++ [e]) = match e with EHandlerCall _ _ (Ok _) => true | _ => false end.
Proof. unfold in_handler. by rewrite last_snoc. Qed.

Lemma ledger_monotone_snoc m e :
  ledger_monotone m ->
  (forall id, e = ELedgerHas id (Ok false) -> ELedgerHas id (Ok true) ∉ m) ->
  ledger_monotone (m ++ [e]).
Proof.
  intros Hm He id tr1 tr2 Heq. destruct tr2 as [|x tr2 _] using rev_ind.
  - apply app_inj_tail in Heq as [<- ->]. by apply He.
  - rewrite app_comm_cons, app_assoc in Heq. apply app_inj_tail in Heq as [-> _].
    by apply (Hm id tr1 tr2).
Qed.

Lemma gate_events_no_release t ps spec now c clock rsn cons k id :
  clock_events now c clock -> consumption k id cons ->
  existsb is_release (gate_events t ps spec clock rsn cons) = false.
Proof. destruct 1, 1; done. Qed.

(** A handler with declared resources is called while they are held. *)
Lemma allowed_call_holding j m h args o :
  job_allowed j m (EHandlerCall h args o) -> is_Some (job_now j) -> ledger_monotone m ->
  job_resources j = [] \/ holding m = true.
Proof.
  intros [_ Hcl] Hnow Hmono. destruct (Hcl m eq_refl Hnow Hmono) as (spec & pre & Hreg & Hpre & Hor).
  cbn [app] in Hor. unfold job_resources, declared_resources. rewrite Hreg.
  destruct Hor as [[Hrs _]|(Hrs & d & rc & Hd & Hc)]; [by left|right].
  destruct Hc as (spec' & c & clock & rsn & cons & _ & Hclock & Hcons & _ & _ & ->).
  destruct Hpre as (c0 & clock0 & Hclock0 & ->).
  unfold holding. rewrite !existsb_app.
  rewrite (gate_events_no_release _ _ _ _ _ _ _ _ _ _ Hclock Hcons). cbn. rewrite Hd.
  by destruct Hclock0.
Qed.

Lemma owner_nonempty t : text (owner_of_token t) <> "".
Proof.
  intros Hb%is_blank_text. 
  assert (is_blank (owner_of_token t) = false) by (by apply is_blank_cons). congruence.
Qed.

(** A registered contract's resources reach the coordinator as they are. *)
Lemma requested_declared j :
  registry_inv reg -> requested_resources (PTuple (PStr <$> job_resources j)) = Ok (job_resources j).
Proof.
  intros Hinv. unfold job_resources, declared_resources, registry_get.
  destruct (reg !! text (job_executor j)) as [spec|] eqn:Hreg; [|done].
  specialize (Hinv _ _ Hreg). apply wfs_contract in Hinv as Hc.
  unfold requested_resources. cbn [iter_or_type_error py_iter outcome_bind].
  rewrite <- list_fmap_compose.
  assert (text_val ∘ PStr <$> exclusive_resources (spec_contract spec)
          = exclusive_resources (spec_contract spec)) as ->.
  { apply fmap_fixed. apply (Forall_impl _ _ _ (wf_resources _ Hc)). by intros x [_ ?]. }
  rewrite (wf_resources_set _ Hc).
  assert (forallb is_nonempty (exclusive_resources (spec_contract spec)) = true) as ->; [|done].
  apply forallb_Forall, (Forall_impl _ _ _ (wf_resources _ Hc)). intros x [? _]. by destruct x.
Qed.

Record thread_inv (S : gset string) (c : coordinator) (j : job) (m : list event) : Prop := {
  ti_seen : forall id, ELedgerHas id (Ok true) ∈ m -> id ∈ S;
  ti_monotone : ledger_monotone m;
  ti_holding : holding m = true ->
    holdings c !! job_owner j = Some (list_to_set (job_resources j));
  ti_handler : in_handler m = true -> job_resources j = [] \/ holding m = true
}.

Definition excl_inv (jobs : list job) (w : world L) (ms : list (list event)) : Prop :=
  exists S, store_state (w_ledger w) S /\ coordinator_inv (w_coordinator w) /\
    forall i j m, jobs !! i = Some j -> ms !! i = Some m -> thread_inv S (w_coordinator w) j m.

(** A step leaves the holdings of the other owners alone. *)
Lemma acquire_other owner rs c d c' o :
  coordinator_inv c -> text owner <> "" -> acquire owner rs c = Ok (d, c') -> o <> text owner ->
  holdings c' !! o = holdings c !! o.
Proof.
  intros Hc Hne Ha Ho. pose proof Ha as Ha'. unfold acquire in Ha'.
  apply outcome_bind_ok in Ha' as (req & Hreq & _).
  destruct (acquire_grant_spec _ _ _ _ _ _ Hc Hne Hreq Ha); try done. by rewrite lookup_insert_ne.
Qed.

(** The other threads' facts survive a step of the world. *)
Lemma thread_inv_frame S S' c c' j m :
  S ⊆ S' -> holdings c' !! job_owner j = holdings c !! job_owner j ->
  thread_inv S c j m -> thread_inv S' c' j m.
Proof. intros HS Hh [H1 H2 H3 H4]. split; [set_solver|done|by rewrite Hh|done]. Qed.

Lemma release_other owner c d c' o :
  text owner <> "" -> release owner c = (d, c') -> o <> text owner ->
  holdings c' !! o = holdings c !! o.
Proof.
  intros Hne Hr Ho. destruct (release_holdings owner c Hne) as [Hd _]. rewrite Hr in Hd.
  cbn in Hd. by rewrite Hd, lookup_delete_ne.
Qed.

(** A granted set is what the owner holds from then on. *)
Lemma acquire_granted owner rs c d c' req :
  coordinator_inv c -> text owner <> "" -> requested_resources rs = Ok req -> req <> [] ->
  acquire owner rs c = Ok (d, c') -> granted d = true ->
  holdings c' !! text owner = Some (list_to_set req).
Proof.
  intros Hc Hne Hreq Hrs Ha Hg. apply list_to_set_nonempty in Hrs as Hset.
  pose proof (acquire_grant_spec _ _ _ _ _ _ Hc Hne Hreq Ha) as Hspec. rewrite Hg in Hspec.
  inversion Hspec; subst; try done. apply lookup_insert_eq.
Qed.

Lemma holdings_disjoint c o1 o2 R1 R2 r :
  coordinator_inv c -> holdings c !! o1 = Some R1 -> holdings c !! o2 = Some R2 ->
  r ∈ R1 -> r ∈ R2 -> o1 = o2.
Proof.
  unfold holdings. rewrite !lookup_fmap. intros Hc H1 H2.
  destruct (leases c !! o1) as [l1|] eqn:E1; [|done]. destruct (leases c !! o2) as [l2|] eqn:E2; [|done].
  injection H1 as <-. injection H2 as <-. rewrite !elem_of_list_to_set. by eapply leases_disjoint.
Qed.

Lemma resource_free_not_holding m : resource_free m -> holding m = false.
Proof.
  intros Hf. unfold holding. induction m as [|e m IH]; [done|].
  apply (resource_free_app [e] m) in Hf as [He Hm]. specialize (IH Hm).
  cbn. destruct e; try done; cbn in *; try (rewrite IH); done.
Qed.

(** Where a step leaves the coordinator. *)
Lemma step_coordinator j m w e w' :
  coordinator_inv (w_coordinator w) -> job_allowed j m e -> world_step w e w' ->
  coordinator_inv (w_coordinator w') /\
  (forall o, o <> job_owner j ->
     holdings (w_coordinator w') !! o = holdings (w_coordinator w) !! o) /\
  (is_resource_event e = false -> w_coordinator w' = w_coordinator w).
Proof.
  intros Hc Ha Hw. destruct Hw as [| | | | | | | | | |owner rs d c' Hacq|owner d c' Hr]; try done.
  - destruct Ha as (-> & _). cbn. split_and!; [by eapply acquire_inv| |done].
    intros o Ho. eapply acquire_other; try done. apply owner_nonempty.
  - cbn in Ha. subst owner. cbn. split_and!; [|intros o Ho|done].
    + pose proof (release_inv (owner_of_token (job_token j)) _ Hc) as H'. by rewrite Hr in H'.
    + eapply release_other; try done. apply owner_nonempty.
Qed.

Lemma thread_step S S' j m w e w' :
  registry_inv reg -> is_Some (job_now j) ->
  store_state (w_ledger w) S -> coordinator_inv (w_coordinator w) -> S ⊆ S' ->
  thread_inv S (w_coordinator w) j m -> job_allowed j m e -> world_step w e w' ->
  thread_inv S' (w_coordinator w') j (m ++ [e]).
Proof.
  intros Hreg Hnow Hst Hc HS [Hseen Hmono Hhold Hin] Ha Hw.
  destruct (step_coordinator _ _ _ _ _ Hc Ha Hw) as (_ & _ & Hsame).
  assert (forall id b, e = ELedgerHas id (Ok b) -> (b = true <-> id ∈ S)) as Hhas.
  { intros id b ->. inversion Hw as [| | | | | |? ? l' Hh| | | | |]; subst.
    by apply (store_has_ok _ _ _ _ _ Hst Hh). }
  split.
  - intros id [Hid|Hid%list_elem_of_singleton]%elem_of_app; apply HS; [by apply Hseen|].
    by apply (Hhas id true).
  - apply ledger_monotone_snoc; [done|]. intros id -> Hid. apply Hseen, (Hhas id false) in Hid; done.
  - rewrite holding_snoc. destruct (is_resource_event e) eqn:He.
    2:{ rewrite (Hsame eq_refl). intros Hh. apply Hhold. destruct e; try done;
          cbn in Hh; by rewrite orb_false_r, andb_true_r in Hh. }
    destruct e as [| | | | | | | | |owner rs o|]; try done; [|by rewrite andb_false_r].
    destruct Ha as (-> & -> & Hrs & m' & -> & Hfree). cbn [app] in *.
    rewrite (resource_free_not_holding _ Hfree). inversion Hw as [| | | | | | | | | |? ? d c' Hacq|]; subst.
    cbn. intros Hg. rewrite andb_true_r in Hg. apply andb_true_iff in Hg as [Hg _].
    eapply acquire_granted; [done|apply owner_nonempty|by apply requested_declared|done|done|done].
  - rewrite in_handler_snoc, holding_snoc.
    destruct e as [| | | |h args o| | | | | |]; try done. destruct o as [u|]; [|done]. intros _.
    destruct (allowed_call_holding _ _ _ _ _ Ha Hnow Hmono) as [?|Hh]; [by left|right].
    by rewrite Hh.
Qed.

Lemma excl_step jobs w ms i j m e w' :
  registry_inv reg -> Forall (fun j => is_Some (job_now j)) jobs -> NoDup (job_owner <$> jobs) ->
  excl_inv jobs w ms -> jobs !! i = Some j -> ms !! i = Some m ->
  job_allowed j m e -> world_step w e w' -> excl_inv jobs w' (<[i := m ++ [e]]> ms).
Proof.
  intros Hreg Hnow Hnd (S & Hst & Hc & Hth) Hj Hm Ha Hw.
  destruct (step_state _ _ _ _ Hst Hw) as (S' & HS & Hst' & _).
  destruct (step_coordinator _ _ _ _ _ Hc Ha Hw) as (Hc' & Hother & _).
  exists S'. split_and!; [done|done|]. intros k jk mk Hjk Hk.
  destruct (decide (k = i)) as [->|Hne].
  - rewrite list_lookup_insert_eq in Hk by (by eapply lookup_lt_Some). injection Hk as <-.
    assert (jk = j) as -> by congruence.
    apply (thread_step S S' _ _ w); try done; [by apply (Forall_lookup_1 _ _ _ _ Hnow Hj)|by eapply Hth].
  - rewrite list_lookup_insert_ne in Hk by done.
    eapply thread_inv_frame; [done| |by eapply Hth]. apply Hother. intros Heq. apply Hne.
    apply (NoDup_lookup _ k i (job_owner j) Hnd); rewrite list_lookup_fmap, ?Hjk, ?Hj; [|done].
    cbn. by rewrite Heq.
Qed.

Lemma excl_init jobs w S :
  store_state (w_ledger w) S -> coordinator_inv (w_coordinator w) ->
  excl_inv jobs w (replicate (length jobs) []).
Proof.
  intros Hst Hc. exists S. split_and!; [done|done|]. intros i j m _ [-> _]%lookup_replicate.
  split; [by intros id ?%elem_of_nil|by intros id [] ?|done|done].
Qed.

(** Handlers that run at the same time never share an exclusive resource. *)
Lemma handlers_disjoint jobs w tr w' S i1 i2 j1 j2 :
  registry_inv reg -> Forall (fun j => is_Some (job_now j)) jobs -> NoDup (job_owner <$> jobs) ->
  store_state (w_ledger w) S -> coordinator_inv (w_coordinator w) -> reaches w jobs tr w' ->
  i1 <> i2 -> jobs !! i1 = Some j1 -> jobs !! i2 = Some j2 ->
  in_handler (thread_events i1 tr) = true -> in_handler (thread_events i2 tr) = true ->
  forall r, r ∈ job_resources j1 -> r ∉ job_resources j2.
Proof.
  intros Hreg Hnow Hnd Hst Hc Hr Hne Hj1 Hj2 Hin1 Hin2 r Hr1 Hr2.
  destruct (reaches_invariant (excl_inv jobs) jobs w tr w') as (ms & (S' & _ & Hc' & Hth) & _ & Hms).
  { intros w1 ms1 i j m e w2 HI _ Hj Hm Ha Hw. by eapply excl_step. }
  { by eapply excl_init. }
  { done. }
  pose proof (Hth _ _ _ Hj1 (Hms _ (lookup_lt_Some _ _ _ Hj1))) as T1.
  pose proof (Hth _ _ _ Hj2 (Hms _ (lookup_lt_Some _ _ _ Hj2))) as T2.
  destruct (ti_handler _ _ _ _ T1 Hin1) as [H0|Hh1]; [rewrite H0 in Hr1; by apply elem_of_nil in Hr1|].
  destruct (ti_handler _ _ _ _ T2 Hin2) as [H0|Hh2]; [rewrite H0 in Hr2; by apply elem_of_nil in Hr2|].
  apply Hne, (NoDup_lookup _ i1 i2 (job_owner j1) Hnd); rewrite list_lookup_fmap, ?Hj1, ?Hj2; [done|].
  cbn. f_equal. symmetry.
  by apply (holdings_disjoint _ _ _ _ _ r Hc' (ti_holding _ _ _ _ T1 Hh1) (ti_holding _ _ _ _ T2 Hh2));
    apply elem_of_list_to_set.
Qed.
End World.
