(* ===== verification/Schedules.v ===== *)
(** Running a pool of threads under an explicit schedule, to evaluate concurrent
    executions on concrete inputs.  Shared objects answer by their definitions; the other
    answers are part of the schedule. *)

From stdpp Require Import base gmap sets list strings.
From Stdlib Require Import ZArith.
From S2P Require Import Prelude PyText PyVal Json Sha256 ExecutionContract Court CourtToken.
From S2P Require Import Resources ReplayLedger Effects RuntimeOps ApprovedExecutor.
From S2P Require Import CoordinatedExecutor Samples Interleaving.

Definition shared_step (w : world ledger) {X} (o : op X) (a : answer) : option (outcome X * world ledger) :=
  match o in op X return option (outcome X * world ledger) with
  | OpLedgerHas id =>
      Some (match contains (PStr id) (w_ledger w) with
            | Ok (b, l) => (Ok b, mkWorld l (w_coordinator w))
            | Err e => (Err e, w)
            end)
  | OpLedgerConsume id =>
      Some (match consume id (w_ledger w) with
            | Ok (b, l) => (Ok b, mkWorld l (w_coordinator w))
            | Err e => (Err e, w)
            end)
  | OpLedgerAdd _ => None
  | OpAcquire owner rs =>
      match acquire owner (PTuple (PStr <$> rs)) (w_coordinator w) with
      | Ok (d, c) => Some (Ok d, mkWorld (w_ledger w) c)
      | Err _ => None
      end
  | OpRelease owner =>
      let (d, c) := release owner (w_coordinator w) in Some (Ok d, mkWorld (w_ledger w) c)
  | OpTime => Some (interpret _ OpTime a, w)
  | OpReadFile p => Some (interpret _ (OpReadFile p) a, w)
  | OpReceipt r => Some (interpret _ (OpReceipt r) a, w)
  | OpSafety t ps => Some (interpret _ (OpSafety t ps) a, w)
  | OpHandlerCall h args => Some (interpret _ (OpHandlerCall h args) a, w)
  | OpHandlerReturn h => Some (interpret _ (OpHandlerReturn h) a, w)
  end.

Lemma world_eta {L} (w : world L) : mkWorld (w_ledger w) (w_coordinator w) = w.
Proof. by destruct w. Qed.

Lemma shared_step_sound w {X} (o : op X) a r w' :
  shared_step w o a = Some (r, w') -> world_step w (log X o r) w'.
Proof.
  destruct o as [| | | | | |id|id| |owner rs|owner]; cbn [shared_step]; intros H; try (injection H as <- <-; constructor).
  - destruct (contains _ _) as [[b l]|e] eqn:Hc; injection H as <- <-; by constructor.
  - destruct (consume _ _) as [[b l]|e] eqn:Hc; injection H as <- <-; [by constructor|].
    rewrite <- (world_eta w) at 2. constructor. apply fault_before.
  - done.
  - destruct (acquire _ _ _) as [[d c]|e] eqn:Ha; [|done]. injection H as <- <-. by constructor.
  - destruct (release _ _) as [d c] eqn:Hr. injection H as <- <-. by constructor.
Qed.

Section Schedule.
Context {A : Type}.

Definition thread_step_at (w : world ledger) (p : runtime A) (a : answer)
    : option (event * runtime A * world ledger) :=
  match p with
  | Vis o k =>
      match shared_step w o a with
      | Some (r, w') => Some (log _ o r, k r, w')
      | None => None
      end
  | _ => None
  end.

(** One entry of the schedule lets one thread perform its next operation. *)
Fixpoint run_schedule (w : world ledger) (ps : list (runtime A)) (sched : list (nat * answer))
    : option (list (nat * event) * world ledger * list (runtime A)) :=
  match sched with
  | [] => Some ([], w, ps)
  | (i, a) :: rest =>
      match ps !! i with
      | Some p =>
          match thread_step_at w p a with
          | Some (e, p', w1) =>
              match run_schedule w1 (<[i := p']> ps) rest with
              | Some (tr, w2, ps2) => Some ((i, e) :: tr, w2, ps2)
              | None => None
              end
          | None => None
          end
      | None => None
      end
  end.

Lemma pool_steps_cons (c : world ledger * list (runtime A)) e c1 tr c2 :
  pool_step log world_step c e c1 -> pool_steps log world_step c1 tr c2 ->
  pool_steps log world_step c (e :: tr) c2.
Proof.
  intros H1 H2. induction H2 as [c1|c1 tr c3 e' c4 H2 IH H3].
  - apply (pool_snoc _ _ c [] c e); [constructor|done].
  - apply (pool_snoc _ _ c (e :: tr) c3 e'); [by apply IH|done].
Qed.

Lemma run_schedule_sound sched : forall w ps tr w' ps',
  run_schedule w ps sched = Some (tr, w', ps') -> pool_steps log world_step (w, ps) tr (w', ps').
Proof.
  induction sched as [|[i a] sched IH]; intros w ps tr w' ps' H; cbn in H.
  - injection H as <- <- <-. constructor.
  - destruct (ps !! i) as [p|] eqn:Hp; [|done].
    destruct (thread_step_at w p a) as [[[e p'] w1]|] eqn:Hs; [|done].
    destruct (run_schedule w1 _ sched) as [[[tr1 w2] ps2]|] eqn:Hr; [|done].
    injection H as <- <- <-. apply IH in Hr. eapply pool_steps_cons; [|done].
    destruct p as [|?|X o k]; cbn in Hs; [done..|].
    destruct (shared_step w o a) as [[r w3]|] eqn:Hsh; [|done]. injection Hs as <- <- <-.
    constructor; [done|]. by eapply shared_step_sound.
Qed.
End Schedule.

(** ** Concrete pools *)

Definition empty_world : world ledger := mkWorld (mkLedger None ∅) empty_coordinator.

Lemma empty_world_ok : store_state (w_ledger empty_world) ∅ /\ coordinator_inv (w_coordinator empty_world).
Proof. split; [done|apply empty_coordinator_inv]. Qed.

(** A second token, from another intent, and an executor that shares the resource. *)
Definition other_intent : CourtIntent.Intent :=
  CourtIntent.mkIntent "intent-2" "set" "lights.set" "cabin" "owner-1" "session-1" "body-1" "dash" 1000.
Definition other_token : CapabilityToken :=
  match issue_token other_intent "cabin-policy" sample_key 30 1000 with
  | Ok t => t | Err _ => blank_token end.

Definition sample_job : job := mkJob sample_token "lights" sample_parameters sample_key (Some 1010%Z).
Definition other_job : job := mkJob other_token "lights" sample_parameters sample_key (Some 1010%Z).

Section Scheduled.
Context (reg : registry) (jobs : list job) (sched : list (nat * answer)).

Definition schedule_result := run_schedule empty_world (job_program reg <$> jobs) sched.

Definition schedule_trace : list (nat * event) :=
  match schedule_result with Some (tr, _, _) => tr | None => [] end.
Definition schedule_world : world ledger :=
  match schedule_result with Some (_, w, _) => w | None => empty_world end.
Definition schedule_runs : bool := match schedule_result with Some _ => true | None => false end.

Lemma schedule_reaches :
  schedule_runs = true -> reaches reg empty_world jobs schedule_trace schedule_world.
Proof.
  unfold schedule_runs, schedule_trace, schedule_world, schedule_result. intros H.
  destruct (run_schedule _ _ _) as [[[tr w] ps]|] eqn:Hr; [|done].
  exists ps. by apply run_schedule_sound in Hr.
Qed.
End Scheduled.

(** One thread up to the call of its handler: preflight, acquisition, gates, consumption. *)
Definition to_handler (i : nat) : list (nat * answer) :=
  [(i, AUnit); (i, AUnit); (i, AUnit); (i, AUnit); (i, ASafety (PBool true) ""); (i, AUnit); (i, AUnit);
   (i, AUnit)].

Example to_handler_runs :
  in_handler (thread_events 0 (schedule_trace sample_registry [sample_job] (to_handler 0))) = true.
Proof. vm_compute. reflexivity. Qed.

(** The same token submitted twice: the duplicate shares the first call's lease, is
    refused as a replay, and releases the lease while the first handler still runs; a
    third submission then acquires the resource. *)
Definition duplicate_jobs : list job := [sample_job; sample_job; other_job].
Definition duplicate_schedule : list (nat * answer) :=
  [(1, AUnit)] ++ to_handler 0 ++
  [(1, AUnit); (1, AUnit); (1, AUnit); (1, AUnit); (1, AUnit); (1, AUnit)] ++ to_handler 2.

Example duplicate_schedule_overlaps :
  let tr := schedule_trace sample_registry duplicate_jobs duplicate_schedule in
  in_handler (thread_events 0 tr) && in_handler (thread_events 2 tr) &&
  bool_decide (job_resources sample_registry sample_job = job_resources sample_registry other_job) = true.
Proof. vm_compute. reflexivity. Qed.
