(* ===== verification/CourtTheorems.v ===== *)
(** The properties of the Court: when it authorizes an intent, what it does when it does
    not, and what the tokens it issues are worth. *)

From stdpp Require Import base gmap sets list strings.
From Stdlib Require Import ZArith.
From S2P Require Import Prelude PyText PyVal Json Sha256 ExecutionContract Court CourtPolicy.
From S2P Require Import CourtToken Resources Effects RuntimeOps ApprovedExecutor.
From S2P Require Import CoordinatedExecutor Samples CourtAuthorization.
Import CourtIntent CourtReasons CourtAuthority.

(** ** A concrete context and policy file *)

Definition sample_context : pyobj :=
  [("court_authority", PStr "owner"); ("policy_id", PStr "Cabin-Policy");
   ("authorization_required", PBool true); ("profile_id", PStr "Owner-1");
   ("session_id", PStr "session-1"); ("body_id", PStr "body-1"); ("surface", PStr "dash");
   ("proposed_capabilities", PTuple [PStr "lights.set"])].

Definition policy_json (policies : list json) : string :=
  dumps (JObj [("schema", JStr "velvet.court.policy.v1"); ("policies", JArr policies)]).

Definition cabin_policy (capabilities : list json) (ttl : Z) : json :=
  JObj [("policy_id", JStr "cabin-policy"); ("status", JStr "active");
        ("allowed_capabilities", JArr capabilities); ("allowed_targets", JArr [JStr "cabin"]);
        ("token_ttl_seconds", JInt ttl)].

Definition sample_policy_file : string := policy_json [cabin_policy [JStr "lights.set"] 30].

Definition sample_authorization : runtime CourtDecision :=
  authorize_intent sample_intent sample_context "court.json" sample_key (Some 1000%Z).

Definition court_run := run_script sample_authorization [AFile (Some sample_policy_file); AUnit].

Lemma court_run_exec : exec log sample_authorization (trace_of court_run) (outcome_of court_run).
Proof. unfold court_run. apply run_script_exec. Qed.

Definition default_decision : CourtDecision :=
  mkCourtDecision false "" None None [] false (mkCourtReason POLICY_MATCH "" []) [] [] None None [].
Definition court_result : CourtDecision :=
  match outcome_of court_run with Ok d => d | Err _ => default_decision end.

Lemma court_result_ok : outcome_of court_run = Ok court_result.
Proof.
  unfold court_result. destruct (outcome_of court_run) as [d|e] eqn:H; [done|].
  assert (is_ok (outcome_of court_run) = true) as Hok by (vm_compute; reflexivity). by rewrite H in Hok.
Qed.

(** ** Authorization *)

(** C6: The Court authorizes an intent exactly when the intent is well formed, the active
    authority is valid, authorization is required by the context, the intent is bound to
    the context's identities, its capability is proposed, every requested policy in the
    file it read permits it, and the sink accepted the decision receipt. *)
Theorem court_authorizes_iff i ctx path key now tr d :
  exec log (authorize_intent i ctx path key now) tr (Ok d) ->
  allowed d = true <-> permitted i ctx path tr /\ Exists (fun e => receipt_accepted e = true) tr.
Proof.
  intros Hx. destruct (wpt_exec log _ _ _ _ _ Hx (wpt_authorize_intent i ctx path key now [])) as (tr' & -> & Ho).
  by apply (court_allowed_iff i ctx path key now).
Qed.

Lemma court_authorizes_iff_witness :
  allowed court_result = true <->
  permitted sample_intent sample_context "court.json" (trace_of court_run) /\
  Exists (fun e => receipt_accepted e = true) (trace_of court_run).
Proof.
  apply (court_authorizes_iff sample_intent sample_context "court.json" sample_key (Some 1000%Z)).
  rewrite <- court_result_ok. exact court_run_exec.
Defined.

(** An authorization carries a token made for exactly this intent and policy set,
    signed with the Court's key and valid from the current time for the policy set's
    lifetime of 1 to 300 seconds; the receipt that names the token was accepted before
    the decision is returned, and it is the last thing that happened. *)
Theorem court_grant_is_receipted i ctx path key now tr d :
  exec log (authorize_intent i ctx path key now) tr (Ok d) -> allowed d = true ->
  exists t res current tr' rc,
    token d = Some t /\ token_for i (policy_set_id res) (token_ttl_seconds res) current t /\
    (1 <= token_ttl_seconds res <= 300)%Z /\
    (forall z, (current <= z <= current + token_ttl_seconds res)%Z -> verify_token t key z = Ok true) /\
    tr = tr' ++ [EReceipt rc (Ok tt)] /\
    exists authority r, rc = grant_receipt i (decision_policy_ids d) authority res t r.
Proof.
  intros Hx Hall. destruct (wpt_exec log _ _ _ _ _ Hx (wpt_authorize_intent i ctx path key now [])) as (tr' & -> & Ho).
  destruct Ho as [[_ Hg]|[Hno _]]; [|congruence].
  destruct Hg as (file & rq & au & rs & cur & clock & t & r & Hc & _ & Ht & Htok & _ & _ & Hids & _ & ->).
  destruct (issue_token_ok _ _ _ _ _ _ Ht) as (_ & Httl & Hsig & _ & Hfor).
  exists t, rs, cur, (EReadFile path (Ok file) :: clock), (grant_receipt i rq au rs t r).
  split_and!; [done|done|lia|lia| |done|by exists au, r; rewrite Hids].
  intros z Hz. apply verify_token_true. split; [done|].
  rewrite (tf_issued _ _ _ _ _ Hfor), (tf_expires _ _ _ _ _ Hfor). lia.
Qed.

Lemma court_result_allowed : allowed court_result = true.
Proof. vm_compute. reflexivity. Qed.

Lemma court_grant_is_receipted_witness :
  exists t res current tr' rc,
    token court_result = Some t /\
    token_for sample_intent (policy_set_id res) (token_ttl_seconds res) current t /\
    (1 <= token_ttl_seconds res <= 300)%Z /\
    (forall z, (current <= z <= current + token_ttl_seconds res)%Z -> verify_token t sample_key z = Ok true) /\
    trace_of court_run = tr' ++ [EReceipt rc (Ok tt)] /\
    exists authority r, rc = grant_receipt sample_intent (decision_policy_ids court_result) authority res t r.
Proof.
  apply (court_grant_is_receipted sample_intent sample_context "court.json" sample_key (Some 1000%Z)).
  - rewrite <- court_result_ok. exact court_run_exec.
  - exact court_result_allowed.
Defined.

(** C8: The Court fails closed: a decision that is not an authorization has no token and
    gives a reason; exactly one receipt is offered, at the end, and [receipt_persisted]
    says whether it was accepted; and if the Court raises instead, no receipt was
    accepted.  In no case does it touch the ledger, the resources or a handler. *)
Theorem court_fails_closed i ctx path key now tr o :
  exec log (authorize_intent i ctx path key now) tr o ->
  Forall (fun e => match e with ETime _ | EReadFile _ _ | EReceipt _ _ => True | _ => False end) tr /\
  match o with
  | Ok d => allowed d = true \/ refused_as i ctx path tr d
  | Err _ => existsb receipt_accepted tr = false
  end.
Proof.
  intros Hx.
  destruct (wpt_exec log _ _ _ _ _ Hx (wpt_events log _ _ _ _ (wpt_authorize_intent i ctx path key now [])))
    as [(tr' & -> & Ho) (tr2 & Heq & Hev)]. cbn [app] in *. subst tr2. split.
  - apply Forall_forall. intros e Hin. apply list_elem_of_split in Hin as (a & b & ->).
    exact (Hev a e b eq_refl).
  - destruct o as [d|e]; [|done]. destruct Ho as [[? _]|?]; auto.
Qed.

Lemma court_fails_closed_witness :
  let r := run_script sample_authorization [AFile (Some (policy_json [cabin_policy [] 30])); AUnit] in
  Forall (fun e => match e with ETime _ | EReadFile _ _ | EReceipt _ _ => True | _ => False end) (trace_of r) /\
  match outcome_of r with
  | Ok d => allowed d = true \/ refused_as sample_intent sample_context "court.json" (trace_of r) d
  | Err _ => existsb receipt_accepted (trace_of r) = false
  end.
Proof.
  cbv zeta.
  apply (court_fails_closed sample_intent sample_context "court.json" sample_key (Some 1000%Z)).
  apply run_script_exec.
Defined.

(** ** Tokens *)

(** Issuing succeeds exactly with a key of at least 32 bytes and a lifetime of 1 to
    300 seconds; the token copies the intent, and verifying it with the same key answers
    [True] exactly inside its window, for any clock. *)
Theorem token_round_trip i pid key ttl now :
  (is_ok (issue_token i pid key ttl now) = true <-> 32 <= length key /\ (1 <= ttl <= 300)%Z) /\
  forall t, issue_token i pid key ttl now = Ok t ->
    token_for i pid ttl now t /\
    forall z, verify_token t key z = Ok (bool_decide (now <= z <= now + ttl)%Z).
Proof.
  split.
  - split.
    + destruct (issue_token i pid key ttl now) as [t|] eqn:H; [|done]. intros _.
      by apply issue_token_ok in H as (? & ? & _).
    + intros [Hk Ht]. destruct (issue_token_total i pid key ttl now Hk Ht) as [t Hi]. by rewrite Hi.
  - intros t (Hk & Httl & Hsig & _ & Hf)%issue_token_ok. split; [done|]. intros z.
    unfold verify_token. rewrite compare_digest_ascii; [|rewrite Hsig|]; [|apply sign_ascii..].
    rewrite (tf_issued _ _ _ _ _ Hf), (tf_expires _ _ _ _ _ Hf), <- Hsig.
    rewrite bool_decide_true by done. cbn [outcome_bind andb]. f_equal.
    apply eq_true_iff_eq. rewrite andb_true_iff, bool_decide_eq_true, !Z.leb_le. done.
Qed.

(** A token cannot be altered: two tokens that verify under one key with the same
    signature are the same token, in every field, or exhibit a collision of HMAC-SHA256
    under that key on two different byte strings. *)
Theorem verified_token_fields_fixed t1 t2 key z1 z2 :
  verify_token t1 key z1 = Ok true -> verify_token t2 key z2 = Ok true -> signature t1 = signature t2 ->
  t1 = t2 \/
  (canonical_bytes (signed_fields t1) <> canonical_bytes (signed_fields t2) /\
   hmac_sha256_hex key (canonical_bytes (signed_fields t1))
   = hmac_sha256_hex key (canonical_bytes (signed_fields t2))).
Proof.
  intros [Hs1 _]%verify_token_true [Hs2 _]%verify_token_true Heq.
  destruct (decide (canonical_bytes (signed_fields t1) = canonical_bytes (signed_fields t2))) as [Hc|Hc].
  - left. apply signed_fields_eq; [by apply canonical_signed_inj|done].
  - right. split; [done|]. change (sign key t1 = sign key t2). congruence.
Qed.

Lemma verified_token_fields_fixed_witness :
  sample_token = sample_token \/
  (canonical_bytes (signed_fields sample_token) <> canonical_bytes (signed_fields sample_token) /\
   hmac_sha256_hex sample_key (canonical_bytes (signed_fields sample_token))
   = hmac_sha256_hex sample_key (canonical_bytes (signed_fields sample_token))).
Proof.
  apply (verified_token_fields_fixed sample_token sample_token sample_key 1000 1030);
    [vm_compute; reflexivity|vm_compute; reflexivity|reflexivity].
Defined.

(** ** Authority and policies *)

(** Authority is resolved as valid exactly when the active identity is among the
    declared candidates (or alone), all candidates are registered and distinct, the
    active identity outranks every other one, and it is not ["unknown"]. *)
Theorem authority_valid_iff ctx r :
  resolve_authority ctx = Ok r ->
  valid r = true <->
  exists cands, declared_candidates ctx (declared_active ctx) = Some cands /\
    authority_spec (declared_active ctx) cands.
Proof. apply resolve_authority_valid. Qed.

Lemma authority_valid_iff_witness :
  let ctx := [("court_authority", PStr "Owner"); ("court_authorities", PTuple [PStr "guest"; PStr "owner"])] in
  true = true <-> exists cands, declared_candidates ctx (declared_active ctx) = Some cands /\
    authority_spec (declared_active ctx) cands.
Proof.
  exact (authority_valid_iff
    [("court_authority", PStr "Owner"); ("court_authorities", PTuple [PStr "guest"; PStr "owner"])]
    (mkAuthorityResolution "owner" ["guest"; "owner"] "owner" 600 true None None) eq_refl).
Defined.

(** The policy set is restrictive: a resolution permits a request exactly when every
    requested policy, in the active version the file has of it, lists the capability and
    the target; its lifetime is the shortest of theirs and lies between 1 and 300. *)
Theorem policy_set_restrictive path file ctx ids cap tgt res :
  policy_ids_from_context ctx = Ok ids -> resolve_policy_set path file ids cap tgt = Ok res ->
  exists d policies fs,
    load_document path file = Ok d /\ get d "policies" = PList policies /\
    (resolution_allowed res = true <->
     forall id, id ∈ ids -> exists p, active_policies policies !! id = Some p /\ policy_permits p cap tgt) /\
    Forall (fun f => token_ttl_seconds res <= finding_ttl f)%Z fs /\
    Exists (fun f => token_ttl_seconds res = finding_ttl f) fs /\
    Forall2 (fun id f => exists p, active_policies policies !! id = Some p /\
                                   evaluate p cap tgt = Ok f) ids fs /\
    (1 <= token_ttl_seconds res <= 300)%Z.
Proof.
  intros (_ & _ & Hn)%policy_ids_from_context_normal Hres.
  destruct (resolve_policy_set_ok _ _ _ _ _ _ Hn Hres) as (d & ps & fs & Hd & Hp & Hf & Hs).
  exists d, ps, fs. split_and!; try done; [|apply Hs..|by eapply resolve_policy_set_ttl|by eapply resolve_policy_set_ttl].
  rewrite (spec_allowed _ _ _ Hs). rewrite Forall_lookup. split.
  - intros Hall id [k Hk]%list_elem_of_lookup.
    destruct (Forall2_lookup_l _ _ _ _ _ Hf Hk) as (f & Hkf & p & Hpl & He).
    exists p. split; [done|]. apply (evaluate_permits _ _ _ _ He). by eapply Hall.
  - intros Hall k f Hk. destruct (Forall2_lookup_r _ _ _ _ _ Hf Hk) as (id & Hid & p & Hpl & He).
    apply (evaluate_permits _ _ _ _ He).
    destruct (Hall id) as (p' & Hp' & Hperm); [by eapply list_elem_of_lookup_2|]. congruence.
Qed.

Definition sample_resolution : PolicyResolution :=
  match resolve_policy_set "court.json" (Some sample_policy_file) ["cabin-policy"] "lights.set" "cabin" with
  | Ok r => r
  | Err _ => mkPolicyResolution [] "" [] false 0 None None
  end.

Lemma policy_set_restrictive_witness :
  exists d policies fs,
    load_document "court.json" (Some sample_policy_file) = Ok d /\ get d "policies" = PList policies /\
    (resolution_allowed sample_resolution = true <->
     forall id, id ∈ ["cabin-policy"] ->
       exists p, active_policies policies !! id = Some p /\ policy_permits p "lights.set" "cabin") /\
    Forall (fun f => token_ttl_seconds sample_resolution <= finding_ttl f)%Z fs /\
    Exists (fun f => token_ttl_seconds sample_resolution = finding_ttl f) fs /\
    Forall2 (fun id f => exists p, active_policies policies !! id = Some p /\
                                   evaluate p "lights.set" "cabin" = Ok f) ["cabin-policy"] fs /\
    (1 <= token_ttl_seconds sample_resolution <= 300)%Z.
Proof.
  apply (policy_set_restrictive "court.json" (Some sample_policy_file) sample_context).
  - vm_compute. reflexivity.
  - vm_compute. reflexivity.
Defined.
