(* ===== verification/SpineTheorems.v ===== *)
(** The properties of the execution spine: the order of the gates before a handler, what
    results say, release of resources, and concurrent submissions. *)

From stdpp Require Import base gmap sets list strings.
From Stdlib Require Import ZArith.
From S2P Require Import Prelude PyText PyVal Json Sha256 ExecutionContract Court CourtPolicy.
From S2P Require Import CourtToken Resources ReplayLedger SafetyGates Effects RuntimeOps.
From S2P Require Import ApprovedExecutor CoordinatedExecutor Samples CourtAuthorization.
From S2P Require Import CourtTheorems Pipeline Interleaving Schedules.

(** ** One execution *)

(** C2: Whatever the environment answers, [execute_authorized] calls a handler only after
    exactly these events, in this order: the ledger said the token is unused, the clock
    was read (if no time was given), the safety check answered [True], the start receipt
    was accepted, and the token was consumed by this call; the token verified, the
    executor is registered under the name and bound to the token's capability and target,
    and the parameters satisfy the contract.  In particular at most one handler is
    called. *)
Theorem handler_called_only_when_cleared t name ps reg key kind now tr p tr1 h args o tr2 :
  steps log (execute_authorized t name ps reg key kind now) tr p ->
  tr = tr1 ++ EHandlerCall h args o :: tr2 ->
  cleared t name ps reg key kind now [] h args tr1.
Proof.
  intros Hs Heq.
  exact (wpt_steps log _ _ _ _ _ Hs (wpt_execute_authorized t name ps reg key kind now []) _ _ _ Heq).
Qed.

Lemma handler_called_only_when_cleared_witness :
  cleared sample_token "Lights" sample_parameters sample_registry sample_key AtomicLedger
    (Some 1010%Z) [] "set_lights" [(PStr "level", PInt 3)] (take 4 (trace_of sample_run)).
Proof.
  apply (handler_called_only_when_cleared sample_token "Lights" sample_parameters sample_registry
    sample_key AtomicLedger (Some 1010%Z) (trace_of sample_run) (of_outcome (outcome_of sample_run))
    (take 4 (trace_of sample_run)) "set_lights" [(PStr "level", PInt 3)] (Ok tt)
    (drop 5 (trace_of sample_run))).
  - exact sample_run_exec.
  - vm_compute. reflexivity.
Defined.



(** ** Exclusive resources *)

(** With a clock fixed by the caller and a ledger that does not forget, a handler that
    [execute_coordinated] calls runs with its declared resources held: they were acquired
    for this execution, the acquisition receipt was accepted, all gates followed, and
    nothing was released yet. *)
Theorem coordinated_handler_holds_resources t name ps reg key kind n tr p tr1 h args o tr2 :
  steps log (execute_coordinated t name ps reg key kind (Some n)) tr p ->
  tr = tr1 ++ EHandlerCall h args o :: tr2 -> ledger_monotone tr1 ->
  coordinated_clear t name ps reg key kind (Some n) [] h args tr1.
Proof.
  intros Hs Heq Hm.
  destruct (wpt_steps log _ _ _ _ _ Hs (wpt_execute_coordinated t name ps reg key kind (Some n) []) _ _ _ Heq)
    as [_ H]. by apply (H tr1).
Qed.

Lemma coordinated_handler_holds_resources_witness :
  coordinated_clear sample_token "lights" sample_parameters sample_registry sample_key AtomicLedger
    (Some 1010%Z) [] "set_lights" [(PStr "level", PInt 3)] (take 7 (trace_of coordinated_run)).
Proof.
  apply (coordinated_handler_holds_resources sample_token "lights" sample_parameters sample_registry
    sample_key AtomicLedger 1010%Z (trace_of coordinated_run) (of_outcome (outcome_of coordinated_run))
    (take 7 (trace_of coordinated_run)) "set_lights" [(PStr "level", PInt 3)] (Ok tt)
    (drop 8 (trace_of coordinated_run))).
  - exact coordinated_run_exec.
  - vm_compute. reflexivity.
  - intros id a b Heq Hin.
    assert (forallb (fun e => match e with ELedgerHas _ (Ok true) => false | _ => true end)
              (take 7 (trace_of coordinated_run)) = true) as Hall by (vm_compute; reflexivity).
    rewrite Heq in Hall. apply forallb_Forall, Forall_app in Hall as [Hall _].
    rewrite Forall_forall in Hall. by specialize (Hall _ Hin).
Defined.

(** A trace that contains exactly one granted acquisition splits there in one way. *)
Lemma split_at_acquire pre a rest tr1 e tr2 :
  pre ++ a :: rest = tr1 ++ e :: tr2 -> (exists o rs d, e = EAcquire o rs d) -> resource_free pre ->
  forallb (fun e => match e with EAcquire _ _ _ => false | _ => true end) rest = true ->
  e = a /\ tr2 = rest.
Proof.
  intros Heq (o & rs & d & ->) Hpre Hrest. revert tr1 Heq.
  induction pre as [|x pre IH]; intros [|y tr1] Heq; injection Heq as -> Heq.
  - by split.
  - exfalso. rewrite Heq in Hrest.
    apply forallb_Forall, Forall_app in Hrest as [_ Hrest]. by apply Forall_cons in Hrest as [? _].
  - done.
  - apply (IH (proj2 (proj1 (resource_free_app [y] pre) Hpre)) tr1 Heq).
Qed.

Lemma resource_free_no_acquire tr :
  resource_free tr -> forallb (fun e => match e with EAcquire _ _ _ => false | _ => true end) tr = true.
Proof.
  unfold resource_free. rewrite !forallb_Forall. intros H. apply (Forall_impl _ _ _ H). by intros [].
Qed.

(** C5: Release on every exit path: in every complete execution of [execute_coordinated],
    normal or exceptional, a granted acquisition is followed by a release by the same
    owner.  The one exception: a [BaseException] (such as [KeyboardInterrupt]) raised by
    the sink while the acquisition receipt is written. *)
Theorem coordinated_always_releases t name ps reg key kind now tr out tr1 owner rs d tr2 :
  exec log (execute_coordinated t name ps reg key kind now) tr out ->
  tr = tr1 ++ EAcquire owner rs (Ok d) :: tr2 -> granted d = true ->
  (exists tr3 r tr4, tr2 = tr3 ++ ERelease owner r :: tr4) \/
  (exists rc e, tr2 = [EReceipt rc (Err e)] /\ is_Exception e = false).
Proof.
  intros Hx Heq Hg.
  destruct (wpt_exec log _ _ _ _ _ Hx (wpt_execute_coordinated t name ps reg key kind now []))
    as (tr' & -> & Hp & _). cbn [app] in Heq.
  assert (exists o' rs' d', EAcquire owner rs (Ok d) = EAcquire o' rs' d') as Hacq by (by eexists _, _, _).
  destruct Hp as [tr' Hfree|pre e Hfree|pre d' rc o Hfree Hd|pre d' rc e r Hfree Hd He
                 |pre d' rc e Hfree Hd He|pre d' rc mid r fin Hfree Hd Hmid Hfin].
  - exfalso. rewrite Heq in Hfree. by apply resource_free_app in Hfree as [_ ?].
  - by destruct (split_at_acquire _ _ _ _ _ _ Heq Hacq Hfree eq_refl) as [? _].
  - destruct (split_at_acquire _ _ _ _ _ _ Heq Hacq Hfree eq_refl) as [H' _]. congruence.
  - destruct (split_at_acquire _ _ _ _ _ _ Heq Hacq Hfree eq_refl) as [[= -> _ _] ->].
    left. by exists [EReceipt rc (Err e)], r, [].
  - destruct (split_at_acquire _ _ _ _ _ _ Heq Hacq Hfree eq_refl) as [_ ->].
    right. by exists rc, e.
  - destruct (split_at_acquire _ _ _ _ _ _ Heq Hacq Hfree) as [[= -> _ _] ->].
    { cbn. rewrite forallb_app. cbn. by rewrite !resource_free_no_acquire. }
    left. by exists (EReceipt rc (Ok tt) :: mid), r, fin.
Qed.

Lemma coordinated_always_releases_witness :
  (exists tr3 r tr4, drop 2 (trace_of coordinated_run)
     = tr3 ++ ERelease (owner_of_token sample_token) r :: tr4) \/
  (exists rc e, drop 2 (trace_of coordinated_run) = [EReceipt rc (Err e)] /\ is_Exception e = false).
Proof.
  apply (coordinated_always_releases sample_token "lights" sample_parameters sample_registry
    sample_key AtomicLedger (Some 1010%Z) (trace_of coordinated_run) (outcome_of coordinated_run)
    (take 1 (trace_of coordinated_run)) (owner_of_token sample_token) ["cabin_lights"]
    (mkDecision true "acquired" None [] [])).
  - exact coordinated_run_exec.
  - vm_compute. reflexivity.
  - reflexivity.
Defined.

(** A result of [execute_coordinated] agrees with the trace on what the handler did
    ([executed], [output], [start_receipt_persisted]), also when the release fails, and
    the call uses the coordinator by the lease protocol: nothing at all, one refused or
    failed acquisition, or one acquisition that is released (or interrupted). *)
Theorem coordinated_result_truthful t name ps reg key kind now tr o :
  exec log (execute_coordinated t name ps reg key kind now) tr o ->
  lease_protocol (owner_of_token t) (declared_resources name reg) tr /\
  match o with Ok r => reports t name reg tr r | Err _ => True end.
Proof.
  intros Hx. destruct (wpt_exec log _ _ _ _ _ Hx (wpt_execute_coordinated t name ps reg key kind now []))
    as (tr' & -> & Hp & Ho). by split.
Qed.

Lemma coordinated_result_truthful_witness :
  lease_protocol (owner_of_token sample_token) (declared_resources "lights" sample_registry)
    (trace_of coordinated_run) /\
  match outcome_of coordinated_run with
  | Ok r => reports sample_token "lights" sample_registry (trace_of coordinated_run) r
  | Err _ => True
  end.
Proof.
  apply (coordinated_result_truthful sample_token "lights" sample_parameters sample_registry sample_key
    AtomicLedger (Some 1010%Z)).
  exact coordinated_run_exec.
Defined.

(** ** Concurrent executions *)

(** C3: No token is executed twice: for any number of threads that run
    [execute_coordinated] interleaved in any order on one atomic replay ledger, including
    ledger writes that fail halfway, at most one handler call in the whole history
    executes a given token. *)
Theorem token_executed_at_most_once {L} `{ReplayStore L} reg jobs (w w' : world L) seen tr id :
  store_state (w_ledger w) seen -> reaches reg w jobs tr w' ->
  length (executions jobs id tr) <= 1.
Proof. apply executions_le_one. Qed.

Lemma token_executed_at_most_once_witness :
  length (executions duplicate_jobs (token_id sample_token)
            (schedule_trace sample_registry duplicate_jobs duplicate_schedule)) <= 1.
Proof.
  apply (token_executed_at_most_once sample_registry duplicate_jobs empty_world
    (schedule_world sample_registry duplicate_jobs duplicate_schedule) ∅).
  - apply empty_world_ok.
  - apply schedule_reaches. vm_compute. reflexivity.
Defined.


(** A second executor, with a resource of its own. *)
Definition seats_spec : ExecutorSpec :=
  mkExecutorSpec "seats" "lights.set" ["*"] (Callable "set_seats")
    (mkExecutionContract "seats.v1" [] true "idempotent" 0 false ["seat_motor"] "completed"
       ["EXECUTION_STARTED"; "EXECUTION_COMPLETED"]).
Definition two_registry : registry :=
  match register seats_spec sample_registry with Ok r => r | Err _ => ∅ end.
Definition two_jobs : list job :=
  [sample_job; mkJob other_token "seats" sample_parameters sample_key (Some 1010%Z)].
Definition two_schedule : list (nat * answer) := to_handler 0 ++ to_handler 1.
Lemma sample_registry_inv : registry_inv sample_registry.
Proof.
  unfold sample_registry. destruct (register sample_spec ∅) as [r|e] eqn:Hr; [|by apply map_Forall_empty].
  eapply register_inv; [|exact Hr]. apply map_Forall_empty.
Qed.

Lemma two_registry_inv : registry_inv two_registry.
Proof.
  unfold two_registry. destruct (register seats_spec sample_registry) as [r|e] eqn:Hr;
    [|by apply map_Forall_empty].
  eapply register_inv; [apply sample_registry_inv|exact Hr].
Qed.


(** ** The pipeline *)

Definition sample_pipeline : RuntimePipeline :=
  mkPipeline sample_context "court.json" sample_key sample_registry AtomicLedger.

Definition submission : runtime PipelineResult :=
  submit sample_pipeline sample_intent "Lights" sample_parameters (Some 1000%Z).

Definition pipeline_run :=
  run_script submission ([AFile (Some sample_policy_file); AUnit] ++ coordinated_script).

Lemma pipeline_run_exec : exec log submission (trace_of pipeline_run) (outcome_of pipeline_run).
Proof. unfold pipeline_run. apply run_script_exec. Qed.

(** C1: No handler without the Court: whatever the environment answers, a handler that
    [RuntimePipeline.submit] calls is preceded by the Court's events, which end with the
    accepted receipt of a grant for this intent, and runs under the token of that grant,
    cleared by every gate of the executor. *)
Theorem submit_handler_after_court p i name ps now tr q tr1 h args o tr2 :
  steps log (submit p i name ps now) tr q -> tr = tr1 ++ EHandlerCall h args o :: tr2 ->
  submit_clear p i name ps now h args tr1.
Proof.
  intros Hs Heq. exact (wpt_steps log _ _ _ _ _ Hs (wpt_submit p i name ps now) _ _ _ Heq).
Qed.

Lemma submit_handler_after_court_witness :
  submit_clear sample_pipeline sample_intent "Lights" sample_parameters (Some 1000%Z) "set_lights"
    [(PStr "level", PInt 3)] (take 9 (trace_of pipeline_run)).
Proof.
  apply (submit_handler_after_court sample_pipeline sample_intent "Lights" sample_parameters
    (Some 1000%Z) (trace_of pipeline_run) (of_outcome (outcome_of pipeline_run))
    (take 9 (trace_of pipeline_run)) "set_lights" [(PStr "level", PInt 3)] (Ok tt)
    (drop 10 (trace_of pipeline_run))).
  - exact pipeline_run_exec.
  - vm_compute. reflexivity.
Defined.

(** The result of [submit] splits what happened at the Court's decision: refused, with
    the Court's state and nothing executed; or authorized, with the execution result of
    the granted token, which agrees with the events after the grant, and the resources
    used by the lease protocol. *)
Theorem submit_result_truthful p i name ps now tr o :
  exec log (submit p i name ps now) tr o -> submit_post p i name now o tr.
Proof. intros Hx. exact (wpt_exec log _ _ _ _ _ Hx (wpt_submit p i name ps now)). Qed.

Lemma submit_result_truthful_witness :
  submit_post sample_pipeline sample_intent "Lights" (Some 1000%Z) (outcome_of pipeline_run)
    (trace_of pipeline_run).
Proof.
  apply (submit_result_truthful sample_pipeline sample_intent "Lights" sample_parameters (Some 1000%Z)).
  exact pipeline_run_exec.
Defined.
