(* ===== verification/Findings.v ===== *)
(** Behaviours of the code that its documentation does not expect, each shown on a
    concrete execution of the model. *)

From stdpp Require Import base gmap sets list strings.
From Stdlib Require Import ZArith.
From S2P Require Import Prelude PyText PyVal Json Sha256 ExecutionContract Court CourtPolicy.
From S2P Require Import CourtToken Resources ReplayLedger Effects RuntimeOps ApprovedExecutor.
From S2P Require Import CoordinatedExecutor Samples CourtAuthorization CourtTheorems.
From S2P Require Import Interleaving Schedules.

(** Submitting one token twice breaks exclusion: the duplicate shares the first call's
    lease (same owner), is refused as a replay and releases the lease while the first
    handler still runs; another token then gets the same resource. *)
Theorem duplicate_submission_breaks_exclusion :
  exists tr w', reaches sample_registry empty_world duplicate_jobs tr w' /\
    in_handler (thread_events 0 tr) = true /\ in_handler (thread_events 2 tr) = true /\
    job_resources sample_registry sample_job = job_resources sample_registry other_job /\
    job_resources sample_registry sample_job = ["cabin_lights"].
Proof.
  exists (schedule_trace sample_registry duplicate_jobs duplicate_schedule),
         (schedule_world sample_registry duplicate_jobs duplicate_schedule).
  split; [apply schedule_reaches; vm_compute; reflexivity|].
  split_and!; vm_compute; reflexivity.
Qed.

Definition shadowed_parameters : pyval := PDict [(PStr "level", PStr "evil"); (PStr "LEVEL", PInt 3)].
Definition shadowed_run :=
  run_script (execute_authorized sample_token "lights" shadowed_parameters sample_registry sample_key
                AtomicLedger (Some 1010%Z)) sample_script.

(** Parameters are checked under normalised names, where the last spelling wins, but the
    handler receives the original mapping: a value of the wrong type passes the check. *)
Theorem unchecked_parameter_reaches_handler :
  exec log (execute_authorized sample_token "lights" shadowed_parameters sample_registry sample_key
              AtomicLedger (Some 1010%Z)) (trace_of shadowed_run) (outcome_of shadowed_run) /\
  parameters sample_contract = [mkParameterRule "level" "int" true] /\
  omap (fun e => match e with EHandlerCall _ args _ => Some (get args "level") | _ => None end)
    (trace_of shadowed_run) = [PStr "evil"].
Proof.
  split; [unfold shadowed_run; apply run_script_exec|].
  split; [reflexivity|vm_compute; reflexivity].
Qed.

(** Two active policies with one identity are not refused: the last one decides. *)
Theorem duplicate_policy_last_wins :
  let resolve ps := resolve_policy_set "court.json" (Some (policy_json ps)) ["cabin-policy"] "lights.set" "cabin" in
  let verdict ps := match resolve ps with Ok r => Some (resolution_allowed r) | Err _ => None end in
  verdict [cabin_policy [] 30; cabin_policy [JStr "lights.set"] 30] = Some true /\
  verdict [cabin_policy [JStr "lights.set"] 30; cabin_policy [] 30] = Some false.
Proof. vm_compute. split; reflexivity. Qed.

Definition interrupted_script : list answer :=
  [ABool false; ADecision (mkDecision true "acquired" None [] []);
   AErr (Exn BaseExit "KeyboardInterrupt")].
Definition interrupted_run := run_script coordinated_execution interrupted_script.

(** A [KeyboardInterrupt] while the acquisition receipt is written escapes without a
    release. *)
Theorem interrupted_receipt_leaks_lease :
  exec log coordinated_execution (trace_of interrupted_run) (outcome_of interrupted_run) /\
  holding (trace_of interrupted_run) = true /\
  outcome_of interrupted_run = Err (Exn BaseExit "KeyboardInterrupt").
Proof.
  split; [unfold interrupted_run; apply run_script_exec|]. split; vm_compute; reflexivity.
Qed.

Definition racing_execution : runtime ExecutionResult :=
  execute_coordinated sample_token "lights" sample_parameters sample_registry sample_key AtomicLedger None.
Definition racing_run :=
  run_script racing_execution
    ([ABool false; ATime 999; ABool false; ATime 1000; ASafety (PBool true) ""; AUnit; ABool true; AUnit;
      AVal (PDict []); AUnit]).

(** When the clock is read twice, a token whose validity starts between the readings is
    executed without acquiring the declared resources. *)
Theorem clock_race_skips_acquisition :
  exec log racing_execution (trace_of racing_run) (outcome_of racing_run) /\
  match outcome_of racing_run with Ok r => executed r | Err _ => false end = true /\
  existsb is_resource_event (trace_of racing_run) = false /\
  declared_resources "lights" sample_registry = ["cabin_lights"].
Proof.
  split; [unfold racing_run; apply run_script_exec|]. split_and!; vm_compute; reflexivity.
Qed.
