(* ===== verification/IncidentCourt.v ===== *)
(** [services/incident_court_binding.py]: a resolved emergency action becomes a strict
    Court intent under a temporary incident identity, and is put to the Court with
    receipts that name the incident. *)

From stdpp Require Import base gmap sets list strings.
From Stdlib Require Import ZArith Ascii.
From S2P Require Import Prelude PyText PyVal Sha256 Court CourtPolicy CourtToken ResponderIntake.
From S2P Require Import Incident Effects RuntimeOps CourtAuthorization.
Import CourtIntent CourtAuthority.

Definition EMERGENCY_DEPLOYMENT_AUTHORITY : string := "verified_incident_emergency".
Definition EMERGENCY_COURT_AUTHORITY : string := "emergency".
Definition EMERGENCY_CONTEXT_KIND : string := "incident-emergency".
Definition RESPONDER_IDENTITY_STATE : string := "unresolved-responder".

(** [EMERGENCY_COURT_POLICIES] *)
Definition emergency_court_policies : list (string * string) :=
  [("visibility.request", "emergency_visibility_default");
   ("access.request", "emergency_access_default")].

(** The attributes of [services/body_binding.ActiveBody]. *)
Record ActiveBody := mkBody {
  ab_body_id : string; ab_body_type : string; ab_surface : string; ab_fingerprint : string
}.

Record IncidentCourtContext := mkIncidentContext {
  ic_policy_id : string;
  ic_authority_profile : string;
  ic_court_authority : string;
  ic_profile_id : string;
  ic_session_id : string;
  ic_body_id : string;
  ic_surface : string;
  ic_proposed : list string;
  ic_authority_profiles : list string;
  ic_court_authorities : list string;
  ic_authorization_required : bool;
  ic_actuation_granted : bool;
  ic_context_kind : string;
  ic_incident_id : string;
  ic_request_id : string;
  ic_request_source : string;
  ic_identity_state : string;
  ic_activation : string
}.

(** The context as the Court sees it, through [getattr]. *)
Definition context_object (c : IncidentCourtContext) : pyobj :=
  [("policy_id", PStr (ic_policy_id c)); ("authority_profile", PStr (ic_authority_profile c));
   ("court_authority", PStr (ic_court_authority c)); ("profile_id", PStr (ic_profile_id c));
   ("session_id", PStr (ic_session_id c)); ("body_id", PStr (ic_body_id c));
   ("surface", PStr (ic_surface c)); ("proposed_capabilities", PTuple (PStr <$> ic_proposed c));
   ("authority_profiles", PTuple (PStr <$> ic_authority_profiles c));
   ("court_authorities", PTuple (PStr <$> ic_court_authorities c));
   ("authorization_required", PBool (ic_authorization_required c));
   ("actuation_granted", PBool (ic_actuation_granted c));
   ("context_kind", PStr (ic_context_kind c)); ("incident_id", PStr (ic_incident_id c));
   ("request_id", PStr (ic_request_id c)); ("request_source", PStr (ic_request_source c));
   ("requester_identity_state", PStr (ic_identity_state c)); ("activation", PStr (ic_activation c))].

Record IncidentCourtCandidate := mkCourtCandidate {
  cc_incident_id : string;
  cc_request_id : string;
  cc_request_source : string;
  cc_priority_band : string;
  cc_priority_rank : Z;
  cc_intent : Intent;
  cc_context : IncidentCourtContext;
  cc_court_authorized : bool;
  cc_token_issued : bool;
  cc_executor_selected : bool;
  cc_execution_performed : bool;
  cc_actuation_performed : bool
}.

(** [IncidentCourtCandidate.__post_init__] *)
Definition make_court_candidate (c : IncidentCourtCandidate) : outcome IncidentCourtCandidate :=
  if bool_decide (cc_priority_band c <> "life-safety") || negb (cc_priority_rank c =? 0)%Z
  then raise ValueError "incident Court candidate must preserve life-safety priority"
  else if cc_court_authorized c || cc_token_issued c || cc_executor_selected c ||
          cc_execution_performed c || cc_actuation_performed c
  then raise ValueError "binding cannot create Court authorization or execution state"
  else Ok c.

(** The loop at the end of [_validate_inputs]. *)
Fixpoint check_normalized (fields : list (string * string)) : outcome unit :=
  match fields with
  | [] => Ok tt
  | (label, value) :: rest =>
      if negb (is_nonempty value) || bool_decide (normalize value <> value)
      then raise ValueError (label +:+ " must already be a normalized non-empty string")
      else check_normalized rest
  end.

(** [_validate_inputs]: the capability and the target it found. *)
Definition validate_inputs (c : ResponderActionCandidate) (r : IncidentActionResolution)
    (ctx : EmergencyIncidentContext) (body : ActiveBody) (requested_at : Z)
    : outcome (string * string) :=
  if (requested_at <? 0)%Z then raise ValueError "requested_at must be a non-negative integer"
  else if bool_decide (source c <> "responder-conversation")
  then raise ValueError "incident Court binding accepts only responder-conversation provenance"
  else if bool_decide (authority c <> "none") || negb (requires_runtime_court c)
  then raise ValueError "responder proposal authority boundary is not intact"
  else if bool_decide (incident_id c <> em_incident_id ctx)
  then raise ValueError "responder proposal does not match emergency incident"
  else if negb (active ctx) || negb (activation_verified ctx)
  then raise ValueError "incident Court binding requires an active verified emergency"
  else if negb (resolved r) || bool_decide (rs_state r <> "logical-candidate-resolved")
  then raise ValueError "incident action must be logically resolved before Court binding"
  else if bool_decide (rs_incident_id r <> incident_id c) ||
          bool_decide (rs_request_id r <> request_id c) ||
          bool_decide (rs_action_name r <> action_name c)
  then raise ValueError "logical resolution provenance does not match responder proposal"
  else if bool_decide (rs_priority_band r <> "life-safety") || negb (rs_priority_rank r =? 0)%Z
  then raise ValueError "logical resolution lost emergency priority"
  else if bool_decide (rs_authority r <> "none")
  then raise ValueError "logical resolution may not carry requester authority"
  else if negb (requires_context_binding r) || negb (rs_requires_runtime_court r) ||
          negb (rs_requires_safety_gate r)
  then raise ValueError "logical resolution is missing required governance gates"
  else if rs_creates_intent r || rs_court_authorized r || rs_selects_executor r || token_issued r ||
          rs_execution_performed r || rs_actuation_performed r
  then raise ValueError "logical resolution already contains forbidden authorization or execution state"
  else match Incident.capability r, logical_target r with
  | Some cap, Some tgt =>
      if negb (is_nonempty cap) then raise ValueError "logical resolution requires a capability"
      else if negb (is_nonempty tgt) then raise ValueError "logical resolution requires a target"
      else
      let? _ := check_normalized [("body_id", ab_body_id body); ("surface", ab_surface body);
                                  ("capability", cap); ("target", tgt); ("action", rs_action_name r)] in
      Ok (cap, tgt)
  | None, _ => raise ValueError "logical resolution requires a capability"
  | Some cap, None =>
      if negb (is_nonempty cap) then raise ValueError "logical resolution requires a capability"
      else raise ValueError "logical resolution requires a target"
  end.

(** [_digest] *)
Definition digest (value : string) : string := str_take 20 (sha256_hex (utf8 value)).
#[global] Arguments digest : simpl never.

(** The object [bind_incident_court_candidate] builds once its checks passed. *)
Definition bound_candidate (c : ResponderActionCandidate) (r : IncidentActionResolution)
    (ctx : EmergencyIncidentContext) (body : ActiveBody) (requested_at : Z)
    (cap tgt policy : string) : IncidentCourtCandidate :=
  let incident_digest := digest (incident_id c) in
  let request_digest := digest (incident_id c +:+ ":" +:+ request_id c) in
  let profile := "emergency.incident." +:+ incident_digest in
  let session := "emergency.session." +:+ incident_digest in
  let intent := "emergency.request." +:+ request_digest in
  let context := mkIncidentContext policy EMERGENCY_DEPLOYMENT_AUTHORITY EMERGENCY_COURT_AUTHORITY
    profile session (ab_body_id body) (ab_surface body) [cap] [EMERGENCY_DEPLOYMENT_AUTHORITY]
    [EMERGENCY_COURT_AUTHORITY] true false EMERGENCY_CONTEXT_KIND (incident_id c) (request_id c)
    (source c) RESPONDER_IDENTITY_STATE (activation_value (activation ctx)) in
  mkCourtCandidate (incident_id c) (request_id c) (source c) "life-safety" 0
    (mkIntent intent (rs_action_name r) cap tgt profile session (ab_body_id body)
       (ab_surface body) requested_at)
    context false false false false false.

(** [bind_incident_court_candidate] *)
Definition bind_incident_court_candidate (c : ResponderActionCandidate)
    (r : IncidentActionResolution) (ctx : EmergencyIncidentContext) (body : ActiveBody)
    (requested_at : Z) : outcome IncidentCourtCandidate :=
  let? ct := validate_inputs c r ctx body requested_at in
  match CourtReasons.assoc emergency_court_policies ct.1 with
  | None => raise ValueError "resolved capability has no incident emergency Court policy"
  | Some policy => make_court_candidate (bound_candidate c r ctx body requested_at ct.1 ct.2 policy)
  end.

(** *** The enriched sink *)

(** The dictionary the sink adds to a receipt's payload. *)
Definition incident_payload (c : IncidentCourtCandidate) : pyval :=
  PDict [(PStr "context_kind", PStr (ic_context_kind (cc_context c)));
         (PStr "incident_id", PStr (cc_incident_id c));
         (PStr "request_id", PStr (cc_request_id c));
         (PStr "request_source", PStr (cc_request_source c));
         (PStr "requester_identity_state", PStr (ic_identity_state (cc_context c)));
         (PStr "activation", PStr (ic_activation (cc_context c)));
         (PStr "priority_band", PStr (cc_priority_band c));
         (PStr "priority_rank", PInt (cc_priority_rank c))].

(** The body of [enriched_sink] before it calls the caller's sink; Court receipts are
    dictionaries with a dictionary as payload. *)
Definition enrich (c : IncidentCourtCandidate) (receipt : pyval) : pyval :=
  match receipt with
  | PDict d =>
      match dict_get_default d (PStr "payload") (PDict []) with
      | PDict p => PDict (dict_set d (PStr "payload")
                            (PDict (dict_set p (PStr "incident_context") (incident_payload c))))
      | _ => receipt
      end
  | _ => receipt
  end.

(** Running a program with another sink, which rewrites each receipt. *)
Definition redirect (f : pyval -> pyval) {X} (o : op X) : op X :=
  match o in op X return op X with
  | OpReceipt r => OpReceipt (f r)
  | OpTime => OpTime
  | OpReadFile p => OpReadFile p
  | OpSafety t ps => OpSafety t ps
  | OpHandlerCall h args => OpHandlerCall h args
  | OpHandlerReturn h => OpHandlerReturn h
  | OpLedgerHas i => OpLedgerHas i
  | OpLedgerConsume i => OpLedgerConsume i
  | OpLedgerAdd i => OpLedgerAdd i
  | OpAcquire ow rs => OpAcquire ow rs
  | OpRelease ow => OpRelease ow
  end.

Fixpoint with_sink {A} (f : pyval -> pyval) (p : runtime A) : runtime A :=
  match p with
  | Ret a => Ret a
  | Raise e => Raise e
  | Vis o k => Vis (redirect f o) (fun r => with_sink f (k r))
  end.

(** [authorize_incident_court_candidate] *)
Definition authorize_incident_court_candidate (c : IncidentCourtCandidate) (policy_path : string)
    (key : byte_string) (now : Z) : runtime CourtDecision :=
  if (now <? 0)%Z then Raise (Exn ValueError "now must be a non-negative integer") else
  let cap := CourtIntent.capability (cc_intent c) in
  if match CourtReasons.assoc emergency_court_policies cap with
     | None => true
     | Some expected => bool_decide (ic_policy_id (cc_context c) <> expected)
     end
  then Raise (Exn ValueError "incident Court candidate uses an unexpected capability policy")
  else if bool_decide (ic_proposed (cc_context c) <> [cap])
  then Raise (Exn ValueError "incident Court context must propose exactly the bound capability")
  else if bool_decide (ic_court_authority (cc_context c) <> EMERGENCY_COURT_AUTHORITY)
  then Raise (Exn ValueError "incident Court candidate lost emergency authority binding")
  else if ic_actuation_granted (cc_context c)
  then Raise (Exn ValueError "incident Court context may not grant actuation")
  else with_sink (enrich c)
         (authorize_intent (cc_intent c) (context_object (cc_context c)) policy_path key (Some now)).

(** ** Facts *)

(** *** What a successful binding checked *)

Definition normal_form (s : string) : Prop := s <> "" /\ text s = s.

Lemma check_normalized_ok fields u :
  check_normalized fields = Ok u -> Forall (fun f => normal_form f.2) fields.
Proof.
  induction fields as [|[l v] fields IH]; [done|]. cbn [check_normalized]. intros H. guards H.
  destruct G as [Hne Hn]. constructor; [|by apply IH]. split; [by destruct v|by apply dec_stable].
Qed.

Record bound_as (c : ResponderActionCandidate) (r : IncidentActionResolution)
    (ctx : EmergencyIncidentContext) (body : ActiveBody) (at_ : Z) (cap tgt policy : string)
    : Prop := {
  ba_boundary : boundary_intact c;
  ba_live : emergency_live c ctx;
  ba_resolved : resolved r = true;
  ba_capability : Incident.capability r = Some cap;
  ba_target : logical_target r = Some tgt;
  ba_action : rs_action_name r = action_name c;
  ba_policy : CourtReasons.assoc emergency_court_policies cap = Some policy;
  ba_normal : Forall normal_form [ab_body_id body; ab_surface body; cap; tgt; rs_action_name r];
  ba_time : (0 <= at_)%Z
}.

Lemma validate_inputs_ok c r ctx body at_ cap tgt :
  validate_inputs c r ctx body at_ = Ok (cap, tgt) ->
  boundary_intact c /\ emergency_live c ctx /\ resolved r = true /\
  Incident.capability r = Some cap /\ logical_target r = Some tgt /\ rs_action_name r = action_name c /\
  Forall normal_form [ab_body_id body; ab_surface body; cap; tgt; rs_action_name r] /\ (0 <= at_)%Z.
Proof.
  unfold validate_inputs. intros H.
  repeat match type of H with
  | (if ?b then raise _ _ else _) = _ => let E := fresh "G" in destruct b eqn:E; [discriminate H|]
  end.
  destruct (Incident.capability r) as [cap'|] eqn:Hcap; [|done].
  destruct (logical_target r) as [tgt'|] eqn:Htgt; [|by guards H].
  guards H. injection H as -> ->. apply check_normalized_ok in G12.
  destruct G1 as [Ha Hc], G3 as [Hac Hv], G4 as [Hr _], G5 as [_ Hn].
  unfold boundary_intact, emergency_live.
  split_and!; try done; try (by apply dec_stable).
  by rewrite <- (Forall_fmap snd normal_form) in G12.
Qed.

Lemma bind_ok c r ctx body at_ cand :
  bind_incident_court_candidate c r ctx body at_ = Ok cand ->
  exists cap tgt policy, bound_as c r ctx body at_ cap tgt policy /\
    cand = bound_candidate c r ctx body at_ cap tgt policy.
Proof.
  unfold bind_incident_court_candidate. intros H. apply outcome_bind_ok in H as ([cap tgt] & Hv & H).
  cbn [fst snd] in H. destruct (CourtReasons.assoc _ cap) as [policy|] eqn:Hp; [|done].
  destruct (validate_inputs_ok _ _ _ _ _ _ _ Hv) as (? & ? & ? & ? & ? & ? & ? & ?).
  exists cap, tgt, policy. split; [by split|]. unfold make_court_candidate in H. guards H. by injection H.
Qed.

(** *** The Court's conditions hold of what was bound *)

Lemma digest_plain v : str_forallb plain_char (digest v) = true.
Proof. apply str_forallb_take, sha256_hex_plain. Qed.

(** A prefix of plain characters before a digest is a normal form. *)
Lemma digest_normal prefix v :
  prefix <> "" -> str_forallb plain_char prefix = true -> normal_form (prefix +:+ digest v).
Proof.
  intros Hne Hp. assert (prefix +:+ digest v <> "") by (by intros [? _]%app_nil_inv).
  split; [done|]. apply text_plain; [done|]. by rewrite str_forallb_app, Hp, digest_plain.
Qed.

(** A context that repeats a normal form of the intent binds it. *)
Lemma binding_normal o field label v :
  getattr o field PNone = PStr v -> normal_form v -> binding_errors o (field, label, v) = [].
Proof.
  intros Hg [Hne Ht]. cbn [binding_errors]. rewrite Hg.
  assert (is_blank v = false) as ->.
  { apply not_true_iff_false. intros H%is_blank_text. congruence. }
  rewrite bool_decide_false; [done|]. by intros [].
Qed.

Definition emergency_resolution : AuthorityResolution :=
  mkAuthorityResolution "emergency" ["emergency"] "emergency" 800 true None None.

Lemma emergency_policies_normal cap policy :
  CourtReasons.assoc emergency_court_policies cap = Some policy -> normal_form policy.
Proof. cbn. repeat case_decide; intros [= <-]; by vm_compute. Qed.

Section Bound.
Context (c : ResponderActionCandidate) (r : IncidentActionResolution)
  (ctx : EmergencyIncidentContext) (body : ActiveBody) (at_ : Z) (cap tgt policy : string).
Hypothesis Hbound : bound_as c r ctx body at_ cap tgt policy.

Abbreviation cand := (bound_candidate c r ctx body at_ cap tgt policy).
Abbreviation object := (context_object (cc_context cand)).

Lemma bound_intent_wf : wf_intent (cc_intent cand).
Proof.
  split; [|exact (ba_time _ _ _ _ _ _ _ _ Hbound)].
  pose proof (ba_normal _ _ _ _ _ _ _ _ Hbound) as H.
  repeat (apply Forall_cons in H as [? H]). clear Hbound.
  repeat (apply Forall_cons; split; [first [done | by apply digest_normal]|]). constructor.
Qed.

Lemma bound_binding : validate_context_binding (cc_intent cand) object = [].
Proof.
  pose proof (ba_normal _ _ _ _ _ _ _ _ Hbound) as H.
  repeat (apply Forall_cons in H as [? H]). clear Hbound.
  apply bind_nil_iff.
  repeat (apply Forall_cons; split;
    [apply binding_normal; [reflexivity|first [done | by apply digest_normal]]|]). constructor.
Qed.

(** Only the policy file is left to decide. *)
Lemma bound_conditions path file requested authority res :
  conditions (cc_intent cand) object path file requested authority res <->
  requested = [policy] /\ authority = emergency_resolution /\
  resolve_policy_set path file [policy] cap tgt = Ok res /\ resolution_allowed res = true.
Proof.
  destruct (emergency_policies_normal _ _ (ba_policy _ _ _ _ _ _ _ _ Hbound)) as [Hne Ht].
  assert (policy_ids_from_context object = Ok [policy]) as Hids.
  { change (normalize_policy_ids [PStr policy] = Ok [policy]). apply normalize_policy_ids_ok.
    cbn. rewrite Ht. split_and!; [done..|by constructor|apply NoDup_singleton]. }
  assert (resolve_authority object = Ok emergency_resolution) as Hauth by reflexivity.
  split.
  - intros [_ Hp [Ha _] _ _ _ [Hr Hall]]. rewrite Hids in Hp. injection Hp as <-.
    rewrite Hauth in Ha. by injection Ha as <-.
  - intros (-> & -> & Hr & Hall). split; [apply bound_intent_wf|done|done|done|apply bound_binding| |done].
    exists [PStr cap]. split; [reflexivity|]. cbn. by rewrite bool_decide_true.
Qed.
End Bound.

(** *** Runs with the enriched sink *)

Definition redirect_event (f : pyval -> pyval) (e : event) : event :=
  match e with EReceipt r o => EReceipt (f r) o | _ => e end.

Lemma log_redirect f X (o : op X) a : log X (redirect f o) a = redirect_event f (log X o a).
Proof. by destruct o. Qed.

(** The trace of a program with a rewriting sink is the rewritten trace. *)
Lemma wp_with_sink {A} f (p : runtime A) : forall tr0 Q,
  wpt log (fun _ _ => True) p tr0 Q ->
  wpt log (fun _ _ => True) (with_sink f p) (redirect_event f <$> tr0)
    (fun o tr' => exists tr, tr' = redirect_event f <$> tr /\ Q o tr).
Proof.
  unfold wpt. induction p as [a|e|X o k IH]; intros tr0 Q; cbn [wp with_sink].
  1,2: by eexists.
  intros H a. destruct (H a) as [_ Hk]. split; [done|]. rewrite log_redirect.
  change ([redirect_event f (log X o a)]) with (redirect_event f <$> [log X o a]).
  rewrite <- fmap_app. by apply IH.
Qed.

Lemma with_sink_exec {A} f (p : runtime A) tr' o :
  exec log (with_sink f p) tr' o -> exists tr, tr' = redirect_event f <$> tr /\ exec log p tr o.
Proof.
  intros Hx. pose proof (wp_with_sink f p [] _ (wpt_self log p [])) as H.
  destruct (wpt_exec log _ _ _ _ _ Hx H) as (tr & -> & tr2 & -> & Hx'). by exists tr2.
Qed.

(** A receipt that names the incident of a candidate. *)
Definition names_incident (c : IncidentCourtCandidate) (rc : pyval) : Prop :=
  exists d p, rc = PDict d /\ get d "payload" = PDict p /\
    get p "incident_context" = incident_payload c.

Lemma enrich_names c rc : is_decision_receipt rc -> names_incident c (enrich c rc).
Proof. intros (ev & st & i & p & ps & fs & a & t & es & r & ->). by eexists _, _. Qed.

Lemma redirect_accepted f e : receipt_accepted (redirect_event f e) = receipt_accepted e.
Proof. by destruct e. Qed.

Lemma redirect_exists f (tr : list event) :
  Exists (fun e => receipt_accepted e = true) (redirect_event f <$> tr) <->
  Exists (fun e => receipt_accepted e = true) tr.
Proof.
  rewrite Exists_fmap. split; intros H; eapply Exists_impl; try exact H; intros e; cbn;
    by rewrite redirect_accepted.
Qed.

Lemma redirect_read f path o (tr : list event) :
  EReadFile path o ∈ redirect_event f <$> tr <-> EReadFile path o ∈ tr.
Proof.
  rewrite list_elem_of_fmap. split; [|by intros H; exists (EReadFile path o)].
  intros (e & He & Hin). destruct e; try done. cbn in He. by rewrite He.
Qed.

(** Every receipt of a run of the Court, seen through the enriched sink, names the incident. *)
Lemma enriched_receipts c i ctx path key now tr o :
  exec log (authorize_intent i ctx path key now) tr o ->
  forall rc a, EReceipt rc a ∈ redirect_event (enrich c) <$> tr -> names_incident c rc.
Proof.
  intros Hx rc a ([] & He & Hin)%list_elem_of_fmap; try done. injection He as -> ->.
  apply enrich_names. apply list_elem_of_split in Hin as (tr1 & tr2 & ->).
  destruct (wp_steps log _ _ _ _ _ Hx _ _ (authorize_intent_receipts i ctx path key now)) as [H _].
  specialize (H _ _ _ eq_refl). exact H.
Qed.

(** The guards of [authorize_incident_court_candidate] pass for a bound candidate. *)
Lemma authorize_bound c r ctx body at_ cap tgt policy path key now :
  bound_as c r ctx body at_ cap tgt policy -> (0 <= now)%Z ->
  let cand := bound_candidate c r ctx body at_ cap tgt policy in
  authorize_incident_court_candidate cand path key now =
  with_sink (enrich cand)
    (authorize_intent (cc_intent cand) (context_object (cc_context cand)) path key (Some now)).
Proof.
  intros Hb Hn cand. unfold authorize_incident_court_candidate.
  rewrite (proj2 (Z.ltb_ge now 0)) by done.
  change (CourtIntent.capability (cc_intent cand)) with cap.
  rewrite (ba_policy _ _ _ _ _ _ _ _ Hb). change (ic_policy_id (cc_context cand)) with policy.
  change (ic_proposed (cc_context cand)) with [cap].
  change (ic_court_authority (cc_context cand)) with EMERGENCY_COURT_AUTHORITY.
  by rewrite !bool_decide_false by (by intros []).
Qed.

(** *** Binding succeeds for what the resolver resolved *)

Lemma check_normalized_all fields :
  Forall (fun f => normal_form f.2) fields -> check_normalized fields = Ok tt.
Proof.
  induction 1 as [|[l v] fields [Hne Ht] _ IH]; [done|]. cbn [check_normalized snd] in *.
  rewrite normalize_text, bool_decide_false by (by intros []).
  by replace (is_nonempty v) with true by (by destruct v).
Qed.

Lemma bind_complete c ctx r cap tgt body at_ :
  resolved r = true -> resolved_as c ctx r cap tgt -> source c = "responder-conversation" ->
  normal_form (ab_body_id body) -> normal_form (ab_surface body) -> (0 <= at_)%Z ->
  exists cand policy, bind_incident_court_candidate c r ctx body at_ = Ok cand /\
    CourtReasons.assoc emergency_court_policies cap = Some policy /\
    cand = bound_candidate c r ctx body at_ cap tgt policy.
Proof.
  intros Hres [[Ha Hc] (Hi & Hac & Hv) Hm Hst Hcap Htgt (Hrq & Hin & Hact) (Hpb & Hpr) Hinert] Hsrc Hb Hsf Hat.
  destruct (action_map_family _ _ _ _ Hm) as (_ & _ & _ & Hn & Hnn & Hcn & Hcnn & Htn & Htnn & Hwhich).
  unfold make_resolution in Hinert. guards Hinert.
  destruct G3 as [[[[[? ?] ?] ?] ?] ?].
  assert (validate_inputs c r ctx body at_ = Ok (cap, tgt)) as Hval.
  { unfold validate_inputs. rewrite Hc, Hac, Hv, Hres, Hpr, Hcap, Htgt.
    rewrite (proj2 (Z.ltb_ge at_ 0)) by done.
    repeat rewrite bool_decide_false by (intros Hx; apply Hx; first [congruence | by apply dec_stable]).
    repeat match goal with H : _ r = _ |- _ => rewrite H end. cbn [negb orb Z.eqb].
    replace (is_nonempty cap) with true by (by destruct cap).
    replace (is_nonempty tgt) with true by (by destruct tgt). cbn [negb].
    rewrite check_normalized_all; [done|].
    by repeat (apply Forall_cons; split; [done|]); constructor. }
  unfold bind_incident_court_candidate. rewrite Hval. cbn [outcome_bind fst snd].
  destruct Hwhich as [[-> _]|[-> _]]; eexists _, _; (split; [reflexivity|by split]).
Qed.
