(* ===== verification/IncidentTheorems.v ===== *)
(** The properties of the emergency path: what a responder's request can and cannot
    become on its way to the Court. *)

From stdpp Require Import base gmap sets list strings.
From Stdlib Require Import ZArith.
From S2P Require Import Prelude PyText PyVal Json Sha256 Court CourtPolicy CourtToken.
From S2P Require Import ResponderIntake Incident Effects RuntimeOps Samples CourtAuthorization.
From S2P Require Import CourtTheorems IncidentCourt.
Import CourtIntent CourtReasons CourtAuthority.

(** ** A concrete incident *)

Definition sample_plan : pyval :=
  PDict [(PStr "request_id", PStr "req-1"); (PStr "action_name", PStr "unlock.driver-door");
         (PStr "incident_id", PStr "Incident 7"); (PStr "source", PStr "responder-conversation");
         (PStr "authority", PStr "none"); (PStr "requires_runtime_court", PBool true)].

Definition sample_candidate : ResponderActionCandidate :=
  default_candidate "req-1" "Incident 7" "unlock.driver-door" "responder-conversation".

Definition sample_emergency : EmergencyIncidentContext := mkEmergency "Incident 7" true ACCIDENT true.
Definition sample_evidence : IncidentActionEvidence := mkEvidence true true true.
Definition sample_body : ActiveBody := mkBody "body-1" "vehicle" "dash" "00ff".

(** The decisions of the two stages before the resolver, as they are chained. *)
Definition incident_decision (c : ResponderActionCandidate) (ctx : EmergencyIncidentContext)
    (e : IncidentActionEvidence) : IncidentActionPolicyDecision :=
  evaluate_incident_action_policy c (evaluate_emergency_first_eligibility c ctx) ctx e.

(** ** Intake *)

(** A responder proposal is admitted exactly when it parses, an incident is active and
    the proposal names that incident.  The candidate is then the proposal's request,
    incident and action and nothing else: no authority, an unresolved requester, the
    Court still required and no intent, authorization or execution recorded; and the
    mapping it came from had exactly the six known keys and a [True] court flag. *)
Theorem intake_admits_iff plan act aid dec :
  admit_responder_action_proposal plan act aid = Ok dec ->
  (admitted dec = true <->
   act = true /\ exists p, parse_responder_action_proposal plan = Ok p /\ aid = Some (prop_incident_id p)) /\
  (admitted dec = true <-> is_Some (candidate dec)) /\
  (forall c, candidate dec = Some c -> wf_candidate c /\ aid = Some (incident_id c) /\
     exists d p, plan = PDict d /\ parsed_from d p /\ wf_proposal p /\
       c = default_candidate (prop_request_id p) (prop_incident_id p) (prop_action_name p)
             "responder-conversation").
Proof.
  unfold admit_responder_action_proposal. intros H. apply outcome_bind_ok in H as (p & Hp & H).
  rewrite Hp. destruct (parse_ok _ _ Hp) as (d & Hd & Hpf & Hwf).
  destruct act; cbn [negb] in H; [|injection H as <-; cbn; split_and!; naive_solver].
  destruct aid as [a|]; [|injection H as <-; cbn; split_and!; naive_solver].
  guards H. apply required_text_ok in G as ([= <-] & _ & _).
  case_bool_decide as Hne; [injection H as <-; cbn; split_and!; naive_solver|].
  apply outcome_bind_ok in H as (c & Hc & H). injection H as <-. cbn [admitted candidate].
  destruct (make_candidate_wf _ _ Hc) as [-> Hcw]. rewrite (wfp_source _ Hwf) in *.
  split_and!; [naive_solver| |].
  - split; [by eexists|done].
  - intros c [= <-]. split_and!; [done|cbn; congruence|by exists d, p].
Qed.

Lemma intake_admits_iff_witness :
  admitted (mkIntake true "proposal-admitted" "proposal preserved for incident-action policy review"
              (Some sample_candidate)) = true /\ wf_candidate sample_candidate.
Proof.
  pose proof (intake_admits_iff sample_plan true (Some "Incident 7") _ ltac:(vm_compute; reflexivity))
    as (_ & _ & H).
  split; [reflexivity|]. exact (proj1 (H sample_candidate eq_refl)).
Defined.

(** ** Policy and resolution *)

(** The chain from eligibility over incident policy to the resolver always answers,
    and it resolves a candidate exactly when the responder boundary is intact, the
    incident is the active and verified one, the action is in the reviewed map, and, for
    rescue access, all three pieces of evidence are present.  The capability and target
    are then those of the map, with life-safety priority and no authority. *)
Theorem incident_action_resolved_iff c ctx e :
  exists r, resolve_incident_action c (incident_decision c ctx e) ctx = Ok r /\
    (resolved r = true <->
     boundary_intact c /\ emergency_live c ctx /\
     exists f cap tgt, assoc action_map (action_name c) = Some (f, cap, tgt) /\
       (f = RESCUE_ACCESS -> missing_rescue_evidence e = [])) /\
    (resolved r = true -> exists cap tgt, resolved_as c ctx r cap tgt).
Proof.
  destruct (resolve_cases c (incident_decision c ctx e) ctx) as (r & Hr & Hcases).
  exists r. split; [done|].
  assert (resolved r = true -> may_advance (incident_decision c ctx e) = true /\
    exists cap tgt, resolved_as c ctx r cap tgt) as Hyes.
  { intros Hres. destruct Hcases as [?|(? & _ & ?)]; [congruence|by split]. }
  split; [|by intros [_ ?]%Hyes]. split.
  - intros [Hadv (cap & tgt & Hra)]%Hyes. apply may_advance_iff in Hadv as (Hb & Hl & Hfam).
    split_and!; [done..|]. pose proof (ra_mapped _ _ _ _ _ Hra) as Hm.
    exists (rs_family r), cap, tgt. split; [done|]. intros Hf.
    destruct (action_map_family _ _ _ _ Hm) as (Hcl & _). destruct Hfam as [?|[_ ?]]; congruence.
  - intros (Hb & Hl & f & cap & tgt & Hm & Hev).
    destruct (action_map_family _ _ _ _ Hm) as (Hcl & Hf & _).
    assert (may_advance (incident_decision c ctx e) = true) as Hadv.
    { apply may_advance_iff. split_and!; [done..|]. rewrite Hcl. naive_solver. }
    destruct (may_advance_clean _ _ _ _ Hadv) as (req & why & Hd). rewrite Hcl in Hd.
    destruct (resolve_mapped c ctx f cap tgt req why Hb Hl Hm) as (r' & Hr' & Hres).
    unfold incident_decision in Hr. rewrite Hd, Hr' in Hr. by injection Hr as <-.
Qed.

(** No policy decision whatever makes the resolver resolve a motion or powertrain
    action, an action without a policy family, or a door request that does not name the
    door; it answers with an unresolved result and does not raise. *)
Theorem motion_never_resolved c policy ctx :
  classify (action_name c) = MOTION_OR_POWER \/ classify (action_name c) = UNKNOWN \/
    action_name c = "unlock-door" ->
  exists r, resolve_incident_action c policy ctx = Ok r /\ resolved r = false.
Proof.
  intros Hbad. destruct (resolve_cases c policy ctx) as (r & Hr & Hcases). exists r. split; [done|].
  destruct Hcases as [?|(_ & _ & cap & tgt & Hra)]; [done|exfalso].
  destruct (action_map_family _ _ _ _ (ra_mapped _ _ _ _ _ Hra)) as (Hcl & Hf & Hne & _).
  destruct Hf, Hbad as [?|[?|?]]; congruence.
Qed.

Definition steering_candidate : ResponderActionCandidate :=
  default_candidate "req-2" "Incident 7" "steer.left" "responder-conversation".

Lemma motion_never_resolved_witness :
  exists r, resolve_incident_action steering_candidate
              (advance VISIBILITY [] "forged") sample_emergency = Ok r /\ resolved r = false.
Proof.
  apply (motion_never_resolved steering_candidate (advance VISIBILITY [] "forged") sample_emergency).
  left. vm_compute. reflexivity.
Defined.

(** ** Binding to the Court *)

(** Binding succeeds for every action the resolver resolved, on a body with normal
    identities, and what it binds meets every condition of the Court except the policy
    file: the intent is well formed under an identity of the incident's own, the context
    carries exactly the emergency authority, one policy fixed by the capability and one
    proposed capability.  So the Court authorizes it exactly when that policy of the file
    permits the capability and target of the reviewed map. *)
Theorem incident_binding_meets_court c ctx r cap tgt body at_ :
  resolved r = true -> resolved_as c ctx r cap tgt -> source c = "responder-conversation" ->
  normal_form (ab_body_id body) -> normal_form (ab_surface body) -> (0 <= at_)%Z ->
  exists cand policy,
    bind_incident_court_candidate c r ctx body at_ = Ok cand /\
    assoc emergency_court_policies cap = Some policy /\
    startswith "emergency.incident." (profile_id (cc_intent cand)) = true /\
    startswith "emergency.session." (session_id (cc_intent cand)) = true /\
    cc_court_authorized cand = false /\ ic_actuation_granted (cc_context cand) = false /\
    forall path file requested authority res,
      conditions (cc_intent cand) (context_object (cc_context cand)) path file requested authority res <->
      requested = [policy] /\ authority = emergency_resolution /\
      resolve_policy_set path file [policy] cap tgt = Ok res /\ resolution_allowed res = true.
Proof.
  intros Hres Hra Hsrc Hb Hs Hat.
  destruct (bind_complete c ctx r cap tgt body at_ Hres Hra Hsrc Hb Hs Hat) as (cand & policy & Hbind & Hp & Hc).
  exists cand, policy. destruct (bind_ok _ _ _ _ _ _ Hbind) as (cap' & tgt' & policy' & Hba & Hc').
  assert (cap' = cap) as -> by (pose proof (ba_capability _ _ _ _ _ _ _ _ Hba); pose proof (ra_capability _ _ _ _ _ Hra); congruence).
  assert (tgt' = tgt) as -> by (pose proof (ba_target _ _ _ _ _ _ _ _ Hba); pose proof (ra_target _ _ _ _ _ Hra); congruence).
  assert (policy' = policy) as -> by (pose proof (ba_policy _ _ _ _ _ _ _ _ Hba); congruence).
  rewrite Hc'. split_and!; try done; [by rewrite Hbind, Hc'|].
  intros. by apply bound_conditions.
Qed.

Definition sample_resolved : IncidentActionResolution :=
  match resolve_incident_action sample_candidate
          (incident_decision sample_candidate sample_emergency sample_evidence) sample_emergency with
  | Ok r => r
  | Err _ => mkResolution false "" "" "" "" UNKNOWN None None "" 0 "" false false false false false
               false false false false ""
  end.

Lemma sample_resolved_as :
  resolved_as sample_candidate sample_emergency sample_resolved "access.request" "vehicle.access.door.driver".
Proof. by split; vm_compute. Qed.

Lemma incident_binding_meets_court_witness :
  exists cand policy,
    bind_incident_court_candidate sample_candidate sample_resolved sample_emergency sample_body 1000 = Ok cand /\
    assoc emergency_court_policies "access.request" = Some policy.
Proof.
  destruct (incident_binding_meets_court sample_candidate sample_emergency sample_resolved
    "access.request" "vehicle.access.door.driver" sample_body 1000) as (cand & policy & Hb & Hp & _).
  - vm_compute. reflexivity.
  - exact sample_resolved_as.
  - vm_compute. reflexivity.
  - vm_compute. split; [discriminate|reflexivity].
  - vm_compute. split; [discriminate|reflexivity].
  - vm_compute. discriminate.
  - exists cand, policy. split; [exact Hb|exact Hp].
Defined.


Definition sample_court_candidate : IncidentCourtCandidate :=
  bound_candidate sample_candidate sample_resolved sample_emergency sample_body 1000
    "access.request" "vehicle.access.door.driver" "emergency_access_default".

Definition emergency_policy_file : string :=
  policy_json [JObj [("policy_id", JStr "emergency_access_default"); ("status", JStr "active");
    ("allowed_capabilities", JArr [JStr "access.request"]);
    ("allowed_targets", JArr [JStr "vehicle.access.door.driver"]); ("token_ttl_seconds", JInt 20)]].

Definition incident_run :=
  run_script (authorize_incident_court_candidate sample_court_candidate "court.json" sample_key 1000)
    [AFile (Some emergency_policy_file); AUnit].

Lemma incident_run_exec :
  exec log (authorize_incident_court_candidate sample_court_candidate "court.json" sample_key 1000)
    (trace_of incident_run) (outcome_of incident_run).
Proof. unfold incident_run. apply run_script_exec. Qed.

Definition incident_result : CourtDecision :=
  match outcome_of incident_run with Ok d => d | Err _ => default_decision end.

Lemma incident_result_ok : outcome_of incident_run = Ok incident_result.
Proof.
  unfold incident_result. destruct (outcome_of incident_run) as [d|e] eqn:H; [done|].
  assert (is_ok (outcome_of incident_run) = true) as Hok by (vm_compute; reflexivity). by rewrite H in Hok.
Qed.

Lemma incident_result_allowed : allowed incident_result = true.
Proof. vm_compute. reflexivity. Qed.

