(* ===== verification/Identity.v ===== *)
(** The identity context Velvet boots with: [services/body_registry.py],
    [services/body_binding.py], [services/profile_binding.py],
    [services/capability_context.py] and [load_configured_identity_context] of
    [services/continuity_activation.py].  Files are passed as their text ([None] when the
    path is not a file). *)

From stdpp Require Import base gmap sets list strings sorting.
From Stdlib Require Import ZArith.
From S2P Require Import Prelude PyText PyVal Json Sha256 Court CourtPolicy CourtToken Resources.
From S2P Require Import Effects RuntimeOps CourtAuthorization IncidentCourt.
Import CourtIntent CourtAuthority.

(** [_load_json]: the object in a JSON file. *)
Definition load_object (label path : string) (file : option string) : outcome items :=
  match file with
  | None => raise FileNotFoundError (label +:+ " not found: " +:+ path)
  | Some content =>
      match loads content with
      | Ok (PDict d) => Ok d
      | Ok _ => raise ValueError (label +:+ " must be a JSON object")
      | Err e => if bool_decide (exn_class e = ValueError)
                 then raise ValueError (label +:+ " is not valid JSON: " +:+ exn_message e)
                 else Err e
      end
  end.

(** [_required_text]; the body registry prefixes its message. *)
Definition required_field (prefix : string) (record : items) (key : string) : outcome string :=
  match get record key with
  | PStr s =>
      if is_blank s then raise ValueError (prefix +:+ "field " +:+ repr key +:+ " must be a non-empty string")
      else Ok (text s)
  | _ => raise ValueError (prefix +:+ "field " +:+ repr key +:+ " must be a non-empty string")
  end.

(** A list that is not empty. *)
Definition nonempty_list (v : pyval) : option (list pyval) :=
  match v with PList [] => None | PList l => Some l | _ => None end.

(** ** [body_registry.py] *)

Record BodyBinding := mkBodyBinding {
  bb_body_id : string;
  bb_body_type : string;
  bb_surface : string;
  bb_status : string;
  bb_hardware_profile : string;
  bb_safety_profile : string;
  bb_authority_profile : string;
  bb_receipt_policy : string;
  bb_fingerprint : string
}.

Definition body_field := required_field "body registry ".

(** [_organ_ids] *)
Definition organ_ids (value : pyval) : outcome (list string) :=
  match nonempty_list value with
  | None => raise ValueError "active body requires a non-empty organs list"
  | Some organs =>
      let? ids := mapM_outcome (fun organ => match organ with
        | PDict d => body_field d "organ_id"
        | _ => raise ValueError "each organ must be an object"
        end) organs in
      if negb (bool_decide (NoDup ids)) then raise ValueError "organ_id values must be unique" else Ok ids
  end.

(** The [canonical] dictionary of [body_fingerprint]. *)
Definition canonical_body (body_id body_type surface status hardware safety authority receipts : string)
    (organs : list string) : list (string * json) :=
  [("body_id", JStr body_id); ("body_type", JStr body_type); ("surface", JStr surface);
   ("status", JStr status); ("hardware_profile", JStr hardware); ("safety_profile", JStr safety);
   ("authority_profile", JStr authority); ("receipt_policy", JStr receipts);
   ("organ_ids", JArr (JStr <$> sorted_strings organs))].

Definition fingerprint_of (kvs : list (string * json)) : string :=
  "body-v1:" +:+ sha256_hex (canonical_bytes kvs).
#[global] Arguments fingerprint_of : simpl never.

(** [body_fingerprint] *)
Definition body_fingerprint (record : items) : outcome string :=
  let? body_id := body_field record "body_id" in
  let? body_type := body_field record "body_type" in
  let? surface := body_field record "surface" in
  let? status := body_field record "status" in
  let? hardware := body_field record "hardware_profile" in
  let? safety := body_field record "safety_profile" in
  let? authority := body_field record "authority_profile" in
  let? receipts := body_field record "receipt_policy" in
  let? organs := organ_ids (get record "organs") in
  Ok (fingerprint_of (canonical_body body_id body_type surface status hardware safety authority
                        receipts organs)).

(** [_binding_from_record] *)
Definition binding_from_record (record : items) : outcome BodyBinding :=
  let? status := body_field record "status" in
  if bool_decide (status <> "active") then raise ValueError "selected body must be active" else
  let? body_id := body_field record "body_id" in
  let? body_type := body_field record "body_type" in
  let? surface := body_field record "surface" in
  let? hardware := body_field record "hardware_profile" in
  let? safety := body_field record "safety_profile" in
  let? authority := body_field record "authority_profile" in
  let? receipts := body_field record "receipt_policy" in
  let? fingerprint := body_fingerprint record in
  Ok (mkBodyBinding body_id body_type surface status hardware safety authority receipts fingerprint).

(** The elements of a list that are dictionaries satisfying a test. *)
Definition select_dicts (test : items -> bool) (l : list pyval) : list items :=
  omap (fun item => match item with PDict d => if test d then Some d else None | _ => None end) l.

Definition is_active (d : items) : bool := eq_str (get d "status") "active".

(** [load_active_body] *)
Definition load_active_body (path : string) (file : option string) : outcome BodyBinding :=
  let? document := load_object "body registry" path file in
  if negb (eq_str (get document "schema") "velvet.body.registry.v1")
  then raise ValueError "unsupported body registry schema"
  else match nonempty_list (get document "bodies") with
  | None => raise ValueError "body registry requires a non-empty bodies list"
  | Some bodies =>
      match select_dicts is_active bodies with
      | [record] => binding_from_record record
      | _ => raise ValueError "body registry must contain exactly one active body"
      end
  end.

(** ** [body_binding.py] *)

(** [require_active_body] of a [BodyBinding]. *)
Definition require_active_body (b : BodyBinding) : outcome ActiveBody :=
  let values := [bb_body_id b; bb_body_type b; bb_surface b; bb_fingerprint b] in
  if negb (forallb (fun v => negb (is_blank v)) values)
  then raise ValueError "active body binding is incomplete"
  else if bool_decide (bb_status b <> "active")
  then raise ValueError ("body " +:+ repr (bb_body_id b) +:+ " is not active")
  else Ok (mkBody (bb_body_id b) (bb_body_type b) (bb_surface b) (bb_fingerprint b)).

(** ** [profile_binding.py] *)

Record ProfileBinding := mkProfile {
  pb_profile_id : string;
  pb_profile_type : string;
  pb_display_name : string;
  pb_address_preference : string;
  pb_authority_profile : string
}.

Record SessionBinding := mkSession {
  sb_session_id : string;
  sb_profile : ProfileBinding;
  sb_verification_state : string;
  sb_physical_presence : bool;
  sb_owner_verified : bool
}.

Definition plain_field := required_field "".

(** [_profile_from_record] *)
Definition profile_from_record (record : items) : outcome ProfileBinding :=
  if negb (is_active record) then raise ValueError "selected profile is not active" else
  let? profile_id := plain_field record "profile_id" in
  let? profile_type := plain_field record "profile_type" in
  let? display_name := plain_field record "display_name" in
  let? address := plain_field record "address_preference" in
  let? authority := plain_field record "authority_profile" in
  Ok (mkProfile profile_id profile_type display_name address authority).

Definition is_active_guest (d : items) : bool := eq_str (get d "profile_type") "guest" && is_active d.

(** The loop over the profiles: the table by identity and the active guest. *)
Fixpoint index_profiles (profiles : list pyval) (by_id : gmap string items) (guest : option items)
    : outcome (gmap string items * option items) :=
  match profiles with
  | [] => Ok (by_id, guest)
  | PDict item :: rest =>
      let? profile_id := plain_field item "profile_id" in
      if bool_decide (is_Some (by_id !! profile_id)) then raise ValueError "profile_id values must be unique"
      else if is_active_guest item && bool_decide (guest <> None)
      then raise ValueError "profile registry must contain exactly one active guest profile"
      else index_profiles rest (<[profile_id := item]> by_id)
             (if is_active_guest item then Some item else guest)
  | _ :: _ => raise ValueError "each profile must be an object"
  end.

(** [load_session_binding] *)
Definition load_session_binding (profile_path session_path : string)
    (profile_file session_file : option string) : outcome SessionBinding :=
  let? profiles_doc := load_object "profile registry" profile_path profile_file in
  let? session_doc := load_object "session context" session_path session_file in
  if negb (eq_str (get profiles_doc "schema") "velvet.profile.registry.v1")
  then raise ValueError "unsupported profile registry schema"
  else if negb (eq_str (get session_doc "schema") "velvet.session.context.v1")
  then raise ValueError "unsupported session context schema"
  else match nonempty_list (get profiles_doc "profiles") with
  | None => raise ValueError "profile registry requires a non-empty profiles list"
  | Some profiles =>
      let? table := index_profiles profiles ∅ None in
      match table.2 with
      | None => raise ValueError "profile registry requires one active guest profile"
      | Some guest =>
          let? stated := plain_field session_doc "verification_state" in
          let physical_presence := is_true_obj (get session_doc "physical_presence") in
          let requested := match get session_doc "profile_id" with
                           | PStr id => table.1 !! id | _ => None end in
          let verified := bool_decide (stated = "verified") && bool_decide (requested <> None) in
          let selected := if verified then default guest requested else guest in
          let verification_state := if verified then stated else "guest_fallback" in
          let? profile := profile_from_record selected in
          let owner_verified := verified && bool_decide (pb_profile_type profile = "owner") &&
                                physical_presence in
          let? session_id := plain_field session_doc "session_id" in
          Ok (mkSession session_id profile verification_state physical_presence owner_verified)
      end
  end.

(** ** [capability_context.py] *)

Record CapabilityContext := mkContext {
  cx_policy_id : string;
  cx_authority_profile : string;
  cx_profile_id : string;
  cx_body_id : string;
  cx_surface : string;
  cx_session_id : string;
  cx_proposed_capabilities : list string;
  cx_court_authority : string;
  cx_authority_profiles : option (list string);
  cx_court_authorities : option (list string);
  cx_authorization_required : bool;
  cx_actuation_granted : bool
}.

Definition opt_tuple (o : option (list string)) : pyval :=
  match o with Some l => PTuple (PStr <$> l) | None => PNone end.

(** The context as the Court sees it, through [getattr]. *)
Definition capability_object (c : CapabilityContext) : pyobj :=
  [("policy_id", PStr (cx_policy_id c)); ("authority_profile", PStr (cx_authority_profile c));
   ("profile_id", PStr (cx_profile_id c)); ("body_id", PStr (cx_body_id c));
   ("surface", PStr (cx_surface c)); ("session_id", PStr (cx_session_id c));
   ("proposed_capabilities", PTuple (PStr <$> cx_proposed_capabilities c));
   ("court_authority", PStr (cx_court_authority c));
   ("authority_profiles", opt_tuple (cx_authority_profiles c));
   ("court_authorities", opt_tuple (cx_court_authorities c));
   ("authorization_required", PBool (cx_authorization_required c));
   ("actuation_granted", PBool (cx_actuation_granted c))].

(** Whether a policy of the file is the active one of a deployment label. *)
Definition policy_matches (authority_profile : string) (d : items) : bool :=
  bool_decide (text_val (get d "authority_profile") = authority_profile) && is_active d.

(** The [proposed_capabilities] of a policy for a session. *)
Definition proposals (policy : items) (owner_verified : bool) : outcome (list string) :=
  match get policy "proposed_capabilities" with
  | PList proposed =>
      let normalized := sorted_set (text_val <$> proposed) in
      if negb (forallb is_nonempty normalized)
      then raise ValueError "proposed_capabilities must contain non-empty strings"
      else Ok (if owner_verified then normalized
               else filter (fun c => startswith "owner." c = false) normalized)
  | _ => raise ValueError "proposed_capabilities must be a list"
  end.

(** [build_capability_context] *)
Definition build_capability_context (path : string) (file : option string)
    (session : SessionBinding) (body : ActiveBody) : outcome CapabilityContext :=
  let? document := load_object "capability context policy" path file in
  if negb (eq_str (get document "schema") "velvet.capability.context.v1")
  then raise ValueError "unsupported capability context schema"
  else match nonempty_list (get document "policies") with
  | None => raise ValueError "capability context requires a non-empty policies list"
  | Some policies =>
      let authority_profile := text (pb_authority_profile (sb_profile session)) in
      if negb (is_nonempty authority_profile)
      then raise ValueError "session profile requires a deployment authority_profile"
      else match select_dicts (policy_matches authority_profile) policies with
      | [policy] =>
          let? court_authority := plain_field policy "court_authority" in
          let? _ := match authority_rank court_authority with
                    | Ok _ => Ok tt
                    | Err _ => raise ValueError "capability policy declares an unregistered court_authority"
                    end in
          if bool_decide (court_authority = "unknown")
          then raise ValueError "capability policy may not activate unknown Court authority"
          else
          let? proposed := proposals policy (sb_owner_verified session) in
          let? policy_id := plain_field policy "policy_id" in
          Ok (mkContext policy_id authority_profile (pb_profile_id (sb_profile session))
                (ab_body_id body) (ab_surface body) (sb_session_id session) proposed
                court_authority (Some [authority_profile]) (Some [court_authority]) true false)
      | _ => raise ValueError "capability context requires exactly one active matching policy"
      end
  end.

(** ** [continuity_activation.load_configured_identity_context] *)

Record identity_files := mkIdentityFiles {
  body_registry_file : option string;
  profile_registry_file : option string;
  session_context_file : option string;
  capability_policy_file : option string
}.

Record ContinuityBootPaths := mkBootPaths {
  body_registry_path : string;
  profile_registry_path : string;
  session_context_path : string;
  capability_policy_path : string
}.

Record ConfiguredIdentityContext := mkConfigured {
  cf_body : ActiveBody;
  cf_session : SessionBinding;
  cf_context : CapabilityContext
}.

Definition load_configured_identity_context (paths : ContinuityBootPaths) (files : identity_files)
    : outcome ConfiguredIdentityContext :=
  let? binding := load_active_body (body_registry_path paths) (body_registry_file files) in
  let? body := require_active_body binding in
  let? session := load_session_binding (profile_registry_path paths) (session_context_path paths)
                    (profile_registry_file files) (session_context_file files) in
  let? context := build_capability_context (capability_policy_path paths)
                    (capability_policy_file files) session body in
  Ok (mkConfigured body session context).

(** ** Facts *)

Lemma required_field_ok p d k s :
  required_field p d k = Ok s -> normal_form s /\ exists raw, get d k = PStr raw /\ s = text raw.
Proof.
  unfold required_field. destruct (get d k) as [| | | |raw| | |] eqn:Hg; try done.
  destruct (is_blank raw) eqn:Hb; [done|]. intros [= <-]. split; [|by exists raw].
  split; [|apply text_idem]. intros Ht%is_blank_text. congruence.
Qed.

Lemma elem_of_select_dicts test l d :
  d ∈ select_dicts test l <-> PDict d ∈ l /\ test d = true.
Proof.
  unfold select_dicts. rewrite list_elem_of_omap. split.
  - intros ([| | | | | | |d'] & Hin & H); try done. destruct (test d') eqn:Ht; by simplify_eq.
  - intros [Hin Ht]. exists (PDict d). by rewrite Ht.
Qed.

(** What the loop over the profiles has found. *)
Record indexed (profiles : list pyval) (table : gmap string items) (guest : option items) : Prop := {
  ix_members : forall id item, table !! id = Some item ->
    PDict item ∈ profiles /\ plain_field item "profile_id" = Ok id;
  ix_guest : guest = head (select_dicts is_active_guest profiles);
  ix_single : length (select_dicts is_active_guest profiles) <= 1
}.

Lemma select_dicts_app test l1 l2 : select_dicts test (l1 ++ l2) = select_dicts test l1 ++ select_dicts test l2.
Proof. apply omap_app. Qed.

Lemma index_profiles_ok todo : forall seen table guest out,
  indexed seen table guest -> index_profiles todo table guest = Ok out ->
  indexed (seen ++ todo) out.1 out.2.
Proof.
  induction todo as [|v todo IH]; intros seen table guest out Hix H.
  { injection H as <-. by rewrite app_nil_r. }
  destruct v as [| | | | | | |item]; try done. cbn [index_profiles] in H.
  apply outcome_bind_ok in H as (pid & Hpid & H).
  case_bool_decide as Hdup; [done|].
  destruct (is_active_guest item && bool_decide (guest <> None)) eqn:Hg; [done|].
  rewrite cons_middle, app_assoc. refine (IH _ _ _ _ _ H).
  destruct Hix as [Hm Hgu Hs]. split.
  - intros id it. rewrite lookup_insert. case_decide as Hid.
    + intros [= <-]. subst id. split; [|done]. apply elem_of_app. right. by left.
    + intros Hl. destruct (Hm _ _ Hl). split; [|done]. apply elem_of_app. by left.
  - rewrite select_dicts_app. cbn. destruct (is_active_guest item) eqn:Hag; cbn in Hg |- *.
    + apply bool_decide_eq_false in Hg. apply dec_stable in Hg. rewrite Hg in Hgu.
      by destruct (select_dicts is_active_guest seen).
    + by rewrite app_nil_r.
  - rewrite select_dicts_app, length_app. cbn. destruct (is_active_guest item) eqn:Hag; cbn in Hg |- *; [|lia].
    apply bool_decide_eq_false, dec_stable in Hg. rewrite Hg in Hgu.
    destruct (select_dicts is_active_guest seen); [cbn; lia|done].
Qed.

(** Where the profile of a session comes from. *)
Record session_from (profiles : list pyval) (session_doc : items) (s : SessionBinding) : Prop := {
  sf_presence : sb_physical_presence s = is_true_obj (get session_doc "physical_presence");
  sf_session : plain_field session_doc "session_id" = Ok (sb_session_id s);
  sf_owner : sb_owner_verified s = true <->
    sb_verification_state s = "verified" /\ pb_profile_type (sb_profile s) = "owner" /\
    sb_physical_presence s = true;
  sf_profile : exists record, PDict record ∈ profiles /\ profile_from_record record = Ok (sb_profile s) /\
    ((sb_verification_state s = "verified" /\ plain_field session_doc "verification_state" = Ok "verified" /\
      get session_doc "profile_id" = PStr (pb_profile_id (sb_profile s))) \/
     (sb_verification_state s = "guest_fallback" /\ select_dicts is_active_guest profiles = [record]))
}.

Lemma profile_from_record_id record p :
  profile_from_record record = Ok p -> plain_field record "profile_id" = Ok (pb_profile_id p).
Proof.
  unfold profile_from_record. intros H. destruct (negb _); [done|].
  apply outcome_bind_ok in H as (pid & Hpid & H). rewrite Hpid. f_equal.
  repeat (apply outcome_bind_ok in H as (? & _ & H)). by injection H as <-.
Qed.

Lemma load_session_binding_ok pp sp pf sf s :
  load_session_binding pp sp pf sf = Ok s ->
  exists profiles_doc session_doc profiles,
    load_object "profile registry" pp pf = Ok profiles_doc /\
    load_object "session context" sp sf = Ok session_doc /\
    get profiles_doc "profiles" = PList profiles /\ session_from profiles session_doc s.
Proof.
  unfold load_session_binding. intros H.
  apply outcome_bind_ok in H as (pd & Hpd & H). apply outcome_bind_ok in H as (sd & Hsd & H).
  destruct (negb _); [done|]. destruct (negb _); [done|].
  destruct (nonempty_list (get pd "profiles")) as [ps|] eqn:Hps; [|done].
  assert (get pd "profiles" = PList ps) as Hps'.
  { unfold nonempty_list in Hps. by destruct (get pd "profiles") as [| | | | |[]| |]; simplify_eq. }
  exists pd, sd, ps. split_and!; try done. clear Hpd Hsd Hps Hps' pd.
  apply outcome_bind_ok in H as ([table guest] & Hix & H). cbn [fst snd] in H.
  apply (index_profiles_ok ps []) in Hix as [Hm Hg Hs]; [|split; [by intros ? ?; rewrite lookup_empty|done|cbn; lia]].
  cbn [app fst snd] in *. destruct guest as [guest|]; [|done].
  apply outcome_bind_ok in H as (stated & Hst & H). apply outcome_bind_ok in H as (p & Hp & H).
  apply outcome_bind_ok in H as (sid & Hsid & H). injection H as <-.
  set (requested := match get sd "profile_id" with PStr id => table !! id | _ => None end) in *.
  destruct (bool_decide (stated = "verified") && bool_decide (requested <> None)) eqn:Hv.
  - apply andb_true_iff in Hv as [->%bool_decide_eq_true Hr%bool_decide_eq_true].
    destruct requested as [record|] eqn:Hreq; [|done]. cbn in Hp.
    destruct (get sd "profile_id") as [| | | |id| | |] eqn:Hid; try done. subst requested.
    destruct (Hm _ _ Hreq) as [Hin Hf]. split; cbn; try done.
    + rewrite andb_true_iff, bool_decide_eq_true. naive_solver.
    + exists record. split_and!; try done. left. split_and!; try done.
      rewrite Hid. f_equal. apply profile_from_record_id in Hp. congruence.
  - split; cbn; try done; [by split; [|intros (? & _)]|].
    exists guest. destruct (select_dicts is_active_guest ps) as [|g [|]] eqn:Hsel; cbn in Hs, Hg; [done| |lia].
    injection Hg as ->. split_and!; try done; [|by right].
    assert (g ∈ select_dicts is_active_guest ps) as Hin by (rewrite Hsel; by left).
    by apply elem_of_select_dicts in Hin as [? _].
Qed.

(** *** The capability context *)

(** The authority the Court resolves from a built context. *)
Definition declared_authority (a : string) : AuthorityResolution :=
  mkAuthorityResolution a [a] a (rank_of a) true None None.

Lemma proposals_ok policy owner l :
  proposals policy owner = Ok l ->
  exists proposed, get policy "proposed_capabilities" = PList proposed /\
    forall c, c ∈ l <-> c ∈ text_val <$> proposed /\ c <> "" /\ (owner = true \/ startswith "owner." c = false).
Proof.
  unfold proposals. destruct (get policy "proposed_capabilities") as [| | | | |proposed| |]; try done.
  intros H. guards H. apply Ok_inj in H. exists proposed. split; [done|]. intros c.
  assert (c ∈ sorted_set (text_val <$> proposed) <-> c ∈ text_val <$> proposed /\ c <> "") as Hset.
  { rewrite elem_of_sorted_set. split; [|by intros []]. intros Hc. split; [done|].
    apply forallb_Forall in G. rewrite Forall_forall in G.
    apply elem_of_sorted_set, G in Hc. by destruct c. }
  subst l. destruct owner; [naive_solver|]. rewrite list_elem_of_filter. naive_solver.
Qed.

(** What a built context is made of. *)
Record built_from (session : SessionBinding) (body : ActiveBody) (c : CapabilityContext) : Prop := {
  bf_policy : normal_form (cx_policy_id c);
  bf_authority : registered (cx_court_authority c) = true /\ cx_court_authority c <> "unknown";
  bf_authority_normal : text (cx_court_authority c) = cx_court_authority c;
  bf_fields : c = mkContext (cx_policy_id c) (cx_authority_profile c) (pb_profile_id (sb_profile session))
    (ab_body_id body) (ab_surface body) (sb_session_id session) (cx_proposed_capabilities c)
    (cx_court_authority c) (Some [cx_authority_profile c]) (Some [cx_court_authority c]) true false;
  bf_owner : forall cap, cap ∈ cx_proposed_capabilities c -> startswith "owner." cap = true ->
    sb_owner_verified session = true
}.

Lemma build_capability_context_ok path file session body c :
  build_capability_context path file session body = Ok c -> built_from session body c.
Proof.
  unfold build_capability_context. intros H. apply outcome_bind_ok in H as (d & _ & H).
  destruct (negb _); [done|]. destruct (nonempty_list _) as [policies|]; [|done]. cbv zeta in H.
  destruct (negb _); [done|]. destruct (select_dicts _ _) as [|policy [|]]; try done.
  apply outcome_bind_ok in H as (a & Ha & H). apply outcome_bind_ok in H as (u & Hr & H).
  case_bool_decide as Hu; [done|]. apply outcome_bind_ok in H as (props & Hp & H).
  apply outcome_bind_ok in H as (pid & Hpid & H). injection H as <-.
  apply required_field_ok in Ha as [[Hne Hn] _]. apply required_field_ok in Hpid as [Hpn _].
  destruct (proposals_ok _ _ _ Hp) as (proposed & _ & Hmem).
  split; cbn [cx_policy_id cx_court_authority cx_proposed_capabilities cx_authority_profile]; try done.
  - split; [|done]. unfold authority_rank in Hr. rewrite Hn in Hr. by destruct (registered a).
  - intros cap Hin Ho. apply Hmem in Hin as (_ & _ & [?|?]); [done|congruence].
Qed.

(** A context with one Court authority, declared alone. *)
Lemma resolve_single o a :
  obj_attr o "court_authority" = Some (PStr a) ->
  getattr o "court_authorities" PNone = PTuple [PStr a] ->
  text a = a -> registered a = true -> a <> "unknown" ->
  resolve_authority o = Ok (declared_authority a).
Proof.
  intros Ha Hc Hn Hreg Hunk. unfold resolve_authority, hasattr. rewrite Ha. cbv zeta.
  assert (text_val (getattr o "court_authority" PNone) = a) as ->.
  { unfold getattr. by rewrite Ha. }
  rewrite Hreg, Hc.
  cbn [negb iter_or_type_error py_iter outcome_bind fmap list_fmap text_val]. rewrite Hn.
  rewrite filter_cons, filter_nil, decide_False by congruence.
  rewrite bool_decide_true by apply NoDup_singleton. cbn [negb].
  unfold select_authority. cbn [max_by_rank]. rewrite bool_decide_false by done.
  by rewrite bool_decide_false by (by intros []).
Qed.

Section Built.
Context (session : SessionBinding) (body : ActiveBody) (c : CapabilityContext).
Hypothesis Hbuilt : built_from session body c.

Lemma built_authority :
  resolve_authority (capability_object c) = Ok (declared_authority (cx_court_authority c)).
Proof.
  destruct Hbuilt as [_ [Hreg Hunk] Hn Hf _]. apply resolve_single; try done. by rewrite Hf.
Qed.

Lemma built_policy_ids : policy_ids_from_context (capability_object c) = Ok [cx_policy_id c].
Proof.
  destruct (bf_policy _ _ _ Hbuilt) as [Hne Ht].
  change (normalize_policy_ids [PStr (cx_policy_id c)] = Ok [cx_policy_id c]).
  apply normalize_policy_ids_ok. cbn. rewrite Ht.
  split_and!; [done..|by constructor|apply NoDup_singleton].
Qed.

(** One binding of the intent to the context. *)
Lemma binding_errors_iff o field label v expected :
  getattr o field PNone = PStr expected -> v <> "" ->
  binding_errors o (field, label, v) = [] <-> v = text expected.
Proof.
  intros Hg Hv. cbn [binding_errors]. rewrite Hg. destruct (is_blank expected) eqn:Hb.
  - apply is_blank_text in Hb. rewrite Hb. naive_solver.
  - case_bool_decide; naive_solver.
Qed.

(** The intent carries the identities of the context. *)
Definition bound_to (i : Intent) : Prop :=
  profile_id i = text (pb_profile_id (sb_profile session)) /\
  session_id i = text (sb_session_id session) /\
  body_id i = text (ab_body_id body) /\ surface i = text (ab_surface body).

Lemma built_binding i :
  wf_intent i -> validate_context_binding i (capability_object c) = [] <-> bound_to i.
Proof.
  intros [Hf _]. cbn in Hf. repeat (apply Forall_cons in Hf as [[? _] Hf]). cbn [snd] in *.
  unfold validate_context_binding, context_bindings, bound_to. rewrite bind_nil_iff, !Forall_cons, Forall_nil.
  rewrite (binding_errors_iff _ "profile_id" _ _ (cx_profile_id c)) by done.
  rewrite (binding_errors_iff _ "session_id" _ _ (cx_session_id c)) by done.
  rewrite (binding_errors_iff _ "body_id" _ _ (cx_body_id c)) by done.
  rewrite (binding_errors_iff _ "surface" _ _ (cx_surface c)) by done.
  rewrite (bf_fields _ _ _ Hbuilt). cbn [cx_profile_id cx_session_id cx_body_id cx_surface]. naive_solver.
Qed.

Lemma proposes_strs l cap : proposes (PStr <$> l) cap = true <-> cap ∈ l.
Proof.
  unfold proposes. rewrite existsb_Exists, Exists_fmap, Exists_exists. cbn.
  setoid_rewrite bool_decide_eq_true. naive_solver.
Qed.

(** The Court's conditions on an intent under a built context. *)
Lemma built_conditions i path file requested authority res :
  conditions i (capability_object c) path file requested authority res <->
  wf_intent i /\ bound_to i /\ CourtIntent.capability i ∈ cx_proposed_capabilities c /\
  requested = [cx_policy_id c] /\ authority = declared_authority (cx_court_authority c) /\
  resolve_policy_set path file [cx_policy_id c] (CourtIntent.capability i) (target i) = Ok res /\
  resolution_allowed res = true.
Proof.
  assert (proposed_capabilities (capability_object c) = Ok (PStr <$> cx_proposed_capabilities c)) as Hprop.
  { change (proposed_capabilities (capability_object c)) with
      (if forallb hashable (PStr <$> cx_proposed_capabilities c)
       then Ok (PStr <$> cx_proposed_capabilities c) else raise TypeError "unhashable type").
    assert (forallb hashable (PStr <$> cx_proposed_capabilities c) = true) as ->; [|done].
    by apply forallb_Forall, Forall_fmap, Forall_forall. }
  split.
  - intros [Hw Hp [Ha _] _ Hb (vs & Hvs & Hin) [Hr Hall]].
    rewrite built_policy_ids in Hp. injection Hp as <-. rewrite built_authority in Ha. injection Ha as <-.
    rewrite Hprop in Hvs. injection Hvs as <-. apply built_binding in Hb; [|done].
    apply proposes_strs in Hin. done.
  - intros (Hw & Hb & Hin & -> & -> & Hr & Hall). split; try done.
    + apply built_policy_ids.
    + split; [apply built_authority|done].
    + by rewrite (bf_fields _ _ _ Hbuilt).
    + by apply built_binding.
    + eexists. split; [exact Hprop|]. by apply proposes_strs.
Qed.
End Built.

(** *** Fingerprints *)

(** The canonical dictionary in the order [sort_keys] writes it. *)
Definition sorted_body (body_id body_type surface status hardware safety authority receipts : string)
    (organs : list string) : list (string * json) :=
  [("authority_profile", JStr authority); ("body_id", JStr body_id); ("body_type", JStr body_type);
   ("hardware_profile", JStr hardware); ("organ_ids", JArr (JStr <$> sorted_strings organs));
   ("receipt_policy", JStr receipts); ("safety_profile", JStr safety); ("status", JStr status);
   ("surface", JStr surface)].

Definition sorted_body_keys : list string :=
  ["authority_profile"; "body_id"; "body_type"; "hardware_profile"; "organ_ids"; "receipt_policy";
   "safety_profile"; "status"; "surface"].

Lemma sorted_body_canonical b t s st h sa a r o : canonical (JObj (sorted_body b t s st h sa a r o)).
Proof.
  assert (bool_decide (Sorted String.le sorted_body_keys) = true) as Hs by reflexivity.
  assert (bool_decide (NoDup sorted_body_keys) = true) as Hn by reflexivity.
  constructor; [by apply bool_decide_eq_true in Hs|by apply bool_decide_eq_true in Hn|].
  repeat constructor. apply Forall_fmap, Forall_forall. constructor.
Qed.

Lemma dumps_canonical_body b t s st h sa a r o :
  dumps (JObj (canonical_body b t s st h sa a r o)) = dumps (JObj (sorted_body b t s st h sa a r o)).
Proof. reflexivity. Qed.

Lemma fingerprint_inj b t s st h sa a r o b' t' s' st' h' sa' a' r' o' :
  fingerprint_of (canonical_body b t s st h sa a r o) = fingerprint_of (canonical_body b' t' s' st' h' sa' a' r' o') ->
  (b = b' /\ t = t' /\ s = s' /\ st = st' /\ h = h' /\ sa = sa' /\ a = a' /\ r = r' /\ o ≡ₚ o') \/
  exists b1 b2, b1 <> b2 /\ sha256_hex b1 = sha256_hex b2.
Proof.
  unfold fingerprint_of. intros Hh%app_inj_str.
  destruct (decide (canonical_bytes (canonical_body b t s st h sa a r o)
                    = canonical_bytes (canonical_body b' t' s' st' h' sa' a' r' o'))) as [Hc|Hc];
    [left|right; eexists _, _; split; [exact Hc|exact Hh]].
  apply utf8_inj in Hc; [|apply dumps_ascii..].
  assert (dumps (JObj (sorted_body b t s st h sa a r o))
          = dumps (JObj (sorted_body b' t' s' st' h' sa' a' r' o'))) as Hd.
  { etrans; [symmetry; apply dumps_canonical_body|]. etrans; [exact Hc|apply dumps_canonical_body]. }
  clear Hc Hh. rename Hd into Hc.
  apply dumps_inj in Hc; [|apply sorted_body_canonical..].
  injection Hc as -> -> -> -> Ho -> -> -> ->. split_and!; try done.
  apply list_fmap_eq_inj in Ho; [|by intros ? ? [= ->]]. by rewrite <- (sorted_strings_perm o), Ho, sorted_strings_perm.
Qed.
