(* ===== verification/IdentityTheorems.v ===== *)
(** The properties of the identity context: which session an owner gets, what the Court
    can grant under it, and what a body fingerprint fixes. *)

From stdpp Require Import base gmap sets list strings sorting.
From Stdlib Require Import ZArith.
From S2P Require Import Prelude PyText PyVal Json Sha256 Court CourtPolicy CourtToken Resources.
From S2P Require Import Effects RuntimeOps CourtAuthorization IncidentCourt Identity.
Import CourtIntent CourtAuthority.

(** ** A concrete configuration *)

Definition profile_json (id type authority : string) : json :=
  JObj [("profile_id", JStr id); ("profile_type", JStr type); ("display_name", JStr "Somebody");
        ("address_preference", JStr "you"); ("authority_profile", JStr authority);
        ("status", JStr "active")].

Definition sample_files : identity_files := mkIdentityFiles
  (Some (dumps (JObj [("schema", JStr "velvet.body.registry.v1"); ("bodies", JArr [JObj
     [("body_id", JStr "Tiburon  V0"); ("body_type", JStr "vehicle"); ("surface", JStr "drive");
      ("status", JStr "active"); ("hardware_profile", JStr "hw"); ("safety_profile", JStr "sp");
      ("authority_profile", JStr "ap"); ("receipt_policy", JStr "rp");
      ("organs", JArr [JObj [("organ_id", JStr "eye")]])]])])))
  (Some (dumps (JObj [("schema", JStr "velvet.profile.registry.v1"); ("profiles", JArr
     [profile_json "owner-1" "owner" "owner_present"; profile_json "guest-1" "guest" "guest_restricted"])])))
  (Some (dumps (JObj [("schema", JStr "velvet.session.context.v1"); ("profile_id", JStr "owner-1");
     ("verification_state", JStr "verified"); ("physical_presence", JBool true);
     ("session_id", JStr "session-1")])))
  (Some (dumps (JObj [("schema", JStr "velvet.capability.context.v1"); ("policies", JArr [JObj
     [("policy_id", JStr "owner-default"); ("authority_profile", JStr "owner_present");
      ("court_authority", JStr "owner"); ("status", JStr "active");
      ("proposed_capabilities", JArr [JStr "owner.maintenance"; JStr "observe.telemetry"])]])]))).

Definition sample_paths : ContinuityBootPaths :=
  mkBootPaths "body.json" "profiles.json" "session.json" "capabilities.json".

Definition sample_session : SessionBinding :=
  mkSession "session-1" (mkProfile "owner-1" "owner" "somebody" "you" "owner_present") "verified" true true.

(** ** Sessions *)

(** A session is bound to the profile it names only when that profile is registered
    and the session document says it is verified; otherwise it falls back to the single
    active guest profile.  Owner verification needs exactly a verified session, an owner
    profile and a [physical_presence] that is the JSON value [true]. *)
Theorem session_owner_needs_presence pp sp pf sf s :
  load_session_binding pp sp pf sf = Ok s ->
  exists profiles_doc session_doc profiles,
    load_object "profile registry" pp pf = Ok profiles_doc /\
    load_object "session context" sp sf = Ok session_doc /\
    get profiles_doc "profiles" = PList profiles /\
    (sb_owner_verified s = true <->
     sb_verification_state s = "verified" /\ pb_profile_type (sb_profile s) = "owner" /\
     get session_doc "physical_presence" = PBool true) /\
    exists record, PDict record ∈ profiles /\ profile_from_record record = Ok (sb_profile s) /\
      ((sb_verification_state s = "verified" /\ plain_field session_doc "verification_state" = Ok "verified" /\
        get session_doc "profile_id" = PStr (pb_profile_id (sb_profile s))) \/
       (sb_verification_state s = "guest_fallback" /\ select_dicts is_active_guest profiles = [record])).
Proof.
  intros (pd & sd & ps & Hp & Hs & Hps & [Hpres _ Hown Hprof])%load_session_binding_ok.
  exists pd, sd, ps. split_and!; try done. rewrite Hown, Hpres.
  destruct (get sd "physical_presence") as [|[]| | | | | |]; cbn [is_true_obj]; naive_solver.
Qed.

Lemma session_owner_needs_presence_witness :
  load_session_binding "profiles.json" "session.json" (profile_registry_file sample_files)
    (session_context_file sample_files) = Ok sample_session /\
  exists session_doc, load_object "session context" "session.json" (session_context_file sample_files)
                      = Ok session_doc /\ get session_doc "physical_presence" = PBool true.
Proof.
  assert (load_session_binding "profiles.json" "session.json" (profile_registry_file sample_files)
    (session_context_file sample_files) = Ok sample_session) as H by (vm_compute; reflexivity).
  split; [exact H|].
  destruct (session_owner_needs_presence _ _ _ _ _ H) as (pd & sd & ps & _ & Hs & _ & Ho & _).
  exists sd. split; [exact Hs|]. apply Ho. reflexivity.
Defined.

(** ** The configured context and the Court *)

Lemma configured_parts paths files cf :
  load_configured_identity_context paths files = Ok cf ->
  built_from (cf_session cf) (cf_body cf) (cf_context cf) /\
  Forall normal_form [pb_profile_id (sb_profile (cf_session cf)); sb_session_id (cf_session cf);
                      ab_body_id (cf_body cf); ab_surface (cf_body cf)] /\
  exists ps sd, session_from ps sd (cf_session cf).
Proof.
  unfold load_configured_identity_context. intros H.
  apply outcome_bind_ok in H as (bb & Hbb & H). apply outcome_bind_ok in H as (body & Hbody & H).
  apply outcome_bind_ok in H as (s & Hs & H). apply outcome_bind_ok in H as (c & Hc & H).
  injection H as <-. cbn [cf_session cf_body cf_context].
  apply build_capability_context_ok in Hc. split; [done|].
  apply load_session_binding_ok in Hs as (pd & sd & ps & _ & _ & _ & Hsf).
  assert (normal_form (bb_body_id bb) /\ normal_form (bb_surface bb)) as [Hb1 Hb2].
  { unfold load_active_body in Hbb. apply outcome_bind_ok in Hbb as (d & _ & Hbb).
    destruct (negb _); [done|]. destruct (nonempty_list _); [|done].
    destruct (select_dicts _ _) as [|r [|]]; try done. unfold binding_from_record in Hbb.
    guards Hbb. injection Hbb as <-. cbn.
    split; match goal with |- normal_form ?x => match goal with H : body_field _ _ = Ok x |- _ =>
      by apply required_field_ok in H as [? _] end end. }
  unfold require_active_body in Hbody. guards Hbody. injection Hbody as <-. cbn [ab_body_id ab_surface].
  destruct (sf_profile _ _ _ Hsf) as (r & _ & Hr & _). apply profile_from_record_id in Hr.
  split; [|by eauto]. pose proof (sf_session _ _ _ Hsf) as Hsid.
  apply required_field_ok in Hr as [? _], Hsid as [? _].
  repeat (apply Forall_cons; split; [done|]). constructor.
Qed.

(** Under the identity context of a successful boot, the Court permits an intent
    exactly when it is well formed, names this profile, session, body and surface, its
    capability is one the capability policy proposes, and the one Court policy of that
    context permits it under the declared authority; and an [owner.] capability is
    permitted only in a verified owner session with physical presence. *)
Theorem configured_identity_court paths files cf i path file requested authority res :
  load_configured_identity_context paths files = Ok cf ->
  (conditions i (capability_object (cf_context cf)) path file requested authority res <->
   wf_intent i /\ profile_id i = pb_profile_id (sb_profile (cf_session cf)) /\
   session_id i = sb_session_id (cf_session cf) /\ body_id i = ab_body_id (cf_body cf) /\
   surface i = ab_surface (cf_body cf) /\
   capability i ∈ cx_proposed_capabilities (cf_context cf) /\
   requested = [cx_policy_id (cf_context cf)] /\
   authority = declared_authority (cx_court_authority (cf_context cf)) /\
   resolve_policy_set path file requested (capability i) (target i) = Ok res /\
   resolution_allowed res = true) /\
  (conditions i (capability_object (cf_context cf)) path file requested authority res ->
   startswith "owner." (capability i) = true ->
   sb_verification_state (cf_session cf) = "verified" /\
   pb_profile_type (sb_profile (cf_session cf)) = "owner" /\
   sb_physical_presence (cf_session cf) = true).
Proof.
  intros (Hb & Hn & ps & sd & Hsf)%configured_parts.
  repeat (apply Forall_cons in Hn as [[? ?] Hn]).
  rewrite (built_conditions _ _ _ Hb). unfold bound_to. split.
  - split.
    + intros (? & (? & ? & ? & ?) & ? & -> & ? & ? & ?). split_and!; congruence.
    + intros (? & ? & ? & ? & ? & ? & -> & ? & ? & ?). split_and!; congruence.
  - intros (_ & _ & Hin & _) Ho. apply (sf_owner _ _ _ Hsf). by eapply (bf_owner _ _ _ Hb).
Qed.

Definition sample_configured : outcome ConfiguredIdentityContext :=
  load_configured_identity_context sample_paths sample_files.

Definition configured_context : ConfiguredIdentityContext :=
  match sample_configured with
  | Ok cf => cf
  | Err _ => mkConfigured (mkBody "" "" "" "") sample_session
               (mkContext "" "" "" "" "" "" [] "" None None true false)
  end.

Definition configured_intent : Intent :=
  mkIntent "intent-9" "maintain" "owner.maintenance" "garage" "owner-1" "session-1" "tiburon v0" "drive" 5.

Definition configured_policy : string :=
  dumps (JObj [("schema", JStr "velvet.court.policy.v1"); ("policies", JArr [JObj
    [("policy_id", JStr "owner-default"); ("status", JStr "active");
     ("allowed_capabilities", JArr [JStr "owner.maintenance"]); ("allowed_targets", JArr [JStr "*"])]])]).

Definition configured_resolution : PolicyResolution :=
  match resolve_policy_set "court.json" (Some configured_policy) ["owner-default"] "owner.maintenance" "garage" with
  | Ok r => r
  | Err _ => mkPolicyResolution [] "" [] false 0 None None
  end.

Lemma configured_identity_court_witness :
  conditions configured_intent (capability_object (cf_context configured_context)) "court.json"
    (Some configured_policy) ["owner-default"] (declared_authority "owner") configured_resolution.
Proof.
  apply (configured_identity_court sample_paths sample_files configured_context).
  - vm_compute. reflexivity.
  - split_and!; try (vm_compute; reflexivity).
    + apply validate_intent_nil. vm_compute. reflexivity.
    + vm_compute. right. left.
Defined.

(** ** Body fingerprints *)

(** A body fingerprint fixes the body: two registry records with the same fingerprint
    agree, after normalisation, on every field and on the set of organs, or exhibit a
    collision of SHA-256 on two different byte strings. *)
Theorem fingerprint_fixes_body r1 r2 fp :
  body_fingerprint r1 = Ok fp -> body_fingerprint r2 = Ok fp ->
  (exists organs1 organs2,
     Forall (fun key => body_field r1 key = body_field r2 key)
       ["body_id"; "body_type"; "surface"; "status"; "hardware_profile"; "safety_profile";
        "authority_profile"; "receipt_policy"] /\
     organ_ids (get r1 "organs") = Ok organs1 /\ organ_ids (get r2 "organs") = Ok organs2 /\
     organs1 ≡ₚ organs2) \/
  exists b1 b2, b1 <> b2 /\ sha256_hex b1 = sha256_hex b2.
Proof.
  unfold body_fingerprint. intros H1 H2. guards H1. guards H2. injection H1 as H1. injection H2 as H2.
  subst fp. apply fingerprint_inj in H2 as [H2|H2]; [left|by right].
  destruct H2 as (? & ? & ? & ? & ? & ? & ? & ? & Hperm). simplify_eq.
  eexists _, _. split_and!; [|done..]. repeat (apply Forall_cons; split; [congruence|]). constructor.
Qed.

Definition body_record (body_id : string) (organs : list string) : items :=
  [(PStr "body_id", PStr body_id); (PStr "body_type", PStr "vehicle"); (PStr "surface", PStr "drive");
   (PStr "status", PStr "active"); (PStr "hardware_profile", PStr "hw");
   (PStr "safety_profile", PStr "sp"); (PStr "authority_profile", PStr "ap");
   (PStr "receipt_policy", PStr "rp");
   (PStr "organs", PList ((fun o => PDict [(PStr "organ_id", PStr o)]) <$> organs))].

Lemma fingerprint_fixes_body_witness :
  let r1 := body_record "Body  1" ["eye"; "ear"] in
  let r2 := body_record "body 1" ["EAR"; "eye"] in
  (exists organs1 organs2,
     Forall (fun key => body_field r1 key = body_field r2 key)
       ["body_id"; "body_type"; "surface"; "status"; "hardware_profile"; "safety_profile";
        "authority_profile"; "receipt_policy"] /\
     organ_ids (get r1 "organs") = Ok organs1 /\ organ_ids (get r2 "organs") = Ok organs2 /\
     organs1 ≡ₚ organs2) \/
  exists b1 b2, b1 <> b2 /\ sha256_hex b1 = sha256_hex b2.
Proof.
  cbv zeta.
  apply (fingerprint_fixes_body (body_record "Body  1" ["eye"; "ear"]) (body_record "body 1" ["EAR"; "eye"])
    (match body_fingerprint (body_record "body 1" ["ear"; "eye"]) with Ok fp => fp | Err _ => "" end)).
  - vm_compute. reflexivity.
  - vm_compute. reflexivity.
Defined.
