(* ===== verification/WakePolicy.v ===== *)
(** [services/wake_request_policy.py]: the wake-policy configuration, the parsing of wake
    requests, and the policy engine with its rate limits, cooldowns and replay cache.  The
    engine's methods run under its lock, so each is one step on its state. *)

From stdpp Require Import base gmap sets list strings sorting.
From Stdlib Require Import ZArith Ascii SpecFloat.
From S2P Require Import Prelude PyText PyVal Json Sha256.

(** [WakePolicyError] is a [ValueError]. *)
Abbreviation WakePolicyError := ValueError.

Definition WAKE_REQUEST_SCHEMA : string := "velvet.communications.wake_request.v1".
Definition WAKE_REASON_SNAPSHOT_SCHEMA : string := "velvet.runtime.wake_reason.v1".
Definition WAKE_POLICY_CONFIG_SCHEMA : string := "velvet.runtime.wake_policy.v1".
Definition MAX_WAKE_REQUEST_TTL_MS : Z := 300000.
Definition MAX_FUTURE_OBSERVATION_SKEW_MS : Z := 30000.
Definition MAX_WAKE_EVIDENCE_REFS : nat := 8.
Definition MAX_WAKE_EVIDENCE_REF_CHARS : nat := 160.
Definition MAX_WAKE_SUMMARY_CHARS : nat := 256.
Definition MAX_POLICY_SOURCES : nat := 64.
Definition MAX_REASONS_PER_SOURCE : nat := 16.
Definition MAX_REQUEST_CACHE : nat := Z.to_nat 1024.
Definition CONFIG_LIMIT_BYTES : Z := 131072.

Definition allowed_reason_names : list string :=
  ["security_motion"; "security_tamper"; "security_forced_entry"; "security_glass_break";
   "security_video_anomaly"; "medical_alert"; "safety_alert"; "node_health"; "owner_request";
   "scheduled"].

(** [_SEVERITY_RANK] *)
Definition severity_rank (s : string) : option Z :=
  if bool_decide (s = "attention") then Some 1%Z
  else if bool_decide (s = "urgent") then Some 2%Z
  else if bool_decide (s = "emergency") then Some 3%Z else None.

Definition power_states : list string := ["awake"; "suspended"; "off"; "unknown"].

(** ** Validators *)

(** [_ID_RE.fullmatch]: [[A-Za-z0-9][A-Za-z0-9._:-]{0,127}] *)
Definition alnum (c : ascii) : bool :=
  let n := code c in
  ((65 <=? n) && (n <=? 90)) || ((97 <=? n) && (n <=? 122)) || ((48 <=? n) && (n <=? 57)).
Definition id_char (c : ascii) : bool :=
  alnum c || (code c =? 46) || (code c =? 95) || (code c =? 58) || (code c =? 45).
Definition id_matches (s : string) : bool :=
  match s with
  | "" => false
  | String c s' => alnum c && str_forallb id_char s' && (String.length s' <=? 127)
  end.

(** [_identifier] *)
Definition identifier (name : string) (value : pyval) : outcome string :=
  match value with
  | PStr s => if id_matches s then Ok s else raise WakePolicyError ("invalid " +:+ name)
  | _ => raise WakePolicyError ("invalid " +:+ name)
  end.

(** [_reason] *)
Definition wake_reason (value : pyval) : outcome string :=
  match value with
  | PStr s => if bool_decide (s ∈ allowed_reason_names) then Ok s
              else raise WakePolicyError "wake reason is unsupported"
  | _ => raise WakePolicyError "wake reason is unsupported"
  end.

(** [_severity] *)
Definition wake_severity (value : pyval) : outcome string :=
  match value with
  | PStr s => if bool_decide (is_Some (severity_rank s)) then Ok s
              else raise WakePolicyError "wake severity is unsupported"
  | _ => raise WakePolicyError "wake severity is unsupported"
  end.

(** [_power_state] *)
Definition check_power_state (value : pyval) : outcome string :=
  match value with
  | PStr s => if bool_decide (s ∈ power_states) then Ok s
              else raise WakePolicyError "power state is unsupported"
  | _ => raise WakePolicyError "power state is unsupported"
  end.

(** [_reason_tuple] of a tuple of texts. *)
Definition reason_tuple (name : string) (values : list string) (required : bool) : outcome (list string) :=
  if required && bool_decide (values = []) then raise WakePolicyError (name +:+ " cannot be empty")
  else if MAX_REASONS_PER_SOURCE <? length values
  then raise WakePolicyError (name +:+ " exceeds the bounded reason limit")
  else
    let? result := mapM_outcome (fun v => wake_reason (PStr v)) values in
    if negb (bool_decide (NoDup result)) then raise WakePolicyError (name +:+ " cannot contain duplicates")
    else Ok result.

(** One element of [_evidence_refs]. *)
Definition evidence_ref (value : pyval) : outcome string :=
  match value with
  | PStr s =>
      if negb (is_nonempty s) || (MAX_WAKE_EVIDENCE_REF_CHARS <? String.length s)
      then raise WakePolicyError "wake evidence reference is invalid"
      else if negb (str_forallb (fun c => negb ((code c <? 33) || (126 <? code c))) s)
      then raise WakePolicyError "wake evidence references must be printable ASCII"
      else Ok s
  | _ => raise WakePolicyError "wake evidence reference is invalid"
  end.

(** [_evidence_refs] *)
Definition check_evidence_refs (values : list pyval) : outcome (list string) :=
  if MAX_WAKE_EVIDENCE_REFS <? length values
  then raise WakePolicyError "too many wake evidence references"
  else
    let? result := mapM_outcome evidence_ref values in
    if negb (bool_decide (NoDup result))
    then raise WakePolicyError "wake evidence references cannot contain duplicates"
    else Ok result.

(** [_summary] *)
Definition check_summary (value : pyval) : outcome string :=
  match value with
  | PStr s =>
      if MAX_WAKE_SUMMARY_CHARS <? String.length s
      then raise WakePolicyError "wake summary exceeds bounded length"
      else if negb (str_forallb (fun c => negb ((code c <? 32) && negb (code c =? 9))) s)
      then raise WakePolicyError "wake summary contains unsupported control characters"
      else Ok s
  | _ => raise WakePolicyError "wake summary must be text"
  end.

(** [_non_negative_integer] *)
Definition non_negative_integer (name : string) (value : pyval) : outcome Z :=
  match value with
  | PInt z => if (z <? 0)%Z then raise WakePolicyError (name +:+ " must be a non-negative integer") else Ok z
  | _ => raise WakePolicyError (name +:+ " must be a non-negative integer")
  end.

(** [_required_string] *)
Definition required_string (raw : items) (key : string) (dflt : pyval) : outcome string :=
  match dict_get_default raw (PStr key) dflt with
  | PStr s => if is_nonempty s then Ok s else raise WakePolicyError (key +:+ " must be non-empty text")
  | _ => raise WakePolicyError (key +:+ " must be non-empty text")
  end.

(** [_required_integer] *)
Definition required_integer (raw : items) (key : string) (dflt : Z) : outcome Z :=
  match dict_get_default raw (PStr key) (PInt dflt) with
  | PInt z => Ok z
  | _ => raise WakePolicyError (key +:+ " must be an integer")
  end.

(** [_string_list] *)
Definition string_list (raw : items) (key : string) : outcome (list string) :=
  match dict_get_default raw (PStr key) (PList []) with
  | PList l =>
      if negb (forallb is_str l) then raise WakePolicyError (key +:+ " must contain text values")
      else Ok ((fun v => match v with PStr s => s | _ => "" end) <$> l)
  | _ => raise WakePolicyError (key +:+ " must be a list")
  end.

(** The loop over the fields that must keep their authority-free values; [==] of Python,
    under which [0] and [0.0] are [False]. *)
Definition authority_free (raw : items) (what : string) : outcome unit :=
  let check (key : string) (k : outcome unit) :=
    if negb (atom_eqb (get raw key) (PBool false))
    then raise WakePolicyError (what +:+ " cannot change " +:+ key) else k in
  check "canonical" (check "grants_authority" (check "grants_execution" (check "grants_actuation"
    (if negb (eq_str (get raw "authority") "none")
     then raise WakePolicyError (what +:+ " cannot change authority") else Ok tt)))).

(** ** Configuration *)

Record WakeSourcePolicy := mkSource {
  ws_peer_id : string;
  ws_allowed_reasons : list string;
  ws_minimum_severity : string;
  ws_evidence_required : list string;
  ws_max_requests : Z;
  ws_window_ms : Z;
  ws_cooldown_ms : Z
}.

(** [WakeSourcePolicy.__post_init__] *)
Definition make_source (s : WakeSourcePolicy) : outcome WakeSourcePolicy :=
  let? _ := identifier "source_peer_id" (PStr (ws_peer_id s)) in
  let? _ := reason_tuple "allowed_reasons" (ws_allowed_reasons s) true in
  let? _ := wake_severity (PStr (ws_minimum_severity s)) in
  let? _ := reason_tuple "evidence_required_reasons" (ws_evidence_required s) false in
  if negb (bool_decide (Forall (fun r => r ∈ ws_allowed_reasons s) (ws_evidence_required s)))
  then raise WakePolicyError "evidence-required reasons must also be allowed"
  else if (ws_max_requests s <? 1)%Z || (100 <? ws_max_requests s)%Z
  then raise WakePolicyError "max_requests_per_window must be between 1 and 100"
  else if (ws_window_ms s <? 0)%Z then raise WakePolicyError "window_ms must be a non-negative integer"
  else if (ws_cooldown_ms s <? 0)%Z then raise WakePolicyError "cooldown_ms must be a non-negative integer"
  else if (ws_window_ms s <? 1)%Z || (86400000 <? ws_window_ms s)%Z
  then raise WakePolicyError "window_ms is outside the bounded limit"
  else if (ws_window_ms s <? ws_cooldown_ms s)%Z
  then raise WakePolicyError "cooldown_ms cannot exceed window_ms"
  else Ok s.

Record WakePolicyConfig := mkConfig {
  cfg_target_body_id : string;
  cfg_sources : list WakeSourcePolicy
}.

(** [WakePolicyConfig.__post_init__] *)
Definition make_config (c : WakePolicyConfig) : outcome WakePolicyConfig :=
  let? _ := identifier "target_body_id" (PStr (cfg_target_body_id c)) in
  if bool_decide (cfg_sources c = []) then raise WakePolicyError "sources must be a non-empty tuple"
  else if MAX_POLICY_SOURCES <? length (cfg_sources c)
  then raise WakePolicyError "too many wake-policy sources"
  else if negb (bool_decide (NoDup (ws_peer_id <$> cfg_sources c)))
  then raise WakePolicyError "wake-policy source IDs must be unique"
  else Ok c.

(** One entry of the [sources] list of a configuration. *)
Definition load_source (v : pyval) : outcome WakeSourcePolicy :=
  match v with
  | PDict d =>
      let? allowed := string_list d "allowed_reasons" in
      let? evidence := string_list d "evidence_required_reasons" in
      let? peer := required_string d "source_peer_id" PNone in
      let? severity := required_string d "minimum_severity" (PStr "attention") in
      let? max_requests := required_integer d "max_requests_per_window" 4 in
      let? window := required_integer d "window_ms" 300000 in
      let? cooldown := required_integer d "cooldown_ms" 15000 in
      make_source (mkSource peer allowed severity evidence max_requests window cooldown)
  | _ => raise WakePolicyError "wake-policy source entry must be a mapping"
  end.

(** [WakePolicyConfig.load]; [None] is a file that cannot be read. *)
Definition load_config (path : string) (file : option string) : outcome WakePolicyConfig :=
  if negb (startswith "/" path) then raise WakePolicyError "config path must be absolute" else
  match file with
  | None => raise WakePolicyError "wake-policy configuration could not be read"
  | Some content =>
      if (CONFIG_LIMIT_BYTES <? Z.of_nat (length (utf8 content)))%Z
      then raise WakePolicyError "wake-policy configuration exceeds size limit"
      else match loads content with
      | Err e => if bool_decide (exn_class e = ValueError)
                 then raise WakePolicyError "wake-policy configuration could not be read" else Err e
      | Ok (PDict raw) =>
          if negb (eq_str (get raw "schema") WAKE_POLICY_CONFIG_SCHEMA)
          then raise WakePolicyError "wake-policy configuration schema is unsupported"
          else
          let? _ := authority_free raw "wake-policy configuration" in
          match get raw "sources" with
          | PList (_ :: _ as values) =>
              let? sources := mapM_outcome load_source values in
              let? target := required_string raw "target_body_id" PNone in
              make_config (mkConfig target sources)
          | _ => raise WakePolicyError "wake-policy sources must be a non-empty list"
          end
      | Ok _ => raise WakePolicyError "wake-policy configuration must be a mapping"
      end
  end.

(** ** Requests *)

Record ParsedWakeRequest := mkRequest {
  rq_request_id : string;
  rq_source_peer_id : string;
  rq_target_body_id : string;
  rq_reason : string;
  rq_severity : string;
  rq_observed_at_ms : Z;
  rq_expires_at_ms : Z;
  rq_evidence_refs : list string;
  rq_summary : string
}.

Definition wake_request_fields : list string :=
  ["schema"; "request_id"; "source_peer_id"; "target_body_id"; "reason"; "severity";
   "observed_at_ms"; "expires_at_ms"; "evidence_refs"; "summary"; "canonical"; "grants_authority";
   "grants_execution"; "grants_actuation"; "authority"].

(** [parse_wake_request] *)
Definition parse_wake_request (payload : pyval) : outcome ParsedWakeRequest :=
  match payload with
  | PDict d =>
      if negb (eq_str (get d "schema") WAKE_REQUEST_SCHEMA)
      then raise WakePolicyError "wake request schema is unsupported"
      else if negb (forallb (fun k => existsb (eq_str k) wake_request_fields) d.*1)
      then raise WakePolicyError "wake request contains unsupported fields"
      else
      let? _ := authority_free d "wake request" in
      let? observed := non_negative_integer "observed_at_ms" (get d "observed_at_ms") in
      let? expires := non_negative_integer "expires_at_ms" (get d "expires_at_ms") in
      let lifetime := (expires - observed)%Z in
      if (lifetime <? 1)%Z || (MAX_WAKE_REQUEST_TTL_MS <? lifetime)%Z
      then raise WakePolicyError "wake request lifetime is outside the bounded limit"
      else match dict_get_default d (PStr "evidence_refs") (PList []) with
      | PList refs_value =>
          let? refs := check_evidence_refs refs_value in
          let? summary := check_summary (dict_get_default d (PStr "summary") (PStr "")) in
          let? request_id := identifier "request_id" (get d "request_id") in
          let? source := identifier "source_peer_id" (get d "source_peer_id") in
          let? target := identifier "target_body_id" (get d "target_body_id") in
          let? reason := wake_reason (get d "reason") in
          let? severity := wake_severity (get d "severity") in
          Ok (mkRequest request_id source target reason severity observed expires refs summary)
      | _ => raise WakePolicyError "wake evidence references must be a list"
      end
  | _ => raise WakePolicyError "wake request must be a mapping"
  end.

(** [json.dumps(..., sort_keys=True, separators=(",", ":"), allow_nan=False)] of the values
    a parsed request can hold; of the floats only the two zeros occur. *)
Fixpoint wake_dumps (v : pyval) : option string :=
  match v with
  | PNone => Some "null"
  | PBool true => Some "true"
  | PBool false => Some "false"
  | PInt z => Some (str_of_Z z)
  | PFloat (S754_zero sign) => Some (if sign then "-0.0" else "0.0")
  | PFloat _ => None
  | PStr s => Some (quote s)
  | PList l | PTuple l =>
      (fun ds => "[" +:+ join "," ds +:+ "]") <$>
      foldr (fun v acc => d ← wake_dumps v; ds ← acc; Some (d :: ds)) (Some []) l
  | PDict kvs =>
      (fun ds => "{" +:+ dump_items ds +:+ "}") <$>
      foldr (fun kv acc => match kv with
        | (PStr k, v) => d ← wake_dumps v; ds ← acc; Some ((k, d) :: ds)
        | _ => None
        end) (Some []) kvs
  end.

(** [_request_fingerprint] *)
Definition request_fingerprint (payload : pyval) : outcome string :=
  match wake_dumps payload with
  | Some encoded => Ok (sha256_hex (utf8 encoded))
  | None => raise WakePolicyError "wake request is not canonical JSON data"
  end.
#[global] Arguments request_fingerprint : simpl never.

(** ** Decisions *)

Record WakePolicyDecision := mkWakeDecision {
  wd_request_id : string;
  wd_source_peer_id : string;
  wd_target_body_id : string;
  wd_reason : string;
  wd_severity : string;
  accepted : bool;
  wd_state : string;
  wd_detail : string;
  evaluated_at_ms : Z;
  power_state_before : string;
  wd_evidence_refs : list string;
  wd_summary : string;
  canonical_flag : bool;
  grants_authority : bool;
  grants_execution : bool;
  grants_actuation : bool;
  wd_authority : string
}.

Definition wake_decision_states : list string := ["eligible"; "already-awake"; "refused"; "duplicate"].

(** [WakePolicyDecision.__post_init__] *)
Definition make_decision (d : WakePolicyDecision) : outcome WakePolicyDecision :=
  let? _ := identifier "request_id" (PStr (wd_request_id d)) in
  let? _ := identifier "source_peer_id" (PStr (wd_source_peer_id d)) in
  let? _ := identifier "target_body_id" (PStr (wd_target_body_id d)) in
  let? _ := wake_reason (PStr (wd_reason d)) in
  let? _ := wake_severity (PStr (wd_severity d)) in
  if negb (bool_decide (wd_state d ∈ wake_decision_states))
  then raise WakePolicyError "wake policy decision state is unsupported"
  else if negb (is_nonempty (wd_detail d)) then raise WakePolicyError "wake policy detail must be non-empty text"
  else if (evaluated_at_ms d <? 0)%Z then raise WakePolicyError "evaluated_at_ms must be non-negative"
  else
  let? _ := check_power_state (PStr (power_state_before d)) in
  let? _ := check_evidence_refs (PStr <$> wd_evidence_refs d) in
  let? _ := check_summary (PStr (wd_summary d)) in
  if canonical_flag d then raise WakePolicyError "wake decisions are non-canonical"
  else if grants_authority d || grants_execution d || grants_actuation d
  then raise WakePolicyError "wake decisions cannot grant general authority or actuation"
  else if bool_decide (wd_authority d <> "none")
  then raise WakePolicyError "wake decisions cannot carry general authority"
  else Ok d.

(** [WakeRequestPolicyEngine._decision] *)
Definition decide_request (r : ParsedWakeRequest) (now : Z) (power_state : string) (acc : bool)
    (state detail : string) : outcome WakePolicyDecision :=
  make_decision (mkWakeDecision (rq_request_id r) (rq_source_peer_id r) (rq_target_body_id r)
    (rq_reason r) (rq_severity r) acc state detail now power_state (rq_evidence_refs r) (rq_summary r)
    false false false false "none").

(** ** The engine *)

(** [_attempts], [_last_accepted] and [_decisions]; the latter is an ordered dictionary,
    oldest entry first. *)
Record engine := mkEngine {
  eg_attempts : gmap string (list Z);
  eg_last : gmap string Z;
  eg_decisions : list (string * (string * WakePolicyDecision))
}.

Section Engine.
Context (cfg : WakePolicyConfig).

(** [WakeRequestPolicyEngine.__init__] *)
Definition new_engine : engine :=
  mkEngine (list_to_map ((fun s => (ws_peer_id s, [])) <$> cfg_sources cfg)) ∅ [].

(** [self._sources.get(peer_id)] *)
Definition find_source (peer_id : string) : option WakeSourcePolicy :=
  dict_comp ((fun s => (ws_peer_id s, s)) <$> cfg_sources cfg) !! peer_id.

(** [while attempts and attempts[0] <= cutoff: attempts.popleft()] *)
Fixpoint drop_expired (cutoff : Z) (attempts : list Z) : list Z :=
  match attempts with
  | a :: rest => if (a <=? cutoff)%Z then drop_expired cutoff rest else attempts
  | [] => []
  end.

(** Both severities are registered when this is reached. *)
Definition below_floor (severity floor : string) : bool :=
  (default 0 (severity_rank severity) <? default 0 (severity_rank floor))%Z.

Definition set_attempts (st : engine) (peer : string) (attempts : list Z) : engine :=
  mkEngine (<[peer := attempts]> (eg_attempts st)) (eg_last st) (eg_decisions st).

Definition set_last (st : engine) (peer : string) (now : Z) : engine :=
  mkEngine (eg_attempts st) (<[peer := now]> (eg_last st)) (eg_decisions st).

(** The checks of [_evaluate_new] after the attempt was counted: the refusal, if any. *)
Definition source_refusal (st : engine) (s : WakeSourcePolicy) (r : ParsedWakeRequest) (now : Z)
    : option string :=
  if negb (bool_decide (rq_reason r ∈ ws_allowed_reasons s))
  then Some "wake reason is not allowed for this source"
  else if below_floor (rq_severity r) (ws_minimum_severity s)
  then Some "wake severity is below the source policy floor"
  else if bool_decide (rq_reason r ∈ ws_evidence_required s) && bool_decide (rq_evidence_refs r = [])
  then Some "wake reason requires an evidence reference"
  else match eg_last st !! ws_peer_id s with
  | Some last => if (now - last <? ws_cooldown_ms s)%Z
                 then Some "wake source is inside its cooldown period" else None
  | None => None
  end.

(** [_evaluate_new] *)
Definition evaluate_new (st : engine) (r : ParsedWakeRequest) (now : Z) (power_state : string)
    : outcome WakePolicyDecision * engine :=
  let refuse detail := decide_request r now power_state false "refused" detail in
  if bool_decide (rq_target_body_id r <> cfg_target_body_id cfg)
  then (refuse "target body does not match this power supervisor", st)
  else if (rq_expires_at_ms r <=? now)%Z then (refuse "wake request expired", st)
  else if (now + MAX_FUTURE_OBSERVATION_SKEW_MS <? rq_observed_at_ms r)%Z
  then (refuse "wake observation is too far in the future", st)
  else match find_source (rq_source_peer_id r) with
  | None => (refuse "wake source is not configured", st)
  | Some s =>
      let peer := ws_peer_id s in
      let attempts := drop_expired (now - ws_window_ms s) (default [] (eg_attempts st !! peer)) in
      if (ws_max_requests s <=? Z.of_nat (length attempts))%Z
      then (refuse "wake source exceeded its bounded request budget", set_attempts st peer attempts)
      else
        let st1 := set_attempts st peer (attempts ++ [now]) in
        match source_refusal st1 s r now with
        | Some detail => (refuse detail, st1)
        | None =>
            if bool_decide (power_state = "awake")
            then (decide_request r now power_state true "already-awake"
                    "wake reason accepted; body is already awake", set_last st1 peer now)
            else (decide_request r now power_state true "eligible"
                    "wake request is eligible for the reviewed power adapter", set_last st1 peer now)
        end
  end.

(** [_remember]: newest last, and the oldest entries leave above the limit. *)
Definition remember (st : engine) (request_id fingerprint : string) (d : WakePolicyDecision) : engine :=
  let kept := filter (fun e : string * (string * WakePolicyDecision) => e.1 <> request_id) (eg_decisions st) in
  let all := kept ++ [(request_id, (fingerprint, d))] in
  mkEngine (eg_attempts st) (eg_last st) (drop (length all - MAX_REQUEST_CACHE) all).

Fixpoint cached (id : string) (l : list (string * (string * WakePolicyDecision)))
    : option (string * WakePolicyDecision) :=
  match l with
  | [] => None
  | (k, v) :: l' => if decide (k = id) then Some v else cached id l'
  end.

(** [evaluate] *)
Definition wake_evaluate (st : engine) (payload now_ms power : pyval) : outcome WakePolicyDecision * engine :=
  match (let? now := non_negative_integer "now_ms" now_ms in
         let? state := check_power_state power in
         let? request := parse_wake_request payload in
         let? fingerprint := request_fingerprint payload in
         Ok (now, state, request, fingerprint)) with
  | Err e => (Err e, st)
  | Ok (now, state, request, fingerprint) =>
      match cached (rq_request_id request) (eg_decisions st) with
      | Some (cached_fingerprint, d) =>
          if bool_decide (cached_fingerprint <> fingerprint)
          then (decide_request request now state false "refused"
                  "request_id reused with different content", st)
          else (decide_request request now state (accepted d) "duplicate" (wd_detail d), st)
      | None =>
          let '(result, st1) := evaluate_new st request now state in
          match result with
          | Err e => (Err e, st1)
          | Ok d => (Ok d, remember st1 (rq_request_id request) fingerprint d)
          end
      end
  end.
End Engine.

(** ** Facts *)

Lemma identifier_ok name v s : identifier name v = Ok s -> v = PStr s /\ id_matches s = true.
Proof. destruct v as [| | | |t| | |]; try done. cbn. destruct (id_matches t) eqn:H; [|done]. intros [= <-]. done. Qed.

Lemma identifier_id name s : id_matches s = true -> identifier name (PStr s) = Ok s.
Proof. cbn. by intros ->. Qed.

Lemma wake_reason_ok v s : wake_reason v = Ok s -> wake_reason (PStr s) = Ok s.
Proof. destruct v; try done. cbn. case_bool_decide; [|done]. intros [= <-]. by rewrite bool_decide_true. Qed.

Lemma wake_severity_ok v s : wake_severity v = Ok s -> wake_severity (PStr s) = Ok s.
Proof. destruct v; try done. cbn. case_bool_decide; [|done]. intros [= <-]. by rewrite bool_decide_true. Qed.

Lemma check_power_state_ok v s : check_power_state v = Ok s -> check_power_state (PStr s) = Ok s.
Proof. destruct v; try done. cbn. case_bool_decide; [|done]. intros [= <-]. by rewrite bool_decide_true. Qed.

Lemma check_summary_ok v s : check_summary v = Ok s -> v = PStr s.
Proof. destruct v; try done. cbn. intros H. guards H. by injection H as <-. Qed.

Lemma non_negative_integer_ok name v z : non_negative_integer name v = Ok z -> v = PInt z /\ (0 <= z)%Z.
Proof. destruct v; try done. cbn. intros H. guards H. injection H as <-. by split. Qed.

Lemma evidence_ref_ok v s : evidence_ref v = Ok s -> v = PStr s.
Proof. destruct v; try done. cbn. intros H. guards H. by injection H as <-. Qed.

Lemma check_evidence_refs_ok l refs :
  check_evidence_refs l = Ok refs -> check_evidence_refs (PStr <$> refs) = Ok refs.
Proof.
  intros H. assert (l = PStr <$> refs) as <-; [|done].
  unfold check_evidence_refs in H. destruct (_ <? _); [done|].
  apply outcome_bind_ok in H as (out & Hm & H). destruct (negb _); [done|]. injection H as <-.
  apply mapM_outcome_ok in Hm. induction Hm as [|v s l out Hv _ IH]; [done|].
  cbn. by rewrite (evidence_ref_ok _ _ Hv), IH.
Qed.

(** The requests that parse. *)
Record wf_request (r : ParsedWakeRequest) : Prop := {
  wr_request : id_matches (rq_request_id r) = true;
  wr_source : id_matches (rq_source_peer_id r) = true;
  wr_target : id_matches (rq_target_body_id r) = true;
  wr_reason : wake_reason (PStr (rq_reason r)) = Ok (rq_reason r);
  wr_severity : wake_severity (PStr (rq_severity r)) = Ok (rq_severity r);
  wr_observed : (0 <= rq_observed_at_ms r)%Z;
  wr_lifetime : (1 <= rq_expires_at_ms r - rq_observed_at_ms r <= MAX_WAKE_REQUEST_TTL_MS)%Z;
  wr_refs : check_evidence_refs (PStr <$> rq_evidence_refs r) = Ok (rq_evidence_refs r);
  wr_summary : check_summary (PStr (rq_summary r)) = Ok (rq_summary r)
}.

Lemma parse_wake_request_ok payload r :
  parse_wake_request payload = Ok r ->
  wf_request r /\ exists d, payload = PDict d /\
    get d "request_id" = PStr (rq_request_id r) /\ get d "source_peer_id" = PStr (rq_source_peer_id r) /\
    authority_free d "wake request" = Ok tt.
Proof.
  unfold parse_wake_request. destruct payload as [| | | | | | |d]; try done.
  destruct (negb _); [done|]. destruct (negb _); [done|]. intros H.
  apply outcome_bind_ok in H as ([] & Haf & H). apply outcome_bind_ok in H as (obs & Hobs & H).
  apply outcome_bind_ok in H as (exp & Hexp & H). cbv zeta in H.
  destruct (_ || _) eqn:Hl; [done|]. py_bools.
  destruct (dict_get_default d "evidence_refs" _); try done.
  apply outcome_bind_ok in H as (refs & Hrefs & H). apply outcome_bind_ok in H as (sum & Hsum & H).
  apply outcome_bind_ok in H as (rid & Hrid & H). apply outcome_bind_ok in H as (src & Hsrc & H).
  apply outcome_bind_ok in H as (tgt & Htgt & H). apply outcome_bind_ok in H as (rea & Hrea & H).
  apply outcome_bind_ok in H as (sev & Hsev & H). injection H as <-.
  apply identifier_ok in Hrid as [Hg1 ?], Hsrc as [Hg2 ?], Htgt as [_ ?].
  apply non_negative_integer_ok in Hobs as [_ ?].
  split; [|by exists d]. split; cbn; try done; [by eapply wake_reason_ok|by eapply wake_severity_ok|by eapply check_evidence_refs_ok|].
  pose proof (check_summary_ok _ _ Hsum) as He. rewrite He in Hsum. done.
Qed.

(** A decision on a parsed request is never malformed. *)
Definition decision_of (r : ParsedWakeRequest) (now : Z) (power_state : string) (acc : bool)
    (state detail : string) : WakePolicyDecision :=
  mkWakeDecision (rq_request_id r) (rq_source_peer_id r) (rq_target_body_id r)
    (rq_reason r) (rq_severity r) acc state detail now power_state (rq_evidence_refs r) (rq_summary r)
    false false false false "none".

Lemma decide_request_ok r now ps acc st detail :
  wf_request r -> check_power_state (PStr ps) = Ok ps -> (0 <= now)%Z ->
  st ∈ wake_decision_states -> detail <> "" ->
  decide_request r now ps acc st detail = Ok (decision_of r now ps acc st detail).
Proof.
  intros [? ? ? Hr Hs _ _ Href Hsum] Hps Hn Hst Hd. unfold decide_request, make_decision.
  cbn [wd_request_id wd_source_peer_id wd_target_body_id wd_reason wd_severity wd_state wd_detail
       evaluated_at_ms power_state_before wd_evidence_refs wd_summary canonical_flag grants_authority
       grants_execution grants_actuation wd_authority].
  rewrite !identifier_id, Hr, Hs by done. cbn [outcome_bind].
  rewrite (bool_decide_true (st ∈ _)) by done. replace (is_nonempty detail) with true by (by destruct detail).
  rewrite (proj2 (Z.ltb_ge now 0)) by done. cbn [negb]. rewrite Hps. cbn [outcome_bind].
  rewrite Href. cbn [outcome_bind]. rewrite Hsum. done.
Qed.

Lemma decide_request_inv r now ps acc st detail d :
  decide_request r now ps acc st detail = Ok d -> d = decision_of r now ps acc st detail.
Proof.
  unfold decide_request, make_decision. intros H.
  repeat first [apply outcome_bind_ok in H as (? & _ & H) | match type of H with
    (if ?b then _ else _) = _ => destruct b; [discriminate H|] end].
  by injection H as <-.
Qed.

Section EngineFacts.
Context (cfg : WakePolicyConfig).

(** The attempts of a source that still count at time [n]. *)
Definition live_attempts (st : engine) (s : WakeSourcePolicy) (n : Z) : list Z :=
  drop_expired (n - ws_window_ms s) (default [] (eg_attempts st !! ws_peer_id s)).

(** Everything the policy requires of a request it has not seen. *)
Record wake_permits (st : engine) (r : ParsedWakeRequest) (n : Z) (s : WakeSourcePolicy) : Prop := {
  wp_target : rq_target_body_id r = cfg_target_body_id cfg;
  wp_live : (n < rq_expires_at_ms r)%Z;
  wp_skew : (rq_observed_at_ms r <= n + MAX_FUTURE_OBSERVATION_SKEW_MS)%Z;
  wp_source : find_source cfg (rq_source_peer_id r) = Some s;
  wp_budget : (Z.of_nat (length (live_attempts st s n)) < ws_max_requests s)%Z;
  wp_reason : rq_reason r ∈ ws_allowed_reasons s;
  wp_severity : below_floor (rq_severity r) (ws_minimum_severity s) = false;
  wp_evidence : rq_reason r ∈ ws_evidence_required s -> rq_evidence_refs r <> [];
  wp_cooldown : forall last, eg_last st !! ws_peer_id s = Some last -> (ws_cooldown_ms s <= n - last)%Z
}.

Lemma source_refusal_none st s r n :
  source_refusal st s r n = None <->
  rq_reason r ∈ ws_allowed_reasons s /\ below_floor (rq_severity r) (ws_minimum_severity s) = false /\
  (rq_reason r ∈ ws_evidence_required s -> rq_evidence_refs r <> []) /\
  (forall last, eg_last st !! ws_peer_id s = Some last -> (ws_cooldown_ms s <= n - last)%Z).
Proof.
  unfold source_refusal. case_bool_decide; cbn [negb]; [|split; [done|naive_solver]].
  destruct (below_floor _ _); [split; [done|naive_solver]|].
  destruct (bool_decide (rq_reason r ∈ ws_evidence_required s) && bool_decide (rq_evidence_refs r = [])) eqn:He; py_bools.
  { split; [done|naive_solver]. }
  destruct (eg_last st !! ws_peer_id s) as [last|]; [|split; [|done]; intros _; split_and!; naive_solver].
  destruct (Z.ltb_spec (n - last) (ws_cooldown_ms s)) as [Hlt|Hge].
  - split; [done|]. intros (_ & _ & _ & Hc). specialize (Hc _ eq_refl). lia.
  - split; [|done]. intros _. split_and!; try done; naive_solver.
Qed.

Lemma source_refusal_detail st s r n detail : source_refusal st s r n = Some detail -> detail <> "".
Proof. unfold source_refusal. intros H. repeat (case_match; simplify_eq); done. Qed.

Lemma find_source_ok peer s :
  find_source cfg peer = Some s -> ws_peer_id s = peer /\ s ∈ cfg_sources cfg.
Proof.
  unfold find_source. intros (l1 & l2 & Hl & _)%dict_comp_lookup.
  assert ((peer, s) ∈ (fun s => (ws_peer_id s, s)) <$> cfg_sources cfg) as Hin.
  { rewrite Hl. apply elem_of_app. right. by left. }
  apply list_elem_of_fmap in Hin as (s' & [= -> ->] & ?). done.
Qed.

(** How a refusal may change the attempts: of its own source only. *)
Definition attempts_after (st st1 : engine) (r : ParsedWakeRequest) (n : Z) : Prop :=
  eg_attempts st1 = eg_attempts st \/
  exists s extra, find_source cfg (rq_source_peer_id r) = Some s /\ (extra = [] \/ extra = [n]) /\
    eg_attempts st1 = <[ws_peer_id s := live_attempts st s n ++ extra]> (eg_attempts st) /\
    (extra = [n] -> Z.of_nat (length (live_attempts st s n)) < ws_max_requests s)%Z.

Lemma evaluate_new_spec st r n ps res st1 :
  wf_request r -> check_power_state (PStr ps) = Ok ps -> (0 <= n)%Z ->
  evaluate_new cfg st r n ps = (res, st1) ->
  (exists s state detail, wake_permits st r n s /\
     state = (if bool_decide (ps = "awake") then "already-awake" else "eligible") /\
     res = Ok (decision_of r n ps true state detail) /\ detail <> "" /\
     st1 = set_last (set_attempts st (ws_peer_id s) (live_attempts st s n ++ [n])) (ws_peer_id s) n) \/
  ((forall s, ~ wake_permits st r n s) /\ exists detail,
     res = Ok (decision_of r n ps false "refused" detail) /\ detail <> "" /\
     eg_last st1 = eg_last st /\ eg_decisions st1 = eg_decisions st /\ attempts_after st st1 r n).
Proof.
  intros Hr Hps Hn H. unfold evaluate_new in H. cbv zeta in H.
  assert (forall acc state detail, state ∈ wake_decision_states -> detail <> "" ->
    decide_request r n ps acc state detail = Ok (decision_of r n ps acc state detail)) as Hd
    by (intros; by apply decide_request_ok).
  assert ("refused" ∈ wake_decision_states) as Hrefused by (right; right; left).
  case_bool_decide as Ht.
  { rewrite Hd in H by done. injection H as <- <-. right. split; [by intros s []|].
    eexists. split_and!; try done. by left. }
  destruct (Z.leb_spec (rq_expires_at_ms r) n) as [He|He].
  { rewrite Hd in H by done. injection H as <- <-. right. split; [intros s []; lia|].
    eexists. split_and!; try done. by left. }
  destruct (Z.ltb_spec (n + MAX_FUTURE_OBSERVATION_SKEW_MS) (rq_observed_at_ms r)) as [Ho|Ho].
  { rewrite Hd in H by done. injection H as <- <-. right. split; [intros s []; lia|].
    eexists. split_and!; try done. by left. }
  destruct (find_source cfg (rq_source_peer_id r)) as [s|] eqn:Hs.
  2:{ rewrite Hd in H by done. injection H as <- <-. right. split; [by intros s []; congruence|].
      eexists. split_and!; try done. by left. }
  fold (live_attempts st s n) in H.
  destruct (Z.leb_spec (ws_max_requests s) (Z.of_nat (length (live_attempts st s n)))) as [Hb|Hb].
  { rewrite Hd in H by done. injection H as <- <-. right. split.
    - intros s' [_ _ _ Hs' Hb' _ _ _ _]. assert (s' = s) as -> by congruence. lia.
    - eexists. split_and!; try done. right. exists s, []. rewrite app_nil_r. split_and!; try done. by left. }
  destruct (source_refusal _ s r n) as [detail|] eqn:Hsr.
  { rewrite Hd in H; [|done|by eapply source_refusal_detail]. injection H as <- <-. right. split.
    - intros s' [_ _ _ Hs' _ ? ? ? ?]. assert (s' = s) as -> by congruence.
      assert (source_refusal (set_attempts st (ws_peer_id s) (live_attempts st s n ++ [n])) s r n = None)
        by (by apply source_refusal_none). congruence.
    - eexists. split_and!; try done; [by eapply source_refusal_detail|].
      right. exists s, [n]. split_and!; try done. by right. }
  apply source_refusal_none in Hsr as (? & ? & ? & ?). left.
  case_bool_decide.
  - rewrite Hd in H; [|right; by left|done]. injection H as <- <-. by eexists s, _, _.
  - rewrite Hd in H; [|by left|done]. injection H as <- <-. by eexists s, _, _.
Qed.
End EngineFacts.

(** ** Runs of the engine *)

(** One call of [evaluate]: payload, clock and observed power state. *)
Record wake_call := mkCall { wc_payload : pyval; wc_now : pyval; wc_power : pyval }.

Section Runs.
Context (cfg : WakePolicyConfig).

Definition wake_step (st : engine) (c : wake_call) : outcome WakePolicyDecision * engine :=
  wake_evaluate cfg st (wc_payload c) (wc_now c) (wc_power c).

Fixpoint wake_run (st : engine) (calls : list wake_call) : list (outcome WakePolicyDecision) * engine :=
  match calls with
  | [] => ([], st)
  | c :: rest =>
      let '(o, st1) := wake_step st c in
      let '(os, st2) := wake_run st1 rest in (o :: os, st2)
  end.

(** What one call does: it raises and changes nothing; it answers a known request and
    changes nothing; or it evaluates a new request and remembers its decision. *)
Inductive stepped (st : engine) (c : wake_call) : outcome WakePolicyDecision -> engine -> Prop :=
| stepped_error e : stepped st c (Err e) st
| stepped_known r n ps fp d0 d :
    parse_wake_request (wc_payload c) = Ok r -> wc_now c = PInt n -> wc_power c = PStr ps ->
    request_fingerprint (wc_payload c) = Ok fp ->
    cached (rq_request_id r) (eg_decisions st) = Some d0 ->
    d = (if bool_decide (d0.1 = fp) then decision_of r n ps (accepted d0.2) "duplicate" (wd_detail d0.2)
         else decision_of r n ps false "refused" "request_id reused with different content") ->
    stepped st c (Ok d) st
| stepped_new r n ps fp d st1 :
    parse_wake_request (wc_payload c) = Ok r -> wc_now c = PInt n -> (0 <= n)%Z -> wc_power c = PStr ps ->
    check_power_state (PStr ps) = Ok ps -> request_fingerprint (wc_payload c) = Ok fp ->
    cached (rq_request_id r) (eg_decisions st) = None ->
    evaluate_new cfg st r n ps = (Ok d, st1) ->
    stepped st c (Ok d) (remember st1 (rq_request_id r) fp d).

Lemma wake_step_stepped st c o st' : wake_step st c = (o, st') -> stepped st c o st'.
Proof.
  unfold wake_step, wake_evaluate. intros H.
  destruct (let? now := non_negative_integer "now_ms" (wc_now c) in _) as [[[[n ps] r] fp]|e] eqn:Hin;
    [|injection H as <- <-; constructor].
  apply outcome_bind_ok in Hin as (n' & Hnow & Hin). apply outcome_bind_ok in Hin as (ps' & Hps & Hin).
  apply outcome_bind_ok in Hin as (r' & Hr & Hin). apply outcome_bind_ok in Hin as (fp' & Hfp & Hin).
  injection Hin as -> -> -> ->. apply non_negative_integer_ok in Hnow as [Hnow Hn].
  pose proof (check_power_state_ok _ _ Hps) as Hps'.
  assert (wc_power c = PStr ps) as Hpow.
  { destruct (wc_power c) as [| | | |s| | |]; try done. cbn in Hps.
    case_bool_decide; [|done]. by injection Hps as ->. }
  destruct (parse_wake_request_ok _ _ Hr) as [Hwf _].
  destruct (cached (rq_request_id r) (eg_decisions st)) as [[cfp d0]|] eqn:Hc.
  - case_bool_decide as Hf.
    + rewrite decide_request_ok in H; [|done..|right; right; by left|done]. injection H as <- <-.
      eapply stepped_known; try done. by rewrite bool_decide_false.
    + destruct (decide_request _ _ _ _ _ _) as [d|e] eqn:Hd;
        injection H as <- <-; [|constructor]. apply decide_request_inv in Hd.
      eapply stepped_known; try done. by rewrite bool_decide_true.
  - destruct (evaluate_new cfg st r n ps) as [res st1] eqn:He.
    destruct (evaluate_new_spec cfg st r n ps res st1 Hwf Hps' Hn He)
      as [(s & state & det & _ & _ & -> & _)|[_ (det & -> & _)]];
      injection H as <- <-; by eapply stepped_new.
Qed.

(** *** Budgets *)

(** The time at which an outcome accepts a new request of [peer]. *)
Definition accepted_at (peer : string) (o : outcome WakePolicyDecision) : option Z :=
  match o with
  | Ok d => if accepted d && bool_decide (wd_state d <> "duplicate") && bool_decide (wd_source_peer_id d = peer)
            then Some (evaluated_at_ms d) else None
  | Err _ => None
  end.

Definition accept_times (peer : string) (os : list (outcome WakePolicyDecision)) : list Z :=
  omap (accepted_at peer) os.

(** The number of times in the window of length [w] that ends at [t]. *)
Definition in_window (w t : Z) (times : list Z) : nat :=
  length (filter (fun x => (t - w < x <= t)%Z) times).

Definition later_than (c : Z) (times : list Z) : nat := length (filter (fun x => (c < x)%Z) times).

Lemma later_than_drop c k l : (k <= c)%Z -> later_than c (drop_expired k l) = later_than c l.
Proof.
  intros Hk. unfold later_than. induction l as [|x l IH]; [done|]. cbn [drop_expired].
  destruct (Z.leb_spec x k); [|done]. rewrite IH, filter_cons, decide_False; [done|lia].
Qed.

Lemma later_than_app c l1 l2 : later_than c (l1 ++ l2) = later_than c l1 + later_than c l2.
Proof. unfold later_than. by rewrite filter_app, length_app. Qed.

Lemma later_than_length c l : later_than c l <= length l.
Proof. unfold later_than. apply length_filter. Qed.

Lemma in_window_later w t l : in_window w t l <= later_than (t - w) l.
Proof.
  unfold in_window, later_than. induction l as [|x l IH]; [done|]. rewrite !filter_cons.
  repeat case_decide; cbn; lia.
Qed.

Lemma in_window_app w t l1 l2 : in_window w t (l1 ++ l2) = in_window w t l1 + in_window w t l2.
Proof. unfold in_window. by rewrite filter_app, length_app. Qed.

Section Source.
Context (s : WakeSourcePolicy).
Hypothesis Hs : find_source cfg (ws_peer_id s) = Some s.

Definition attempts_of (st : engine) : list Z := default [] (eg_attempts st !! ws_peer_id s).

(** What the engine knows of the acceptances [hist] of the source up to time [now]. *)
Record tracks (st : engine) (hist : list Z) (now : Z) : Prop := {
  tr_past : Forall (fun x => (x <= now)%Z) hist;
  tr_counted : forall c, (now - ws_window_ms s <= c)%Z -> later_than c hist <= later_than c (attempts_of st);
  tr_budget : forall t, (Z.of_nat (in_window (ws_window_ms s) t hist) <= Z.max 0 (ws_max_requests s))%Z;
  tr_last : last hist = eg_last st !! ws_peer_id s;
  tr_spaced : Sorted (fun a b => (ws_cooldown_ms s <= b - a)%Z) hist
}.

Lemma tracks_later st hist now now' : (now <= now')%Z -> tracks st hist now -> tracks st hist now'.
Proof.
  intros Hle [Hp Hc Hb Hl Hsp]. split; try done.
  - eapply Forall_impl; [exact Hp|]. cbn. lia.
  - intros c Hn. apply Hc. lia.
Qed.

(** Changing the attempts of the source keeps what still counts. *)
Lemma tracks_attempts st st1 hist now :
  tracks st hist now -> eg_last st1 = eg_last st ->
  (forall c, (now - ws_window_ms s <= c)%Z -> later_than c (attempts_of st) <= later_than c (attempts_of st1)) ->
  tracks st1 hist now.
Proof.
  intros [Hp Hc Hb Hl Hsp] He Ha. split; try done.
  - intros c Hn. etrans; [by apply Hc|by apply Ha].
  - by rewrite He.
Qed.

(** Accepting at [now] what the budget and the cooldown allow. *)
Lemma tracks_accept st st1 hist now :
  tracks st hist now -> (0 <= ws_window_ms s)%Z ->
  (Z.of_nat (length (live_attempts st s now)) < ws_max_requests s)%Z ->
  (forall y, eg_last st !! ws_peer_id s = Some y -> (ws_cooldown_ms s <= now - y)%Z) ->
  attempts_of st1 = live_attempts st s now ++ [now] -> eg_last st1 !! ws_peer_id s = Some now ->
  tracks st1 (hist ++ [now]) now.
Proof.
  intros [Hp Hc Hb Hl Hsp] Hw Hbud Hcool Hat Hla.
  assert (forall c, (now - ws_window_ms s <= c)%Z -> later_than c hist <= later_than c (live_attempts st s now)) as Hlive.
  { intros c Hn. unfold live_attempts. rewrite later_than_drop by done. by apply Hc. }
  split.
  - apply Forall_app. split; [done|]. by repeat constructor.
  - intros c Hn. rewrite Hat, !later_than_app. specialize (Hlive c Hn). lia.
  - intros t. rewrite in_window_app. destruct (decide (t - ws_window_ms s < now <= t)%Z) as [Hin|Hout].
    + assert (in_window (ws_window_ms s) t [now] = 1) as -> by (unfold in_window; by rewrite filter_cons, decide_True).
      pose proof (in_window_later (ws_window_ms s) t hist) as H1.
      assert (now - ws_window_ms s <= t - ws_window_ms s)%Z as Hle by lia.
      specialize (Hlive _ Hle). pose proof (later_than_length (t - ws_window_ms s) (live_attempts st s now)). lia.
    + assert (in_window (ws_window_ms s) t [now] = 0) as -> by (unfold in_window; by rewrite filter_cons, decide_False).
      rewrite Nat.add_0_r. apply Hb.
  - by rewrite last_snoc, Hla.
  - apply sorted_snoc; [done|]. intros y Hy. rewrite Hl in Hy. by apply Hcool.
Qed.

Lemma accepted_at_known (b : bool) r n ps d0 why :
  accepted_at (ws_peer_id s)
    (Ok (if b then decision_of r n ps (accepted d0) "duplicate" (wd_detail d0)
         else decision_of r n ps false "refused" why)) = None.
Proof. destruct b; cbn; [|done]. by destruct (accepted d0). Qed.

(** One step of the engine, seen from the source. *)
Lemma tracks_step st c o st' hist now :
  (0 <= ws_window_ms s)%Z ->
  wake_step st c = (o, st') -> tracks st hist now ->
  (forall n, wc_now c = PInt n -> (now <= n)%Z) ->
  exists now', (now <= now')%Z /\ (wc_now c = PInt now' \/ now' = now) /\
    tracks st' (hist ++ match accepted_at (ws_peer_id s) o with Some t => [t] | None => [] end) now'.
Proof.
  intros Hw Hstep Ht Hmono. apply wake_step_stepped in Hstep.
  inversion Hstep as [e|r n ps fp d0 d ? ? ? ? ? Hd|r n ps fp d st1 Hr Hnow Hn Hpow Hps Hfp Hcache Hev]; subst.
  - exists now. split_and!; [done|by right|]. by rewrite app_nil_r.
  - exists now. split_and!; [done|by right|]. rewrite accepted_at_known. by rewrite app_nil_r.
  - exists n. pose proof (Hmono n Hnow) as Hle. split_and!; [done|by left|].
    apply (tracks_later _ _ _ n) in Ht; [|done].
    destruct (parse_wake_request_ok _ _ Hr) as [Hwf _].
    destruct (evaluate_new_spec cfg st r n ps _ _ Hwf Hps Hn Hev)
      as [(s' & state & det & Hp & Hst & [= ->] & _ & ->)|[_ (det & [= ->] & _ & Hla & _ & Hat)]].
    + pose proof (wp_source _ _ _ _ _ Hp) as Hs'. destruct (find_source_ok _ _ _ Hs') as [Hid _].
      cbn [accepted_at accepted wd_state wd_source_peer_id evaluated_at_ms decision_of].
      assert (bool_decide (state <> "duplicate") = true) as ->.
      { apply bool_decide_eq_true. subst state. by case_bool_decide. }
      clear Hst. cbn [andb]. case_bool_decide as Hpeer.
      * assert (s' = s) as -> by congruence.
        eapply tracks_accept; try done; [apply Hp|apply Hp| |].
        -- unfold attempts_of, remember, set_last, set_attempts. cbn. by rewrite lookup_insert_eq.
        -- unfold remember, set_last, set_attempts. cbn. by rewrite lookup_insert_eq.
      * rewrite app_nil_r. assert (ws_peer_id s' <> ws_peer_id s) as Hne by congruence.
        destruct Ht as [Hpa Hc Hb Hl Hsp]. split; try done.
        -- intros c' Hc'. unfold attempts_of, remember, set_last, set_attempts. cbn.
           rewrite lookup_insert_ne by done. by apply Hc.
        -- unfold remember, set_last, set_attempts. cbn. by rewrite lookup_insert_ne.
    + cbn [accepted_at accepted decision_of andb]. rewrite app_nil_r.
      apply (tracks_attempts st); [done|done|]. intros c' Hc'. unfold attempts_of, remember. cbn [eg_attempts].
      destruct Hat as [->|(s' & extra & Hs' & _ & -> & _)]; [done|].
      destruct (find_source_ok _ _ _ Hs') as [Hid _].
      destruct (decide (ws_peer_id s' = ws_peer_id s)) as [Heq|Hne]; [|by rewrite lookup_insert_ne].
      assert (s' = s) as -> by congruence. rewrite lookup_insert_eq. cbn [default from_option id].
      rewrite later_than_app. unfold live_attempts. rewrite later_than_drop by done. lia.
Qed.

(** The clock readings of a run. *)
Definition call_times (calls : list wake_call) : list Z :=
  omap (fun c => match wc_now c with PInt n => Some n | _ => None end) calls.

Lemma tracks_run calls : forall st os st' hist now,
  (0 <= ws_window_ms s)%Z -> wake_run st calls = (os, st') -> tracks st hist now ->
  Sorted Z.le (now :: call_times calls) ->
  exists now', tracks st' (hist ++ accept_times (ws_peer_id s) os) now'.
Proof.
  induction calls as [|c calls IH]; intros st os st' hist now Hw Hrun Ht Hsort; cbn [wake_run] in Hrun.
  { injection Hrun as <- <-. exists now. cbn. by rewrite app_nil_r. }
  destruct (wake_step st c) as [o st1] eqn:Hstep. destruct (wake_run st1 calls) as [os1 st2] eqn:Hrest.
  injection Hrun as <- <-.
  assert (forall n, wc_now c = PInt n -> (now <= n)%Z) as Hmono.
  { intros n Hn. unfold call_times in Hsort. cbn in Hsort. rewrite Hn in Hsort.
    inversion Hsort as [|? ? _ Hhd]; subst. by inversion Hhd. }
  destruct (tracks_step _ _ _ _ _ _ Hw Hstep Ht Hmono) as (now1 & Hle & Hnow1 & Ht1).
  destruct (IH st1 os1 st2 _ now1 Hw Hrest Ht1) as (now' & Ht').
  - unfold call_times in *. cbn in Hsort. destruct Hnow1 as [Hn | ->].
    + by rewrite Hn in Hsort; inversion Hsort.
    + destruct (wc_now c) as [| |n| | | | |]; try done.
      inversion Hsort as [|? ? Hs1 Hhd]; subst. inversion Hhd; subst.
      inversion Hs1 as [|? l Hs2 Hhd2]; subst. constructor; [done|].
      inversion Hhd2; subst; constructor. lia.
  - exists now'. unfold accept_times in *. cbn [omap list_omap].
    destruct (accepted_at (ws_peer_id s) o); rewrite <- app_assoc in Ht'; done.
Qed.
End Source.

(** *** The replay cache *)

(** The identity of a new request that an outcome accepts. *)
Definition accepted_id (o : outcome WakePolicyDecision) : option string :=
  match o with
  | Ok d => if accepted d && bool_decide (wd_state d <> "duplicate") then Some (wd_request_id d) else None
  | Err _ => None
  end.

Lemma cached_app id l1 l2 :
  cached id (l1 ++ l2) = match cached id l1 with Some v => Some v | None => cached id l2 end.
Proof. induction l1 as [|[k v] l1 IH]; [done|]. cbn. by case_decide. Qed.

Lemma cached_filter id l :
  cached id l = None ->
  filter (fun e : string * (string * WakePolicyDecision) => e.1 <> id) l = l.
Proof.
  induction l as [|[k v] l IH]; [done|]. cbn [cached]. case_decide as Hk; [done|]. intros H.
  rewrite filter_cons, decide_True by done. by rewrite IH.
Qed.

(** Below the limit, remembering a new request only adds it. *)
Lemma remember_fresh st id fp d :
  cached id (eg_decisions st) = None -> length (eg_decisions st) < MAX_REQUEST_CACHE ->
  eg_decisions (remember st id fp d) = eg_decisions st ++ [(id, (fp, d))].
Proof.
  intros Hc Hl. unfold remember. cbn [eg_decisions]. rewrite cached_filter by done.
  rewrite length_app. cbn [length].
  replace (length (eg_decisions st) + 1 - MAX_REQUEST_CACHE) with 0 by lia. done.
Qed.

Lemma evaluate_new_decisions st r n ps res st1 :
  wf_request r -> check_power_state (PStr ps) = Ok ps -> (0 <= n)%Z ->
  evaluate_new cfg st r n ps = (res, st1) ->
  eg_decisions st1 = eg_decisions st /\ exists acc state detail, detail <> "" /\
    res = Ok (decision_of r n ps acc state detail).
Proof.
  intros Hr Hps Hn H.
  destruct (evaluate_new_spec cfg st r n ps res st1 Hr Hps Hn H)
    as [(s & state & det & _ & _ & -> & ? & ->)|[_ (det & -> & ? & _ & Hd & _)]]; split; eauto 6.
Qed.

Lemma accepted_once calls : forall st os st',
  wake_run st calls = (os, st') -> length (eg_decisions st) + length calls <= MAX_REQUEST_CACHE ->
  NoDup (omap accepted_id os) /\ Forall (fun id => cached id (eg_decisions st) = None) (omap accepted_id os).
Proof.
  induction calls as [|c calls IH]; intros st os st' Hrun Hlen; cbn [wake_run] in Hrun.
  { injection Hrun as <- <-. split; constructor. }
  destruct (wake_step st c) as [o st1] eqn:Hstep. destruct (wake_run st1 calls) as [os1 st2] eqn:Hrest.
  injection Hrun as <- <-. apply wake_step_stepped in Hstep. cbn [length] in Hlen.
  inversion Hstep as [e|r n ps fp d0 d ? ? ? ? ? Hd|r n ps fp d st0 Hr Hnow Hn Hpow Hps Hfp Hcache Hev]; subst.
  - apply (IH _ _ _ Hrest). lia.
  - assert (accepted_id (Ok (if bool_decide (d0.1 = fp)
        then decision_of r n ps (accepted d0.2) "duplicate" (wd_detail d0.2)
        else decision_of r n ps false "refused" "request_id reused with different content")) = None) as Hno.
    { case_bool_decide; cbn; [|done]. by destruct (accepted d0.2). }
    cbn [omap list_omap]. rewrite Hno. apply (IH _ _ _ Hrest). lia.
  - destruct (parse_wake_request_ok _ _ Hr) as [Hwf _].
    destruct (evaluate_new_decisions _ _ _ _ _ _ Hwf Hps Hn Hev) as (Hdec & acc & state & det & _ & [= ->]).
    assert (eg_decisions (remember st0 (rq_request_id r) fp (decision_of r n ps acc state det))
      = eg_decisions st ++ [(rq_request_id r, (fp, decision_of r n ps acc state det))]) as Hrem
      by (rewrite remember_fresh; rewrite Hdec; [done|done|lia]).
    destruct (IH _ _ _ Hrest) as [Hnd Hfresh]; [rewrite Hrem, length_app; cbn [length]; lia|].
    rewrite Hrem in Hfresh.
    assert (Forall (fun id => cached id (eg_decisions st) = None /\ id <> rq_request_id r)
              (omap accepted_id os1)) as Hold.
    { apply (Forall_impl _ _ _ Hfresh). intros id. rewrite cached_app. cbn [cached].
      destruct (cached id (eg_decisions st)); [done|]. by case_decide. }
    apply Forall_and in Hold as [Hold Hne]. cbn [omap list_omap].
    destruct (accepted_id _) as [id|] eqn:Hid; [|done].
    assert (id = rq_request_id r) as ->.
    { cbn in Hid. by destruct (acc && bool_decide (state <> "duplicate")); simplify_eq. }
    split; [|by constructor]. constructor; [|done].
    intros Hin. rewrite Forall_forall in Hne. by apply (Hne _ Hin).
Qed.
End Runs.
