(* ===== verification/WakeReason.v ===== *)
(** [WakeReasonStore] of [services/wake_request_policy.py]: the snapshot of the newest
    accepted wake reason, written atomically as one JSON line and validated when read. *)

From stdpp Require Import base gmap sets list strings sorting.
From Stdlib Require Import ZArith Ascii.
From S2P Require Import Prelude PyText PyVal Json WakePolicy.

(** The [snapshot] dictionary of [WakeReasonStore.record]. *)
Definition reason_snapshot (d : WakePolicyDecision) : list (string * json) :=
  [("schema", JStr WAKE_REASON_SNAPSHOT_SCHEMA); ("request_id", JStr (wd_request_id d));
   ("source_peer_id", JStr (wd_source_peer_id d)); ("target_body_id", JStr (wd_target_body_id d));
   ("reason", JStr (wd_reason d)); ("severity", JStr (wd_severity d));
   ("accepted_at_ms", JInt (evaluated_at_ms d)); ("power_state_before", JStr (power_state_before d));
   ("evidence_refs", JArr (JStr <$> wd_evidence_refs d)); ("summary", JStr (wd_summary d));
   ("canonical", JBool false); ("grants_authority", JBool false); ("grants_execution", JBool false);
   ("grants_actuation", JBool false); ("authority", JStr "none")].

Definition newline : string := String "010"%char "".

(** [WakeReasonStore.record] up to the write: the text [_write_atomic] puts in the file. *)
Definition reason_record (d : WakePolicyDecision) : outcome string :=
  if negb (accepted d) then raise WakePolicyError "only accepted wake decisions may become wake reasons"
  else Ok (dumps (JObj (reason_snapshot d)) +:+ newline).

(** [_validate_wake_reason_snapshot] *)
Definition validate_reason_snapshot (raw : pyval) : outcome unit :=
  match raw with
  | PDict d =>
      if negb (eq_str (get d "schema") WAKE_REASON_SNAPSHOT_SCHEMA)
      then raise WakePolicyError "wake reason snapshot schema is unsupported"
      else
      let? _ := authority_free d "wake reason snapshot" in
      let? _ := identifier "request_id" (get d "request_id") in
      let? _ := identifier "source_peer_id" (get d "source_peer_id") in
      let? _ := identifier "target_body_id" (get d "target_body_id") in
      let? _ := wake_reason (get d "reason") in
      let? _ := wake_severity (get d "severity") in
      let? _ := non_negative_integer "accepted_at_ms" (get d "accepted_at_ms") in
      let? _ := check_power_state (get d "power_state_before") in
      match dict_get_default d (PStr "evidence_refs") (PList []) with
      | PList refs =>
          let? _ := check_evidence_refs refs in
          let? _ := check_summary (dict_get_default d (PStr "summary") (PStr "")) in Ok tt
      | _ => raise WakePolicyError "wake reason evidence_refs must be a list"
      end
  | _ => raise WakePolicyError "wake reason snapshot schema is unsupported"
  end.

(** [WakeReasonStore.load] of the file's text; [None] when there is no file. *)
Definition reason_load (file : option string) : outcome (option items) :=
  match file with
  | None => Ok None
  | Some content =>
      match loads content with
      | Ok raw => let? _ := validate_reason_snapshot raw in
                  match raw with PDict d => Ok (Some d) | _ => raise TypeError "not a mapping" end
      | Err e => if bool_decide (exn_class e = ValueError)
                 then raise WakePolicyError "wake reason record could not be read" else Err e
      end
  end.

(** ** Facts *)

(** The decisions the engine makes. *)
Definition wf_wake_decision (d : WakePolicyDecision) : Prop := make_decision d = Ok d.

(** The snapshot in the order [sort_keys] writes it. *)
Definition sorted_snapshot (d : WakePolicyDecision) : list (string * json) :=
  [("accepted_at_ms", JInt (evaluated_at_ms d)); ("authority", JStr "none"); ("canonical", JBool false);
   ("evidence_refs", JArr (JStr <$> wd_evidence_refs d)); ("grants_actuation", JBool false);
   ("grants_authority", JBool false); ("grants_execution", JBool false);
   ("power_state_before", JStr (power_state_before d)); ("reason", JStr (wd_reason d));
   ("request_id", JStr (wd_request_id d)); ("schema", JStr WAKE_REASON_SNAPSHOT_SCHEMA);
   ("severity", JStr (wd_severity d)); ("source_peer_id", JStr (wd_source_peer_id d));
   ("summary", JStr (wd_summary d)); ("target_body_id", JStr (wd_target_body_id d))].

Definition snapshot_keys : list string :=
  ["accepted_at_ms"; "authority"; "canonical"; "evidence_refs"; "grants_actuation"; "grants_authority";
   "grants_execution"; "power_state_before"; "reason"; "request_id"; "schema"; "severity";
   "source_peer_id"; "summary"; "target_body_id"].

Lemma sorted_snapshot_canonical d : canonical (JObj (sorted_snapshot d)).
Proof.
  assert (bool_decide (Sorted String.le snapshot_keys) = true) as Hs by reflexivity.
  assert (bool_decide (NoDup snapshot_keys) = true) as Hn by reflexivity.
  constructor; [by apply bool_decide_eq_true in Hs|by apply bool_decide_eq_true in Hn|].
  repeat constructor. apply Forall_fmap, Forall_forall. constructor.
Qed.

Lemma dumps_snapshot d : dumps (JObj (reason_snapshot d)) = dumps (JObj (sorted_snapshot d)).
Proof. reflexivity. Qed.

Definition stored_snapshot (d : WakePolicyDecision) : items :=
  (fun kv => (PStr kv.1, of_json kv.2)) <$> sorted_snapshot d.

Lemma stored_refs d :
  dict_get_default (stored_snapshot d) (PStr "evidence_refs") (PList []) = PList (PStr <$> wd_evidence_refs d).
Proof.
  change (PList (of_json <$> (JStr <$> wd_evidence_refs d)) = PList (PStr <$> wd_evidence_refs d)).
  by rewrite <- list_fmap_compose.
Qed.

(** Every field of the snapshot is found under its key. *)
Lemma stored_fields d :
  Forall (fun kv => get (stored_snapshot d) kv.1 = kv.2)
    [("schema", PStr WAKE_REASON_SNAPSHOT_SCHEMA); ("request_id", PStr (wd_request_id d));
     ("source_peer_id", PStr (wd_source_peer_id d)); ("target_body_id", PStr (wd_target_body_id d));
     ("reason", PStr (wd_reason d)); ("severity", PStr (wd_severity d));
     ("accepted_at_ms", PInt (evaluated_at_ms d)); ("power_state_before", PStr (power_state_before d))].
Proof. repeat constructor. Qed.

Lemma stored_snapshot_valid d :
  wf_wake_decision d -> validate_reason_snapshot (PDict (stored_snapshot d)) = Ok tt.
Proof.
  unfold wf_wake_decision, make_decision. intros H.
  apply outcome_bind_ok in H as (? & H1 & H). apply outcome_bind_ok in H as (? & H2 & H).
  apply outcome_bind_ok in H as (? & H3 & H). apply outcome_bind_ok in H as (? & H4 & H).
  apply outcome_bind_ok in H as (? & H5 & H).
  destruct (negb _); [done|]. destruct (negb _); [done|].
  destruct (evaluated_at_ms d <? 0)%Z eqn:Hn; [done|].
  apply outcome_bind_ok in H as (? & H6 & H). apply outcome_bind_ok in H as (? & H7 & H).
  apply outcome_bind_ok in H as (? & H8 & _).
  unfold validate_reason_snapshot. rewrite stored_refs.
  assert (authority_free (stored_snapshot d) "wake reason snapshot" = Ok tt) as -> by reflexivity.
  assert (dict_get_default (stored_snapshot d) (PStr "summary") (PStr "") = PStr (wd_summary d)) as -> by reflexivity.
  pose proof (stored_fields d) as Hf.
  repeat (let G := fresh "G" in apply Forall_cons in Hf as [G Hf]; cbn [fst snd] in G; rewrite G; clear G).
  rewrite H1, H2, H3, H4, H5, H6, H7, H8. cbn [non_negative_integer]. by rewrite Hn.
Qed.

(** Reading back what was recorded. *)
Lemma reason_load_record d text :
  wf_wake_decision d -> reason_record d = Ok text -> reason_load (Some text) = Ok (Some (stored_snapshot d)).
Proof.
  intros Hwf H. unfold reason_record in H. destruct (negb _); [done|].
  apply Ok_inj in H. subst text. unfold reason_load. rewrite dumps_snapshot.
  unfold loads. rewrite (loads_dumps_ws plain_object) by first [apply sorted_snapshot_canonical|reflexivity].
  change (of_json (JObj (sorted_snapshot d))) with (PDict (stored_snapshot d)).
  by rewrite stored_snapshot_valid.
Qed.
