(* ===== verification/WakeSupervisor.v ===== *)
(** [services/founder_wake_actuator.py] and [services/wake_power_supervisor.py]: the narrow
    path from an authenticated wake request over the policy engine to one physical wake
    method.  Hardware, sockets, the file of the reason store and the providers of the
    receiver are operations of the environment. *)

From stdpp Require Import base gmap sets list strings sorting.
From Stdlib Require Import ZArith NArith Ascii.
From S2P Require Import Prelude PyText PyVal Json Sha256 Effects WakePolicy WakeReason.

(** ** The environment *)

Inductive wop : Type -> Type :=
| OpContact (closed : bool) : wop unit
| OpSleepMs (ms : Z) : wop unit
| OpSocket : wop unit
| OpSetBroadcast : wop unit
| OpSendTo (packet : byte_string) (address : string) (port : Z) : wop Z
| OpCloseSocket : wop unit
| OpWriteReason (content : string) : wop unit
| OpNowMs : wop pyval
| OpPowerState : wop pyval.

Inductive wevent : Type :=
| EContact (closed : bool) (o : outcome unit)
| ESleepMs (ms : Z) (o : outcome unit)
| ESocket (o : outcome unit)
| ESetBroadcast (o : outcome unit)
| ESendTo (packet : byte_string) (address : string) (port : Z) (o : outcome Z)
| ECloseSocket (o : outcome unit)
| EWriteReason (content : string) (o : outcome unit)
| ENowMs (o : outcome pyval)
| EPowerState (o : outcome pyval).

Definition wlog (X : Type) (o : wop X) : outcome X -> wevent :=
  match o in wop X return outcome X -> wevent with
  | OpContact b => EContact b
  | OpSleepMs ms => ESleepMs ms
  | OpSocket => ESocket
  | OpSetBroadcast => ESetBroadcast
  | OpSendTo p a n => ESendTo p a n
  | OpCloseSocket => ECloseSocket
  | OpWriteReason c => EWriteReason c
  | OpNowMs => ENowMs
  | OpPowerState => EPowerState
  end.

Abbreviation wake_prog := (prog wop).

(** ** [founder_wake_actuator.py] *)

Definition WAKE_ON_LAN_METHOD : string := "wake_on_lan".
Definition POWER_BUTTON_CONTACT_METHOD : string := "power_button_contact".
Definition supported_methods : list string := [WAKE_ON_LAN_METHOD; POWER_BUTTON_CONTACT_METHOD].
Definition supported_power_states : list string := ["awake"; "suspended"; "off"; "unknown"].
Definition MIN_POWER_BUTTON_PULSE_MS : Z := 100.
Definition MAX_POWER_BUTTON_PULSE_MS : Z := 1000.
Definition MAX_WOL_REPEATS : Z := 5.
Definition WOL_MAGIC_PACKET_BYTES : nat := 102.

Record WakeActuationResult := mkActuation {
  ar_request_id : string;
  ar_target_body_id : string;
  ar_method : string;
  dispatched : bool;
  ar_detail : string;
  wake_capability : string;
  ar_grants_authority : bool;
  ar_grants_execution : bool;
  ar_grants_actuation : bool
}.

(** [WakeActuationResult.__post_init__] *)
Definition make_actuation (r : WakeActuationResult) : outcome WakeActuationResult :=
  if negb (is_nonempty (ar_request_id r)) then raise ActuationError "request_id must be non-empty text"
  else if negb (is_nonempty (ar_target_body_id r))
  then raise ActuationError "target_body_id must be non-empty text"
  else if negb (bool_decide (ar_method r ∈ supported_methods)) && bool_decide (ar_method r <> "none")
  then raise ActuationError "wake method is unsupported"
  else if negb (is_nonempty (ar_detail r)) then raise ActuationError "detail must be non-empty text"
  else if bool_decide (wake_capability r <> "power.wake")
  then raise ActuationError "wake result capability is fixed"
  else if ar_grants_authority r || ar_grants_execution r || ar_grants_actuation r
  then raise ActuationError "wake results cannot grant general authority"
  else Ok r.

(** A result with the dataclass defaults. *)
Definition actuation_result (d : WakePolicyDecision) (method : string) (sent : bool) (detail : string)
    : outcome WakeActuationResult :=
  make_actuation (mkActuation (wd_request_id d) (wd_target_body_id d) method sent detail "power.wake"
                    false false false).

(** [_eligible_decision] *)
Definition eligible_decision (d : WakePolicyDecision) : outcome unit :=
  if negb (accepted d) || bool_decide (wd_state d <> "eligible")
  then raise ActuationError "only eligible accepted wake decisions may actuate"
  else if grants_authority d || grants_execution d || grants_actuation d
  then raise ActuationError "wake policy decision attempted to smuggle authority"
  else if bool_decide (wd_authority d <> "none")
  then raise ActuationError "wake policy decision carried unexpected authority"
  else Ok tt.

(** [except Exception as exc: raise FounderWakeActuationError(...) from exc] *)
Definition wrap_actuation (label : string) (e : exn) : exn :=
  if is_Exception e then Exn ActuationError (label +:+ exn_message e) else e.

(** *** Wake-on-LAN *)

Record WakeOnLanActuator := mkWol {
  wol_mac : byte_string;
  wol_broadcast : string;
  wol_port : Z;
  wol_repeats : Z
}.

(** [value.replace(":", "").replace("-", "").replace(".", "")] *)
Fixpoint drop_separators (s : string) : string :=
  match s with
  | "" => ""
  | String c s' => if (code c =? 58) || (code c =? 45) || (code c =? 46) then drop_separators s'
                   else String c (drop_separators s')
  end.

(** The value of a hexadecimal digit. *)
Definition hex_value (c : ascii) : option N :=
  let n := code c in
  if (48 <=? n) && (n <=? 57) then Some (N.of_nat (n - 48))
  else if (65 <=? n) && (n <=? 70) then Some (N.of_nat (n - 55))
  else if (97 <=? n) && (n <=? 102) then Some (N.of_nat (n - 87)) else None.

(** [bytes.fromhex] of text without white space. *)
Fixpoint from_hex (s : string) : option byte_string :=
  match s with
  | "" => Some []
  | String a (String b s') =>
      x ← hex_value a; y ← hex_value b; rest ← from_hex s'; Some ((16 * x + y)%N :: rest)
  | String _ "" => None
  end.

(** [_parse_mac] *)
Definition parse_mac (value : string) : outcome byte_string :=
  let normalized := drop_separators value in
  match from_hex normalized with
  | Some bytes => if length bytes =? 6 then Ok bytes
                  else raise ActuationError "MAC address must contain exactly six hexadecimal octets"
  | None => raise ActuationError "MAC address must contain exactly six hexadecimal octets"
  end.

(** The value of a string of digits. *)
Fixpoint decimal_value (n : nat) (s : string) : nat :=
  match s with "" => n | String c s' => decimal_value (10 * n + (code c - 48)) s' end.

(** One octet of a dotted-quad literal: one to three digits, no leading zero, at most 255. *)
Definition ipv4_octet (s : string) : bool :=
  str_forallb (fun c => (48 <=? code c) && (code c <=? 57)) s &&
  match s with
  | "" => false
  | String c "" => true
  | String c s' => negb (code c =? 48) && (String.length s' <=? 2) &&
      (decimal_value 0 s <=? 255)
  end.

(** [s.split(".")] *)
Fixpoint split_dots_from (w s : string) : list string :=
  match s with
  | "" => [w]
  | String c s' => if code c =? 46 then w :: split_dots_from "" s'
                   else split_dots_from (w +:+ String c "") s'
  end.

(** [ipaddress.ip_address(s)] gives an IPv4 address, whose [str] is [s] itself. *)
Definition ipv4_literal (s : string) : bool :=
  let octets := split_dots_from "" s in (length octets =? 4) && forallb ipv4_octet octets.

(** [WakeOnLanActuator.__init__]; an IPv6 literal is refused like any other text. *)
Definition make_wol (mac broadcast : string) (port repeats : Z) : outcome WakeOnLanActuator :=
  let? bytes := parse_mac mac in
  if negb (ipv4_literal broadcast)
  then raise ActuationError "broadcast_address must be a literal IPv4 address"
  else if negb ((1 <=? port)%Z && (port <=? 65535)%Z)
  then raise ActuationError "Wake-on-LAN port must be between 1 and 65535"
  else if negb ((1 <=? repeats)%Z && (repeats <=? MAX_WOL_REPEATS)%Z)
  then raise ActuationError "Wake-on-LAN repeats must be between 1 and 5"
  else Ok (mkWol bytes broadcast port repeats).

(** [WakeOnLanActuator.magic_packet] *)
Definition magic_packet (w : WakeOnLanActuator) : outcome byte_string :=
  let packet := replicate 6 255%N ++ List.concat (replicate 16 (wol_mac w)) in
  if negb (length packet =? WOL_MAGIC_PACKET_BYTES)
  then raise ActuationError "Wake-on-LAN magic packet length is invalid"
  else Ok packet.

(** The loop over the repeats. *)
Fixpoint send_repeats (n : nat) (packet : byte_string) (w : WakeOnLanActuator) : wake_prog unit :=
  match n with
  | O => Ret tt
  | S n' =>
      let* sent := call (OpSendTo packet (wol_broadcast w) (wol_port w)) in
      if negb (sent =? Z.of_nat (length packet))%Z
      then Raise (Exn ActuationError "Wake-on-LAN datagram was not fully sent")
      else send_repeats n' packet w
  end.

(** [isinstance(exc, OSError)] *)
Definition is_OSError (e : exn) : bool :=
  match exn_class e with OSError | FileNotFoundError => true | _ => false end.

(** [try: ... except OSError as exc: raise ... from exc finally: sock.close()] *)
Definition send_packets (w : WakeOnLanActuator) (packet : byte_string) : wake_prog unit :=
  let* _ := call OpSocket in
  handle (let* _ := call OpSetBroadcast in send_repeats (Z.to_nat (wol_repeats w)) packet w)
    (fun result =>
       let* _ := try_except (call OpCloseSocket) (fun _ => Ret tt) (fun _ => Ret tt) in
       match result with
       | Ok _ => Ret tt
       | Err e => Raise (if is_OSError e
                         then Exn ActuationError ("Wake-on-LAN send failed: " +:+ exn_message e) else e)
       end).

(** [WakeOnLanActuator.dispatch] *)
Definition wol_dispatch (w : WakeOnLanActuator) (d : WakePolicyDecision) : wake_prog WakeActuationResult :=
  let* _ := of_outcome (eligible_decision d) in
  let* packet := of_outcome (magic_packet w) in
  let* _ := send_packets w packet in
  of_outcome (actuation_result d WAKE_ON_LAN_METHOD true
    ("Wake-on-LAN magic packet dispatched " +:+ str_of_Z (wol_repeats w) +:+ " time(s)")).

(** *** The power-button contact *)

(** [PowerButtonContactActuator.__init__]: the configured pulse. *)
Definition make_power_button (pulse_ms : Z) : outcome Z :=
  if (pulse_ms <? MIN_POWER_BUTTON_PULSE_MS)%Z || (MAX_POWER_BUTTON_PULSE_MS <? pulse_ms)%Z
  then raise ActuationError "power-button pulse must be between 100 and 1000 ms"
  else Ok pulse_ms.

(** The [try]/[except]/[finally] of [PowerButtonContactActuator.dispatch]: the contact is
    opened again once [set_contact_closed(True)] has returned, whatever the sleep does. *)
Definition pulse_contact (pulse_ms : Z) : wake_prog unit :=
  handle (call (OpContact true)) (fun closed =>
    match closed with
    | Err e => Raise (wrap_actuation "power-button contact pulse failed: " e)
    | Ok _ =>
        handle (call (OpSleepMs pulse_ms)) (fun slept =>
          try_except (call (OpContact false))
            (fun e => Raise (Exn ActuationError
                        ("power-button contact could not be released: " +:+ exn_message e)))
            (fun _ => match slept with
                      | Ok _ => Ret tt
                      | Err e => Raise (wrap_actuation "power-button contact pulse failed: " e)
                      end))
    end).

(** [PowerButtonContactActuator.dispatch] *)
Definition button_dispatch (pulse_ms : Z) (d : WakePolicyDecision) : wake_prog WakeActuationResult :=
  let* _ := of_outcome (eligible_decision d) in
  let* _ := pulse_contact pulse_ms in
  of_outcome (actuation_result d POWER_BUTTON_CONTACT_METHOD true
    ("Founder power-button contact pulsed for " +:+ str_of_Z pulse_ms +:+ " ms")).

(** *** The dispatcher *)

(** A reviewed backend: its [method] and [dispatch] come with its class. *)
Inductive wake_backend : Type :=
| WakeOnLan (w : WakeOnLanActuator)
| PowerButton (pulse_ms : Z).

Definition backend_method (b : wake_backend) : string :=
  match b with WakeOnLan _ => WAKE_ON_LAN_METHOD | PowerButton _ => POWER_BUTTON_CONTACT_METHOD end.

Definition backend_dispatch (b : wake_backend) (d : WakePolicyDecision) : wake_prog WakeActuationResult :=
  match b with WakeOnLan w => wol_dispatch w d | PowerButton ms => button_dispatch ms d end.

Record FounderWakeDispatcher := mkDispatcher {
  dp_target_body_id : string;
  dp_backends : gmap string wake_backend;
  dp_routes : gmap string (option string)
}.

(** One route of [FounderWakeDispatcher.__init__]. *)
Definition check_route (backends : gmap string wake_backend) (routes : gmap string (option string))
    (state : string) : outcome (string * option string) :=
  let method := default None (routes !! state) in
  if bool_decide (state = "awake") then
    (if bool_decide (method <> None) then raise ActuationError "awake state cannot dispatch a wake method"
     else Ok (state, None))
  else match method with
  | Some m => if bool_decide (is_Some (backends !! m)) then Ok (state, method)
              else raise ActuationError "wake route references an unavailable backend"
  | None => Ok (state, None)
  end.

(** [FounderWakeDispatcher.__init__]; a [Mapping] argument is a finite map. *)
Definition make_dispatcher (target : string) (backends : gmap string wake_backend)
    (routes : gmap string (option string)) : outcome FounderWakeDispatcher :=
  if negb (is_nonempty target) then raise ActuationError "target_body_id must be non-empty text"
  else if bool_decide (~ map_Forall (fun m _ => m ∈ supported_methods) backends)
  then raise ActuationError "unsupported wake backend"
  else if bool_decide (~ map_Forall (fun m b => backend_method b = m) backends)
  then raise ActuationError "wake backend does not match its method"
  else if bool_decide (backends = ∅) then raise ActuationError "at least one wake backend is required"
  else
  let? checked := mapM_outcome (check_route backends routes) supported_power_states in
  if bool_decide (~ map_Forall (fun st _ => st ∈ supported_power_states) routes)
  then raise ActuationError "wake routes contain unsupported power states"
  else Ok (mkDispatcher target backends (list_to_map checked)).

(** [FounderWakeDispatcher.dispatch] *)
Definition dispatcher_dispatch (dp : FounderWakeDispatcher) (d : WakePolicyDecision)
    : wake_prog WakeActuationResult :=
  if bool_decide (wd_target_body_id d <> dp_target_body_id dp)
  then Raise (Exn ActuationError "wake decision targets a different body")
  else if negb (accepted d)
  then Raise (Exn ActuationError "refused wake decisions cannot reach physical adapters")
  else if bool_decide (wd_state d = "already-awake") || bool_decide (power_state_before d = "awake")
  then of_outcome (actuation_result d "none" false "body is already awake; no physical wake dispatched")
  else
  let* _ := of_outcome (eligible_decision d) in
  match default None (dp_routes dp !! power_state_before d) with
  | None => of_outcome (actuation_result d "none" false
                          "no reviewed wake method is configured for this power state")
  | Some method =>
      match dp_backends dp !! method with
      | Some backend => backend_dispatch backend d
      | None => Raise (Exn KeyError method)
      end
  end.

(** ** [wake_power_supervisor.py] *)

Definition MAX_WAKE_TRANSPORT_PAYLOAD_BYTES : nat := Z.to_nat 4096.

(** [_decode_payload] *)
Definition decode_payload (payload : byte_string) : outcome items :=
  if bool_decide (payload = []) then raise WakePolicyError "wake transport payload must be non-empty bytes"
  else if MAX_WAKE_TRANSPORT_PAYLOAD_BYTES <? length payload
  then raise WakePolicyError "wake transport payload exceeds bounded size"
  else match utf8_decode payload with
  | None => raise WakePolicyError "wake transport payload is not valid UTF-8 JSON"
  | Some text =>
      match loads text with
      | Err e => if bool_decide (exn_class e = ValueError)
                 then raise WakePolicyError "wake transport payload is not valid UTF-8 JSON" else Err e
      | Ok (PDict raw) =>
          if negb (eq_str (get raw "schema") WAKE_REQUEST_SCHEMA)
          then raise WakePolicyError "wake transport payload schema is unsupported" else Ok raw
      | Ok _ => raise WakePolicyError "wake transport payload root must be a mapping"
      end
  end.

Record WakeSupervisorOutcome := mkOutcome {
  so_decision : WakePolicyDecision;
  so_actuation : option WakeActuationResult
}.

(** [WakeSupervisorOutcome.dispatched] *)
Definition so_dispatched (o : WakeSupervisorOutcome) : bool :=
  match so_actuation o with Some a => dispatched a | None => false end.

Record WakePowerSupervisor := mkSupervisor {
  sv_config : WakePolicyConfig;
  sv_dispatcher : FounderWakeDispatcher;
  sv_has_store : bool
}.

(** [WakePowerSupervisor.__init__] *)
Definition make_supervisor (cfg : WakePolicyConfig) (dp : FounderWakeDispatcher) (store : bool)
    : outcome WakePowerSupervisor :=
  if bool_decide (cfg_target_body_id cfg <> dp_target_body_id dp)
  then raise WakePolicyError "wake policy and actuator target different bodies"
  else Ok (mkSupervisor cfg dp store).

(** [WakeReasonStore.record], called by the supervisor. *)
Definition store_reason (d : WakePolicyDecision) : wake_prog unit :=
  let* content := of_outcome (reason_record d) in call (OpWriteReason content).

Section Supervisor.
Context (sv : WakePowerSupervisor).

(** The part of [handle_authenticated_payload] after the policy decision. *)
Definition act_on (d : WakePolicyDecision) : wake_prog WakeSupervisorOutcome :=
  if negb (accepted d) then Ret (mkOutcome d None)
  else if bool_decide (wd_state d = "duplicate") then Ret (mkOutcome d None)
  else
  let* actuation := dispatcher_dispatch (sv_dispatcher sv) d in
  let* _ := if dispatched actuation && sv_has_store sv then store_reason d else Ret tt in
  Ret (mkOutcome d (Some actuation)).

(** [handle_authenticated_payload]: the policy engine's new state, and what follows. *)
Definition handle_authenticated_payload (st : engine) (payload : byte_string) (peer : string)
    (now_ms power_state : pyval) : engine * wake_prog WakeSupervisorOutcome :=
  match decode_payload payload with
  | Err e => (st, Raise e)
  | Ok raw =>
      if negb (eq_str (get raw "source_peer_id") peer)
      then (st, Raise (Exn WakePolicyError "wake payload source does not match authenticated peer"))
      else
        let '(result, st') := wake_evaluate (sv_config sv) st (PDict raw) now_ms power_state in
        match result with
        | Err e => (st', Raise e)
        | Ok d => (st', act_on d)
        end
  end.
End Supervisor.

(** *** The receiver *)

(** A transport envelope: [None] is a missing attribute; a payload is bytes or not. *)
Record wake_envelope := mkEnvelope {
  ev_payload_type : option pyval;
  ev_source_peer_id : option pyval;
  ev_destination_peer_id : option pyval;
  ev_payload : option (option byte_string)
}.

(** The attributes [last_outcome] and [last_error]. *)
Record receiver := mkReceiver {
  last_outcome : option WakeSupervisorOutcome;
  last_error : option string
}.

(** [except (WakePolicyError, FounderWakeActuationError, ValueError, TypeError)] *)
Definition receiver_catches (e : exn) : bool :=
  match exn_class e with ValueError | TypeError | ActuationError => true | _ => false end.

(** [str(exc) or type(exc).__name__] of a caught exception. *)
Definition exception_text (e : exn) : string :=
  if is_nonempty (exn_message e) then exn_message e
  else match exn_class e with
       | TypeError => "TypeError" | ActuationError => "FounderWakeActuationError" | _ => "ValueError" end.

(** [AuthenticatedWakeEnvelopeReceiver.__call__]: the policy engine, the receiver's
    attributes and the answer. *)
Definition receive (sv : WakePowerSupervisor) (local_peer_id : string) (st : engine) (rc : receiver)
    (env : wake_envelope) : wake_prog (engine * receiver * outcome bool) :=
  let refuse msg := Ret (st, mkReceiver (last_outcome rc) (Some msg), Ok false) in
  let failed st' e :=
    if receiver_catches e
    then Ret (st', mkReceiver None (Some (str_take 256 (exception_text e))), Ok false)
    else Ret (st', rc, Err e) in
  match ev_payload_type env, ev_source_peer_id env, ev_destination_peer_id env, ev_payload env with
  | Some payload_type, Some source, Some destination, Some payload =>
      if negb (eq_str payload_type WAKE_REQUEST_SCHEMA) then refuse "transport payload is not a wake request"
      else if negb (eq_str destination local_peer_id)
      then refuse "wake envelope targets a different supervisor peer"
      else match source with
      | PStr peer =>
          if negb (is_nonempty peer) then refuse "wake envelope source peer is invalid"
          else match payload with
          | None => refuse "wake envelope payload must be bytes"
          | Some bytes =>
              handle (let* now := call OpNowMs in let* power := call OpPowerState in Ret (now, power))
                (fun o => match o with
                 | Err e => failed st e
                 | Ok (now, power) =>
                     let '(st', p) := handle_authenticated_payload sv st bytes peer now power in
                     handle p (fun o => match o with
                       | Ok out => Ret (st', mkReceiver (Some out) None, Ok (accepted (so_decision out)))
                       | Err e => failed st' e
                       end)
                 end)
          end
      | _ => refuse "wake envelope source peer is invalid"
      end
  | _, _, _, _ => refuse "wake envelope is missing required transport fields"
  end.

(** ** Facts *)

(** *** The contact *)

(** Every way a pulse can end: the contact is never left closed by this code. *)
Definition pulse_post (ms : Z) (o : outcome unit) (tr : list wevent) : Prop :=
  (exists e, tr = [EContact true (Err e)] /\ o <> Ok tt) \/
  (exists slept opened, tr = [EContact true (Ok tt); ESleepMs ms slept; EContact false opened] /\
     (o = Ok tt <-> is_ok slept = true /\ is_ok opened = true)).

Definition pulse_allowed (ms : Z) (tr : list wevent) (e : wevent) : Prop :=
  match e with
  | EContact true _ => tr = []
  | ESleepMs ms' _ => ms' = ms /\ tr = [EContact true (Ok tt)]
  | EContact false _ => exists slept, tr = [EContact true (Ok tt); ESleepMs ms slept]
  | _ => False
  end.

Lemma wpt_pulse_contact ms : wpt wlog (pulse_allowed ms) (pulse_contact ms) [] (pulse_post ms).
Proof.
  unfold wpt, pulse_contact. apply wp_handle, wp_call. intros closed. split; [done|].
  destruct closed as [[]|e]; cbn [app wlog].
  2:{ left. exists e. split; [done|]. by destruct (is_Exception e). }
  apply wp_handle, wp_call. intros slept. split; [done|]. cbn [app wlog].
  apply wp_try_except, wp_call. intros opened. split; [by eexists|]. cbn [app wlog].
  destruct opened as [[]|e].
  - destruct slept as [[]|e']; right; eexists _, _; (split; [done|]); cbn; naive_solver.
  - destruct (is_Exception e); right; eexists _, _; (split; [done|]); cbn; naive_solver.
Qed.

(** *** Datagrams *)

Definition is_send (e : wevent) : bool := match e with ESendTo _ _ _ _ => true | _ => false end.
Definition sends (tr : list wevent) : nat := length (filter (fun e => is_send e = true) tr).

Lemma sends_app tr1 tr2 : sends (tr1 ++ tr2) = sends tr1 + sends tr2.
Proof. unfold sends. by rewrite filter_app, length_app. Qed.

(** The socket operations of one dispatch, with at most [n] datagrams. *)
Definition wol_allowed (w : WakeOnLanActuator) (packet : byte_string) (n : nat) (tr : list wevent) (e : wevent) : Prop :=
  match e with
  | ESendTo p a port _ => p = packet /\ a = wol_broadcast w /\ port = wol_port w /\ sends tr < n
  | ESocket _ | ESetBroadcast _ | ECloseSocket _ => True
  | _ => False
  end.

Lemma wpt_send_repeats w packet n total : forall tr (Q : outcome unit -> list wevent -> Prop),
  sends tr + n <= total ->
  (forall o tr', Q o tr') ->
  wpt wlog (wol_allowed w packet total) (send_repeats n packet w) tr Q.
Proof.
  unfold wpt. induction n as [|n IH]; intros tr Q Hle HQ; cbn [send_repeats]; [apply HQ|].
  apply wp_bind, wp_call. intros sent. split; [cbn; split_and!; [done..|lia]|].
  destruct sent as [sent|e]; [|apply HQ]. destruct (negb _); [apply HQ|].
  apply IH; [|done]. rewrite sends_app. change (sends [_]) with 1. lia.
Qed.

Lemma wpt_send_packets w packet tr (Q : outcome unit -> list wevent -> Prop) :
  sends tr = 0 -> (forall o tr', Q o tr') ->
  wpt wlog (wol_allowed w packet (Z.to_nat (wol_repeats w))) (send_packets w packet) tr Q.
Proof.
  intros H0 HQ. unfold wpt, send_packets. apply wp_bind, wp_call. intros o. split; [done|].
  destruct o as [[]|e]; [|apply HQ]. apply wp_handle.
  assert (forall (o : outcome unit) tr', wp wlog (wol_allowed w packet (Z.to_nat (wol_repeats w))) (fun tr e => tr ++ [e])
    (let* _ := try_except (call OpCloseSocket) (fun _ => Ret tt) (fun _ => Ret tt) in
     match o with
     | Ok _ => Ret tt
     | Err e => Raise (if is_OSError e
                       then Exn ActuationError ("Wake-on-LAN send failed: " +:+ exn_message e) else e)
     end) tr' Q) as Hclose.
  { intros o tr'. apply wp_bind, wp_try_except, wp_call. intros c. split; [done|].
    destruct c as [[]|e]; [|destruct (is_Exception e)]; try apply HQ; destruct o; apply HQ. }
  apply wp_bind, wp_call. intros o. split; [done|]. destruct o as [[]|e]; [|exact (Hclose (Err e) _)].
  apply wpt_send_repeats; [|intros o tr'; exact (Hclose o tr')].
  rewrite !sends_app, H0. assert (forall a, sends [ESetBroadcast a] = 0) as -> by done.
  assert (forall a, sends [ESocket a] = 0) as -> by done. done.
Qed.

(** *** The supervisor *)

(** What the hardware may be asked in the power state [ps]: one route, one backend. *)
Definition hardware_allowed (dp : FounderWakeDispatcher) (ps : string) (tr : list wevent) (e : wevent) : Prop :=
  match e with
  | EWriteReason _ _ => True
  | _ => exists method backend,
      dp_routes dp !! ps = Some (Some method) /\ dp_backends dp !! method = Some backend /\
      match backend with
      | WakeOnLan w => exists packet, magic_packet w = Ok packet /\
          wol_allowed w packet (Z.to_nat (wol_repeats w)) tr e
      | PowerButton ms => pulse_allowed ms tr e
      end
  end.

Definition dispatchable (d : WakePolicyDecision) : Prop :=
  accepted d = true /\ wd_state d = "eligible" /\ power_state_before d <> "awake".

Lemma eligible_decision_ok d u : eligible_decision d = Ok u -> accepted d = true /\ wd_state d = "eligible".
Proof.
  unfold eligible_decision. destruct (accepted d); [|done]. case_bool_decide as H; [done|].
  intros _. split; [done|]. done.
Qed.

Lemma wpt_backend dp ps method backend d (Q : outcome WakeActuationResult -> list wevent -> Prop) :
  dp_routes dp !! ps = Some (Some method) -> dp_backends dp !! method = Some backend ->
  (forall o tr, Q o tr) ->
  wpt wlog (hardware_allowed dp ps) (backend_dispatch backend d) [] Q.
Proof.
  intros Hr Hb HQ. destruct backend as [w|ms]; cbn [backend_dispatch].
  - unfold wol_dispatch, wpt. apply wp_bind, wp_of_outcome. destruct (eligible_decision d); [|apply HQ].
    apply wp_bind, wp_of_outcome. destruct (magic_packet w) as [packet|] eqn:Hp; [|apply HQ].
    apply wp_bind. eapply (wpt_mono wlog (wol_allowed w packet (Z.to_nat (wol_repeats w)))).
    3:{ by apply (wpt_send_packets _ _ _ (fun _ _ => True)). }
    + intros tr e He. destruct e; try done; (eexists _, _; split_and!; [exact Hr|exact Hb|]; exists packet; by split).
    + intros [|] tr _; [|apply HQ]. apply wp_of_outcome, HQ.
  - unfold button_dispatch, wpt. apply wp_bind, wp_of_outcome. destruct (eligible_decision d); [|apply HQ].
    apply wp_bind. eapply (wpt_mono wlog (pulse_allowed ms)); [| |apply wpt_pulse_contact].
    + intros tr e He. destruct e; try done; (eexists _, _; split_and!; [exact Hr|exact Hb|done]).
    + intros [|] tr _; [|apply HQ]. apply wp_of_outcome, HQ.
Qed.

Lemma wpt_dispatch dp d (Q : outcome WakeActuationResult -> list wevent -> Prop) :
  (forall o tr, (dispatchable d \/ (tr = [] /\ forall a, o = Ok a -> dispatched a = false)) -> Q o tr) ->
  wpt wlog (fun tr e => dispatchable d /\ hardware_allowed dp (power_state_before d) tr e)
    (dispatcher_dispatch dp d) [] Q.
Proof.
  intros HQ. unfold wpt, dispatcher_dispatch.
  assert (forall e, Q (Err e) []) as Herr by (intros e; apply HQ; right; done).
  assert (forall why, Q (actuation_result d "none" false why) []) as Hnone.
  { intros why. apply HQ. right. split; [done|]. intros a. unfold actuation_result, make_actuation.
    repeat case_match; try done. by intros [= <-]. }
  case_bool_decide; [apply Herr|]. destruct (accepted d) eqn:Ha; cbn [negb]; [|apply Herr].
  destruct (bool_decide (wd_state d = "already-awake") || bool_decide (power_state_before d = "awake")) eqn:Hawake;
    [apply wp_of_outcome, Hnone|]. py_bools. destruct Hawake as [_ Hawake].
  apply wp_bind, wp_of_outcome. destruct (eligible_decision d) as [u|] eqn:Hel; [|apply Herr].
  apply eligible_decision_ok in Hel as [_ Hst].
  assert (dispatchable d) as Hd by (by split_and!).
  destruct (dp_routes dp !! power_state_before d) as [[method|]|] eqn:Hroute; cbn [default from_option id];
    [|apply wp_of_outcome, Hnone..].
  destruct (dp_backends dp !! method) as [backend|] eqn:Hb; [|apply Herr].
  eapply (wpt_mono wlog (hardware_allowed dp (power_state_before d))).
  3:{ by apply (wpt_backend _ _ method backend d (fun _ _ => True)). }
  - by intros tr e.
  - intros o tr _. apply HQ. by left.
Qed.

Lemma wpt_act_on sv d :
  wpt wlog (fun tr e => dispatchable d /\ hardware_allowed (sv_dispatcher sv) (power_state_before d) tr e)
    (act_on sv d) [] (fun _ _ => True).
Proof.
  unfold act_on. destruct (accepted d) eqn:Ha; cbn [negb]; [|done].
  case_bool_decide; [done|]. unfold wpt. apply wp_bind. apply wpt_dispatch.
  intros [a|e] tr Hd; [|done]. apply wp_bind.
  destruct (dispatched a && sv_has_store sv) eqn:Hs; [|done].
  apply andb_true_iff in Hs as [Hs _].
  destruct Hd as [Hd|[_ Hd]]; [|specialize (Hd a eq_refl); congruence].
  unfold store_reason. apply wp_bind, wp_of_outcome. destruct (reason_record d); [|done].
  apply wp_call. intros o. split; [done|]. by destruct o.
Qed.

(** A decision that can be dispatched is the first on its request, and permitted. *)
Lemma dispatchable_new cfg st c d st' :
  wake_step cfg st c = (Ok d, st') -> dispatchable d ->
  exists r n ps s, parse_wake_request (wc_payload c) = Ok r /\ wc_now c = PInt n /\ wc_power c = PStr ps /\
    ps <> "awake" /\ power_state_before d = ps /\ cached (rq_request_id r) (eg_decisions st) = None /\
    wake_permits cfg st r n s /\ is_Some (cached (rq_request_id r) (eg_decisions st')).
Proof.
  intros Hstep (Ha & Hst & Hps). apply wake_step_stepped in Hstep.
  inversion Hstep as [|r n ps fp d0 d' ? ? ? ? ? Hd|r n ps fp d' st0 Hr Hnow Hn Hpow Hpow' Hfp Hcache Hev]; subst.
  - exfalso. case_bool_decide; cbn in *; done.
  - destruct (parse_wake_request_ok _ _ Hr) as [Hwf _].
    destruct (evaluate_new_spec _ _ _ _ _ _ _ Hwf Hpow' Hn Hev)
      as [(s & state & det & Hp & -> & [= ->] & _ & ->)|[_ (det & [= ->] & _)]]; [|done].
    exists r, n, ps, s. split_and!; try done.
    unfold remember. cbn [eg_decisions set_last set_attempts]. rewrite cached_filter by done.
    destruct (decide (length (eg_decisions st) < MAX_REQUEST_CACHE)) as [Hlt|Hge].
    + rewrite length_app. cbn [length]. replace (_ + 1 - _) with 0 by lia. rewrite drop_0.
      rewrite cached_app, Hcache. cbn [cached]. rewrite decide_True by done. by eexists.
    + rewrite length_app. cbn [length].
      rewrite drop_app_le by (unfold MAX_REQUEST_CACHE in *; lia). rewrite cached_app.
      destruct (cached _ (drop _ _)); [by eexists|]. cbn [cached]. rewrite decide_True by done. by eexists.
Qed.
