(* ===== verification/WakeTheorems.v ===== *)
(** The properties of the wake path: who may wake the body, how often, what the hardware is
    asked, and what a reader of the stored reason gets. *)

From stdpp Require Import base gmap sets list strings sorting.
From Stdlib Require Import ZArith NArith.
From S2P Require Import Prelude PyText PyVal Json Sha256 Effects WakePolicy WakeReason WakeSupervisor.

(** ** A concrete configuration *)

Definition sample_source : WakeSourcePolicy :=
  mkSource "seat-node" ["security_motion"; "medical_alert"] "attention" ["security_motion"] 2 60000 15000.

Definition sample_config : WakePolicyConfig := mkConfig "founder" [sample_source].

Definition sample_request (id : string) (observed : Z) : list (string * json) :=
  [("schema", JStr WAKE_REQUEST_SCHEMA); ("request_id", JStr id); ("source_peer_id", JStr "seat-node");
   ("target_body_id", JStr "founder"); ("reason", JStr "security_motion"); ("severity", JStr "urgent");
   ("observed_at_ms", JInt observed); ("expires_at_ms", JInt (observed + 120000));
   ("evidence_refs", JArr [JStr "clip-1"]); ("summary", JStr "door"); ("canonical", JBool false);
   ("grants_authority", JBool false); ("grants_execution", JBool false);
   ("grants_actuation", JBool false); ("authority", JStr "none")].

Definition request_value (id : string) (observed : Z) : pyval := of_json (JObj (sample_request id observed)).
Definition request_bytes (id : string) (observed : Z) : byte_string := utf8 (dumps (JObj (sample_request id observed))).

Definition sample_call (id : string) (now : Z) (power : string) : wake_call :=
  mkCall (request_value id 1000) (PInt now) (PStr power).

(** A configuration as its constructors check it. *)
Definition wf_config (cfg : WakePolicyConfig) : Prop :=
  make_config cfg = Ok cfg /\ Forall (fun s => make_source s = Ok s) (cfg_sources cfg).

Lemma wf_config_source cfg s :
  wf_config cfg -> s ∈ cfg_sources cfg ->
  find_source cfg (ws_peer_id s) = Some s /\ (1 <= ws_max_requests s)%Z /\ (0 <= ws_window_ms s)%Z.
Proof.
  intros [Hc Hs] Hin. unfold make_config in Hc. guards Hc. split.
  - unfold find_source. apply dict_comp_lookup. apply list_elem_of_split in Hin as (l1 & l2 & Hl).
    exists ((fun s => (ws_peer_id s, s)) <$> l1), ((fun s => (ws_peer_id s, s)) <$> l2).
    rewrite Hl, fmap_app. split; [done|]. rewrite Hl, fmap_app, fmap_cons in G2.
    apply NoDup_app in G2 as (_ & _ & G2). apply NoDup_cons in G2 as [Hnot _].
    by rewrite <- list_fmap_compose.
  - rewrite Forall_forall in Hs. specialize (Hs s Hin). unfold make_source in Hs. guards Hs.
    destruct G4. lia.
Qed.

(** ** The policy *)

(** C15: The wake budget holds on every run of the engine whose clock does not go back: in
    no window of a source's configured length does the policy accept more new requests of
    that source than the source's maximum, and consecutive acceptances are at least its
    cooldown apart. *)
Theorem wake_budget_bounded cfg s calls os st :
  wf_config cfg -> s ∈ cfg_sources cfg ->
  wake_run cfg (new_engine cfg) calls = (os, st) -> Sorted Z.le (call_times calls) ->
  (forall t, Z.of_nat (in_window (ws_window_ms s) t (accept_times (ws_peer_id s) os)) <= ws_max_requests s)%Z /\
  Sorted (fun a b => ws_cooldown_ms s <= b - a)%Z (accept_times (ws_peer_id s) os).
Proof.
  intros Hcfg Hin Hrun Hsort. destruct (wf_config_source _ _ Hcfg Hin) as (Hs & Hmax & Hw).
  destruct (tracks_run cfg s Hs calls (new_engine cfg) os st [] (default 0%Z (head (call_times calls))) Hw Hrun)
    as (now & [_ _ Hb _ Hsp]).
  - split; [constructor|intros c _; cbn; lia|intros t; cbn; lia|done|constructor].
  - destruct (call_times calls) as [|t ts]; [by repeat constructor|]. constructor; [done|]. by constructor.
  - split; [|done]. intros t. specialize (Hb t). cbn [app] in Hb. lia.
Qed.

Definition budget_calls : list wake_call :=
  [sample_call "a" 1000 "off"; sample_call "b" 16000 "off"; sample_call "c" 31000 "off"].

Lemma budget_config_wf : wf_config sample_config.
Proof. split; [vm_compute; reflexivity|]. constructor; [vm_compute; reflexivity|constructor]. Qed.

Lemma wake_budget_bounded_witness :
  (Z.of_nat (in_window 60000 31000
     (accept_times "seat-node" (wake_run sample_config (new_engine sample_config) budget_calls).1)) <= 2)%Z.
Proof.
  destruct (wake_budget_bounded sample_config sample_source budget_calls
    (wake_run sample_config (new_engine sample_config) budget_calls).1
    (wake_run sample_config (new_engine sample_config) budget_calls).2) as [H _].
  - exact budget_config_wf.
  - left.
  - symmetry. apply surjective_pairing.
  - repeat constructor; vm_compute; discriminate.
  - exact (H 31000%Z).
Defined.

(** A request that was not seen before is accepted exactly when the policy permits it:
    target, expiry, observation skew, configured source, budget, allowed reason, severity
    floor, required evidence and cooldown; then and only then the source's cooldown starts
    anew.  A call that raises changes nothing, and whatever is answered carries no
    authority. *)
Theorem wake_accepts_iff cfg st c o st' :
  wake_step cfg st c = (o, st') ->
  match o with
  | Err _ => st' = st
  | Ok d => exists r n ps, parse_wake_request (wc_payload c) = Ok r /\ wc_now c = PInt n /\ wc_power c = PStr ps /\
      grants_authority d = false /\ grants_execution d = false /\ grants_actuation d = false /\
      wd_authority d = "none" /\ wd_request_id d = rq_request_id r /\
      match cached (rq_request_id r) (eg_decisions st) with
      | Some d0 => st' = st /\ (accepted d = true -> wd_state d = "duplicate" /\ accepted d0.2 = true /\
                                  request_fingerprint (wc_payload c) = Ok d0.1)
      | None => (accepted d = true <-> exists s, wake_permits cfg st r n s) /\
                (accepted d = true -> wd_state d = if bool_decide (ps = "awake") then "already-awake" else "eligible") /\
                (accepted d = false -> eg_last st' = eg_last st)
      end
  end.
Proof.
  intros Hstep%wake_step_stepped.
  inversion Hstep as [|r n ps fp d0 d Hr Hn Hps Hfp Hc Hd|r n ps fp d st0 Hr Hnow Hn Hpow Hps Hfp Hc Hev]; subst; [done|..].
  - exists r, n, ps. rewrite Hc. case_bool_decide as Hf; split_and!; try done.
    intros Ha. split_and!; try done. congruence.
  - destruct (parse_wake_request_ok _ _ Hr) as [Hwf _]. exists r, n, ps. rewrite Hc.
    destruct (evaluate_new_spec _ _ _ _ _ _ _ Hwf Hps Hn Hev)
      as [(s & state & det & Hp & -> & [= ->] & _ & ->)|[Hno (det & [= ->] & _ & Hl & _)]]; split_and!; try done.
    + split; [|done]. intros _. by exists s.
    + split; [done|]. intros [s Hp]. by destruct (Hno s).
Qed.

Lemma wake_accepts_iff_witness :
  exists s, wake_permits sample_config (new_engine sample_config)
    (match parse_wake_request (request_value "a" 1000) with Ok r => r | Err _ => mkRequest "" "" "" "" "" 0 0 [] "" end)
    1000 s.
Proof.
  assert (match (wake_step sample_config (new_engine sample_config) (sample_call "a" 1000 "off")).1 with
          | Ok d => accepted d | Err _ => false end = true) as Hacc by (vm_compute; reflexivity).
  pose proof (wake_accepts_iff sample_config (new_engine sample_config) (sample_call "a" 1000 "off")
    (wake_step sample_config (new_engine sample_config) (sample_call "a" 1000 "off")).1
    (wake_step sample_config (new_engine sample_config) (sample_call "a" 1000 "off")).2
    (surjective_pairing _)) as H.
  destruct (wake_step sample_config (new_engine sample_config) (sample_call "a" 1000 "off")) as [[d|e] st]; [|discriminate].
  destruct H as (r & n & ps & Hr & Hn & _ & _ & _ & _ & _ & _ & H).
  injection Hn as <-. cbn [wc_payload sample_call] in Hr. rewrite Hr.
  destruct H as [H _]. apply H. exact Hacc.
Defined.

(** Replays do not wake twice: in a run of the engine no longer than its replay cache,
    each request identity is accepted as a new request at most once. *)
Theorem wake_accepted_once cfg calls os st :
  wake_run cfg (new_engine cfg) calls = (os, st) -> length calls <= MAX_REQUEST_CACHE ->
  NoDup (omap accepted_id os).
Proof.
  intros Hrun Hlen. by destruct (accepted_once cfg calls _ _ _ Hrun Hlen).
Qed.

Lemma wake_accepted_once_witness :
  NoDup (omap accepted_id (wake_run sample_config (new_engine sample_config)
    [sample_call "a" 1000 "off"; sample_call "a" 20000 "off"]).1).
Proof.
  apply (wake_accepted_once sample_config [sample_call "a" 1000 "off"; sample_call "a" 20000 "off"] _
    (wake_run sample_config (new_engine sample_config) [sample_call "a" 1000 "off"; sample_call "a" 20000 "off"]).2).
  - apply surjective_pairing.
  - vm_compute. lia.
Defined.

(** ** The supervisor *)

Definition sample_wol : WakeOnLanActuator := mkWol [2; 0; 0; 0; 0; 1]%N "255.255.255.255" 9 2.

Definition sample_dispatcher (backend : wake_backend) : FounderWakeDispatcher :=
  mkDispatcher "founder" {[ backend_method backend := backend ]}
    (list_to_map [("awake", None); ("suspended", Some (backend_method backend));
                  ("off", Some (backend_method backend)); ("unknown", None)]).

Definition sample_supervisor (backend : wake_backend) : WakePowerSupervisor :=
  mkSupervisor sample_config (sample_dispatcher backend) true.

(** Hardware that works, and a network whose socket cannot broadcast. *)
Definition good_world (X : Type) (o : wop X) (s : unit) : outcome X * unit :=
  match o in wop X return outcome X * unit with
  | OpSendTo p _ _ => (Ok (Z.of_nat (length p)), tt)
  | OpNowMs => (Ok (PInt 1000), tt)
  | OpPowerState => (Ok (PStr "off"), tt)
  | OpContact _ | OpSleepMs _ | OpSocket | OpSetBroadcast | OpCloseSocket | OpWriteReason _ => (Ok tt, tt)
  end.

Definition broken_network (X : Type) (o : wop X) (s : unit) : outcome X * unit :=
  match o in wop X return outcome X * unit with
  | OpSetBroadcast => (raise OSError "network is unreachable", tt)
  | o => good_world _ o s
  end.

Definition is_hardware (e : wevent) : bool :=
  match e with EContact _ _ | ESendTo _ _ _ _ => true | _ => false end.


Definition wake_attempt (backend : wake_backend) : engine * wake_prog WakeSupervisorOutcome :=
  handle_authenticated_payload (sample_supervisor backend) (new_engine sample_config)
    (request_bytes "wake-1" 1000) "seat-node" (PInt 1000) (PStr "off").

Definition contact_run := run wlog good_world (wake_attempt (PowerButton 250)).2 tt.

Lemma contact_run_steps : steps wlog (wake_attempt (PowerButton 250)).2 contact_run.1.2 (of_outcome contact_run.1.1).
Proof.
  unfold contact_run. destruct (run wlog good_world _ tt) as [[o tr] s] eqn:Hr.
  exact (run_exec wlog good_world _ _ _ _ _ Hr).
Qed.


(** The contact is released: every execution of a pulse that closed the contact ends
    with a request to open it again, whatever the sleep or the hardware raise, and it
    reports success exactly when the sleep and the opening succeeded. *)
Theorem contact_always_released ms tr o :
  exec wlog (pulse_contact ms) tr o ->
  (exists e, tr = [EContact true (Err e)] /\ o <> Ok tt) \/
  (exists slept opened, tr = [EContact true (Ok tt); ESleepMs ms slept; EContact false opened] /\
     (o = Ok tt <-> is_ok slept = true /\ is_ok opened = true)).
Proof. intros Hx. exact (wpt_exec wlog _ _ _ _ _ Hx (wpt_pulse_contact ms)). Qed.

Lemma contact_always_released_witness :
  exists slept opened, [EContact true (Ok tt); ESleepMs 250 (raise OSError "interrupted"); EContact false (Ok tt)]
    = [EContact true (Ok tt); ESleepMs 250 slept; EContact false opened].
Proof.
  destruct (contact_always_released 250
    [EContact true (Ok tt); ESleepMs 250 (raise OSError "interrupted"); EContact false (Ok tt)]
    (raise ActuationError "power-button contact pulse failed: interrupted"))
    as [(e & He & _)|(slept & opened & He & _)].
  - repeat (apply (steps_cons wlog)). constructor.
  - discriminate.
  - exists slept, opened. exact He.
Defined.

(** A wake can be lost: the decision on a request is remembered before it is carried
    out, so when the first dispatch fails without one datagram sent, the retransmission of
    the same request is answered as accepted and asks the hardware for nothing. *)
Theorem failed_wake_acknowledged_on_retry :
  let first := wake_attempt (WakeOnLan sample_wol) in
  let again := handle_authenticated_payload (sample_supervisor (WakeOnLan sample_wol)) first.1
                 (request_bytes "wake-1" 1000) "seat-node" (PInt 2000) (PStr "off") in
  let failed := run wlog broken_network first.2 tt in
  let retried := run wlog good_world again.2 tt in
  match failed.1.1 with Err e => exn_class e = ActuationError | Ok _ => False end /\
  existsb is_hardware failed.1.2 = false /\
  match retried.1.1 with Ok out => accepted (so_decision out) = true | Err _ => False end /\
  retried.1.2 = [].
Proof. vm_compute. split_and!; reflexivity. Qed.

(** What the reason store writes for a decision of the engine is read back as valid,
    with every field as it was recorded. *)
Theorem wake_reason_round_trip d text :
  wf_wake_decision d -> reason_record d = Ok text ->
  reason_load (Some text) = Ok (Some (stored_snapshot d)) /\
  get (stored_snapshot d) "request_id" = PStr (wd_request_id d) /\
  get (stored_snapshot d) "reason" = PStr (wd_reason d) /\
  get (stored_snapshot d) "accepted_at_ms" = PInt (evaluated_at_ms d) /\
  get (stored_snapshot d) "authority" = PStr "none".
Proof. intros Hwf Hrec. split; [by apply reason_load_record|done]. Qed.

Definition sample_wake_decision : WakePolicyDecision :=
  match (wake_step sample_config (new_engine sample_config) (sample_call "a" 1000 "off")).1 with
  | Ok d => d
  | Err _ => mkWakeDecision "" "" "" "" "" false "" "" 0 "" [] "" false false false false ""
  end.

Lemma wake_reason_round_trip_witness :
  reason_load (Some (dumps (JObj (reason_snapshot sample_wake_decision)) +:+ newline))
  = Ok (Some (stored_snapshot sample_wake_decision)).
Proof.
  apply (wake_reason_round_trip sample_wake_decision).
  - vm_compute. reflexivity.
  - vm_compute. reflexivity.
Defined.
