(* ===== verification/PyFloat.v ===== *)
(** Python's floats: IEEE binary64 data with the comparisons, arithmetic, [round] and
    [%.nf] formatting that the scheduling code uses, and [sorted] with a key.

    Comparisons with a NaN are false, as in Python, so [x < y] and [not x >= y] differ. *)

From stdpp Require Import base gmap sets list strings sorting.
From Stdlib Require Import ZArith Ascii SpecFloat.
From S2P Require Import Prelude PyText PyVal Json.

Abbreviation float := spec_float.

(** ** Operations *)

Definition fadd : float -> float -> float := SFadd 53 1024.
Definition fsub : float -> float -> float := SFsub 53 1024.
Definition fmul : float -> float -> float := SFmul 53 1024.
Definition flt : float -> float -> bool := SFltb.
Definition fle : float -> float -> bool := SFleb.
Definition feq : float -> float -> bool := SFeqb.
Definition fneg : float -> float := SFopp.

(** [max(a, b)] and [min(a, b)]: the first unless the second is strictly beyond it. *)
Definition fmax (a b : float) : float := if flt a b then b else a.
Definition fmin (a b : float) : float := if flt b a then b else a.

Definition fnan (f : float) : bool := match f with S754_nan => true | _ => false end.
Definition ffinite (f : float) : bool :=
  match f with S754_zero _ | S754_finite _ _ _ => true | _ => false end.

(** The literal [n * 10 ^ e]. *)
Definition flit (n e : Z) : float := float_of_decimal false n e.

Definition f0 : float := S754_zero false.
Definition f1 : float := float_of_Z 1.

(** [a / b] of two integers: the quotient, rounded once. *)
Definition true_div (a b : Z) : outcome float :=
  let signed (s : bool) (p : positive) := S754_finite s p 0 in
  let divisor := match b with Z0 => None | Zpos q => Some (signed false q) | Zneg q => Some (signed true q) end in
  match divisor with
  | None => raise OtherError "division by zero"
  | Some d =>
      Ok (match a with
          | Z0 => S754_zero (b <? 0)%Z
          | Zpos p => SFdiv 53 1024 (signed false p) d
          | Zneg p => SFdiv 53 1024 (signed true p) d
          end)
  end.

(** The integer nearest to [n / d], ties to even. *)
Definition div_half_even (n d : Z) : Z :=
  let (q, r) := Z.div_eucl n d in
  match (2 * r ?= d)%Z with
  | Lt => q
  | Gt => q + 1
  | Eq => if Z.even q then q else q + 1
  end%Z.

(** The integer nearest to [m * 2 ^ e * 10 ^ k]. *)
Definition scaled (k m e : Z) : Z :=
  let n := (m * 10 ^ k)%Z in
  if (0 <=? e)%Z then (n * 2 ^ e)%Z else div_half_even n (2 ^ (- e)).

(** [round(f, k)] *)
Definition py_round (k : Z) (f : float) : float :=
  match f with
  | S754_finite s m e => float_of_decimal s (scaled k (Zpos m) e) (- k)
  | _ => f
  end.

Fixpoint pad_left (n : nat) (s : string) : string :=
  match n with O => s | S n => if String.length s <=? n then String "0" (pad_left n s) else s end.

(** The digits of [n / 10 ^ k] with [k] decimals. *)
Definition fixed_digits (k n : Z) : string :=
  str_of_Z (n / 10 ^ k) +:+ "." +:+ pad_left (Z.to_nat k) (str_of_Z (n mod 10 ^ k)).

(** ["%.kf" % f] *)
Definition fixed (k : Z) (f : float) : string :=
  let sign (s : bool) := if s then "-" else "" in
  match f with
  | S754_nan => "nan"
  | S754_infinity s => sign s +:+ "inf"
  | S754_zero s => sign s +:+ fixed_digits k 0
  | S754_finite s m e => sign s +:+ fixed_digits k (scaled k (Zpos m) e)
  end.

(** [sorted(l, key=...)] for a key with the strict order [lt]: a stable sort. *)
Section Sorted.
Context {A : Type} (lt : A -> A -> bool).

Fixpoint sort_insert (x : A) (l : list A) : list A :=
  match l with
  | [] => [x]
  | y :: l' => if lt y x then y :: sort_insert x l' else x :: l
  end.

Definition py_sorted (l : list A) : list A := foldr sort_insert [] l.
End Sorted.

(** [a < b] of two strings. *)
Definition str_lt (a b : string) : bool := negb (bool_decide (String.le b a)).

Example third : outcome_map (fixed 2) (true_div 2 3) = Ok "0.67".
Proof. reflexivity. Qed.
Example round_down : py_round 4 (flit 123449999 (-9)) = flit 1234 (-4).
Proof. reflexivity. Qed.
Example half_even : (fixed 2 (flit 125 (-3)), fixed 2 (flit 375 (-3)), fixed 2 (flit 5 (-2)))
  = ("0.12", "0.38", "0.05").
Proof. reflexivity. Qed.
Example point_three : feq (fadd (flit 1 (-1)) (flit 2 (-1))) (flit 3 (-1)) = false.
Proof. reflexivity. Qed.

(** ** The order *)

(** A float's place: sign class, then exponent and mantissa outwards from zero. *)
Definition float_place (f : float) : option (Z * Z * Z) :=
  match f with
  | S754_nan => None
  | S754_infinity s => Some (if s then -2 else 2, 0, 0)%Z
  | S754_zero _ => Some (0, 0, 0)%Z
  | S754_finite s m e => Some (if s then (-1, - e, Zneg m) else (1, e, Zpos m))%Z
  end.

Definition float_place_lt (a b : Z * Z * Z) : Prop :=
  (a.1.1 < b.1.1 \/ a.1.1 = b.1.1 /\ (a.1.2 < b.1.2 \/ a.1.2 = b.1.2 /\ a.2 < b.2))%Z.

Lemma place_compare f g :
  match float_place f, float_place g with
  | Some a, Some b =>
      match SFcompare f g with
      | Some Lt => float_place_lt a b | Some Gt => float_place_lt b a | Some Eq => a = b | None => False end
  | _, _ => SFcompare f g = None
  end.
Proof.
  unfold float_place_lt. destruct f as [[]|[]| |[] m e], g as [[]|[]| |[] n d]; cbn; try done; try lia.
  all: try (left; lia).
  - destruct (Z.compare_spec e d); cbn; try (right; lia).
    fold (Pos.compare m n). destruct (Pos.compare_spec m n); cbn; subst; try done; right; lia.
  - destruct (Z.compare_spec e d); cbn; try (right; lia).
    fold (Pos.compare m n). destruct (Pos.compare_spec m n); cbn; subst; try done; right; lia.
Qed.

Lemma float_place_nan f : float_place f = None <-> fnan f = true.
Proof. by destruct f as [[]|[]| |[] ? ?]. Qed.

(** The comparisons, read off the places. *)
Lemma flt_place f g :
  flt f g = true <-> exists a b, float_place f = Some a /\ float_place g = Some b /\ float_place_lt a b.
Proof.
  pose proof (place_compare f g) as H. unfold flt, SFltb.
  destruct (float_place f) as [a|], (float_place g) as [b|]; try (rewrite H; naive_solver).
  destruct (SFcompare f g) as [[]|]; subst; unfold float_place_lt in *; split; try done.
  all: try (intros _; do 2 eexists; split_and!; done).
  all: intros (? & ? & [= <-] & [= <-] & ?); lia.
Qed.

Lemma fle_place f g :
  fle f g = true <-> exists a b, float_place f = Some a /\ float_place g = Some b /\ ~ float_place_lt b a.
Proof.
  pose proof (place_compare f g) as H. unfold fle, SFleb.
  destruct (float_place f) as [a|], (float_place g) as [b|]; try (rewrite H; naive_solver).
  destruct (SFcompare f g) as [[]|]; subst; unfold float_place_lt in *; split; try done.
  all: try (intros _; do 2 eexists; split_and!; try done; lia).
  all: intros (? & ? & [= <-] & [= <-] & ?); lia.
Qed.

Ltac place_solve :=
  intros; rewrite ?flt_place, ?fle_place in *; unfold float_place_lt in *;
  repeat match goal with
  | H : exists _, _ |- _ => destruct H
  | H : _ /\ _ |- _ => destruct H
  | H1 : float_place ?x = Some _, H2 : float_place ?x = Some _ |- _ => rewrite H1 in H2; injection H2 as <-
  end.

Lemma flt_irrefl f : flt f f = false.
Proof. apply not_true_iff_false. intros ?. place_solve. lia. Qed.

Lemma fle_trans f g h : fle f g = true -> fle g h = true -> fle f h = true.
Proof. place_solve. do 2 eexists. split_and!; [done..|]. lia. Qed.

Lemma flt_trans f g h : flt f g = true -> flt g h = true -> flt f h = true.
Proof. place_solve. do 2 eexists. split_and!; [done..|]. lia. Qed.

Lemma flt_fle f g : flt f g = true -> fle f g = true.
Proof. place_solve. do 2 eexists. split_and!; [done..|]. lia. Qed.

Lemma flt_fle_trans f g h : flt f g = true -> fle g h = true -> flt f h = true.
Proof. place_solve. do 2 eexists. split_and!; [done..|]. lia. Qed.

Lemma fle_flt_trans f g h : fle f g = true -> flt g h = true -> flt f h = true.
Proof. place_solve. do 2 eexists. split_and!; [done..|]. lia. Qed.

Lemma fle_not_nan f g : fle f g = true -> fnan f = false /\ fnan g = false.
Proof.
  place_solve. split; apply not_true_iff_false; rewrite <- float_place_nan; congruence.
Qed.

(** Of two numbers, one is at most the other: negation swaps [<] and [<=]. *)
Lemma flt_negb f g : fnan f = false -> fnan g = false -> flt f g = negb (fle g f).
Proof.
  intros Hf Hg. apply not_true_iff_false in Hf, Hg. rewrite <- float_place_nan in Hf, Hg.
  destruct (float_place f) as [a|] eqn:Ha; [|done]. destruct (float_place g) as [b|] eqn:Hb; [|done].
  apply eq_true_iff_eq. rewrite negb_true_iff, <- not_true_iff_false, flt_place, fle_place, Ha, Hb.
  split.
  - intros (? & ? & [= <-] & [= <-] & H) (? & ? & [= <-] & [= <-] & H'). done.
  - intros H. do 2 eexists. split_and!; [done..|]. unfold float_place_lt in *.
    destruct (Z.lt_total a.1.1 b.1.1) as [|[]]; [lia| |].
    all: apply dec_stable; intros Hn; apply H; do 2 eexists; split_and!; [done..|]; lia.
Qed.

(** ** Bounded mantissas: what a rounded operation returns fits in 53 bits *)

Definition fits (f : float) : Prop :=
  match f with S754_finite _ m _ => (Zpos m < 2 ^ 53)%Z | _ => True end.

Lemma digits2_pos_bound p : (2 ^ (Zpos (digits2_pos p) - 1) <= Zpos p < 2 ^ Zpos (digits2_pos p))%Z.
Proof.
  induction p as [p IH|p IH|]; cbn [digits2_pos]; [..|lia].
  all: rewrite Pos2Z.inj_succ, Z.pow_succ_r by lia.
  all: replace (Z.succ (Zpos (digits2_pos p)) - 1)%Z with (Z.succ (Zpos (digits2_pos p) - 1)) by lia.
  all: rewrite Z.pow_succ_r by lia; lia.
Qed.

Lemma shr_1_bound k r : (0 <= shr_m r < 2 ^ Z.succ k)%Z -> (0 <= k)%Z ->
  (0 <= shr_m (shr_1 r) < 2 ^ k)%Z.
Proof.
  intros Hr Hk. rewrite Z.pow_succ_r in Hr by done. destruct r as [[|[p|p|]|[p|p|]] ? ?]; cbn in *; lia.
Qed.

Lemma iter_shr_1_bound n : forall k r, (0 <= k)%Z -> (0 <= shr_m r < 2 ^ (k + Zpos n))%Z ->
  (0 <= shr_m (iter_pos shr_1 n r) < 2 ^ k)%Z.
Proof.
  induction n as [n IH|n IH|]; intros k r Hk Hr; cbn [iter_pos].
  - apply IH, IH; [lia..|]. apply shr_1_bound; [|lia].
    by replace (Z.succ (k + Zpos n + Zpos n)) with (k + Zpos n~1)%Z by lia.
  - apply IH, IH; [lia..|]. by replace (k + Zpos n + Zpos n)%Z with (k + Zpos n~0)%Z by lia.
  - apply shr_1_bound; [|done]. by replace (Z.succ k) with (k + 1)%Z by lia.
Qed.

(** A shift to the exponent of the format leaves at most 53 bits. *)
Lemma shr_fexp_bound m e l : (0 <= m)%Z -> (0 <= shr_m (shr_fexp 53 1024 m e l).1 < 2 ^ 53)%Z.
Proof.
  intros Hm. unfold shr_fexp. set (r := shr_record_of_loc m l).
  assert (shr_m r = m) as Hr by (by destruct l as [|[]]).
  assert (0 <= m < 2 ^ Zdigits2 m)%Z as Hd.
  { destruct m as [|p|p]; [cbn; lia| |done]. cbn. pose proof (digits2_pos_bound p). lia. }
  assert (Zdigits2 m - 53 <= fexp 53 1024 (Zdigits2 m + e) - e)%Z as Hfe by (unfold fexp; lia).
  destruct (fexp 53 1024 (Zdigits2 m + e) - e)%Z as [|n|n] eqn:Hn; cbn [shr fst].
  - rewrite Hr. split; [lia|]. eapply Z.lt_le_trans; [apply Hd|]. apply Z.pow_le_mono_r; lia.
  - apply iter_shr_1_bound; [lia|]. rewrite Hr. split; [lia|].
    eapply Z.lt_le_trans; [apply Hd|]. apply Z.pow_le_mono_r; lia.
  - rewrite Hr. split; [lia|]. eapply Z.lt_le_trans; [apply Hd|]. apply Z.pow_le_mono_r; lia.
Qed.

Lemma binary_round_aux_fits s m e l : (0 <= m)%Z -> fits (binary_round_aux 53 1024 s m e l).
Proof.
  intros Hm0.   unfold binary_round_aux. destruct (shr_fexp 53 1024 m e l) as [r1 e1] eqn:H1.
  assert (0 <= shr_m r1)%Z as Hr1.
  { pose proof (shr_fexp_bound m e l Hm0) as H. rewrite H1 in H. apply H. }
  assert (0 <= round_nearest_even (shr_m r1) (loc_of_shr_record r1))%Z as Hm.
  { destruct (loc_of_shr_record r1) as [|[]]; cbn; try destruct (Z.even _); lia. }
  pose proof (shr_fexp_bound _ e1 loc_Exact Hm) as H2.
  destruct (shr_fexp _ _ (round_nearest_even _ _) e1 loc_Exact) as [r2 e2]. cbn [fst] in H2.
  destruct (shr_m r2); try done. case_match; [|done]. apply H2.
Qed.

Lemma binary_normalize_fits m e s : fits (binary_normalize 53 1024 m e s).
Proof.
  destruct m; [done|..]; cbn; unfold binary_round; case_match; by apply binary_round_aux_fits.
Qed.

Lemma fmul_fits f g : fits (fmul f g).
Proof.
  destruct f as [[]|[]| |[] ? ?], g as [[]|[]| |[] ? ?]; try exact I; by apply binary_round_aux_fits.
Qed.

Lemma fadd_fits f g : fits f -> fits g -> fits (fadd f g).
Proof.
  destruct f as [[]|[]| |[] ? ?], g as [[]|[]| |[] ? ?]; intros ? ?; try exact I; try done;
    apply binary_normalize_fits.
Qed.

Lemma fsub_fits f g : fits f -> fits g -> fits (fsub f g).
Proof.
  destruct f as [[]|[]| |[] ? ?], g as [[]|[]| |[] ? ?]; intros ? ?; try exact I; try done;
    apply binary_normalize_fits.
Qed.

#[export] Hint Resolve fmul_fits fadd_fits fsub_fits : py.

(** ** The unit interval *)

(** [0.0 <= f <= 1.0] *)
Definition in_unit (f : float) : bool := fle f0 f && fle f f1.

Lemma in_unit_clamp f : in_unit (fmax f0 (fmin f f1)) = true.
Proof.
  unfold in_unit, fmax, fmin. destruct (flt f1 f) eqn:H1; [done|].
  destruct (flt f0 f) eqn:H0; [|done]. rewrite flt_fle by done. cbn.
  destruct (fle f f1) eqn:Hle; [done|]. exfalso.
  destruct (fle_not_nan f0 f (flt_fle _ _ H0)) as [_ Hn].
  by rewrite (flt_negb f1 f), Hle in H1 by done.
Qed.

Lemma in_unit_not_nan f : in_unit f = true -> fnan f = false.
Proof. unfold in_unit. intros [H _]%andb_true_iff. apply (fle_not_nan _ _ H). Qed.

Lemma div_half_even_bound n d q : (0 < d)%Z -> (0 <= n <= q * d)%Z -> (0 <= div_half_even n d <= q)%Z.
Proof.
  intros Hd Hn. unfold div_half_even. pose proof (Z.div_eucl_eq n d ltac:(lia)) as Heq.
  pose proof (Z.mod_pos_bound n d Hd) as Hr. unfold Z.modulo in Hr.
  destruct (Z.div_eucl n d) as [x r]. destruct (Z.compare_spec (2 * r) d); try destruct (Z.even x); nia.
Qed.

Lemma Zdigits2_bound m : (0 <= m)%Z -> (m < 2 ^ Zdigits2 m)%Z /\ (0 < m -> 2 ^ (Zdigits2 m - 1) <= m)%Z.
Proof. destruct m as [|p|p]; intros H; [cbn; lia| |lia]. cbn [Zdigits2]. pose proof (digits2_pos_bound p). lia. Qed.

Lemma Zdigits2_le m k : (0 <= k)%Z -> (0 <= m < 2 ^ k)%Z -> (Zdigits2 m <= k)%Z.
Proof.
  intros Hk [Hm Hlt]. destruct m as [|p|p]; [done| |lia]. destruct (Zdigits2_bound (Zpos p) Hm) as [_ H].
  specialize (H eq_refl). destruct (Z.le_gt_cases (Zdigits2 (Zpos p)) k) as [|Hgt]; [done|].
  assert (2 ^ k <= 2 ^ (Zdigits2 (Zpos p) - 1))%Z by (apply Z.pow_le_mono_r; lia). lia.
Qed.

(** A shift whose exponent stays below. *)
Lemma shr_fexp_exponent m e l k : (0 <= m < 2 ^ k)%Z -> (0 <= k)%Z -> (-1074 <= e)%Z -> (k + e <= 0)%Z -> (e <= -53)%Z ->
  (-1074 <= (shr_fexp 53 1024 m e l).2 <= -53)%Z.
Proof.
  intros Hm Hk He Hke Hle. unfold shr_fexp, fexp, emin, shr. pose proof (Zdigits2_le m k Hk Hm) as Hd.
  destruct (Z.max (Zdigits2 m + e - 53) (3 - 1024 - 53) - e)%Z eqn:Hn; cbn [snd]; lia.
Qed.

(** Rounding a value below one gives at most one. *)
Lemma round_below_one m e l : (0 <= m < 2 ^ (- e))%Z -> (-1074 <= e <= -53)%Z ->
  in_unit (binary_round_aux 53 1024 false m e l) = true.
Proof.
  intros Hm He. unfold binary_round_aux.
  pose proof (shr_fexp_bound m e l ltac:(lia)) as H1.
  pose proof (shr_fexp_exponent m e l (- e) Hm ltac:(lia) ltac:(lia) ltac:(lia) ltac:(lia)) as E1.
  destruct (shr_fexp 53 1024 m e l) as [r1 e1]. cbn [fst snd] in *.
  set (m1 := round_nearest_even (shr_m r1) (loc_of_shr_record r1)).
  assert (0 <= m1 <= 2 ^ 53)%Z as Hm1.
  { unfold m1, round_nearest_even. destruct (loc_of_shr_record r1) as [|[]]; try destruct (Z.even _); lia. }
  pose proof (shr_fexp_bound m1 e1 loc_Exact ltac:(lia)) as H2.
  assert (let r := shr_fexp 53 1024 m1 e1 loc_Exact in (r.2 <= -53 \/ r.2 = -52 /\ shr_m r.1 <= 2 ^ 52)%Z) as E2.
  { destruct (Z.eq_dec m1 (2 ^ 53)) as [Heq|Hne].
    - unfold shr_fexp, fexp, emin. rewrite Heq. change (Zdigits2 (2 ^ 53)) with 54%Z.
      replace (Z.max (54 + e1 - 53) (3 - 1024 - 53) - e1)%Z with 1%Z by lia. cbn [shr iter_pos]. cbn [fst snd].
      change (shr_m (shr_1 (shr_record_of_loc (2 ^ 53) loc_Exact))) with (2 ^ 52)%Z. lia.
    - left. unfold shr_fexp, fexp, emin. pose proof (Zdigits2_le m1 53 ltac:(lia) ltac:(lia)).
      destruct (Z.max (Zdigits2 m1 + e1 - 53) (3 - 1024 - 53) - e1)%Z eqn:Hn; cbn [shr snd]; lia. }
  destruct (shr_fexp 53 1024 m1 e1 loc_Exact) as [r2 e2]. cbn [fst snd] in *.
  destruct (shr_m r2) as [|p|p]; [done| |lia].
  destruct (Z.leb e2 (1024 - 53)) eqn:Hz; [|lia]. unfold in_unit. apply andb_true_iff.
  split; [done|]. apply fle_place. exists (1, e2, Zpos p)%Z, (1, -52, 2 ^ 52)%Z. split_and!; [done|vm_compute; reflexivity|].
  unfold float_place_lt. cbn [fst snd]. lia.
Qed.

Lemma SFdiv_unit p d : (Zpos p < Zpos d)%Z ->
  (-1021 <= Zdigits2 (Zpos p) - Zdigits2 (Zpos d))%Z ->
  in_unit (SFdiv 53 1024 (S754_finite false p 0) (S754_finite false d 0)) = true.
Proof.
  intros Hlt Hr. unfold SFdiv, SFdiv_core_binary.
  destruct (Zdigits2_bound (Zpos p) ltac:(lia)) as [_ Hp]. destruct (Zdigits2_bound (Zpos d) ltac:(lia)) as [Hd _].
  specialize (Hp eq_refl).
  assert (Zdigits2 (Zpos p) <= Zdigits2 (Zpos d))%Z as Hdig.
  { destruct (Z.le_gt_cases (Zdigits2 (Zpos p)) (Zdigits2 (Zpos d))) as [|Hgt]; [done|].
    assert (2 ^ Zdigits2 (Zpos d) <= 2 ^ (Zdigits2 (Zpos p) - 1))%Z by (apply Z.pow_le_mono_r; lia). lia. }
  rewrite !Z.add_0_r, Z.sub_0_r.
  assert (0 <= Zdigits2 (Zpos p))%Z by (cbn; lia).
  set (e := Z.min (fexp 53 1024 (Zdigits2 (Zpos p) - Zdigits2 (Zpos d))) 0).
  assert (-1074 <= e <= -53)%Z as He by (unfold e, fexp, emin; lia).
  destruct (0 - e)%Z as [|s|s] eqn:Hs; try lia.
  rewrite Z.shiftl_mul_pow2 by lia. pose proof (Z.div_eucl_eq (Zpos p * 2 ^ Zpos s) (Zpos d) ltac:(lia)) as Heq.
  pose proof (Z.mod_pos_bound (Zpos p * 2 ^ Zpos s) (Zpos d) ltac:(lia)) as Hmod. unfold Z.modulo in Hmod.
  destruct (Z.div_eucl (Zpos p * 2 ^ Zpos s) (Zpos d)) as [q r]. apply round_below_one; [|done].
  replace (- e)%Z with (Zpos s) by lia. nia.
Qed.

(** A decimal fraction between 0 and 1, as a float; that the last one is 1.0 is computed. *)
Lemma decimal_unit k n : (0 < k <= 300)%Z -> in_unit (float_of_decimal false (10 ^ k) (- k)) = true ->
  (0 <= n <= 10 ^ k)%Z -> in_unit (float_of_decimal false n (- k)) = true.
Proof.
  intros Hk Hone Hn. destruct (Z.eq_dec n (10 ^ k)) as [->|Hne]; [done|].
  destruct n as [|p|p]; [done| |lia]. destruct k as [|k|k]; try lia. cbn [float_of_decimal Z.opp].
  apply SFdiv_unit; rewrite Pos2Z.inj_pow; [lia|].
  assert (Zdigits2 (10 ^ Zpos k) <= 1000)%Z as Hd.
  { apply Zdigits2_le; [done|]. split; [lia|]. apply Z.le_lt_trans with (10 ^ 300)%Z; [apply Z.pow_le_mono_r; lia|].
    vm_compute. reflexivity. }
  cbn [Zdigits2] in *. lia.
Qed.

Lemma in_unit_round_at k f : (0 < k <= 300)%Z -> in_unit (float_of_decimal false (10 ^ k) (- k)) = true ->
  fits f -> in_unit f = true -> in_unit (py_round k f) = true.
Proof.
  intros Hk Hone Hfit Hu. destruct f as [s|s| |s m e]; try done.
  destruct s; [by destruct m|]. unfold in_unit in Hu. apply andb_true_iff in Hu as [_ Hu].
  assert (e <= -53 \/ e = -52 /\ Zpos m <= 2 ^ 52)%Z as He.
  { apply fle_place in Hu as (a & b & [= <-] & Hb & Hu). vm_compute in Hb. injection Hb as <-.
    unfold float_place_lt in Hu. cbn [fst snd] in Hu. lia. }
  cbn [fits] in Hfit. cbn [py_round]. apply decimal_unit; [done..|].
  unfold scaled. destruct (Z.leb_spec 0 e); [lia|]. apply div_half_even_bound; [lia|].
  assert (Zpos m <= 2 ^ (- e))%Z; [|nia]. destruct He as [He|[-> He]]; [|lia].
  assert (2 ^ 53 <= 2 ^ (- e))%Z by (apply Z.pow_le_mono_r; lia). lia.
Qed.

Lemma in_unit_round f : fits f -> in_unit f = true -> in_unit (py_round 4 f) = true.
Proof. apply in_unit_round_at; [done|vm_compute; reflexivity]. Qed.

(** ** Signs *)

(** No sign bit; a NaN has none. *)
Definition unsigned (f : float) : Prop :=
  match f with S754_zero s | S754_infinity s | S754_finite s _ _ => s = false | S754_nan => True end.

Lemma binary_round_aux_unsigned m e l : unsigned (binary_round_aux 53 1024 false m e l).
Proof. unfold binary_round_aux. repeat case_match; done. Qed.

(** The sum of numbers without a sign; a negative zero may be added. *)
Lemma fadd_unsigned f g : unsigned f -> fle f0 g = true -> unsigned (fadd f g).
Proof.
  destruct f as [s|s| |s m e], g as [[]|[]| |[] n d]; cbn [unsigned]; intros Hf Hg; subst; try done.
  unfold fadd, SFadd. cbn [cond_Zopp].
  match goal with |- context [binary_normalize _ _ ?x _ _] => assert (0 < x)%Z by lia; destruct x; [done| |done] end.
  cbn [binary_normalize]. unfold binary_round. case_match. apply binary_round_aux_unsigned.
Qed.

Lemma SFdiv_unsigned f g : unsigned f -> unsigned g -> unsigned (SFdiv 53 1024 f g).
Proof.
  destruct f as [s|s| |s m e], g as [t|t| |t n d]; cbn; intros Hf Hg; subst; try done.
  destruct (SFdiv_core_binary _ _ _ _ _ _) as [[q x] l]. apply binary_round_aux_unsigned.
Qed.

Lemma SFdiv_fits f g : fits (SFdiv 53 1024 f g).
Proof.
  destruct f as [s|s| |s m e], g as [t|t| |t n d]; try done. cbn [SFdiv].
  unfold SFdiv_core_binary. set (shifted := match _ with Z0 => _ | Zpos _ => _ | Zneg _ => _ end).
  assert (0 <= shifted)%Z as Hs.
  { unfold shifted. destruct (_ - _)%Z; try lia. apply Z.shiftl_nonneg. lia. }
  pose proof (Z.div_pos shifted (Zpos n) Hs eq_refl) as Hq. unfold Z.div in Hq.
  destruct (Z.div_eucl shifted (Zpos n)) as [q r]. by apply binary_round_aux_fits.
Qed.

Lemma in_unit_fmin f : unsigned f -> in_unit (fmin f1 f) = true.
Proof.
  unfold fmin. intros Hf. destruct (flt f f1) eqn:Hlt; [|done]. unfold in_unit. rewrite (flt_fle _ _ Hlt), andb_true_r.
  by destruct f as [s|s| |s m e]; cbn in Hf; subst.
Qed.

Lemma feq_fle f g : fle f g = false -> feq f g = false.
Proof. unfold fle, feq, SFleb, SFeqb. by destruct (SFcompare f g) as [[]|]. Qed.

(** ** Sorting *)

Section SortedFacts.
Context {A : Type} (lt : A -> A -> bool).

Lemma sort_insert_perm x l : sort_insert lt x l ≡ₚ x :: l.
Proof.
  induction l as [|y l IH]; [done|]. cbn. destruct (lt y x); [|done]. rewrite IH. apply perm_swap.
Qed.

Lemma py_sorted_perm l : py_sorted lt l ≡ₚ l.
Proof. induction l as [|x l IH]; [done|]. cbn. by rewrite sort_insert_perm, IH. Qed.

(** On values whose keys [P] holds of, [lt] is a strict weak order. *)
Context (P : A -> Prop).
Context (lt_asym : forall x y, P x -> P y -> lt x y = true -> lt y x = false).
Context (lt_weak : forall x y z, P x -> P y -> P z -> lt x y = true -> lt z y = false -> lt x z = true).

Definition not_after (x y : A) : Prop := lt y x = false.

Lemma sort_insert_sorted x l : P x -> Forall P l ->
  StronglySorted not_after l -> StronglySorted not_after (sort_insert lt x l).
Proof using lt_asym lt_weak.
  intros Hx Hl Hs. induction Hs as [|y l Hs IH Hy]; cbn; [by repeat constructor|].
  inversion Hl as [|? ? Py Pl]; subst. destruct (lt y x) eqn:Hyx.
  - constructor; [by apply IH|]. rewrite sort_insert_perm. constructor; [|done]. by apply lt_asym.
  - constructor; [by constructor|]. constructor; [done|].
    rewrite Forall_forall in *. intros z Hz. unfold not_after.
    destruct (lt z x) eqn:Hzx; [|done]. specialize (Hy z Hz). unfold not_after in Hy.
    by rewrite (lt_weak z x y) in Hy by auto.
Qed.

Lemma py_sorted_sorted l : Forall P l -> StronglySorted not_after (py_sorted lt l).
Proof using lt_asym lt_weak.
  induction 1 as [|x l Hx Hl IH]; [constructor|].
  change (py_sorted lt (x :: l)) with (sort_insert lt x (py_sorted lt l)).
  apply sort_insert_sorted; [done| |done]. by rewrite py_sorted_perm.
Qed.

(** The first element is a minimum. *)
Lemma py_sorted_head l x rest : Forall P l -> py_sorted lt l = x :: rest ->
  x ∈ l /\ forall y, y ∈ l -> y = x \/ lt y x = false.
Proof using lt_asym lt_weak.
  intros HP Hs. pose proof (py_sorted_sorted l HP) as Hss. rewrite Hs in Hss.
  assert (forall z, z ∈ l <-> z ∈ x :: rest) as Hin by (intros; by rewrite <- Hs, py_sorted_perm).
  split; [apply Hin; left|]. intros y [->|Hy]%Hin%elem_of_cons; [by left|right].
  inversion Hss as [|? ? _ Hall]; subst. rewrite Forall_forall in Hall. by apply Hall.
Qed.
End SortedFacts.

(** Negation reverses the order. *)
Lemma compare_neg f g : SFcompare (fneg f) (fneg g) = SFcompare g f.
Proof.
  destruct f as [[]|[]| |[] m e], g as [[]|[]| |[] n d]; try done; cbn;
    rewrite (Z.compare_antisym d e); destruct (Z.compare d e); try done; cbn;
    fold (Pos.compare m n) (Pos.compare n m); by rewrite (Pos.compare_antisym m n), ?CompOpp_involutive.
Qed.

Lemma flt_neg f g : flt (fneg f) (fneg g) = flt g f.
Proof. unfold flt, SFltb. by rewrite compare_neg. Qed.

Lemma feq_neg f g : feq (fneg f) (fneg g) = feq g f.
Proof. unfold feq, SFeqb. by rewrite compare_neg. Qed.

Lemma feq_place f g a b : float_place f = Some a -> float_place g = Some b -> feq f g = true <-> a = b.
Proof.
  intros Ha Hb. pose proof (place_compare f g) as H. rewrite Ha, Hb in H.
  unfold feq, SFeqb. destruct (SFcompare f g) as [[]|]; unfold float_place_lt in H; split; try done.
  all: intros ->; lia.
Qed.

Lemma flt_place' f g a b : float_place f = Some a -> float_place g = Some b ->
  flt f g = true <-> float_place_lt a b.
Proof. intros Ha Hb. rewrite flt_place, Ha, Hb. naive_solver. Qed.

Lemma number_place f : fnan f = false -> exists a, float_place f = Some a.
Proof.
  intros H. destruct (float_place f) as [a|] eqn:Ha; [by exists a|].
  apply float_place_nan in Ha. congruence.
Qed.
