(* ===== verification/PyWhole.v ===== *)
(** Whole numbers in binary64.  Sums, differences and comparisons of integers below 2^53 are
    exact, so amounts of bytes or cores are added up by floats as by integers. *)

From stdpp Require Import base list strings.
From Stdlib Require Import ZArith Lia SpecFloat.
From S2P Require Import Prelude PyVal Json PyFloat.

#[local] Open Scope Z_scope.

(** ** Shifts by powers of two *)

Definition shifted (k : nat) (p : positive) : positive := Nat.iter k xO p.

Lemma pos_iter_shifted p k : Pos.iter xO p k = shifted (Pos.to_nat k) p.
Proof. unfold shifted. by rewrite Pos2Nat.inj_iter. Qed.

Lemma iter_pos_nat {A} (f : A -> A) n : forall x, iter_pos f n x = Nat.iter (Pos.to_nat n) f x.
Proof.
  induction n as [n IH|n IH|]; intros x; cbn [iter_pos]; [..|done]; rewrite !IH, <- Nat.iter_add.
  - rewrite Pos2Nat.inj_xI. cbn [Nat.mul]. rewrite Nat.add_0_r. symmetry. apply Nat.iter_succ_r.
  - by replace (Pos.to_nat n~0) with (Pos.to_nat n + Pos.to_nat n)%nat by lia.
Qed.

Lemma shifted_value k p : Zpos (shifted k p) = Zpos p * 2 ^ Z.of_nat k.
Proof.
  induction k as [|k IH]; [cbn; lia|]. rewrite Nat2Z.inj_succ, Z.pow_succ_r by lia.
  change (shifted (S k) p) with (xO (shifted k p)). lia.
Qed.

Lemma digits2_shifted k p : Zpos (digits2_pos (shifted k p)) = Zpos (digits2_pos p) + Z.of_nat k.
Proof.
  induction k as [|k IH]; [cbn; lia|]. change (shifted (S k) p) with (xO (shifted k p)). cbn [digits2_pos]. lia.
Qed.

Lemma shifted_add j k p : shifted (j + k) p = shifted j (shifted k p).
Proof. unfold shifted. by rewrite Nat.iter_add. Qed.

(** Dropping zero bits loses nothing. *)
Lemma shr_shifted k p :
  Nat.iter k shr_1 (Build_shr_record (Zpos (shifted k p)) false false) = Build_shr_record (Zpos p) false false.
Proof.
  revert p. induction k as [|k IH]; intros p; [done|]. rewrite Nat.iter_succ_r.
  change (shifted (S k) p) with (xO (shifted k p)). cbn [shr_1 orb]. apply IH.
Qed.

(** ** Rounding is exact *)

(** The binary64 number with the value [p]: 53 bits of mantissa. *)
Definition whole (s : bool) (p : positive) : float :=
  let d := Zpos (digits2_pos p) in S754_finite s (shifted (Z.to_nat (53 - d)) p) (d - 53).

Definition small (z : Z) : Prop := Z.abs z < 2 ^ 53.

Lemma small_digits p : small (Zpos p) -> 1 <= Zpos (digits2_pos p) <= 53.
Proof.
  unfold small. cbn [Z.abs]. intros H. pose proof (digits2_pos_bound p). split; [lia|].
  destruct (Z.le_gt_cases (Zpos (digits2_pos p)) 53) as [?|Hd]; [done|].
  assert (2 ^ 53 <= 2 ^ (Zpos (digits2_pos p) - 1)) by (apply Z.pow_le_mono_r; lia). lia.
Qed.

Lemma fexp_whole d : 1 <= d <= 53 -> fexp 53 1024 d = d - 53.
Proof. unfold fexp, emin. lia. Qed.

Lemma binary_round_aux_whole s p k e : small (Zpos p) -> 0 <= 53 - Zpos (digits2_pos p) <= Z.of_nat k ->
  e = - Z.of_nat k -> binary_round_aux 53 1024 s (Zpos (shifted k p)) e loc_Exact = whole s p.
Proof.
  intros Hp Hk ->. pose proof (small_digits p Hp) as Hd.
  set (n := Z.to_nat (53 - Zpos (digits2_pos p))).
  assert (shr_fexp 53 1024 (Zpos (shifted k p)) (- Z.of_nat k) loc_Exact
          = (Build_shr_record (Zpos (shifted n p)) false false, Zpos (digits2_pos p) - 53)) as H1.
  { unfold shr_fexp, Zdigits2. rewrite digits2_shifted.
    replace (Zpos (digits2_pos p) + Z.of_nat k + - Z.of_nat k) with (Zpos (digits2_pos p)) by lia.
    rewrite fexp_whole by done. cbn [shr_record_of_loc].
    destruct (Zpos (digits2_pos p) - 53 - - Z.of_nat k) as [|q|q] eqn:Hq; [..|lia]; cbn [shr].
    - assert (k = n) as -> by lia. f_equal. lia.
    - rewrite iter_pos_nat. assert (k = Pos.to_nat q + n)%nat as -> by lia.
      rewrite shifted_add, shr_shifted. f_equal. lia. }
  assert (shr_fexp 53 1024 (Zpos (shifted n p)) (Zpos (digits2_pos p) - 53) loc_Exact
          = (Build_shr_record (Zpos (shifted n p)) false false, Zpos (digits2_pos p) - 53)) as H2.
  { unfold shr_fexp, Zdigits2. rewrite digits2_shifted.
    replace (Zpos (digits2_pos p) + Z.of_nat n + (Zpos (digits2_pos p) - 53)) with (Zpos (digits2_pos p)) by lia.
    rewrite fexp_whole by done. replace (Zpos (digits2_pos p) - 53 - _) with 0 by lia. done. }
  unfold binary_round_aux. rewrite H1. cbn [shr_m loc_of_shr_record round_nearest_even]. rewrite H2.
  cbn [shr_m]. destruct (Z.leb_spec (Zpos (digits2_pos p) - 53) (1024 - 53)); [done|lia].
Qed.

Lemma binary_round_whole s p k e : small (Zpos p) -> e = - Z.of_nat k ->
  binary_round 53 1024 s (shifted k p) e = whole s p.
Proof.
  intros Hp ->. pose proof (small_digits p Hp) as Hd. unfold binary_round, shl_align.
  rewrite digits2_shifted.
  replace (Zpos (digits2_pos p) + Z.of_nat k + - Z.of_nat k) with (Zpos (digits2_pos p)) by lia.
  rewrite fexp_whole by done.
  destruct (Zpos (digits2_pos p) - 53 - - Z.of_nat k) as [|q|q] eqn:Hq.
  - apply binary_round_aux_whole; [done|lia|done].
  - apply binary_round_aux_whole; [done|lia|done].
  - rewrite pos_iter_shifted, <- shifted_add. apply binary_round_aux_whole; [done|lia|lia].
Qed.

Lemma float_of_pos p : small (Zpos p) -> float_of_Z (Zpos p) = whole false p.
Proof. intros H. by apply (binary_round_whole false p 0). Qed.

Lemma float_of_neg p : small (Zpos p) -> float_of_Z (Zneg p) = whole true p.
Proof. intros H. by apply (binary_round_whole true p 0). Qed.

(** A sum that has a small value rounds to that value. *)
Lemma normalize_whole z k : small z -> binary_normalize 53 1024 (z * 2 ^ Z.of_nat k) (- Z.of_nat k) false = float_of_Z z.
Proof.
  intros Hz. destruct z as [|p|p]; [done|..].
  - rewrite float_of_pos, <- shifted_value by done. by apply binary_round_whole.
  - rewrite float_of_neg by done. replace (Zneg p * 2 ^ Z.of_nat k) with (Zneg (shifted k p)).
    + by apply binary_round_whole.
    + rewrite <- Pos2Z.opp_pos, shifted_value. lia.
Qed.

(** ** Exact operations *)

Lemma shl_align_whole p k : small (Zpos p) -> 53 - Zpos (digits2_pos p) <= Z.of_nat k ->
  (shl_align (shifted (Z.to_nat (53 - Zpos (digits2_pos p))) p) (Zpos (digits2_pos p) - 53) (- Z.of_nat k)).1
  = shifted k p.
Proof.
  intros Hp Hk. pose proof (small_digits p Hp) as Hd. unfold shl_align.
  destruct (- Z.of_nat k - (Zpos (digits2_pos p) - 53)) as [|q|q] eqn:Hq; [|lia|].
  - cbn [fst]. f_equal. lia.
  - cbn [fst]. rewrite pos_iter_shifted, <- shifted_add. f_equal. lia.
Qed.

Lemma fadd_zero_r f : (forall s, f <> S754_zero s) -> fadd f f0 = f.
Proof. by destruct f as [s| | |]; intros H; [destruct (H s)|..]; try destruct s. Qed.

(** The exponent both operands are aligned to. *)
Lemma common_exponent p q : small (Zpos p) -> small (Zpos q) -> exists k,
  Z.min (Zpos (digits2_pos p) - 53) (Zpos (digits2_pos q) - 53) = - Z.of_nat k /\
  53 - Zpos (digits2_pos p) <= Z.of_nat k /\ 53 - Zpos (digits2_pos q) <= Z.of_nat k.
Proof.
  intros Hp%small_digits Hq%small_digits.
  exists (Z.to_nat (Z.max (53 - Zpos (digits2_pos p)) (53 - Zpos (digits2_pos q)))). lia.
Qed.

Lemma fadd_whole a b : 0 <= a -> 0 <= b -> small (a + b) -> fadd (float_of_Z a) (float_of_Z b) = float_of_Z (a + b).
Proof.
  unfold small. intros Ha Hb Hs. destruct a as [|p|p]; [|destruct b as [|q|q]|]; try lia.
  - destruct b as [|q|q]; [done| |lia]. rewrite Z.add_0_l. by rewrite float_of_pos by (unfold small; lia).
  - by rewrite Z.add_0_r, float_of_pos by (unfold small; lia).
  - rewrite !float_of_pos by (unfold small; lia). unfold fadd, whole, SFadd.
    destruct (common_exponent p q) as (k & -> & Hkp & Hkq); [unfold small; lia..|].
    rewrite !shl_align_whole by (unfold small; lia). cbn [cond_Zopp].
    rewrite !shifted_value, <- Z.mul_add_distr_r. by apply normalize_whole.
Qed.

Lemma fsub_whole a b : 0 <= a -> 0 <= b -> small a -> small b -> fsub (float_of_Z a) (float_of_Z b) = float_of_Z (a - b).
Proof.
  unfold small. intros Ha Hb Ha' Hb'. destruct a as [|p|p]; [|destruct b as [|q|q]|]; try lia.
  - destruct b as [|q|q]; [done| |lia]. rewrite Z.sub_0_l, Pos2Z.opp_pos.
    by rewrite float_of_pos, float_of_neg by (unfold small; lia).
  - by rewrite Z.sub_0_r, float_of_pos by (unfold small; lia).
  - rewrite !float_of_pos by (unfold small; lia). unfold fsub, whole, SFsub.
    destruct (common_exponent p q) as (k & -> & Hkp & Hkq); [unfold small; lia..|].
    rewrite !shl_align_whole by (unfold small; lia). cbn [cond_Zopp].
    rewrite !shifted_value, <- Z.mul_sub_distr_r. apply normalize_whole. unfold small. lia.
Qed.

(** A difference is negative exactly when the subtrahend is larger. *)
Lemma float_of_Z_sign z : small z ->
  flt f0 (float_of_Z z) = (0 <? z) /\ flt (float_of_Z z) f0 = (z <? 0) /\ fle f0 (float_of_Z z) = (0 <=? z).
Proof.
  intros H. destruct z as [|p|p]; [done|..].
  - by rewrite float_of_pos.
  - by rewrite float_of_neg.
Qed.

Lemma fmax_whole z : small z -> fmax f0 (float_of_Z z) = float_of_Z (Z.max 0 z).
Proof.
  intros H. unfold fmax. destruct (float_of_Z_sign z H) as [-> _].
  destruct (Z.ltb_spec 0 z); [f_equal; lia|]. by replace (Z.max 0 z) with 0 by lia.
Qed.

Lemma whole_place p : small (Zpos p) -> float_place (float_of_Z (Zpos p))
  = Some (1, Zpos (digits2_pos p) - 53, Zpos p * 2 ^ (53 - Zpos (digits2_pos p))).
Proof.
  intros H. pose proof (small_digits p H). rewrite float_of_pos by done. unfold whole. cbn [float_place].
  by rewrite shifted_value, Z2Nat.id by lia.
Qed.

Lemma fle_whole a b : 0 <= a -> 0 <= b -> small a -> small b -> fle (float_of_Z a) (float_of_Z b) = (a <=? b).
Proof.
  intros Ha Hb Hsa Hsb. destruct a as [|p|p]; [by apply float_of_Z_sign| |lia].
  destruct b as [|q|q]; [by rewrite float_of_pos| |lia].
  apply eq_true_iff_eq. rewrite fle_place, !whole_place by done. rewrite Z.leb_le.
  pose proof (small_digits p Hsa). pose proof (small_digits q Hsb).
  pose proof (digits2_pos_bound p). pose proof (digits2_pos_bound q).
  unfold float_place_lt. cbn [fst snd].
  destruct (Z.lt_trichotomy (Zpos (digits2_pos p)) (Zpos (digits2_pos q))) as [Hd|[Hd|Hd]].
  - assert (2 ^ Zpos (digits2_pos p) <= 2 ^ (Zpos (digits2_pos q) - 1)) by (apply Z.pow_le_mono_r; lia).
    split; [lia|]. intros _. do 2 eexists. split_and!; [done..|]. cbn [fst snd]. lia.
  - rewrite Hd. split.
    + intros (? & ? & [= <-] & [= <-] & Hn). cbn [fst snd] in Hn. nia.
    + intros Hle. do 2 eexists. split_and!; [done..|]. cbn [fst snd]. nia.
  - assert (2 ^ Zpos (digits2_pos q) <= 2 ^ (Zpos (digits2_pos p) - 1)) by (apply Z.pow_le_mono_r; lia).
    split; [|lia]. intros (? & ? & [= <-] & [= <-] & Hn). cbn [fst snd] in Hn. lia.
Qed.
