(* ===== verification/StrDict.v ===== *)
(** Insertion-ordered dictionaries with string keys, for tables whose order shows: the order
    of callbacks over their values, or of the terms of a float sum. *)

From stdpp Require Import base gmap sets list strings.
From S2P Require Import Prelude PyText.

Abbreviation sdict A := (list (string * A)).

Section StrDict.
Context {A : Type}.
Implicit Types (d : sdict A) (k : string) (v : A).

(** [d.get(k)] *)
Fixpoint d_get d k : option A :=
  match d with
  | [] => None
  | (k', v) :: d' => if bool_decide (k' = k) then Some v else d_get d' k
  end.

(** [d[k] = v]: in place, or at the end. *)
Fixpoint d_set d k v : sdict A :=
  match d with
  | [] => [(k, v)]
  | (k', v') :: d' => if bool_decide (k' = k) then (k', v) :: d' else (k', v') :: d_set d' k v
  end.

(** [d.pop(k, None)], as the dictionary it leaves. *)
Definition d_del d k : sdict A := filter (fun kv => kv.1 <> k) d.

(** [[d[k] for k in sorted(d)]] *)
Definition d_sorted d : list A := omap (d_get d) (sorted_strings d.*1).

Lemma d_get_in d k v : d_get d k = Some v -> (k, v) ∈ d.
Proof.
  induction d as [|[k' v'] d IH]; cbn; [done|]. case_bool_decide as Hk; [intros [= ->]; subst; left|].
  intros H. right. by apply IH.
Qed.

Lemma d_get_none d k : d_get d k = None <-> k ∉ d.*1.
Proof.
  induction d as [|[k' v'] d IH]; cbn; [by split; [intros _; apply not_elem_of_nil|]|].
  rewrite not_elem_of_cons. case_bool_decide as Hk; [naive_solver|]. rewrite IH. naive_solver.
Qed.

Lemma d_get_nodup d k v : NoDup d.*1 -> (k, v) ∈ d -> d_get d k = Some v.
Proof.
  induction d as [|[k' v'] d IH]; cbn; [by intros _ ?%elem_of_nil|]. intros [Hn Hd]%NoDup_cons.
  intros [[= -> ->]|Hin]%elem_of_cons; [by rewrite bool_decide_true|].
  case_bool_decide as Hk; [|by apply IH]. subst k'. destruct Hn. apply list_elem_of_fmap. by exists (k, v).
Qed.

Lemma d_get_set d k v k' : d_get (d_set d k v) k' = if bool_decide (k = k') then Some v else d_get d k'.
Proof.
  induction d as [|[k1 v1] d IH]; cbn; [done|]. destruct (bool_decide_reflect (k1 = k)) as [->|H1]; cbn.
  - by case_bool_decide.
  - rewrite IH. repeat case_bool_decide; congruence.
Qed.

Lemma d_set_keys d k v : (d_set d k v).*1 = if bool_decide (k ∈ d.*1) then d.*1 else d.*1 ++ [k].
Proof.
  induction d as [|[k1 v1] d IH]; [done|]. cbn. destruct (bool_decide_reflect (k1 = k)) as [->|H1]; cbn.
  - by rewrite bool_decide_true by left.
  - rewrite IH. repeat case_bool_decide; set_solver.
Qed.

Lemma d_set_NoDup d k v : NoDup d.*1 -> NoDup (d_set d k v).*1.
Proof.
  intros H. rewrite d_set_keys. case_bool_decide as Hk; [done|]. apply NoDup_app. split_and!; [done| |apply NoDup_singleton].
  intros x Hx ->%list_elem_of_singleton. done.
Qed.

Lemma d_set_fresh d k v : d_get d k = None -> d_set d k v = d ++ [(k, v)].
Proof.
  intros H%d_get_none. induction d as [|[k1 v1] d IH]; [done|]. cbn in *.
  apply not_elem_of_cons in H as [H1 H]. rewrite bool_decide_false by congruence. by rewrite IH.
Qed.

Lemma d_get_del d k k' : d_get (d_del d k) k' = if bool_decide (k = k') then None else d_get d k'.
Proof.
  unfold d_del. induction d as [|[k1 v1] d IH]; [by cbn; case_bool_decide|].
  destruct (decide (k1 <> k)) as [Hk|Hk]; [rewrite filter_cons_True by done|rewrite filter_cons_False by done].
  - cbn. rewrite IH. repeat case_bool_decide; congruence.
  - apply dec_stable in Hk. cbn in Hk. subst k1. cbn. rewrite IH. repeat case_bool_decide; congruence.
Qed.

Lemma elem_of_d_del d k kv : kv ∈ d_del d k <-> kv.1 <> k /\ kv ∈ d.
Proof. unfold d_del. by rewrite list_elem_of_filter. Qed.

Lemma d_del_NoDup d k : NoDup d.*1 -> NoDup (d_del d k).*1.
Proof.
  unfold d_del. induction d as [|[k1 v1] d IH]; [done|]. intros [Hn Hd]%NoDup_cons.
  destruct (decide (k1 <> k)) as [Hk|Hk]; [rewrite filter_cons_True by done|rewrite filter_cons_False by done; by apply IH].
  cbn. apply NoDup_cons. split; [|by apply IH]. intros (kv & Heq & Hin)%list_elem_of_fmap.
  apply list_elem_of_filter in Hin as [_ Hin]. apply Hn. apply list_elem_of_fmap. by exists kv.
Qed.

Lemma d_del_idle d k : d_get d k = None -> d_del d k = d.
Proof.
  intros H%d_get_none. unfold d_del. induction d as [|[k1 v1] d IH]; [done|].
  apply not_elem_of_cons in H as [H1 H]. cbn in H1. rewrite filter_cons_True by (cbn; congruence). by rewrite IH.
Qed.

Lemma elem_of_d_sorted d v : NoDup d.*1 -> v ∈ d_sorted d <-> exists k, d_get d k = Some v.
Proof.
  intros Hd. unfold d_sorted. rewrite list_elem_of_omap. split.
  - intros (k & _ & H). by exists k.
  - intros (k & H). exists k. split; [|done]. rewrite elem_of_sorted_strings.
    apply d_get_in in H. apply list_elem_of_fmap. by exists (k, v).
Qed.

End StrDict.
