(* ===== verification/DistributedWork.v ===== *)
(** [services/distributed_work_coordinator.py]: the registry of verified nodes and the
    coordinator that places work on them under short-lived leases.

    The registry and the coordinator's tables are one state; every method runs under its
    lock, so it is one step, and it returns its result together with the state it leaves,
    which a method that raises may have changed already. *)

From stdpp Require Import base gmap sets list strings sorting.
From Stdlib Require Import ZArith Ascii SpecFloat.
From S2P Require Import Prelude PyText PyVal Json PyFloat.

(** ** Data *)

Inductive NodeTier : Set := MICROCONTROLLER | SPECIALIST_LINUX | HEAVY_LINUX | QUEEN.
Inductive NodeAvailability : Set :=
| AVAILABLE | BUSY | SATURATED | DEGRADED | DRAINING | OFFLINE | QUARANTINED.
Inductive PlacementMode : Set :=
| PRIMARY | OVERFLOW | TEMPORARY_ABSORPTION | QUEEN_FALLBACK | PARTIAL | OBSERVE_ONLY.
Inductive DegradationMode : Set :=
| D_NONE | D_FULL_REPLACEMENT | D_PARTIAL_REPLACEMENT | D_OBSERVE_ONLY | D_CAPABILITY_UNAVAILABLE.

#[export] Instance NodeTier_eq_dec : EqDecision NodeTier.
Proof. solve_decision. Defined.
#[export] Instance NodeAvailability_eq_dec : EqDecision NodeAvailability.
Proof. solve_decision. Defined.
#[export] Instance PlacementMode_eq_dec : EqDecision PlacementMode.
Proof. solve_decision. Defined.
#[export] Instance DegradationMode_eq_dec : EqDecision DegradationMode.
Proof. solve_decision. Defined.

(** The enumerations' [.value]. *)
Definition tier_value (t : NodeTier) : string :=
  match t with
  | MICROCONTROLLER => "microcontroller" | SPECIALIST_LINUX => "specialist_linux"
  | HEAVY_LINUX => "heavy_linux" | QUEEN => "queen" end.

Definition availability_value (a : NodeAvailability) : string :=
  match a with
  | AVAILABLE => "available" | BUSY => "busy" | SATURATED => "saturated"
  | DEGRADED => "degraded" | DRAINING => "draining" | OFFLINE => "offline"
  | QUARANTINED => "quarantined" end.

Definition mode_value (m : PlacementMode) : string :=
  match m with
  | PRIMARY => "primary" | OVERFLOW => "overflow" | TEMPORARY_ABSORPTION => "temporary_absorption"
  | QUEEN_FALLBACK => "queen_fallback" | PARTIAL => "partial" | OBSERVE_ONLY => "observe_only" end.

Definition degradation_value (d : DegradationMode) : string :=
  match d with
  | D_NONE => "none" | D_FULL_REPLACEMENT => "full_replacement"
  | D_PARTIAL_REPLACEMENT => "partial_replacement" | D_OBSERVE_ONLY => "observe_only"
  | D_CAPABILITY_UNAVAILABLE => "capability_unavailable" end.

Record NodeAdvertisement := mkNode {
  nd_node_id : string;
  nd_body_id : string;
  nd_organ : string;
  nd_tier : NodeTier;
  nd_capabilities : list string;
  nd_current_load : float;
  nd_health : float;
  nd_availability : NodeAvailability;
  nd_last_heartbeat : float;
  nd_accepted_work_classes : list string;
  nd_refused_work_classes : list string;
  nd_max_concurrent_tasks : Z;
  nd_current_tasks : Z;
  nd_overflow_capable : bool;
  nd_overflow_capabilities : list string;
  nd_temporary_absorption_capabilities : list string;
  nd_body_verified : bool;
  nd_continuity_verified : bool;
  nd_authority : string
}.

(** [NodeAdvertisement.__post_init__] *)
Definition make_node (a : NodeAdvertisement) : outcome NodeAdvertisement :=
  if is_blank (nd_node_id a) || is_blank (nd_body_id a) || is_blank (nd_organ a)
  then raise ValueError "node_id, body_id, and organ are required" else
  if negb (in_unit (nd_current_load a)) || negb (in_unit (nd_health a))
  then raise ValueError "load and health must be between 0 and 1" else
  if flt (nd_last_heartbeat a) f0 then raise ValueError "last_heartbeat cannot be negative" else
  if (nd_max_concurrent_tasks a <? 1)%Z
  then raise ValueError "max_concurrent_tasks must be at least one" else
  if negb ((0 <=? nd_current_tasks a)%Z && (nd_current_tasks a <=? nd_max_concurrent_tasks a)%Z)
  then raise ValueError "current_tasks must fit the declared task limit" else
  if existsb is_blank (nd_capabilities a ++ nd_accepted_work_classes a ++ nd_refused_work_classes a
                       ++ nd_overflow_capabilities a ++ nd_temporary_absorption_capabilities a)
  then raise ValueError "advertised values cannot be blank" else
  if bool_decide (nd_authority a <> "none")
  then raise ValueError "node advertisements cannot carry authority" else Ok a.

(** [NodeAdvertisement.advertised_capacity] *)
Definition advertised_capacity (a : NodeAdvertisement) : float :=
  if (nd_max_concurrent_tasks a <=? nd_current_tasks a)%Z then f0
  else py_round 4 (fmax f0 (fsub f1 (nd_current_load a))).

(** [replace(node, availability=...)] *)
Definition with_availability (v : NodeAvailability) (a : NodeAdvertisement) : NodeAdvertisement :=
  mkNode (nd_node_id a) (nd_body_id a) (nd_organ a) (nd_tier a) (nd_capabilities a)
    (nd_current_load a) (nd_health a) v (nd_last_heartbeat a) (nd_accepted_work_classes a)
    (nd_refused_work_classes a) (nd_max_concurrent_tasks a) (nd_current_tasks a)
    (nd_overflow_capable a) (nd_overflow_capabilities a) (nd_temporary_absorption_capabilities a)
    (nd_body_verified a) (nd_continuity_verified a) (nd_authority a).

Record NodeRegistrationDecision := mkRegistration {
  nr_accepted : bool; nr_state : string; nr_node_id : string; nr_reasons : list string }.

Record WorkRequirement := mkRequirement {
  wr_work_id : string;
  wr_work_class : string;
  wr_required_capabilities : list string;
  wr_preferred_capabilities : list string;
  wr_min_health : float;
  wr_max_load : float;
  wr_allow_overflow : bool;
  wr_allow_temporary_absorption : bool;
  wr_allow_partial : bool;
  wr_partial_result_useful : bool;
  wr_allow_queen_fallback : bool;
  wr_observe_only_capability : option string;
  wr_whole_system_coordination : bool;
  wr_consequential : bool
}.

(** [WorkRequirement.__post_init__] *)
Definition make_requirement (r : WorkRequirement) : outcome WorkRequirement :=
  if is_blank (wr_work_id r) || is_blank (wr_work_class r)
  then raise ValueError "work_id and work_class are required" else
  if bool_decide (wr_required_capabilities r = [])
  then raise ValueError "at least one required capability is required" else
  if existsb is_blank (wr_required_capabilities r ++ wr_preferred_capabilities r)
  then raise ValueError "work capabilities cannot be blank" else
  if match wr_observe_only_capability r with Some c => is_blank c | None => false end
  then raise ValueError "observe_only_capability cannot be blank" else
  if negb (in_unit (wr_min_health r)) || negb (in_unit (wr_max_load r))
  then raise ValueError "work thresholds must be between 0 and 1" else Ok r.

Record WorkCandidate := mkCandidate {
  ca_node_id : string;
  ca_organ : string;
  ca_mode : PlacementMode;
  ca_score : float;
  ca_matched_capabilities : list string;
  ca_missing_capabilities : list string;
  ca_reasons : list string;
  ca_authority : string
}.

(** [WorkCandidate.__post_init__] *)
Definition make_work_candidate (c : WorkCandidate) : outcome WorkCandidate :=
  if negb (in_unit (ca_score c)) then raise ValueError "candidate score must be between 0 and 1" else
  if bool_decide (ca_authority c <> "none")
  then raise ValueError "work candidates cannot carry authority" else Ok c.

Record WorkLease := mkWorkLease {
  wl_lease_id : string;
  wl_work_id : string;
  wl_node_id : string;
  wl_organ : string;
  wl_mode : PlacementMode;
  wl_matched_capabilities : list string;
  wl_missing_capabilities : list string;
  wl_issued_at : float;
  wl_expires_at : float;
  wl_degradation : DegradationMode;
  wl_escalate_results_to_queen : bool;
  wl_court_authorization_required : bool;
  wl_court_authorized : bool;
  wl_execution_authorized : bool;
  wl_authority : string
}.

(** [WorkLease.__post_init__] *)
Definition make_work_lease (l : WorkLease) : outcome WorkLease :=
  if fle (wl_expires_at l) (wl_issued_at l)
  then raise ValueError "workload lease expiry must follow issue time" else
  if wl_court_authorized l || wl_execution_authorized l
  then raise ValueError "placement leases cannot authorize execution" else
  if bool_decide (wl_authority l <> "none")
  then raise ValueError "workload leases cannot carry authority" else Ok l.

Record WorkPlacementDecision := mkPlacement {
  pd_placed : bool;
  pd_state : string;
  pd_lease : option WorkLease;
  pd_alternatives : list string;
  pd_degradation : DegradationMode;
  pd_reasons : list string;
  pd_canonical : bool;
  pd_authority : string
}.

(** [WorkPlacementDecision.__post_init__] *)
Definition make_placement (d : WorkPlacementDecision) : outcome WorkPlacementDecision :=
  if negb (Bool.eqb (pd_placed d) (bool_decide (is_Some (pd_lease d))))
  then raise ValueError "placed state and lease must agree" else
  if bool_decide (pd_reasons d = []) then raise ValueError "placement decisions require reasons" else
  if pd_canonical d then raise ValueError "placement decisions are not canonical memory" else
  if bool_decide (pd_authority d <> "none")
  then raise ValueError "placement decisions cannot carry authority" else Ok d.

(** A decision with the dataclass defaults; [replace(decision, reasons=...)]. *)
Definition new_placement (placed : bool) (state : string) (lease : option WorkLease)
    (alternatives : list string) (deg : DegradationMode) (reasons : list string)
    : outcome WorkPlacementDecision :=
  make_placement (mkPlacement placed state lease alternatives deg reasons false "none").

Definition with_reasons (d : WorkPlacementDecision) (reasons : list string)
    : outcome WorkPlacementDecision :=
  make_placement (mkPlacement (pd_placed d) (pd_state d) (pd_lease d) (pd_alternatives d)
    (pd_degradation d) reasons (pd_canonical d) (pd_authority d)).

(** ** State *)

(** [VerifiedNodeRegistry._nodes] and the coordinator's [_leases], [_requirements] and
    [_refusals]. *)
Record work_state := mkWork {
  w_body_id : string;
  w_nodes : gmap string NodeAdvertisement;
  w_leases : gmap string WorkLease;
  w_requirements : gmap string WorkRequirement;
  w_refusals : gmap string (gset string)
}.

Definition set_nodes (ns : gmap string NodeAdvertisement) (s : work_state) : work_state :=
  mkWork (w_body_id s) ns (w_leases s) (w_requirements s) (w_refusals s).
Definition set_leases (ls : gmap string WorkLease) (s : work_state) : work_state :=
  mkWork (w_body_id s) (w_nodes s) ls (w_requirements s) (w_refusals s).
Definition set_requirements (rs : gmap string WorkRequirement) (s : work_state) : work_state :=
  mkWork (w_body_id s) (w_nodes s) (w_leases s) rs (w_refusals s).
Definition set_refusals (rs : gmap string (gset string)) (s : work_state) : work_state :=
  mkWork (w_body_id s) (w_nodes s) (w_leases s) (w_requirements s) rs.

(** The keys of a dictionary in [sorted] order. *)
Definition sorted_keys {A} (m : gmap string A) : list string := sorted_strings (elements (dom m)).
Definition sorted_values {A} (m : gmap string A) : list A := omap (fun k => m !! k) (sorted_keys m).

(** *** [VerifiedNodeRegistry] *)

Definition new_work_state (body_id : string) : outcome work_state :=
  if negb (is_nonempty (text body_id)) then raise ValueError "body_id is required"
  else Ok (mkWork (text body_id) ∅ ∅ ∅ ∅).

Definition node_register (a : NodeAdvertisement) (s : work_state) : NodeRegistrationDecision * work_state :=
  let node_id := text (nd_node_id a) in
  let reasons :=
    (if bool_decide (text (nd_body_id a) <> w_body_id s) then ["body-binding-mismatch"] else [])
    ++ (if negb (nd_body_verified a) then ["body-not-verified"] else [])
    ++ (if negb (nd_continuity_verified a) then ["continuity-not-verified"] else []) in
  match reasons with
  | _ :: _ => (mkRegistration false "rejected" node_id reasons, s)
  | [] => (mkRegistration true "registered" node_id ["verified-body-organ"],
           set_nodes (<[node_id := a]> (w_nodes s)) s)
  end.

Definition node_get (node_id : string) (s : work_state) : option NodeAdvertisement :=
  w_nodes s !! text node_id.

Definition node_remove (node_id : string) (s : work_state) : option NodeAdvertisement * work_state :=
  (w_nodes s !! text node_id, set_nodes (delete (text node_id) (w_nodes s)) s).

Definition set_availability (node_id : string) (v : NodeAvailability) (s : work_state)
    : option NodeAdvertisement * work_state :=
  match w_nodes s !! text node_id with
  | None => (None, s)
  | Some current =>
      let updated := with_availability v current in
      (Some updated, set_nodes (<[text node_id := updated]> (w_nodes s)) s)
  end.

Definition heartbeat_expired (now max_age : float) (a : NodeAdvertisement) : bool :=
  fle max_age (fsub now (nd_last_heartbeat a)).

Definition expired_node_ids (now max_age : float) (s : work_state) : outcome (list string) :=
  if fle max_age f0 then raise ValueError "max_age_seconds must be positive" else
  Ok (filter (fun k => match w_nodes s !! k with
                       | Some a => heartbeat_expired now max_age a | None => false end = true)
        (sorted_keys (w_nodes s))).

Definition registry_snapshot (s : work_state) : list NodeAdvertisement := sorted_values (w_nodes s).

(** ** Placement *)

(** [active_counts.get(node_id, 0)] *)
Definition active_count (node_id : string) (s : work_state) : Z :=
  Z.of_nat (size (filter (fun kl => wl_node_id kl.2 = node_id) (w_leases s))).

(** [_exclusion_reason] *)
Definition exclusion_reason (r : WorkRequirement) (a : NodeAdvertisement) (active : Z) : option string :=
  if negb (nd_body_verified a) then Some "body-not-verified" else
  if negb (nd_continuity_verified a) then Some "continuity-not-verified" else
  if bool_decide (nd_availability a ∈ [SATURATED; DRAINING; OFFLINE; QUARANTINED])
  then Some ("availability:" +:+ availability_value (nd_availability a)) else
  if flt (nd_health a) (wr_min_health r) then Some "health-below-work-minimum" else
  if flt (wr_max_load r) (nd_current_load a) then Some "load-above-work-maximum" else
  if (nd_max_concurrent_tasks a <=? nd_current_tasks a + active)%Z then Some "task-limit-exceeded" else
  if bool_decide (wr_work_class r ∈ nd_refused_work_classes a) then Some "work-class-refused" else
  if negb (bool_decide (nd_accepted_work_classes a = []))
     && negb (bool_decide (wr_work_class r ∈ nd_accepted_work_classes a))
  then Some "work-class-not-accepted" else
  if bool_decide (nd_tier a = QUEEN) && negb (wr_allow_queen_fallback r)
  then Some "queen-fallback-disabled" else
  if wr_whole_system_coordination r && negb (bool_decide (nd_tier a = QUEEN))
  then Some "whole-system-coordination-requires-queen" else None.

(** [required.issubset(pool)] *)
Definition subset_of (required pool : list string) : bool :=
  forallb (fun c => bool_decide (c ∈ pool)) required.

(** [overflow_pool], [temporary_pool] and [fallback_pool] *)
Definition overflow_allowed (r : WorkRequirement) (a : NodeAdvertisement) : bool :=
  wr_allow_overflow r && nd_overflow_capable a.
Definition overflow_pool (r : WorkRequirement) (a : NodeAdvertisement) : list string :=
  if overflow_allowed r a then nd_capabilities a ++ nd_overflow_capabilities a else nd_capabilities a.
Definition temporary_pool (r : WorkRequirement) (a : NodeAdvertisement) : list string :=
  if wr_allow_temporary_absorption r
  then nd_capabilities a ++ nd_temporary_absorption_capabilities a else nd_capabilities a.
Definition fallback_pool (r : WorkRequirement) (a : NodeAdvertisement) : list string :=
  overflow_pool r a ++ temporary_pool r a.

(** The mode a node can serve the work in, with the matched and missing capabilities. *)
Definition match_mode (r : WorkRequirement) (a : NodeAdvertisement)
    : option (PlacementMode * list string * list string) :=
  let required := wr_required_capabilities r in
  if subset_of required (nd_capabilities a) then
    Some (if bool_decide (nd_tier a = QUEEN) && negb (wr_whole_system_coordination r)
          then QUEEN_FALLBACK else PRIMARY, sorted_set required, [])
  else if overflow_allowed r a && subset_of required (overflow_pool r a) then
    Some (OVERFLOW, sorted_set required, [])
  else if wr_allow_temporary_absorption r && subset_of required (temporary_pool r a) then
    Some (TEMPORARY_ABSORPTION, sorted_set required, [])
  else
    let matched_set := filter (.∈ fallback_pool r a) required in
    let missing_set := filter (.∉ fallback_pool r a) required in
    if wr_allow_partial r && wr_partial_result_useful r && negb (bool_decide (matched_set = []))
    then Some (PARTIAL, sorted_set matched_set, sorted_set missing_set)
    else match wr_observe_only_capability r with
    | Some c => if bool_decide (c ∈ fallback_pool r a)
                then Some (OBSERVE_ONLY, [c], sorted_set required) else None
    | None => None
    end.

Definition penalty (m : PlacementMode) : float :=
  match m with
  | PRIMARY => f0 | OVERFLOW => flit 3 (-2) | TEMPORARY_ABSORPTION => flit 7 (-2)
  | QUEEN_FALLBACK => flit 15 (-2) | PARTIAL => flit 18 (-2) | OBSERVE_ONLY => flit 22 (-2)
  end.

(** [capacity] and [preferred_ratio] *)
Definition node_capacity (a : NodeAdvertisement) (active : Z) : outcome float :=
  let remaining := Z.max 0 (nd_max_concurrent_tasks a - nd_current_tasks a - active) in
  let? task_capacity := true_div remaining (nd_max_concurrent_tasks a) in
  Ok (fmin (advertised_capacity a) task_capacity).

Definition preferred_ratio (r : WorkRequirement) (a : NodeAdvertisement) : outcome float :=
  let preferred := remove_dups (wr_preferred_capabilities r) in
  match preferred with
  | [] => Ok f1
  | _ => true_div (Z.of_nat (length (filter (.∈ nd_capabilities a) preferred)))
                  (Z.of_nat (length preferred))
  end.

Definition raw_score (a : NodeAdvertisement) (capacity ratio : float) (m : PlacementMode) : float :=
  let availability := if bool_decide (nd_availability a = AVAILABLE) then flit 1 (-1) else flit 5 (-2) in
  let score :=
    fadd (fadd (fadd (fadd (fmul (nd_health a) (flit 35 (-2))) (fmul capacity (flit 35 (-2))))
                 (fmul ratio (flit 15 (-2)))) availability) (flit 5 (-2)) in
  fsub score (penalty m).

(** [_candidate_for] *)
Definition candidate_for (r : WorkRequirement) (a : NodeAdvertisement) (active : Z)
    : outcome (option WorkCandidate) :=
  match match_mode r a with
  | None => Ok None
  | Some (mode, matched, missing) =>
      let? capacity := node_capacity a active in
      let? ratio := preferred_ratio r a in
      let score := raw_score a capacity ratio mode in
      let reasons := ["health:" +:+ fixed 2 (nd_health a); "capacity:" +:+ fixed 2 capacity]
        ++ (if bool_decide (mode = PRIMARY) then [] else ["mode:" +:+ mode_value mode]) in
      let? c := make_work_candidate (mkCandidate (text (nd_node_id a)) (nd_organ a) mode
        (py_round 4 (fmax f0 (fmin score f1))) matched missing reasons "none") in
      Ok (Some c)
  end.

(** [candidate_a < candidate_b] under [_sort_key]: the tuple [(-score, node_id)]. *)
Definition sort_key_lt (c d : WorkCandidate) : bool :=
  if feq (fneg (ca_score c)) (fneg (ca_score d)) then str_lt (ca_node_id c) (ca_node_id d)
  else flt (fneg (ca_score c)) (fneg (ca_score d)).

(** [_degradation] *)
Definition degradation_of (m : PlacementMode) : DegradationMode :=
  match m with
  | PRIMARY => D_NONE
  | OVERFLOW | TEMPORARY_ABSORPTION | QUEEN_FALLBACK => D_FULL_REPLACEMENT
  | PARTIAL => D_PARTIAL_REPLACEMENT
  | OBSERVE_ONLY => D_OBSERVE_ONLY
  end.

(** What the loop of [_place_locked] makes of one node. *)
Inductive verdict := Excluded (why : string) | Unsuitable | Suitable (c : WorkCandidate).

Definition judge (s : work_state) (r : WorkRequirement) (excluded : gset string)
    (a : NodeAdvertisement) : outcome verdict :=
  let node_id := text (nd_node_id a) in
  if bool_decide (node_id ∈ excluded) then Ok (Excluded (node_id +:+ ":excluded-or-refused")) else
  let active := active_count node_id s in
  match exclusion_reason r a active with
  | Some why => Ok (Excluded (node_id +:+ ":" +:+ why))
  | None =>
      let? c := candidate_for r a active in
      Ok (match c with Some c => Suitable c | None => Unsuitable end)
  end.

Definition suitable (p : PlacementMode -> bool) (vs : list verdict) : list WorkCandidate :=
  omap (fun v => match v with
                 | Suitable c => if p (ca_mode c) then Some c else None | _ => None end) vs.
Definition exclusions (vs : list verdict) : list string :=
  omap (fun v => match v with Excluded why => Some why | _ => None end) vs.

Definition is_partial (m : PlacementMode) : bool := bool_decide (m = PARTIAL).
Definition is_observe (m : PlacementMode) : bool := bool_decide (m = OBSERVE_ONLY).
Definition is_full (m : PlacementMode) : bool := negb (is_partial m) && negb (is_observe m).

(** [full or partial or observe_only] *)
Definition candidates (vs : list verdict) : list WorkCandidate :=
  match suitable is_full vs, suitable is_partial vs with
  | c :: cs, _ => c :: cs
  | [], c :: cs => c :: cs
  | [], [] => suitable is_observe vs
  end.

(** The lease for the chosen candidate. *)
Definition lease_of (r : WorkRequirement) (c : WorkCandidate) (now lease_seconds : float)
    : outcome WorkLease :=
  let work_id := text (wr_work_id r) in
  make_work_lease (mkWorkLease (work_id +:+ ":" +:+ ca_node_id c) work_id (ca_node_id c) (ca_organ c)
    (ca_mode c) (ca_matched_capabilities c) (ca_missing_capabilities c) now (fadd now lease_seconds)
    (degradation_of (ca_mode c)) true (wr_consequential r) false false "none").

(** [_place_locked] *)
Definition place_locked (r : WorkRequirement) (now lease_seconds : float) (excluded : gset string)
    (s : work_state) : outcome WorkPlacementDecision * work_state :=
  match mapM_outcome (judge s r excluded) (registry_snapshot s) with
  | Err e => (Err e, s)
  | Ok vs =>
      match py_sorted sort_key_lt (candidates vs) with
      | [] => (new_placement false "capability_unavailable" None [] D_CAPABILITY_UNAVAILABLE
                 ("no verified healthy organ can satisfy the work" :: exclusions vs), s)
      | chosen :: others =>
          match lease_of r chosen now lease_seconds with
          | Err e => (Err e, s)
          | Ok lease =>
              let deg := degradation_of (ca_mode chosen) in
              (new_placement true (if bool_decide (deg = D_NONE) then "leased" else "leased_degraded")
                 (Some lease) (ca_node_id <$> others) deg
                 ("Runtime selected and leased a compatible organ" :: ca_reasons chosen ++ exclusions vs),
               set_leases (<[text (wr_work_id r) := lease]> (w_leases s)) s)
          end
      end
  end.

(** [_expire_leases_locked] *)
Definition expire_leases (now : float) (s : work_state) : work_state :=
  set_leases (filter (fun kl => fle (wl_expires_at kl.2) now = false) (w_leases s)) s.

Definition refused_by (work : string) (s : work_state) : gset string := default ∅ (w_refusals s !! work).

(** [place] *)
Definition place (r : WorkRequirement) (now lease_seconds : float) (exclude_nodes : list string)
    (s : work_state) : outcome WorkPlacementDecision * work_state :=
  if fle lease_seconds f0 then (raise ValueError "lease_seconds must be positive", s) else
  let excluded := filter is_nonempty (text <$> exclude_nodes) in
  let work_id := text (wr_work_id r) in
  let s1 := expire_leases now s in
  match w_leases s1 !! work_id with
  | Some existing =>
      (new_placement true "already_leased" (Some existing) [] (wl_degradation existing)
         ["active workload lease already exists"], s1)
  | None =>
      let s2 := set_requirements (<[work_id := r]> (w_requirements s1)) s1 in
      place_locked r now lease_seconds (list_to_set excluded ∪ refused_by work_id s2) s2
  end.

(** [self._leases.pop(work)] *)
Definition drop_lease (work : string) (s : work_state) : work_state :=
  set_leases (delete work (w_leases s)) s.

(** The lease taken back from [node], which is remembered as refusing the work. *)
Definition take_back (work node : string) (s : work_state) : work_state :=
  let s1 := drop_lease work s in
  set_refusals (<[work := {[node]} ∪ refused_by work s1]> (w_refusals s1)) s1.

(** [refuse_and_reassign] *)
Definition refuse_and_reassign (work_id node_id reason : string) (now lease_seconds : float)
    (s : work_state) : outcome WorkPlacementDecision * work_state :=
  let work := text work_id in
  let node := text node_id in
  let refusal_reason := text reason in
  if negb (is_nonempty refusal_reason) then (raise ValueError "refusal reason is required", s) else
  let not_owned :=
    (new_placement false "lease_not_owned" None [] D_CAPABILITY_UNAVAILABLE
       ["node does not own the active workload lease"], s) in
  match w_leases s !! work, w_requirements s !! work with
  | Some lease, Some requirement =>
      if bool_decide (wl_node_id lease <> node) then not_owned else
      let s1 := take_back work node s in
      let '(o, s2) := place_locked requirement now lease_seconds (refused_by work s1) s1 in
      (let? d := o in with_reasons d ((node +:+ " refused:" +:+ refusal_reason)   :: pd_reasons d), s2)
  | _, _ => not_owned
  end.

(** [handoff]; the default [reason] is ["overloaded"]. *)
Definition handoff (work_id from_node_id : string) (now : float) (reason : string) (lease_seconds : float)
    (s : work_state) : outcome WorkPlacementDecision * work_state :=
  refuse_and_reassign work_id from_node_id reason now lease_seconds s.

(** The work is removed from every table. *)
Definition forget_work (w : string) (s : work_state) : work_state :=
  mkWork (w_body_id s) (w_nodes s) (delete w (w_leases s)) (delete w (w_requirements s))
    (delete w (w_refusals s)).

(** [complete] *)
Definition work_complete (work_id node_id : string) (s : work_state) : bool * work_state :=
  let work := text work_id in
  match w_leases s !! work with
  | None => (false, s)
  | Some lease =>
      if bool_decide (wl_node_id lease <> text node_id) then (false, s)
      else (true, forget_work work s)
  end.

(** The nodes [recover_unavailable_nodes] treats as failed. *)
Definition is_unavailable (a : NodeAdvertisement) : bool :=
  bool_decide (nd_availability a ∈ [OFFLINE; QUARANTINED]).

Definition failed_nodes (now max_heartbeat_age : float) (s : work_state) : outcome (list string) :=
  let? stale := expired_node_ids now max_heartbeat_age s in
  let unavailable := nd_node_id <$> filter (fun a => is_unavailable a = true) (registry_snapshot s) in
  Ok (sorted_set (text <$> (stale ++ unavailable))).

Definition mark_offline (failed : list string) (s : work_state) : work_state :=
  fold_left (fun s node_id => (set_availability node_id OFFLINE s).2) failed s.

(** The loop over the affected leases; an exception leaves it with the state so far. *)
Fixpoint reassign_all (now lease_seconds : float) (affected : list (string * WorkLease))
    (s : work_state) : outcome (list WorkPlacementDecision) * work_state :=
  match affected with
  | [] => (Ok [], s)
  | (work_id, old_lease) :: rest =>
      match w_requirements s !! work_id with
      | None => reassign_all now lease_seconds rest (drop_lease work_id s)
      | Some requirement =>
          let s2 := take_back work_id (wl_node_id old_lease) s in
          let '(o, s3) := place_locked requirement now lease_seconds (refused_by work_id s2) s2 in
          match (let? d := o in
                 with_reasons d (("recovery-from:" +:+ wl_node_id old_lease) :: pd_reasons d)) with
          | Err e => (Err e, s3)
          | Ok d =>
              let '(ds, s4) := reassign_all now lease_seconds rest s3 in
              (let? ds := ds in Ok (d :: ds), s4)
          end
      end
  end.

(** The leases on failed nodes, by work id. *)
Definition affected_leases (failed : list string) (s : work_state) : list (string * WorkLease) :=
  omap (fun k => match w_leases s !! k with
                 | Some l => if bool_decide (wl_node_id l ∈ failed) then Some (k, l) else None
                 | None => None end) (sorted_keys (w_leases s)).

(** [recover_unavailable_nodes] *)
Definition recover_unavailable_nodes (now max_heartbeat_age lease_seconds : float) (s : work_state)
    : outcome (list WorkPlacementDecision) * work_state :=
  match failed_nodes now max_heartbeat_age s with
  | Err e => (Err e, s)
  | Ok failed =>
      let s1 := expire_leases now (mark_offline failed s) in
      reassign_all now lease_seconds (affected_leases failed s1) s1
  end.

(** [lease_for], [snapshot] *)
Definition work_lease_for (work_id : string) (s : work_state) : option WorkLease :=
  w_leases s !! text work_id.
Definition work_snapshot (s : work_state) : list WorkLease := sorted_values (w_leases s).

(** ** Facts *)

Lemma elem_of_sorted_keys {A} (m : gmap string A) k : k ∈ sorted_keys m <-> is_Some (m !! k).
Proof. unfold sorted_keys. by rewrite elem_of_sorted_strings, elem_of_elements, elem_of_dom. Qed.

Lemma elem_of_sorted_values {A} (m : gmap string A) v :
  v ∈ sorted_values m <-> exists k, m !! k = Some v.
Proof.
  unfold sorted_values. rewrite list_elem_of_omap. split; [naive_solver|].
  intros (k & Hk). exists k. by rewrite elem_of_sorted_keys, Hk.
Qed.

Lemma NoDup_sorted_keys {A} (m : gmap string A) : NoDup (sorted_keys m).
Proof. unfold sorted_keys. rewrite sorted_strings_perm. apply NoDup_elements. Qed.

(** *** Construction *)

Lemma make_node_ok a b : make_node a = Ok b ->
  b = a /\ in_unit (nd_current_load a) = true /\ in_unit (nd_health a) = true /\
  (1 <= nd_max_concurrent_tasks a)%Z /\ (0 <= nd_current_tasks a <= nd_max_concurrent_tasks a)%Z /\
  text (nd_node_id a) <> "" /\ nd_authority a = "none".
Proof.
  unfold make_node. intros H. guards H. injection H as <-. destruct_and!.
  split_and!; try done; try lia.
  - intros Ht%is_blank_text. congruence.
  - by apply dec_stable.
Qed.

Lemma make_node_available a v : make_node a = Ok a -> make_node (with_availability v a) = Ok (with_availability v a).
Proof.
  unfold make_node, with_availability. cbn. intros H.
  repeat (case_match; [discriminate H|]). done.
Qed.

Lemma make_work_lease_ok l l' : make_work_lease l = Ok l' ->
  l' = l /\ fle (wl_expires_at l) (wl_issued_at l) = false /\
  wl_court_authorized l = false /\ wl_execution_authorized l = false /\ wl_authority l = "none".
Proof.
  unfold make_work_lease. intros H. guards H. injection H as <-. destruct_and!.
  split_and!; try done. by apply dec_stable.
Qed.

(** The decisions the coordinator builds pass their constructor's checks. *)
Lemma new_placement_ok placed state lease alts deg r rs : placed = bool_decide (is_Some lease) ->
  new_placement placed state lease alts deg (r :: rs)
  = Ok (mkPlacement placed state lease alts deg (r :: rs) false "none").
Proof. intros ->. unfold new_placement, make_placement. cbn. by rewrite Bool.eqb_reflx. Qed.

Lemma make_placement_ok d d' : make_placement d = Ok d' ->
  d' = d /\ pd_placed d = bool_decide (is_Some (pd_lease d)) /\ pd_canonical d = false /\
  pd_authority d = "none".
Proof.
  unfold make_placement. intros H. guards H. injection H as <-.
  split_and!; try done; [by apply Bool.eqb_prop|by apply dec_stable].
Qed.

Lemma with_reasons_ok d r rs : make_placement d = Ok d ->
  with_reasons d (r :: rs) = Ok (mkPlacement (pd_placed d) (pd_state d) (pd_lease d) (pd_alternatives d)
    (pd_degradation d) (r :: rs) (pd_canonical d) (pd_authority d)).
Proof.
  intros (_ & Hp & Hc & Ha)%make_placement_ok. unfold with_reasons, make_placement. cbn.
  by rewrite Hp, Hc, Ha, Bool.eqb_reflx.
Qed.

(** *** The score *)

Lemma true_div_ok a b : b <> 0%Z -> exists f, true_div a b = Ok f.
Proof. intros Hb. destruct b; [done|..]; by eexists. Qed.

Lemma raw_score_fits a cap ratio m : fits (raw_score a cap ratio m).
Proof.
  unfold raw_score. apply fsub_fits.
  - apply fadd_fits; [apply fadd_fits; [auto with py|]|]; [|exact eq_refl].
    by case_bool_decide.
  - by destruct m.
Qed.

Lemma clamped_fits f : fits f -> fits (fmax f0 (fmin f f1)).
Proof. intros. unfold fmax, fmin. repeat case_match; done. Qed.

(** A candidate's score is valid whatever the inputs are, so it is never refused. *)
Lemma candidate_for_ok r a active : (1 <= nd_max_concurrent_tasks a)%Z ->
  exists c, candidate_for r a active = Ok c.
Proof.
  intros Hmax. unfold candidate_for. destruct (match_mode r a) as [[[m ms] miss]|]; [|by eexists].
  destruct (true_div_ok (Z.max 0 (nd_max_concurrent_tasks a - nd_current_tasks a - active))
    (nd_max_concurrent_tasks a)) as (tc & Htc); [lia|].
  unfold node_capacity. rewrite Htc. cbn [outcome_bind].
  assert (exists f, preferred_ratio r a = Ok f) as (ratio & ->).
  { unfold preferred_ratio. destruct (remove_dups _); [by eexists|]. apply true_div_ok. cbn. lia. }
  cbn [outcome_bind]. unfold make_work_candidate. cbn [ca_score ca_authority].
  rewrite in_unit_round by (auto using in_unit_clamp, clamped_fits, raw_score_fits). by eexists.
Qed.

Lemma make_work_candidate_ok c c' : make_work_candidate c = Ok c' -> c' = c /\ in_unit (ca_score c) = true.
Proof. unfold make_work_candidate. intros H. guards H. by injection H as <-. Qed.

Lemma candidate_for_some r a active c : candidate_for r a active = Ok (Some c) ->
  exists capacity ratio, node_capacity a active = Ok capacity /\ preferred_ratio r a = Ok ratio /\
  match_mode r a = Some (ca_mode c, ca_matched_capabilities c, ca_missing_capabilities c) /\
  ca_node_id c = text (nd_node_id a) /\ ca_organ c = nd_organ a /\
  ca_score c = py_round 4 (fmax f0 (fmin (raw_score a capacity ratio (ca_mode c)) f1)) /\
  in_unit (ca_score c) = true.
Proof.
  unfold candidate_for. destruct (match_mode r a) as [[[m ms] miss]|]; [|done]. intros H.
  apply outcome_bind_ok in H as (cap & -> & H). apply outcome_bind_ok in H as (ratio & -> & H).
  apply outcome_bind_ok in H as (c' & Hc & [= <-]).
  apply make_work_candidate_ok in Hc as [-> Hu]. exists cap, ratio. split_and!; done.
Qed.

(** *** The invariant *)

(** The registry holds checked, verified advertisements under their normal ids. *)
Definition registered (s : work_state) (k : string) (a : NodeAdvertisement) : Prop :=
  k = text (nd_node_id a) /\ make_node a = Ok a /\ text (nd_body_id a) = w_body_id s /\
  nd_body_verified a = true /\ nd_continuity_verified a = true.

(** The normal, non-empty node id and the lease id made of it. *)
Definition lease_named (w : string) (l : WorkLease) : Prop :=
  text (wl_node_id l) = wl_node_id l /\ wl_node_id l <> "" /\
  wl_lease_id l = w +:+ ":" +:+ wl_node_id l.

Definition leased (s : work_state) (w : string) (l : WorkLease) : Prop :=
  wl_work_id l = w /\ make_work_lease l = Ok l /\ (wl_node_id l ∉ refused_by w s) /\
  lease_named w l /\
  exists r, w_requirements s !! w = Some r /\ text (wr_work_id r) = w.

Record work_inv (s : work_state) : Prop := {
  inv_nodes : map_Forall (registered s) (w_nodes s);
  inv_leases : map_Forall (leased s) (w_leases s);
  inv_requirements : map_Forall (fun w r => text (wr_work_id r) = w) (w_requirements s)
}.

(** *** Who may be chosen *)

(** Node [a] offers to do the work as candidate [c]. *)
Definition offers (s : work_state) (r : WorkRequirement) (excluded : gset string)
    (a : NodeAdvertisement) (c : WorkCandidate) : Prop :=
  a ∈ registry_snapshot s /\ (text (nd_node_id a) ∉ excluded) /\
  exclusion_reason r a (active_count (text (nd_node_id a)) s) = None /\
  candidate_for r a (active_count (text (nd_node_id a)) s) = Ok (Some c).

Lemma judge_suitable s r excluded a c :
  judge s r excluded a = Ok (Suitable c) <->
  (text (nd_node_id a) ∉ excluded) /\
  exclusion_reason r a (active_count (text (nd_node_id a)) s) = None /\
  candidate_for r a (active_count (text (nd_node_id a)) s) = Ok (Some c).
Proof.
  unfold judge. case_bool_decide; [naive_solver|].
  destruct (exclusion_reason _ _ _); [naive_solver|].
  destruct (candidate_for _ _ _) as [[c'|]|]; cbn; naive_solver.
Qed.

Lemma judge_total s r excluded a : make_node a = Ok a -> exists v, judge s r excluded a = Ok v.
Proof.
  intros (_ & _ & _ & Hmax & _)%make_node_ok. unfold judge. case_bool_decide; [by eexists|].
  destruct (exclusion_reason _ _ _); [by eexists|].
  destruct (candidate_for_ok r a (active_count (text (nd_node_id a)) s) Hmax) as [c ->]. by eexists.
Qed.

Lemma elem_of_suitable p vs c : c ∈ suitable p vs <-> Suitable c ∈ vs /\ p (ca_mode c) = true.
Proof.
  unfold suitable. rewrite list_elem_of_omap. split.
  - intros ([why| |c'] & Hin & Hc); try done; [].
    destruct (p (ca_mode c')) eqn:Hp; [|done]. by injection Hc as <-.
  - intros [Hin Hp]. exists (Suitable c). by rewrite Hp.
Qed.

(** The class of a mode: full service before partial before observing. *)
Definition mode_class (m : PlacementMode) : nat :=
  match m with PARTIAL => 1 | OBSERVE_ONLY => 2 | _ => 0 end.

Lemma elem_of_candidates vs c : c ∈ candidates vs <->
  Suitable c ∈ vs /\ forall d, Suitable d ∈ vs -> mode_class (ca_mode c) <= mode_class (ca_mode d).
Proof.
  assert (forall p d, Suitable d ∈ vs -> p (ca_mode d) = true -> suitable p vs <> []) as Hne.
  { intros p d Hd Hp Hn. assert (d ∈ suitable p vs) as H by by apply elem_of_suitable.
    rewrite Hn in H. by apply elem_of_nil in H. }
  assert (forall p l, suitable p vs = l -> forall d, d ∈ l <-> Suitable d ∈ vs /\ p (ca_mode d) = true) as Hin.
  { intros p l <- d. apply elem_of_suitable. }
  unfold candidates. destruct (suitable is_full vs) as [|f fs] eqn:Hf.
  - assert (forall d, Suitable d ∈ vs -> mode_class (ca_mode d) <> 0) as Hnf.
    { intros d Hd Hm. apply (Hne is_full d Hd); [by destruct (ca_mode d)|done]. }
    destruct (suitable is_partial vs) as [|x xs] eqn:Hp.
    + assert (forall d, Suitable d ∈ vs -> mode_class (ca_mode d) <> 1) as Hnp.
      { intros d Hd Hm. apply (Hne is_partial d Hd); [by destruct (ca_mode d)|done]. }
      rewrite elem_of_suitable. split.
      * intros [Hc Hm]. split; [done|]. intros d Hd. specialize (Hnf d Hd). specialize (Hnp d Hd).
        destruct (ca_mode c), (ca_mode d); cbn in *; try done; lia.
      * intros [Hc _]. split; [done|]. specialize (Hnf c Hc). specialize (Hnp c Hc). by destruct (ca_mode c).
    + rewrite (Hin _ _ Hp). split.
      * intros [Hc Hm]. split; [done|]. intros d Hd. specialize (Hnf d Hd).
        destruct (ca_mode c), (ca_mode d); cbn in *; try done; lia.
      * intros [Hc Hle]. split; [done|].
        assert (x ∈ x :: xs) as [Hx Hxp]%(Hin _ _ Hp) by left.
        specialize (Hle x Hx). specialize (Hnf c Hc). destruct (ca_mode x); try done.
        destruct (ca_mode c); cbn in *; try done; lia.
  - rewrite (Hin _ _ Hf). split.
    + intros [Hc Hm]. split; [done|]. intros d Hd. by destruct (ca_mode c); try done; cbn; lia.
    + intros [Hc Hle]. split; [done|].
      assert (f ∈ f :: fs) as [Hx Hxp]%(Hin _ _ Hf) by left.
      specialize (Hle f Hx). destruct (ca_mode f); try done; destruct (ca_mode c); cbn in *; try done; lia.
Qed.

Lemma candidates_nil vs : candidates vs = [] -> forall c, Suitable c ∉ vs.
Proof.
  unfold candidates. intros H c Hc.
  assert (forall p, p (ca_mode c) = true -> suitable p vs <> []) as Hne.
  { intros p Hp Hn. assert (c ∈ suitable p vs) as Hx by by apply elem_of_suitable.
    rewrite Hn in Hx. by apply elem_of_nil in Hx. }
  destruct (suitable is_full vs) eqn:Hf; [|done]. destruct (suitable is_partial vs) eqn:Hp; [|done].
  specialize (Hne is_full) as H1. specialize (Hne is_partial) as H2. specialize (Hne is_observe) as H3.
  destruct (ca_mode c); naive_solver.
Qed.

(** *** The ranking *)

Definition rankable (c : WorkCandidate) : Prop := fnan (ca_score c) = false.

(** [c] comes before [d]: a higher score, or the same score and a smaller node id. *)
Lemma sort_key_lt_iff c d a b : float_place (ca_score c) = Some a -> float_place (ca_score d) = Some b ->
  sort_key_lt c d = true <->
  float_place_lt b a \/ b = a /\ ~ String.le (ca_node_id d) (ca_node_id c).
Proof.
  intros Ha Hb. unfold sort_key_lt, str_lt. rewrite feq_neg, flt_neg.
  destruct (feq (ca_score d) (ca_score c)) eqn:He.
  - apply (feq_place _ _ b a) in He as ->; [|done..]. rewrite negb_true_iff, bool_decide_eq_false.
    unfold float_place_lt. split; [by right|]. intros [|[_ H]]; [lia|done].
  - rewrite (flt_place' _ _ b a) by done. split; [by left|]. intros [|[-> _]]; [done|].
    by rewrite (proj2 (feq_place _ _ a a Hb Ha) eq_refl) in He.
Qed.

Lemma sort_key_asym c d : rankable c -> rankable d -> sort_key_lt c d = true -> sort_key_lt d c = false.
Proof.
  intros [a Ha]%number_place [b Hb]%number_place H. apply not_true_iff_false.
  rewrite (sort_key_lt_iff _ _ b a) by done. rewrite (sort_key_lt_iff _ _ a b) in H by done.
  unfold float_place_lt in *. destruct H as [H|[-> H]]; [intros [H'|[-> _]]; lia|].
  intros [H'|[_ H']]; [lia|]. destruct (total String.le (ca_node_id c) (ca_node_id d)); done.
Qed.

Lemma sort_key_weak c d e : rankable c -> rankable d -> rankable e ->
  sort_key_lt c d = true -> sort_key_lt e d = false -> sort_key_lt c e = true.
Proof.
  intros [x Hx]%number_place [y Hy]%number_place [z Hz]%number_place H1 H2.
  rewrite <- not_true_iff_false in H2. rewrite (sort_key_lt_iff _ _ z y) in H2 by done.
  rewrite (sort_key_lt_iff _ _ x y) in H1 by done. rewrite (sort_key_lt_iff _ _ x z) by done.
  destruct (decide (y = z)) as [->|Hne].
  - destruct H1 as [H1|[-> H1]]; [by left|right]. split; [done|]. intros He.
    apply H2. right. split; [done|]. intros Hd. apply H1. by etrans.
  - left. unfold float_place_lt in *. destruct x as [[x1 x2] x3], y as [[y1 y2] y3], z as [[z1 z2] z3].
    cbn in *. assert (~ (y1 = z1 /\ y2 = z2 /\ y3 = z3)) by (intros (-> & -> & ->); done).
    destruct H1 as [H1|[[= -> -> ->] _]]; lia.
Qed.

(** The first of the ranking: no candidate has a higher score, nor the same score and a
    smaller node id. *)
Lemma ranking_head l c rest : Forall rankable l -> py_sorted sort_key_lt l = c :: rest ->
  c ∈ l /\ forall d, d ∈ l -> fle (ca_score d) (ca_score c) = true /\
    (feq (ca_score d) (ca_score c) = true -> String.le (ca_node_id c) (ca_node_id d)).
Proof.
  intros Hall Hs. destruct (py_sorted_head sort_key_lt rankable sort_key_asym sort_key_weak l c rest Hall Hs)
    as [Hc Hmin]. split; [done|]. intros d Hd. rewrite Forall_forall in Hall.
  destruct (number_place _ (Hall c Hc)) as [a Ha]. destruct (number_place _ (Hall d Hd)) as [b Hb].
  destruct (Hmin d Hd) as [->|Hlt].
  - split; [|done]. apply fle_place. rewrite Ha. do 2 eexists. split_and!; [done..|].
    unfold float_place_lt. lia.
  - rewrite <- not_true_iff_false, (sort_key_lt_iff _ _ b a) in Hlt by done. split.
    + apply fle_place. rewrite Ha, Hb. do 2 eexists. split_and!; [done..|]. tauto.
    + rewrite (feq_place _ _ b a) by done. intros ->. apply dec_stable. tauto.
Qed.

(** *** The specification of [_place_locked] *)

(** A refusal leaves the state; a placement adds the lease of the best offer. *)
Inductive placement (s : work_state) (r : WorkRequirement) (now lease_seconds : float)
    (excluded : gset string) : outcome WorkPlacementDecision -> work_state -> Prop :=
| placement_none d :
    make_placement d = Ok d -> pd_lease d = None -> pd_state d = "capability_unavailable" ->
    pd_degradation d = D_CAPABILITY_UNAVAILABLE ->
    (forall a c, ~ offers s r excluded a c) ->
    placement s r now lease_seconds excluded (Ok d) s
| placement_bad_expiry c e a :
    offers s r excluded a c -> lease_of r c now lease_seconds = Err e ->
    placement s r now lease_seconds excluded (Err e) s
| placement_leased a c l d :
    offers s r excluded a c -> lease_of r c now lease_seconds = Ok l ->
    make_placement d = Ok d -> pd_lease d = Some l ->
    pd_state d = (if bool_decide (wl_degradation l = D_NONE) then "leased" else "leased_degraded") ->
    pd_degradation d = wl_degradation l ->
    (forall a' c', offers s r excluded a' c' ->
       mode_class (ca_mode c) <= mode_class (ca_mode c') /\
       (mode_class (ca_mode c) = mode_class (ca_mode c') ->
        fle (ca_score c') (ca_score c) = true /\
        (feq (ca_score c') (ca_score c) = true -> String.le (ca_node_id c) (ca_node_id c')))) ->
    placement s r now lease_seconds excluded (Ok d)
      (set_leases (<[text (wr_work_id r) := l]> (w_leases s)) s).

Definition checked_registry (s : work_state) : Prop := map_Forall (fun _ a => make_node a = Ok a) (w_nodes s).

Lemma work_inv_registry s : work_inv s -> checked_registry s.
Proof. intros H k a Ha. by destruct (inv_nodes s H k a Ha) as (_ & Hm & _). Qed.

Lemma lease_of_ok r c now ls l : lease_of r c now ls = Ok l ->
  wl_work_id l = text (wr_work_id r) /\ wl_node_id l = ca_node_id c /\ wl_organ l = ca_organ c /\
  wl_mode l = ca_mode c /\ wl_matched_capabilities l = ca_matched_capabilities c /\
  wl_missing_capabilities l = ca_missing_capabilities c /\ wl_issued_at l = now /\
  wl_expires_at l = fadd now ls /\ wl_degradation l = degradation_of (ca_mode c) /\
  wl_court_authorization_required l = wr_consequential r /\ make_work_lease l = Ok l.
Proof. unfold lease_of. intros H. destruct (make_work_lease_ok _ _ H) as [-> _]. split_and!; done. Qed.

Lemma place_locked_spec r now ls excluded s : checked_registry s ->
  placement s r now ls excluded (place_locked r now ls excluded s).1 (place_locked r now ls excluded s).2.
Proof.
  intros Hreg. unfold place_locked.
  destruct (mapM_outcome_total (judge s r excluded) (registry_snapshot s)) as [vs Hvs].
  { intros a [k Hk]%elem_of_sorted_values. apply judge_total. by apply (Hreg k). }
  rewrite Hvs.
  assert (forall c, Suitable c ∈ vs <-> exists a, offers s r excluded a c) as Hoff.
  { intros c. rewrite (elem_of_mapM_outcome _ _ _ _ Hvs). unfold offers.
    by setoid_rewrite judge_suitable. }
  assert (Forall rankable (candidates vs)) as Hrank.
  { apply Forall_forall. intros c [(a & _ & _ & _ & Hc)%Hoff _]%elem_of_candidates.
    apply candidate_for_some in Hc as (? & ? & _ & _ & _ & _ & _ & _ & Hu). by apply in_unit_not_nan. }
  destruct (py_sorted sort_key_lt (candidates vs)) as [|c rest] eqn:Hs.
  - assert (candidates vs = []) as Hnil by (apply Permutation_nil_r; by rewrite <- Hs, py_sorted_perm).
    rewrite new_placement_ok by done. apply placement_none; try done.
    intros a c Hc. by apply (candidates_nil vs Hnil c), Hoff; exists a.
  - destruct (ranking_head _ _ _ Hrank Hs) as [Hc Hbest].
    pose proof (proj1 (elem_of_candidates vs c) Hc) as [Hsc Hclass].
    destruct (proj1 (Hoff c) Hsc) as [a Ha].
    destruct (lease_of r c now ls) as [l|e] eqn:Hl; [|by eapply placement_bad_expiry].
    destruct (lease_of_ok _ _ _ _ _ Hl) as (_ & _ & _ & _ & _ & _ & _ & _ & Hdeg & _).
    rewrite new_placement_ok by done. eapply placement_leased; try done.
    + cbn [pd_state]. by rewrite Hdeg.
    + intros a' c' Ha'. assert (Suitable c' ∈ vs) as Hc' by (apply Hoff; by exists a').
      split; [by apply Hclass|]. intros Heq. apply Hbest, elem_of_candidates. split; [done|].
      rewrite <- Heq. exact Hclass.
Qed.

(** ** Steps *)

Inductive work_op :=
| WRegister (a : NodeAdvertisement)
| WRemove (node_id : string)
| WAvailability (node_id : string) (v : NodeAvailability)
| WPlace (r : WorkRequirement) (now lease_seconds : float) (exclude_nodes : list string)
| WRefuse (work_id node_id reason : string) (now lease_seconds : float)
| WComplete (work_id node_id : string)
| WRecover (now max_heartbeat_age lease_seconds : float).

(** The objects an operation is given have passed their constructors' checks. *)
Definition checked_op (op : work_op) : Prop :=
  match op with WRegister a => make_node a = Ok a | _ => True end.

Definition work_step (op : work_op) (s : work_state) : work_state :=
  match op with
  | WRegister a => (node_register a s).2
  | WRemove node_id => (node_remove node_id s).2
  | WAvailability node_id v => (set_availability node_id v s).2
  | WPlace r now ls ex => (place r now ls ex s).2
  | WRefuse w n why now ls => (refuse_and_reassign w n why now ls s).2
  | WComplete w n => (work_complete w n s).2
  | WRecover now age ls => (recover_unavailable_nodes now age ls s).2
  end.

Lemma affected_lookup failed s w l : (w, l) ∈ affected_leases failed s <->
  w_leases s !! w = Some l /\ wl_node_id l ∈ failed.
Proof.
  unfold affected_leases. rewrite list_elem_of_omap. split.
  - intros (k & Hk & Hw). destruct (w_leases s !! k) as [m|] eqn:Hm; [|done].
    case_bool_decide; [|done]. by injection Hw as <- <-.
  - intros [Hl Hf]. exists w. rewrite elem_of_sorted_keys, Hl. split; [done|]. by rewrite bool_decide_true.
Qed.

Lemma affected_current failed s :
  Forall (fun wl => w_leases s !! wl.1 = Some wl.2) (affected_leases failed s).
Proof. apply Forall_forall. intros [w l] H%affected_lookup. apply H. Qed.

Lemma affected_NoDup failed s : NoDup (affected_leases failed s).*1.
Proof.
  unfold affected_leases. pose proof (NoDup_sorted_keys (w_leases s)) as Hnd.
  induction (sorted_keys (w_leases s)) as [|k ks IH]; [constructor|].
  inversion Hnd as [|? ? Hk Hks]; subst. cbn. specialize (IH Hks).
  destruct (w_leases s !! k) as [l|]; [|done]. case_bool_decide; [|done]. cbn. constructor; [|done].
  intros ([? m] & -> & Hin)%list_elem_of_fmap. cbn in *. apply Hk.
  apply list_elem_of_omap in Hin as (k' & Hk' & Hm). destruct (w_leases s !! k'); [|done].
  case_bool_decide; [|done]. by injection Hm as <- <-.
Qed.

Lemma place_locked_leases r now ls ex s w : checked_registry s -> w <> text (wr_work_id r) ->
  w_leases (place_locked r now ls ex s).2 !! w = w_leases s !! w.
Proof.
  intros Hreg Hw. pose proof (place_locked_spec r now ls ex s Hreg) as H.
  destruct (place_locked r now ls ex s) as [o s']. inversion H; subst; try done.
  cbn. by rewrite lookup_insert_ne.
Qed.

(** What each operation does to the tables, once for all invariants: the registry changes
    by registering (where [registers] allows it), removing and marking nodes; leases leave
    by expiry or completion (of [completable] works), and move when the holder refuses or
    fails. *)
Section Induction.
Context (P : work_state -> Prop) (registers : Prop) (completable : string -> Prop).
Context (P_register : forall s a, registers -> P s -> make_node a = Ok a -> text (nd_body_id a) = w_body_id s ->
  nd_body_verified a = true -> nd_continuity_verified a = true ->
  P (set_nodes (<[text (nd_node_id a) := a]> (w_nodes s)) s)).
Context (P_remove : forall s k, P s -> P (set_nodes (delete k (w_nodes s)) s)).
Context (P_available : forall s k a v, P s -> w_nodes s !! k = Some a ->
  P (set_nodes (<[k := with_availability v a]> (w_nodes s)) s)).
Context (P_expire : forall s now, P s -> P (expire_leases now s)).
Context (P_drop : forall s w, P s -> P (drop_lease w s)).
Context (P_require : forall s r, P s -> w_leases s !! text (wr_work_id r) = None ->
  P (set_requirements (<[text (wr_work_id r) := r]> (w_requirements s)) s)).
Context (P_take_back : forall s w l, P s -> w_leases s !! w = Some l -> P (take_back w (wl_node_id l) s)).
Context (P_place : forall s r now ls ex, P s -> w_requirements s !! text (wr_work_id r) = Some r ->
  w_leases s !! text (wr_work_id r) = None -> refused_by (text (wr_work_id r)) s ⊆ ex ->
  P (place_locked r now ls ex s).2).
Context (P_complete : forall s w l, completable w -> P s -> w_leases s !! w = Some l -> P (forget_work w s)).
Context (P_inv : forall s, P s -> work_inv s).

Lemma mark_offline_ind failed s : P s -> P (mark_offline failed s).
Proof using P_available.
  unfold mark_offline. revert s. induction failed as [|k failed IH]; intros s HP; [done|].
  cbn. apply IH. unfold set_availability. destruct (w_nodes s !! text k) as [a|] eqn:Ha; [|done].
  by apply P_available.
Qed.

Lemma reassign_one_ind s w l r now ls : P s -> w_leases s !! w = Some l -> w_requirements s !! w = Some r ->
  P (place_locked r now ls (refused_by w (take_back w (wl_node_id l) s)) (take_back w (wl_node_id l) s)).2.
Proof using P_take_back P_place P_inv.
  intros HP Hl Hr. pose proof (inv_requirements s (P_inv s HP) w r Hr) as Hw. cbn in Hw.
  apply P_place; [by apply P_take_back|by rewrite Hw|cbn; rewrite Hw; apply lookup_delete_eq|by rewrite Hw].
Qed.

Lemma reassign_all_ind now ls affected s : NoDup affected.*1 ->
  Forall (fun wl => w_leases s !! wl.1 = Some wl.2) affected -> P s ->
  P (reassign_all now ls affected s).2.
Proof using P_take_back P_place P_inv P_drop.
  revert s. induction affected as [|[w l] rest IH]; intros s Hnd Hall HP; [done|].
  inversion Hnd as [|? ? Hw Hnd']; subst. inversion Hall as [|? ? Hl Hall']; subst. cbn in Hl.
  assert (forall s', (forall v, v <> w -> w_leases s' !! v = w_leases s !! v) ->
    Forall (fun wl => w_leases s' !! wl.1 = Some wl.2) rest) as Hrest.
  { intros s' Hs'. apply Forall_forall. intros [v m] Hv. rewrite Forall_forall in Hall'.
    cbn. rewrite Hs'; [by apply (Hall' (v, m))|]. intros ->. apply Hw. by apply (list_elem_of_fmap_2 fst _ (w, m)). }
  cbn [reassign_all]. destruct (w_requirements s !! w) as [r|] eqn:Hr.
  - pose proof (reassign_one_ind s w l r now ls HP Hl Hr) as Hone.
    destruct (place_locked r now ls _ _) as [o s3] eqn:Hpl. cbn [snd] in Hone.
    destruct (outcome_bind _ _) as [d|e]; [|done].
    destruct (reassign_all now ls rest s3) as [ds s4] eqn:Hre. cbn [snd].
    change s4 with ((ds, s4).2). rewrite <- Hre. apply IH; [done| |done]. apply Hrest.
    intros v Hv. pose proof (inv_requirements s (P_inv s HP) w r Hr) as Hwr. cbn in Hwr.
    replace s3 with (place_locked r now ls (refused_by w (take_back w (wl_node_id l) s))
      (take_back w (wl_node_id l) s)).2 by by rewrite Hpl.
    rewrite place_locked_leases; [cbn; by rewrite lookup_delete_ne| |by rewrite Hwr].
    apply (work_inv_registry _), P_inv. by apply P_take_back.
  - apply IH; [done| |by apply P_drop]. apply Hrest. intros v Hv. cbn. by rewrite lookup_delete_ne.
Qed.

Lemma work_step_ind op s : (forall a, op = WRegister a -> registers) ->
  (forall w n, op = WComplete w n -> (work_complete w n s).1 = true -> completable (text w)) ->
  checked_op op -> P s -> P (work_step op s).
Proof using All.
  intros Hreg Hcom Hop HP. destruct op as [a|k|k v|r now ls ex|w n why now ls|w n|now age ls]; cbn in *.
  - unfold node_register. case_match eqn:Hreasons; [|done]. cbn.
    apply app_nil in Hreasons as [H1 [H2 H3]%app_nil]. repeat case_bool_decide; try done.
    destruct (nd_body_verified a) eqn:?, (nd_continuity_verified a) eqn:?; try done.
    apply P_register; try done. by eapply Hreg.
  - by apply P_remove.
  - unfold set_availability. destruct (w_nodes s !! text k) as [a|] eqn:Ha; [|done]. by apply P_available.
  - unfold place. case_match; [done|]. apply P_expire with (now := now) in HP.
    destruct (w_leases (expire_leases now s) !! text (wr_work_id r)) as [l|] eqn:Hl; [done|].
    apply P_place; [by apply P_require|cbn; apply lookup_insert_eq|done|set_solver].
  - unfold refuse_and_reassign. case_match; [done|].
    destruct (w_leases s !! text w) as [l|] eqn:Hl; [|done].
    destruct (w_requirements s !! text w) as [r|] eqn:Hr; [|done].
    case_bool_decide as Hn; [done|]. rewrite <- Hn.
    pose proof (reassign_one_ind s (text w) l r now ls HP Hl Hr) as Hone.
    by destruct (place_locked _ _ _ _ _).
  - specialize (Hcom w n eq_refl). unfold work_complete in *.
    destruct (w_leases s !! text w) as [l|] eqn:Hl; [|done].
    case_bool_decide; [done|]. eapply P_complete; [by apply Hcom|done..].
  - unfold recover_unavailable_nodes. destruct (failed_nodes now age s) as [failed|]; [|done].
    set (s1 := expire_leases now (mark_offline failed s)).
    apply reassign_all_ind; [apply affected_NoDup|apply affected_current|].
    apply P_expire. by apply mark_offline_ind.
Qed.
End Induction.

(** The invariant is kept by every operation. *)
Lemma leased_more s s' w l : leased s w l ->
  refused_by w s' ⊆ refused_by w s -> w_requirements s' !! w = w_requirements s !! w -> leased s' w l.
Proof. unfold leased. intros (? & ? & ? & ? & ?) Hsub ->. split_and!; set_solver. Qed.

Lemma work_inv_shrink s ls : work_inv s -> ls ⊆ w_leases s -> work_inv (set_leases ls s).
Proof.
  intros [Hn Hl Hr] Hsub. split; [exact Hn| |exact Hr]. intros w l Hw. cbn in Hw.
  exact (Hl w l (lookup_weaken _ _ _ _ Hw Hsub)).
Qed.

Lemma take_back_refused w n s v :
  refused_by v (take_back w n s) = if decide (v = w) then {[n]} ∪ refused_by w s else refused_by v s.
Proof.
  unfold take_back, refused_by. cbn. case_decide as H; subst.
  - by rewrite lookup_insert_eq.
  - by rewrite lookup_insert_ne by done.
Qed.

Lemma place_locked_state r now ls ex s : checked_registry s ->
  (place_locked r now ls ex s).2 = s \/
  exists a c l, offers s r ex a c /\ lease_of r c now ls = Ok l /\
    (place_locked r now ls ex s).2 = set_leases (<[text (wr_work_id r) := l]> (w_leases s)) s.
Proof.
  intros Hreg. pose proof (place_locked_spec r now ls ex s Hreg) as H.
  destruct (place_locked r now ls ex s) as [o s']. cbn [fst snd] in *.
  inversion H; subst; [by left..|]. right. by exists a, c, l.
Qed.

Lemma candidate_node r a active c : candidate_for r a active = Ok (Some c) -> ca_node_id c = text (nd_node_id a).
Proof. intros H. by destruct (candidate_for_some _ _ _ _ H) as (? & ? & _ & _ & _ & ? & _). Qed.

Lemma offers_lease_node s r ex a c now ls l : offers s r ex a c -> lease_of r c now ls = Ok l ->
  wl_node_id l = text (nd_node_id a).
Proof.
  intros (_ & _ & _ & Hc) Hl. destruct (lease_of_ok _ _ _ _ _ Hl) as (_ & -> & _). by eapply candidate_node.
Qed.

(** The invariant under each change. *)
Lemma inv_register s a : work_inv s -> make_node a = Ok a -> text (nd_body_id a) = w_body_id s ->
  nd_body_verified a = true -> nd_continuity_verified a = true ->
  work_inv (set_nodes (<[text (nd_node_id a) := a]> (w_nodes s)) s).
Proof.
  intros [Hn Hl Hr] Ha Hb Hv Hc. split; [|exact Hl|exact Hr].
  apply map_Forall_insert_2; [by split_and!|exact Hn].
Qed.

Lemma inv_remove s k : work_inv s -> work_inv (set_nodes (delete k (w_nodes s)) s).
Proof. intros [Hn Hl Hr]. split; [|exact Hl|exact Hr]. by apply map_Forall_delete. Qed.

Lemma inv_available s k a v : work_inv s -> w_nodes s !! k = Some a ->
  work_inv (set_nodes (<[k := with_availability v a]> (w_nodes s)) s).
Proof.
  intros [Hn Hl Hr] Ha. split; [|exact Hl|exact Hr].
  apply map_Forall_insert_2; [|exact Hn]. destruct (Hn k a Ha) as (Hk & Hm & Hb & Hv & Hc).
  split_and!; try done. by apply make_node_available.
Qed.

Lemma inv_expire s now : work_inv s -> work_inv (expire_leases now s).
Proof. intros H. apply work_inv_shrink; [done|]. apply map_filter_subseteq. Qed.

Lemma inv_drop s w : work_inv s -> work_inv (drop_lease w s).
Proof. intros H. apply work_inv_shrink; [done|]. apply delete_subseteq. Qed.

Lemma inv_require s r : work_inv s -> w_leases s !! text (wr_work_id r) = None ->
  work_inv (set_requirements (<[text (wr_work_id r) := r]> (w_requirements s)) s).
Proof.
  intros [Hn Hl Hr] Hnone. split; [exact Hn| |by apply map_Forall_insert_2].
  intros w l Hw. cbn in Hw. apply (leased_more s); [by apply Hl|done|].
  cbn. rewrite lookup_insert_ne; [done|]. intros <-. congruence.
Qed.

Lemma inv_take_back s w n : work_inv s -> work_inv (take_back w n s).
Proof.
  intros [Hn Hl Hr]. split; [exact Hn| |exact Hr]. intros v m Hv. cbn in Hv.
  apply lookup_delete_Some in Hv as [Hne Hv]. apply (leased_more s); [by apply Hl| |done].
  rewrite take_back_refused, decide_False by done. done.
Qed.

Lemma inv_place s r now ls ex : work_inv s -> w_requirements s !! text (wr_work_id r) = Some r ->
  refused_by (text (wr_work_id r)) s ⊆ ex -> work_inv (place_locked r now ls ex s).2.
Proof.
  intros H Hr Hsub.
  destruct (place_locked_state r now ls ex s (work_inv_registry s H)) as [->|(a & c & l & Ho & Hl & ->)]; [done|].
  destruct H as [Hn Hls Hrs]. split; [exact Hn| |exact Hrs].
  apply map_Forall_insert_2; [|exact Hls].
  destruct (lease_of_ok _ _ _ _ _ Hl) as (Hw & _ & _ & _ & _ & _ & _ & _ & _ & _ & Hm).
  pose proof (offers_lease_node _ _ _ _ _ _ _ _ Ho Hl) as Hnode. destruct Ho as (Ha & Hex & _ & _).
  split_and!; try done; [rewrite Hnode; set_solver| |by exists r].
  apply elem_of_sorted_values in Ha as (k & Hk). destruct (Hn k a Hk) as (_ & Hmk & _).
  destruct (make_node_ok _ _ Hmk) as (_ & _ & _ & _ & _ & Hne & _).
  unfold lease_named. rewrite Hnode, text_idem. split_and!; [done..|].
  rewrite <- Hnode. unfold lease_of in Hl. destruct (make_work_lease_ok _ _ Hl) as [-> _]. reflexivity.
Qed.

Lemma forget_refused w s v : v <> w -> refused_by v (forget_work w s) = refused_by v s.
Proof. intros. unfold refused_by. cbn. by rewrite lookup_delete_ne. Qed.

Lemma inv_forget s w : work_inv s -> work_inv (forget_work w s).
Proof.
  intros [Hn Hl Hr]. split; [exact Hn| |by apply map_Forall_delete].
  intros v m Hv. cbn in Hv. apply lookup_delete_Some in Hv as [Hne Hv].
  apply (leased_more s); [by apply Hl|by rewrite forget_refused|]. cbn. by rewrite lookup_delete_ne.
Qed.

Lemma work_inv_step op s : checked_op op -> work_inv s -> work_inv (work_step op s).
Proof.
  apply (work_step_ind work_inv True (fun _ => True)); auto using inv_register, inv_remove, inv_available,
    inv_expire, inv_drop, inv_require, inv_take_back, inv_place, inv_forget.
Qed.

(** The induction for a property of states that satisfy the invariant. *)
Section InvariantInduction.
Context (P : work_state -> Prop) (registers : Prop) (completable : string -> Prop).
Context (P_register : forall s a, registers -> work_inv s -> P s -> make_node a = Ok a ->
  P (set_nodes (<[text (nd_node_id a) := a]> (w_nodes s)) s)).
Context (P_remove : forall s k, P s -> P (set_nodes (delete k (w_nodes s)) s)).
Context (P_available : forall s k a v, work_inv s -> P s -> w_nodes s !! k = Some a ->
  P (set_nodes (<[k := with_availability v a]> (w_nodes s)) s)).
Context (P_drop : forall s ls, P s -> ls ⊆ w_leases s -> P (set_leases ls s)).
Context (P_require : forall s r, work_inv s -> P s ->
  P (set_requirements (<[text (wr_work_id r) := r]> (w_requirements s)) s)).
Context (P_refuse : forall s w n, work_inv s -> P s -> w_leases s !! w = None ->
  P (set_refusals (<[w := {[n]} ∪ refused_by w s]> (w_refusals s)) s)).
Context (P_lease : forall s r ex a c now secs l, work_inv s -> P s -> offers s r ex a c ->
  lease_of r c now secs = Ok l -> w_leases s !! text (wr_work_id r) = None ->
  refused_by (text (wr_work_id r)) s ⊆ ex ->
  P (set_leases (<[text (wr_work_id r) := l]> (w_leases s)) s)).
Context (P_complete : forall s w, completable w -> work_inv s -> P s -> P (forget_work w s)).

Lemma inv_step_ind op s : (forall a, op = WRegister a -> registers) ->
  (forall w n, op = WComplete w n -> (work_complete w n s).1 = true -> completable (text w)) ->
  checked_op op -> work_inv s -> P s -> P (work_step op s).
Proof using All.
  intros Hreg Hcom Hop Hinv HP.
  enough (work_inv (work_step op s) /\ P (work_step op s)) by tauto.
  apply (work_step_ind (fun s => work_inv s /\ P s) registers completable); try done; clear -P_register P_remove
    P_available P_drop P_require P_refuse P_lease P_complete.
  - intros s a Hreg [Hi HP] Ha Hb Hv Hc. split; [by apply inv_register|by apply P_register].
  - intros s k [Hi HP]. split; [by apply inv_remove|by apply P_remove].
  - intros s k a v [Hi HP] Ha. split; [by apply inv_available|by apply P_available].
  - intros s now [Hi HP]. split; [by apply inv_expire|]. apply P_drop; [done|]. apply map_filter_subseteq.
  - intros s w [Hi HP]. split; [by apply inv_drop|]. apply P_drop; [done|]. apply delete_subseteq.
  - intros s r [Hi HP] Hn. split; [by apply inv_require|by apply P_require].
  - intros s w l [Hi HP] Hw. split; [by apply inv_take_back|].
    apply P_refuse; [by apply inv_drop| |apply lookup_delete_eq]. apply P_drop; [done|]. apply delete_subseteq.
  - intros s r now ls ex [Hi HP] Hr Hn Hsub. split; [by apply inv_place|].
    destruct (place_locked_state r now ls ex s (work_inv_registry s Hi)) as [->|(a & c & l & Ho & Hl & ->)]; [done|].
    by eapply P_lease.
  - intros s w l Hw [Hi HP] Hl. split; [by apply inv_forget|by apply P_complete].
  - tauto.
Qed.
End InvariantInduction.

Definition work_run (ops : list work_op) (s : work_state) : work_state :=
  fold_left (fun s op => work_step op s) ops s.

Lemma work_inv_run ops s : Forall checked_op ops -> work_inv s -> work_inv (work_run ops s).
Proof.
  intros Hops. revert s. induction Hops as [|op ops Hop _ IH]; intros s H; [done|].
  by apply IH, work_inv_step.
Qed.

Lemma new_work_inv body s : new_work_state body = Ok s -> work_inv s.
Proof. unfold new_work_state. intros H. guards H. injection H as <-. split; apply map_Forall_empty. Qed.

(** *** Which works an operation can lease *)

Lemma expire_lookup now s w l :
  w_leases (expire_leases now s) !! w = Some l <-> w_leases s !! w = Some l /\ fle (wl_expires_at l) now = false.
Proof. unfold expire_leases. cbn. by rewrite map_lookup_filter_Some. Qed.

Lemma place_leases r now ls ex s w : work_inv s ->
  is_Some (w_leases (place r now ls ex s).2 !! w) -> is_Some (w_leases s !! w) \/ w = text (wr_work_id r).
Proof.
  intros Hinv. unfold place. case_match; [by left|].
  assert (forall v, is_Some (w_leases (expire_leases now s) !! v) -> is_Some (w_leases s !! v)) as Hexp.
  { intros v [l [Hl _]%expire_lookup]. by exists l. }
  destruct (w_leases (expire_leases now s) !! text (wr_work_id r)) eqn:Hl; [intros; left; by apply Hexp|].
  destruct (decide (w = text (wr_work_id r))) as [->|Hne]; [by right|left].
  rewrite place_locked_leases in H0; [by apply Hexp| |done].
  by apply work_inv_registry, inv_require; [apply inv_expire|].
Qed.

Lemma refuse_leases w n reason now ls s v : work_inv s ->
  is_Some (w_leases (refuse_and_reassign w n reason now ls s).2 !! v) -> is_Some (w_leases s !! v).
Proof.
  intros Hinv. unfold refuse_and_reassign. case_match; [done|].
  destruct (w_leases s !! text w) as [l|] eqn:Hl; [|done].
  destruct (w_requirements s !! text w) as [r|] eqn:Hr; [|done]. case_bool_decide; [done|].
  pose proof (inv_requirements s Hinv _ r Hr) as Hw. cbn in Hw.
  destruct (decide (v = text w)) as [->|Hne]; [by rewrite Hl|].
  pose proof (place_locked_leases r now ls (refused_by (text w) (take_back (text w) (text n) s))
    (take_back (text w) (text n) s) v (work_inv_registry _ (inv_take_back _ _ _ Hinv))) as Hp.
  rewrite Hw in Hp. specialize (Hp Hne). destruct (place_locked _ _ _ _ _) as [o s3].
  cbn [snd] in *. rewrite Hp. cbn. by rewrite lookup_delete_ne.
Qed.

Lemma reassign_all_leases now ls affected : forall s v, work_inv s ->
  Forall (fun wl => is_Some (w_leases s !! wl.1)) affected -> NoDup affected.*1 ->
  is_Some (w_leases (reassign_all now ls affected s).2 !! v) -> is_Some (w_leases s !! v).
Proof.
  induction affected as [|[w l] rest IH]; intros s v Hinv Hall Hnd; [done|].
  cbn in Hnd. inversion Hnd as [|? ? Hw Hnd']; subst. inversion Hall as [|? ? [m Hm] Hall']; subst.
  cbn [fst] in Hm. cbn [reassign_all]. destruct (inv_leases s Hinv w m Hm) as (_ & _ & _ & _ & r & Hr & Hwr).
  rewrite Hr. set (s2 := take_back w (wl_node_id l) s).
  assert (work_inv s2) as Hinv2 by by apply inv_take_back.
  assert (work_inv (place_locked r now ls (refused_by w s2) s2).2) as Hinv3 by (apply inv_place; by rewrite ?Hwr).
  assert (forall u, u <> w -> w_leases (place_locked r now ls (refused_by w s2) s2).2 !! u = w_leases s !! u) as Hsame.
  { intros u Hu. rewrite place_locked_leases; [cbn; by rewrite lookup_delete_ne|by apply work_inv_registry|by rewrite Hwr]. }
  assert (forall u, is_Some (w_leases (place_locked r now ls (refused_by w s2) s2).2 !! u) -> is_Some (w_leases s !! u)) as Hsub.
  { intros u Hu. destruct (decide (u = w)) as [->|Hne]; [by exists m|by rewrite <- Hsame]. }
  destruct (place_locked r now ls (refused_by w s2) s2) as [o s3]. cbn [snd] in *.
  destruct (outcome_bind _ _) as [d|]; [|apply Hsub].
  specialize (IH s3 v Hinv3). destruct (reassign_all now ls rest s3) as [ds s4]. cbn [snd] in *.
  intros Hv. apply Hsub, IH; [|done|done]. apply Forall_forall. intros [u k] Hu. cbn.
  rewrite Forall_forall in Hall'. rewrite Hsame; [exact (Hall' _ Hu)|].
  intros ->. apply Hw. by apply (list_elem_of_fmap_2 fst _ (w, k)).
Qed.

Lemma mark_offline_leases failed s : w_leases (mark_offline failed s) = w_leases s.
Proof.
  unfold mark_offline. revert s. induction failed as [|k failed IH]; intros s; [done|]. cbn. rewrite IH.
  unfold set_availability. by destruct (w_nodes s !! text k).
Qed.

Lemma inv_mark_offline failed s : work_inv s -> work_inv (mark_offline failed s).
Proof. apply (mark_offline_ind work_inv). auto using inv_available. Qed.

Lemma recover_leases now age ls s v : work_inv s ->
  is_Some (w_leases (recover_unavailable_nodes now age ls s).2 !! v) -> is_Some (w_leases s !! v).
Proof.
  intros Hinv. unfold recover_unavailable_nodes. destruct (failed_nodes now age s) as [failed|]; [|done].
  intros Hv. apply reassign_all_leases in Hv.
  - destruct Hv as [l [Hl _]%expire_lookup]. rewrite mark_offline_leases in Hl. by exists l.
  - by apply inv_expire, inv_mark_offline.
  - eapply Forall_impl; [apply affected_current|]. intros [w l] H. cbn in *. by rewrite H.
  - apply affected_NoDup.
Qed.

(** *** A decision reports the lease that is recorded *)

Lemma place_locked_recorded r now ls ex s d s' : checked_registry s ->
  w_leases s !! text (wr_work_id r) = None -> place_locked r now ls ex s = (Ok d, s') ->
  make_placement d = Ok d /\ w_leases s' !! text (wr_work_id r) = pd_lease d.
Proof.
  intros Hreg Hnone Hp. pose proof (place_locked_spec r now ls ex s Hreg) as H. rewrite Hp in H. cbn in H.
  inversion H as [d' Hm Hl|c e a|a c l d' _ _ Hm Hl _ _ _]; subst.
  - by rewrite Hl.
  - split; [done|]. rewrite Hl. cbn. apply lookup_insert_eq.
Qed.

Lemma make_placement_idem d d' : make_placement d = Ok d' -> make_placement d' = Ok d'.
Proof. intros H. by destruct (make_placement_ok _ _ H) as [-> _]. Qed.

Lemma place_recorded r now ls ex s d s' : work_inv s -> place r now ls ex s = (Ok d, s') ->
  make_placement d = Ok d /\ w_leases s' !! text (wr_work_id r) = pd_lease d.
Proof.
  intros Hinv. unfold place. case_match; [done|].
  destruct (w_leases (expire_leases now s) !! text (wr_work_id r)) as [l|] eqn:Hl.
  - rewrite new_placement_ok by done. intros [= <- <-]. split; [done|exact Hl].
  - intros Hp. eapply place_locked_recorded; [| |exact Hp]; [|done].
    by apply work_inv_registry, inv_require; [apply inv_expire|].
Qed.

Lemma with_reasons_lease d d' rs : with_reasons d rs = Ok d' ->
  pd_lease d' = pd_lease d /\ make_placement d' = Ok d' /\ pd_reasons d' = rs /\
  pd_state d' = pd_state d /\ pd_degradation d' = pd_degradation d.
Proof.
  unfold with_reasons. intros H. pose proof (make_placement_idem _ _ H).
  by destruct (make_placement_ok _ _ H) as [-> _].
Qed.

Lemma refuse_recorded w n reason now ls s d s' l : work_inv s -> w_leases s !! text w = Some l ->
  wl_node_id l = text n -> refuse_and_reassign w n reason now ls s = (Ok d, s') ->
  make_placement d = Ok d /\ w_leases s' !! text w = pd_lease d.
Proof.
  intros Hinv Hl Hn. unfold refuse_and_reassign. case_match; [done|].
  destruct (inv_leases s Hinv _ l Hl) as (_ & _ & _ & _ & r & Hr & Hw). rewrite Hl, Hr.
  rewrite bool_decide_false by auto.
  destruct (place_locked _ _ _ _ _) as [[d1|e] s3] eqn:Hp; [|done]. cbn [outcome_bind].
  intros [= Hd <-]. destruct (with_reasons_lease _ _ _ Hd) as (-> & Hm & _). split; [done|].
  rewrite <- Hw in Hp |- *. eapply place_locked_recorded; [| |exact Hp].
  - by apply work_inv_registry, inv_take_back.
  - cbn. apply lookup_delete_eq.
Qed.

Lemma place_error_no_lease r now ls ex s e s' : work_inv s -> place r now ls ex s = (Err e, s') ->
  w_leases s !! text (wr_work_id r) = None -> w_leases s' !! text (wr_work_id r) = None.
Proof.
  intros Hinv. unfold place. case_match; [by intros [= _ <-]|].
  destruct (w_leases (expire_leases now s) !! text (wr_work_id r)) as [l|] eqn:Hl;
    [rewrite new_placement_ok by done; done|].
  match goal with |- place_locked _ _ _ ?ex ?s1 = _ -> _ =>
    pose proof (place_locked_spec r now ls ex s1) as Hspec; destruct (place_locked r now ls ex s1) as [o s2] end.
  intros [= -> ->] _. cbn [fst snd] in Hspec.
  specialize (Hspec (work_inv_registry _ (inv_require _ _ (inv_expire _ now Hinv) Hl))).
  by inversion Hspec; subst.
Qed.

(** A decision of the coordinator has placed the work when it has a lease. *)
Lemma placed_iff_lease d : make_placement d = Ok d -> (if pd_placed d then pd_lease d else None) = pd_lease d.
Proof. intros (_ & -> & _)%make_placement_ok. by destruct (pd_lease d). Qed.
