(* ===== verification/DistributedTheorems.v ===== *)
(** The properties of the distributed-work coordinator ([DistributedWork.v]): what holds in
    every reachable state, whom a placement chooses, and that refusals and failures move
    work away for good and come to an end. *)

From stdpp Require Import base gmap sets list strings sorting.
From Stdlib Require Import ZArith Ascii SpecFloat.
From S2P Require Import Prelude PyText PyVal Json PyFloat DistributedWork.

(** ** A small body *)

Definition sample_node (node_id : string) (tier : NodeTier) (caps : list string) (load : Z) : NodeAdvertisement :=
  mkNode node_id "Body One" "organ" tier caps (flit load (-2)) (flit 9 (-1)) AVAILABLE (flit 100 0)
    [] [] 2 0 false [] [] true true "none".

Definition sample_requirement (work_id : string) (caps : list string) : WorkRequirement :=
  mkRequirement work_id "analyse" caps [] (flit 5 (-1)) (flit 85 (-2)) true true false false true None
    false false.

Definition body_one : work_state := mkWork "body one" ∅ ∅ ∅ ∅.
Definition t100 : float := flit 100 0.
Definition t60 : float := flit 60 0.

Definition two_nodes : list work_op :=
  [WRegister (sample_node "Eyes" HEAVY_LINUX ["vision"] 20); WRegister (sample_node "Queen" QUEEN ["vision"; "plan"] 10)].
Definition placed_once : list work_op :=
  two_nodes ++ [WPlace (sample_requirement "w1" ["vision"]) t100 t60 []].

Lemma two_nodes_checked : Forall checked_op two_nodes.
Proof. repeat constructor; vm_compute; reflexivity. Qed.
Lemma placed_once_checked : Forall checked_op placed_once.
Proof. apply Forall_app. split; [apply two_nodes_checked|]. repeat constructor. Qed.

(** ** Reachable states *)

(** Whatever the order of registrations, placements, refusals, completions and
    recoveries, the registry holds only checked advertisements of this body with verified
    body and continuity, and each lease is for the work it is stored under, has a recorded
    requirement, expires after its issue, carries no authority, and is held by a node that
    has not refused the work. *)
Theorem reachable_work_state body s0 ops :
  new_work_state body = Ok s0 -> Forall checked_op ops ->
  let s := work_run ops s0 in
  (forall k a, w_nodes s !! k = Some a ->
     k = text (nd_node_id a) /\ make_node a = Ok a /\ text (nd_body_id a) = w_body_id s /\
     nd_body_verified a = true /\ nd_continuity_verified a = true) /\
  (forall w l, w_leases s !! w = Some l ->
     wl_work_id l = w /\ fle (wl_expires_at l) (wl_issued_at l) = false /\
     wl_court_authorized l = false /\ wl_execution_authorized l = false /\ wl_authority l = "none" /\
     (wl_node_id l ∉ refused_by w s) /\
     exists r, w_requirements s !! w = Some r /\ text (wr_work_id r) = w).
Proof.
  intros Hnew%new_work_inv Hops s. destruct (work_inv_run ops s0 Hops Hnew) as [Hn Hl _]. split.
  - intros k a Ha. exact (Hn k a Ha).
  - intros w l Hw. destruct (Hl w l Hw) as (Hid & Hm & Href & _ & Hr).
    destruct (make_work_lease_ok _ _ Hm) as (_ & He & Hc & Hx & Ha). by split_and!.
Qed.

Lemma reachable_work_state_witness :
  exists l, w_leases (work_run placed_once body_one) !! "w1" = Some l /\ wl_node_id l = "eyes" /\
    wl_authority l = "none".
Proof.
  destruct (w_leases (work_run placed_once body_one) !! "w1") as [l|] eqn:Hl; [|by vm_compute in Hl].
  exists l. split; [done|]. split.
  - apply (f_equal (option_map wl_node_id)) in Hl. vm_compute in Hl. by injection Hl.
  - eapply (reachable_work_state "Body  ONE" body_one placed_once); [reflexivity|exact placed_once_checked|exact Hl].
Defined.

(** ** Placement *)

(** The conditions on a node, as a specification of [_exclusion_reason]. *)
Record eligible (r : WorkRequirement) (a : NodeAdvertisement) (active : Z) : Prop := {
  el_verified : nd_body_verified a = true /\ nd_continuity_verified a = true;
  el_availability : nd_availability a ∈ [AVAILABLE; BUSY; DEGRADED];
  el_health : flt (nd_health a) (wr_min_health r) = false;
  el_load : flt (wr_max_load r) (nd_current_load a) = false;
  el_tasks : (nd_current_tasks a + active < nd_max_concurrent_tasks a)%Z;
  el_class : (wr_work_class r ∉ nd_refused_work_classes a) /\
    (nd_accepted_work_classes a = [] \/ wr_work_class r ∈ nd_accepted_work_classes a);
  el_queen : nd_tier a = QUEEN -> wr_allow_queen_fallback r = true;
  el_whole : wr_whole_system_coordination r = true -> nd_tier a = QUEEN
}.

Lemma exclusion_none_iff r a active : exclusion_reason r a active = None <-> eligible r a active.
Proof.
  unfold exclusion_reason. split.
  - intros H. repeat (case_match; [discriminate H|]). py_bools. destruct_and?.
    split; try done; try lia.
    + destruct (nd_availability a); set_solver.
    + intuition congruence.
    + intuition congruence.
  - intros [[H1 H2] H3 H4 H5 H6 [H7 H8] H9 H10]. revert H10. rewrite H1, H2, H4, H5. cbn.
    rewrite bool_decide_false by (destruct (nd_availability a); set_solver).
    assert ((nd_max_concurrent_tasks a <=? nd_current_tasks a + active)%Z = false) as -> by lia.
    rewrite (bool_decide_false (_ ∈ nd_refused_work_classes a)) by done.
    replace (negb (bool_decide (nd_accepted_work_classes a = [])) &&
      negb (bool_decide (wr_work_class r ∈ nd_accepted_work_classes a))) with false.
    2: { destruct H8 as [H8|H8]; [by rewrite (bool_decide_true _ H8)|].
         by rewrite (bool_decide_true (_ ∈ _) H8), andb_false_r. }
    destruct (decide (nd_tier a = QUEEN)) as [Hq|Hq].
    + rewrite (bool_decide_true _ Hq), (H9 Hq). intros _. cbn. by rewrite ?andb_false_r.
    + rewrite (bool_decide_false _ Hq). cbn. destruct (wr_whole_system_coordination r); [|done].
      intros H10. by specialize (H10 eq_refl).
Qed.

(** Node [a] can do the work of [r] in the state [s], as the candidate [c]. *)
Definition can_serve (s : work_state) (r : WorkRequirement) (excluded : list string)
    (a : NodeAdvertisement) (c : WorkCandidate) : Prop :=
  let id := text (nd_node_id a) in
  w_nodes s !! id = Some a /\ (id ∉ text <$> excluded) /\
  (id ∉ refused_by (text (wr_work_id r)) s) /\
  eligible r a (active_count id s) /\ candidate_for r a (active_count id s) = Ok (Some c).

Lemma offers_can_serve s r ex a c : work_inv s ->
  offers s r (list_to_set (filter is_nonempty (text <$> ex)) ∪ refused_by (text (wr_work_id r)) s) a c <->
  can_serve s r ex a c.
Proof.
  intros H. unfold offers, can_serve, registry_snapshot. rewrite elem_of_sorted_values, exclusion_none_iff.
  rewrite not_elem_of_union, elem_of_list_to_set, list_elem_of_filter.
  split.
  - intros ((k & Hk) & [Hex Hr] & Hel & Hc). destruct (inv_nodes s H k a Hk) as (-> & Hm & _).
    split_and!; try done. intros Hin. apply Hex. split; [|done].
    destruct (make_node_ok _ _ Hm) as (_ & _ & _ & _ & _ & Hne & _). by destruct (text (nd_node_id a)).
  - intros (Hk & Hex & Hr & Hel & Hc). split_and!; try done; [by eexists|naive_solver].
Qed.

(** Candidate [c] is at least as good as [d]: a better class of service, or the same class
    and a higher score, or the same score and the smaller node id. *)
Definition at_least (c d : WorkCandidate) : Prop :=
  mode_class (ca_mode c) <= mode_class (ca_mode d) /\
  (mode_class (ca_mode c) = mode_class (ca_mode d) ->
   fle (ca_score d) (ca_score c) = true /\
   (feq (ca_score d) (ca_score c) = true -> String.le (ca_node_id c) (ca_node_id d))).



(** ** Refusals are final *)

(** [op] completes work [w] in [s]: its holder reports completion. *)
Definition completes (w : string) (op : work_op) (s : work_state) : Prop :=
  match op with
  | WComplete work node => text work = w /\ (work_complete work node s).1 = true
  | _ => False
  end.

Fixpoint never_completes (w : string) (ops : list work_op) (s : work_state) : Prop :=
  match ops with
  | [] => True
  | op :: ops => ~ completes w op s /\ never_completes w ops (work_step op s)
  end.

(** Refusals only grow, except when the work completes. *)
Lemma refusal_kept w n op s : checked_op op -> work_inv s -> ~ completes w op s ->
  n ∈ refused_by w s -> n ∈ refused_by w (work_step op s).
Proof.
  intros Hop Hinv Hc.
  apply (inv_step_ind (fun s => n ∈ refused_by w s) True (fun v => v <> w)); try done.
  - intros s' v m _ Hn _. change (refused_by w (set_refusals _ s')) with (refused_by w (take_back v m s')).
    rewrite take_back_refused. case_decide; subst; set_solver.
  - intros s' v Hv _ Hn. by rewrite forget_refused.
  - intros v m -> Hcom <-. by apply Hc.
Qed.

(** Refusals are final.  Once a node has refused a work, or failed while it held it,
    no sequence of operations that does not complete the work ever leases the work to that
    node again. *)
Theorem refused_node_never_leased_again w n ops s :
  work_inv s -> Forall checked_op ops -> n ∈ refused_by w s -> never_completes w ops s ->
  forall l, w_leases (work_run ops s) !! w = Some l -> wl_node_id l <> n.
Proof.
  intros Hinv Hops. revert s Hinv. induction Hops as [|op ops Hop _ IH]; intros s Hinv Hn Hnc l Hl.
  - destruct (inv_leases s Hinv w l Hl) as (_ & _ & Href & _). by intros <-.
  - destruct Hnc as [Hc Hnc]. apply (IH (work_step op s)); [by apply work_inv_step|by apply refusal_kept|done..].
Qed.

Definition refused_once : work_state :=
  work_run (placed_once ++ [WRefuse "w1" "Eyes" "busy" t100 t60]) body_one.
Definition many_moves : list work_op :=
  [WRefuse "w1" "queen" "busy" t100 t60; WPlace (sample_requirement "w1" ["vision"]) t100 t60 [];
   WRegister (sample_node "Ears" HEAVY_LINUX ["vision"] 50); WPlace (sample_requirement "w1" ["vision"]) t100 t60 []].

Lemma refused_once_inv : work_inv refused_once.
Proof.
  apply work_inv_run; [|exact (new_work_inv "body one" body_one eq_refl)].
  apply Forall_app. split; [exact placed_once_checked|repeat constructor].
Qed.

Lemma refused_node_never_leased_again_witness :
  exists l, w_leases (work_run many_moves refused_once) !! "w1" = Some l /\ wl_node_id l <> "eyes".
Proof.
  destruct (w_leases (work_run many_moves refused_once) !! "w1") as [l|] eqn:Hl;
    [|apply (f_equal (fmap wl_node_id)) in Hl; by vm_compute in Hl].
  exists l. split; [done|].
  apply (refused_node_never_leased_again "w1" "eyes" many_moves refused_once refused_once_inv); [..|exact Hl].
  - repeat constructor; vm_compute; reflexivity.
  - apply (bool_decide_unpack _); vm_compute; exact I.
  - exact (conj (fun H => H) (conj (fun H => H) (conj (fun H => H) (conj (fun H => H) I)))).
Defined.

(** ** Task limits *)

(** Each node's declared and leased work fits its task limit, or it holds no lease. *)
Definition limits_kept (s : work_state) : Prop :=
  forall k a, w_nodes s !! k = Some a ->
    active_count k s = 0%Z \/ (nd_current_tasks a + active_count k s <= nd_max_concurrent_tasks a)%Z.

Lemma active_count_mono k s s' : w_leases s' ⊆ w_leases s -> (active_count k s' <= active_count k s)%Z.
Proof.
  intros Hsub. unfold active_count. apply inj_le, map_subseteq_size. by apply map_filter_subseteq_mono.
Qed.

Lemma active_count_insert k s w l : w_leases s !! w = None ->
  active_count k (set_leases (<[w := l]> (w_leases s)) s)
  = (active_count k s + if decide (wl_node_id l = k) then 1 else 0)%Z.
Proof.
  intros Hw. unfold active_count. cbn. case_decide as Hk.
  - rewrite map_filter_insert_True by done. rewrite map_size_insert_None; [lia|].
    apply map_lookup_filter_None. by left.
  - rewrite map_filter_insert_False by done. rewrite delete_id by done. lia.
Qed.

(** Leases respect the task limits.  As long as no node is registered anew, no
    sequence of placements, refusals, completions, recoveries and availability changes
    leases a node more work than its limit leaves beyond the tasks it already declared. *)
Theorem leases_fit_task_limits ops s :
  work_inv s -> Forall checked_op ops -> (forall a, WRegister a ∉ ops) -> limits_kept s ->
  limits_kept (work_run ops s).
Proof.
  intros Hinv Hops. revert s Hinv. induction Hops as [|op ops Hop _ IH]; intros s Hinv Hnr Hlim; [done|].
  apply (IH (work_step op s)); [by apply work_inv_step|set_solver|].
  apply (inv_step_ind limits_kept False (fun _ => True)); try done; unfold limits_kept; clear -Hnr.
  - intros s k Hl j a Ha. cbn in Ha. apply lookup_delete_Some in Ha as [_ Ha]. exact (Hl j a Ha).
  - intros s k a v _ Hl Ha j b Hb. cbn in Hb. destruct (decide (j = k)) as [->|Hne].
    + rewrite lookup_insert_eq in Hb. injection Hb as <-. exact (Hl k a Ha).
    + rewrite lookup_insert_ne in Hb by done. exact (Hl j b Hb).
  - intros s ls Hl Hsub j a Ha. pose proof (active_count_mono j s (set_leases ls s) Hsub).
    destruct (Hl j a Ha) as [Hz|Hz]; [left|right]; [|lia]. unfold active_count in *. lia.
  - intros s r ex a c now secs l Hinv Hl (Hreg & _ & Hexc & Hc) Hlease Hnone _ j b Hb.
    rewrite active_count_insert by done. case_decide as Hj; [right|rewrite Z.add_0_r; by apply Hl].
    apply elem_of_sorted_values in Hreg as (k & Hk). destruct (inv_nodes s Hinv k a Hk) as (-> & _).
    destruct (lease_of_ok _ _ _ _ _ Hlease) as (_ & Hn & _). rewrite Hj, (candidate_node _ _ _ _ Hc) in Hn.
    clear Hj. subst j. change (w_nodes s !! text (nd_node_id a) = Some b) in Hb. rewrite Hk in Hb. injection Hb as <-.
    apply exclusion_none_iff in Hexc as [_ _ _ _ Ht _ _ _]. lia.
  - intros s v _ _ Hl j a Ha. pose proof (active_count_mono j s (forget_work v s) (delete_subseteq _ _)).
    destruct (Hl j a Ha) as [Hz|Hz]; [left|right]; [|lia]. unfold active_count in *. lia.
  - intros a ->. apply (Hnr a). left.
Qed.

Definition four_jobs : list work_op :=
  (fun w => WPlace (sample_requirement w ["vision"]) t100 t60 []) <$> ["w1"; "w2"; "w3"; "w4"; "w5"].

Lemma leases_fit_task_limits_witness :
  active_count "eyes" (work_run four_jobs (work_run two_nodes body_one)) = 2%Z /\
  limits_kept (work_run four_jobs (work_run two_nodes body_one)).
Proof.
  split; [vm_compute; reflexivity|]. apply leases_fit_task_limits.
  - exact (work_inv_run two_nodes body_one two_nodes_checked (new_work_inv "body one" body_one eq_refl)).
  - repeat constructor.
  - intros a. set_solver.
  - intros k a _. left. reflexivity.
Defined.

(** ** Recovery *)

Definition marked_offline (failed : list string) (s : work_state) : Prop :=
  forall k a, k ∈ failed -> w_nodes s !! k = Some a -> nd_availability a = OFFLINE.

Lemma set_availability_nodes k v s j :
  w_nodes (set_availability k v s).2 !! j
  = if decide (j = text k) then with_availability v <$> w_nodes s !! j else w_nodes s !! j.
Proof.
  unfold set_availability. destruct (w_nodes s !! text k) as [a|] eqn:Ha; cbn.
  - case_decide as Hj; subst; [by rewrite lookup_insert_eq, Ha|by rewrite lookup_insert_ne].
  - case_decide as Hj; subst; [by rewrite Ha|done].
Qed.

Lemma mark_offline_nodes ks : forall s j, w_nodes (mark_offline ks s) !! j
  = if decide (j ∈ text <$> ks) then with_availability OFFLINE <$> w_nodes s !! j else w_nodes s !! j.
Proof.
  unfold mark_offline. induction ks as [|k ks IH]; intros s j; cbn [fold_left fmap list_fmap].
  - by rewrite decide_False by apply not_elem_of_nil.
  - rewrite IH, set_availability_nodes. destruct (decide (j = text k)) as [->|Hne].
    + rewrite (decide_True _ _ (list_elem_of_here (text k) (text <$> ks))).
      destruct (w_nodes s !! text k); case_decide; done.
    + case_decide as H1; case_decide as H2; try done; exfalso; set_solver.
Qed.

Lemma mark_offline_marks failed s : Forall (fun k => text k = k) failed -> marked_offline failed (mark_offline failed s).
Proof.
  intros Hf k b Hk Hb. rewrite mark_offline_nodes, decide_True in Hb.
  - destruct (w_nodes s !! k); [|done]. by injection Hb as <-.
  - apply list_elem_of_fmap. exists k. rewrite Forall_forall in Hf. by rewrite Hf.
Qed.

(** One reassignment: only the lease of the work changes, and not to an offline node. *)
Lemma reassign_one_lease failed now ls s w l r o s3 :
  work_inv s -> marked_offline failed s -> w_requirements s !! w = Some r ->
  place_locked r now ls (refused_by w (take_back w l s)) (take_back w l s) = (o, s3) ->
  work_inv s3 /\ marked_offline failed s3 /\
  (forall v, v <> w -> w_leases s3 !! v = w_leases s !! v) /\
  (forall m, w_leases s3 !! w = Some m -> wl_node_id m ∉ failed).
Proof.
  intros Hinv Hoff Hr Hpl. pose proof (inv_requirements s Hinv w r Hr) as Hw. cbn in Hw.
  pose proof (inv_take_back s w l Hinv) as Hinv'.
  pose proof (inv_place (take_back w l s) r now ls (refused_by w (take_back w l s)) Hinv') as Hp.
  rewrite Hw in Hp. specialize (Hp Hr ltac:(done)). rewrite Hpl in Hp. split; [exact Hp|].
  pose proof (place_locked_state r now ls (refused_by w (take_back w l s)) (take_back w l s)
    (work_inv_registry _ Hinv')) as Hst.
  rewrite Hpl, Hw in Hst. cbn [snd] in Hst. destruct Hst as [->|(a & c & m & Ho & Hm & ->)].
  - split_and!; [exact Hoff|intros v Hv; cbn; by rewrite lookup_delete_ne|].
    intros m Hm. cbn in Hm. by rewrite lookup_delete_eq in Hm.
  - split_and!; [exact Hoff|intros v Hv; cbn; by rewrite lookup_insert_ne, lookup_delete_ne|].
    intros m' Hm'. cbn in Hm'. rewrite lookup_insert_eq in Hm'. injection Hm' as <-.
    rewrite (offers_lease_node _ _ _ _ _ _ _ _ Ho Hm). destruct Ho as (Ha & _ & He & _).
    intros Hin. apply exclusion_none_iff in He as [_ Hav _ _ _ _ _ _].
    apply elem_of_sorted_values in Ha as (k & Hk).
    destruct (inv_nodes _ Hinv' k a Hk) as (-> & _). rewrite (Hoff _ a Hin Hk) in Hav. set_solver.
Qed.

Lemma reassign_all_ok failed now ls affected : forall s ds s',
  work_inv s -> marked_offline failed s -> NoDup affected.*1 ->
  Forall (fun wl => w_leases s !! wl.1 = Some wl.2) affected ->
  reassign_all now ls affected s = (Ok ds, s') ->
  length ds = length affected /\
  (forall w, w ∉ affected.*1 -> w_leases s' !! w = w_leases s !! w) /\
  (forall w l, w ∈ affected.*1 -> w_leases s' !! w = Some l -> wl_node_id l ∉ failed).
Proof.
  induction affected as [|[w l] rest IH]; intros s ds s' Hinv Hoff Hnd Hall Hre.
  { injection Hre as <- <-. split_and!; [done..|]. by intros w l ?%elem_of_nil. }
  cbn in Hnd. inversion Hnd as [|? ? Hw Hnd']; subst. inversion Hall as [|? ? Hl Hall']; subst.
  cbn [reassign_all] in Hre. destruct (inv_leases s Hinv w l Hl) as (_ & _ & _ & _ & r & Hr & _).
  rewrite Hr in Hre. destruct (place_locked _ _ _ _ _) as [o s3] eqn:Hpl.
  destruct (reassign_one_lease failed now ls s w _ r o s3 Hinv Hoff Hr Hpl) as (Hinv3 & Hoff3 & Hne & Hnf).
  destruct (outcome_bind _ _) as [d|]; [|done].
  destruct (reassign_all now ls rest s3) as [[ds'|] s4] eqn:Hre'; [|done]. cbn in Hre. injection Hre as <- <-.
  destruct (IH s3 ds' s4 Hinv3 Hoff3 Hnd') as (Hlen & Hsame & Hnot); [|done|].
  { apply Forall_forall. intros [v m] Hv. rewrite Forall_forall in Hall'. cbn.
    rewrite Hne; [exact (Hall' _ Hv)|]. intros ->. apply Hw. by apply (list_elem_of_fmap_2 fst _ (w, m)). }
  split_and!.
  - cbn. by rewrite Hlen.
  - cbn. intros v [Hv Hv']%not_elem_of_cons. rewrite Hsame by done. by apply Hne.
  - cbn. intros v m [->|Hv]%elem_of_cons Hm; [|by eapply Hnot]. rewrite Hsame in Hm by done. by eapply Hnf.
Qed.

(** C36: Recovery leaves nothing on a failed node.  When it returns, the failed nodes are
    exactly the registered ones that are offline, quarantined or without a recent
    heartbeat, no lease is held by one of them, every live lease of another node is
    untouched, and there is one decision for each work that had to move. *)
Theorem recovery_clears_failed_nodes now age ls s ds s' :
  work_inv s -> recover_unavailable_nodes now age ls s = (Ok ds, s') ->
  exists failed,
    (forall n, n ∈ failed <-> exists a, w_nodes s !! n = Some a /\
       (heartbeat_expired now age a = true \/ is_unavailable a = true)) /\
    (forall w l, w_leases s' !! w = Some l -> wl_node_id l ∉ failed) /\
    (forall w l, w_leases (expire_leases now s) !! w = Some l -> (wl_node_id l ∉ failed) ->
       w_leases s' !! w = Some l) /\
    length ds = length (affected_leases failed (expire_leases now s)).
Proof.
  intros Hinv Hrec. unfold recover_unavailable_nodes in Hrec.
  destruct (failed_nodes now age s) as [failed|] eqn:Hf; [|done]. exists failed.
  assert (forall n, n ∈ failed <-> exists a, w_nodes s !! n = Some a /\
    (heartbeat_expired now age a = true \/ is_unavailable a = true)) as Hfailed.
  { unfold failed_nodes, expired_node_ids in Hf. destruct (fle age f0); [done|].
    apply Ok_inj in Hf. subst failed. intros n. rewrite elem_of_sorted_set, list_elem_of_fmap.
    setoid_rewrite elem_of_app. setoid_rewrite list_elem_of_fmap. setoid_rewrite list_elem_of_filter.
    setoid_rewrite elem_of_sorted_keys. setoid_rewrite elem_of_sorted_values. split.
    - intros (k & -> & [[Hx [a Ha]]|(a & -> & Hx & j & Ha)]).
      + destruct (inv_nodes s Hinv k a Ha) as (-> & _). rewrite text_idem, Ha in *. eauto.
      + destruct (inv_nodes s Hinv j a Ha) as (-> & _). eauto.
    - intros (a & Ha & Hx). destruct (inv_nodes s Hinv n a Ha) as (Hn & _). destruct Hx as [Hx|Hx].
      + exists n. rewrite Hn, text_idem, <- Hn, Ha. eauto.
      + exists (nd_node_id a). split; [done|]. right. exists a. split_and!; [done..|by exists n]. }
  set (s0 := expire_leases now s).
  pose proof (affected_NoDup failed (expire_leases now (mark_offline failed s))) as Hnd.
  pose proof (affected_current failed (expire_leases now (mark_offline failed s))) as Hcur.
  assert (affected_leases failed (expire_leases now (mark_offline failed s)) = affected_leases failed s0) as Haff.
  { unfold affected_leases, s0, expire_leases. cbn. by rewrite mark_offline_leases. }
  assert (work_inv (expire_leases now (mark_offline failed s))) as Hinv1.
  { by apply inv_expire, inv_mark_offline. }
  assert (marked_offline failed (expire_leases now (mark_offline failed s))) as Hoff.
  { apply mark_offline_marks. apply Forall_forall. intros n (a & Ha & _)%Hfailed.
    destruct (inv_nodes s Hinv n a Ha) as (-> & _). by rewrite text_idem. }
  destruct (reassign_all_ok failed now ls _ _ ds s' Hinv1 Hoff Hnd Hcur Hrec) as (Hlen & Hsame & Hnot).
  rewrite Haff in *.
  assert (w_leases (expire_leases now (mark_offline failed s)) = w_leases s0) as Hls.
  { unfold s0, expire_leases. cbn. by rewrite mark_offline_leases. }
  assert (forall w, w ∈ (affected_leases failed s0).*1 <-> exists l, w_leases s0 !! w = Some l /\ wl_node_id l ∈ failed) as Hin.
  { intros w. rewrite list_elem_of_fmap. split.
    - intros ([? l] & -> & H%affected_lookup). by exists l.
    - intros (l & H). exists (w, l). by rewrite affected_lookup. }
  split_and!; try done.
  - intros w l Hl. destruct (decide (w ∈ (affected_leases failed s0).*1)) as [Hw|Hw]; [by eapply Hnot|].
    intros Hbad. apply Hw, Hin. exists l. rewrite Hsame, Hls in Hl by done. done.
  - intros w l Hl Hgood. rewrite Hsame, Hls; [done|]. rewrite Hin. intros (m & Hm & Hbad).
    rewrite Hl in Hm. by injection Hm as <-.
Qed.

Definition quarantined : list work_op := placed_once ++ [WAvailability "eyes" QUARANTINED].

Lemma recovery_clears_failed_nodes_witness :
  exists ds s' (failed : list string), recover_unavailable_nodes (flit 110 0) t60 t60 (work_run quarantined body_one) = (Ok ds, s') /\
    "eyes" ∈ failed /\ (forall w l, w_leases s' !! w = Some l -> wl_node_id l ∉ failed).
Proof.
  assert (work_inv (work_run quarantined body_one)) as Hinv.
  { apply work_inv_run; [|exact (new_work_inv "body one" body_one eq_refl)].
    apply Forall_app. split; [exact placed_once_checked|repeat constructor]. }
  destruct (recover_unavailable_nodes (flit 110 0) t60 t60 (work_run quarantined body_one)) as [[ds|e] s'] eqn:Hr.
  - destruct (recovery_clears_failed_nodes _ _ _ _ _ _ Hinv Hr) as (failed & Hf & Hclear & _).
    exists ds, s', failed. split_and!; [done| |exact Hclear]. apply Hf.
    exists (with_availability QUARANTINED (sample_node "Eyes" HEAVY_LINUX ["vision"] 20)).
    split; [vm_compute; reflexivity|by right].
  - apply (f_equal (fun x => is_ok x.1)) in Hr. vm_compute in Hr. discriminate Hr.
Defined.

(** ** Refusals end *)

(** Each holder of work [w] refuses it in turn, at most [fuel] times. *)
Fixpoint refuse_until_unplaced (fuel : nat) (w reason : string) (now ls : float) (s : work_state) : work_state :=
  match w_leases s !! w, fuel with
  | Some l, S n => refuse_until_unplaced n w reason now ls
                     (refuse_and_reassign w (wl_node_id l) reason now ls s).2
  | _, _ => s
  end.

(** The nodes that could still be given work [w]. *)
Definition open_nodes (w : string) (s : work_state) : nat :=
  size (filter (fun ka => ka.1 ∉ refused_by w s) (w_nodes s)).

Lemma refuse_and_reassign_state w reason now ls s l : work_inv s -> text w = w -> text reason <> "" ->
  w_leases s !! w = Some l ->
  let s' := (refuse_and_reassign w (wl_node_id l) reason now ls s).2 in
  work_inv s' /\ w_nodes s' = w_nodes s /\ refused_by w s' = {[wl_node_id l]} ∪ refused_by w s /\
  (forall l', w_leases s' !! w = Some l' -> is_Some (w_nodes s !! wl_node_id l')) /\
  (forall v, v <> w -> w_leases s' !! v = w_leases s !! v).
Proof.
  intros Hinv Hw Hreason Hl. destruct (inv_leases s Hinv w l Hl) as (_ & _ & _ & (Hn & _) & r & Hr & Hwr).
  pose proof (work_inv_step (WRefuse w (wl_node_id l) reason now ls) s I Hinv) as Hinv'. cbn [work_step] in Hinv'.
  unfold refuse_and_reassign in *. rewrite Hw, Hn, Hl, Hr in *. rewrite (bool_decide_false (_ <> _)) in * by auto.
  destruct (is_nonempty (text reason)) eqn:Hne; [|by destruct (text reason)]. cbn [negb] in *.
  pose proof (place_locked_state r now ls (refused_by w (take_back w (wl_node_id l) s)) (take_back w (wl_node_id l) s)
    (work_inv_registry _ (inv_take_back _ _ _ Hinv))) as Hst.
  destruct (place_locked _ _ _ _ _) as [o s3]. cbn [snd] in *. split; [exact Hinv'|].
  assert (refused_by w (take_back w (wl_node_id l) s) = {[wl_node_id l]} ∪ refused_by w s) as Href
    by (rewrite take_back_refused; by rewrite decide_True).
  destruct Hst as [->|(a & c & m & Ho & Hm & ->)]; (split_and!; [done|exact Href|..]); cbn.
  - intros l'. by rewrite lookup_delete_eq.
  - intros v Hv. by rewrite lookup_delete_ne.
  - rewrite Hwr. intros l'. rewrite lookup_insert_eq. intros [= <-].
    rewrite (offers_lease_node _ _ _ _ _ _ _ _ Ho Hm). destruct Ho as (Ha & _).
    apply elem_of_sorted_values in Ha as (k & Hk). destruct (inv_nodes s Hinv k a Hk) as (-> & _). by exists a.
  - rewrite Hwr. intros v Hv. by rewrite lookup_insert_ne, lookup_delete_ne.
Qed.

Lemma open_nodes_shrink w n s s' : w_nodes s' = w_nodes s -> refused_by w s' = {[n]} ∪ refused_by w s ->
  is_Some (w_nodes s !! n) -> (n ∉ refused_by w s) -> open_nodes w s' < open_nodes w s.
Proof.
  intros Hn Href [a Ha] Hnot. unfold open_nodes. rewrite Hn, Href. apply map_subset_size. split.
  - apply map_filter_strong_subseteq_ext. intros k b. cbn. set_solver.
  - intros Hsub. assert (filter (fun ka => ka.1 ∉ refused_by w s) (w_nodes s) !! n = Some a) as Hin
      by (apply map_lookup_filter_Some; done).
    eapply lookup_weaken in Hin; [|exact Hsub]. apply map_lookup_filter_Some in Hin as [_ Hin]. set_solver.
Qed.

Lemma refuse_until_enough w reason now ls : text w = w -> text reason <> "" ->
  forall fuel s, work_inv s ->
  (forall l, w_leases s !! w = Some l -> is_Some (w_nodes s !! wl_node_id l) /\ open_nodes w s < S fuel) ->
  w_leases (refuse_until_unplaced fuel w reason now ls s) !! w = None.
Proof.
  intros Hw Hreason. induction fuel as [|fuel IH]; intros s Hinv Hopen; cbn.
  - destruct (w_leases s !! w) as [l|] eqn:Hl; [|done]. destruct (Hopen l eq_refl) as [[a Ha] Hlt].
    exfalso. destruct (inv_leases s Hinv w l Hl) as (_ & _ & Hnot & _).
    assert (filter (fun ka => ka.1 ∉ refused_by w s) (w_nodes s) !! wl_node_id l = Some a) as Hin
      by (apply map_lookup_filter_Some; done).
    unfold open_nodes in Hlt. assert (filter (fun ka => ka.1 ∉ refused_by w s) (w_nodes s) = ∅) as He
      by (apply map_size_empty_iff; lia). rewrite He in Hin. by rewrite lookup_empty in Hin.
  - destruct (w_leases s !! w) as [l|] eqn:Hl; [|done]. destruct (Hopen l eq_refl) as [Hreg Hlt].
    destruct (inv_leases s Hinv w l Hl) as (_ & _ & Hnot & _).
    destruct (refuse_and_reassign_state w reason now ls s l Hinv Hw Hreason Hl) as (Hinv' & Hn & Href & Hl' & _).
    apply IH; [done|]. intros l' Hl''. rewrite Hn. split; [by apply Hl'|].
    pose proof (open_nodes_shrink w (wl_node_id l) s _ Hn Href Hreg Hnot). lia.
Qed.

(** C37: Refusal comes to an end.  If every node that is given a work refuses it, the work
    is unplaced after at most one refusal more than there are registered nodes, whatever
    the nodes advertise. *)
Theorem refusals_end w reason now ls s :
  work_inv s -> text w = w -> text reason <> "" ->
  w_leases (refuse_until_unplaced (S (size (w_nodes s))) w reason now ls s) !! w = None.
Proof.
  intros Hinv Hw Hreason. cbn. destruct (w_leases s !! w) as [l|] eqn:Hl; [|done].
  destruct (refuse_and_reassign_state w reason now ls s l Hinv Hw Hreason Hl) as (Hinv' & Hn & Href & Hl' & _).
  apply refuse_until_enough; [done..|]. intros l' Hl''. rewrite Hn. split; [by apply Hl'|].
  unfold open_nodes. rewrite Hn. apply Nat.lt_succ_r, map_subseteq_size, map_filter_subseteq.
Qed.

Lemma refusals_end_witness :
  bool_decide (is_Some (w_leases (work_run placed_once body_one) !! "w1")) = true /\
  w_leases (refuse_until_unplaced 3 "w1" "busy" t100 t60 (work_run placed_once body_one)) !! "w1" = None.
Proof.
  split; [vm_compute; reflexivity|].
  apply (refusals_end "w1" "busy" t100 t60 (work_run placed_once body_one)); [|reflexivity|by intros ?].
  apply work_inv_run; [exact placed_once_checked|exact (new_work_inv "body one" body_one eq_refl)].
Defined.
