(* ===== verification/StateProg.v ===== *)
(** Methods of an object whose state survives exceptions: a method starts in a state and is
    a program over the operations of its environment ([Effects.v]) that ends with a result
    or exception and the state it leaves.  [runs] says which events, results and final
    states a method can have, and the lemmas read a run apart step by step. *)

From stdpp Require Import base gmap sets list strings.
From S2P Require Import Prelude Effects.

Section StateProg.
Context {E : Type -> Type} {Ev : Type} (log : forall X, E X -> outcome X -> Ev) {S : Type}.

Definition stprog (A : Type) : Type := S -> prog E (outcome A * S).

Definition finish {A} (o : outcome A) : stprog A := fun s => Ret (o, s).
Definition failing {A} (k : exn_kind) (msg : string) : stprog A := finish (raise k msg).
Definition perform {X} (op : E X) : stprog X := fun s => Vis op (fun r => Ret (r, s)).
Definition reads {A} (f : S -> A) : stprog A := fun s => Ret (Ok (f s), s).
Definition modify (f : S -> S) : stprog unit := fun s => Ret (Ok tt, f s).

(** A step on the state that may raise and change it. *)
Definition embed {A} (f : S -> outcome A * S) : stprog A := fun s => Ret (f s).

Definition then_ {A B} (m : stprog A) (f : outcome A -> stprog B) : stprog B :=
  fun s => bind (m s) (fun os => f os.1 os.2).

Definition seq {A B} (m : stprog A) (f : A -> stprog B) : stprog B :=
  then_ m (fun o => match o with Ok a => f a | Err e => finish (Err e) end).

(** [try: m except Exception: cleanup; raise] *)
Definition on_exception {A} (m : stprog A) (cleanup : stprog unit) : stprog A :=
  then_ m (fun o => match o with
    | Err e => if is_Exception e then seq cleanup (fun _ => finish (Err e)) else finish (Err e)
    | Ok a => finish (Ok a)
    end).

(** [try: m except Exception as exc: return h(exc)] *)
Definition catching {A} (m : stprog A) (h : exn -> stprog A) : stprog A :=
  then_ m (fun o => match o with
    | Err e => if is_Exception e then h e else finish (Err e)
    | Ok a => finish (Ok a)
    end).

(** ** Runs *)

(** [m] can run from [s] with the events [tr], to the result [o] and the state [s']. *)
Definition runs {A} (m : stprog A) (s : S) (tr : list Ev) (o : outcome A) (s' : S) : Prop :=
  exec log (m s) tr (Ok (o, s')).

Lemma runs_ret {A} (f : S -> outcome A * S) s tr o s' :
  exec log (Ret (f s)) tr (Ok (o, s')) <-> tr = [] /\ o = (f s).1 /\ s' = (f s).2.
Proof.
  rewrite (exec_of_outcome log (Ok (f s))). destruct (f s) as [o1 s1]. cbn. split; [|naive_solver].
  by intros [-> [= -> ->]].
Qed.

Lemma runs_embed {A} (f : S -> outcome A * S) s tr o s' :
  runs (embed f) s tr o s' <-> tr = [] /\ o = (f s).1 /\ s' = (f s).2.
Proof. apply runs_ret. Qed.

Lemma runs_finish {A} (o : outcome A) s tr o' s' : runs (finish o) s tr o' s' <-> tr = [] /\ o' = o /\ s' = s.
Proof. apply (runs_ret (fun s => (o, s))). Qed.

Lemma runs_reads {A} (f : S -> A) s tr o s' : runs (reads f) s tr o s' <-> tr = [] /\ o = Ok (f s) /\ s' = s.
Proof. apply (runs_ret (fun s => (Ok (f s), s))). Qed.

Lemma runs_modify f s tr o s' : runs (modify f) s tr o s' <-> tr = [] /\ o = Ok tt /\ s' = f s.
Proof. apply (runs_ret (fun s => (Ok tt, f s))). Qed.

Lemma runs_perform {X} (op : E X) s tr o s' : runs (perform op) s tr o s' <-> tr = [log X op o] /\ s' = s.
Proof.
  unfold runs, perform. rewrite exec_vis. split.
  - intros (r & tr' & -> & H). apply (exec_of_outcome log (Ok (r, s))) in H as [-> [= -> ->]]. done.
  - intros [-> ->]. exists o, []. split; [done|]. by apply (exec_of_outcome log (Ok (o, s))).
Qed.

Lemma runs_then {A B} (m : stprog A) (f : outcome A -> stprog B) s tr o s' :
  runs (then_ m f) s tr o s' <->
  exists tr1 tr2 o1 s1, tr = tr1 ++ tr2 /\ runs m s tr1 o1 s1 /\ runs (f o1) s1 tr2 o s'.
Proof.
  unfold runs, then_, bind. rewrite exec_handle. split.
  - intros (tr1 & tr2 & [[o1 s1]|e] & -> & H1 & H2); [by exists tr1, tr2, o1, s1|].
    by apply (exec_of_outcome log (Err e)) in H2 as [_ H2].
  - intros (tr1 & tr2 & o1 & s1 & -> & H1 & H2). by exists tr1, tr2, (Ok (o1, s1)).
Qed.

Lemma runs_seq {A B} (m : stprog A) (f : A -> stprog B) s tr o s' :
  runs (seq m f) s tr o s' <->
  exists tr1 tr2 o1 s1, tr = tr1 ++ tr2 /\ runs m s tr1 o1 s1 /\
    match o1 with Ok a => runs (f a) s1 tr2 o s' | Err e => tr2 = [] /\ o = Err e /\ s' = s1 end.
Proof.
  unfold seq. rewrite runs_then. split; intros (tr1 & tr2 & o1 & s1 & -> & H1 & H2);
    exists tr1, tr2, o1, s1; (split; [done|]; split; [done|]); destruct o1; try exact H2.
  - by apply runs_finish in H2.
  - by apply runs_finish.
Qed.

(** How a protected block ends: normally, or with an exception, after the clean-up if it is
    an [Exception]. *)
Lemma runs_on_exception {A} (m : stprog A) (f : S -> S) (cleanup : stprog unit) s tr o s' :
  (forall s tr o s', runs cleanup s tr o s' <-> tr = [] /\ o = Ok tt /\ s' = f s) ->
  runs (on_exception m cleanup) s tr o s' <->
  exists s1, runs m s tr o s1 /\
    s' = match o with Err e => if is_Exception e then f s1 else s1 | Ok _ => s1 end.
Proof.
  intros Hc. unfold on_exception. rewrite runs_then. split.
  - intros (tr1 & tr2 & [a|e] & s1 & -> & H1 & H2).
    + apply runs_finish in H2 as (-> & -> & ->). rewrite app_nil_r. by exists s1.
    + destruct (is_Exception e) eqn:He.
      * apply runs_seq in H2 as (tr3 & tr4 & o1 & s2 & -> & H2 & H3). apply Hc in H2 as (-> & -> & ->).
        apply runs_finish in H3 as (-> & -> & ->). rewrite app_nil_r. exists s1. by rewrite He.
      * apply runs_finish in H2 as (-> & -> & ->). rewrite app_nil_r. exists s1. by rewrite He.
  - intros (s1 & H1 & ->). exists tr, [], o, s1. rewrite app_nil_r. split_and!; [done..|].
    destruct o as [a|e]; [by apply runs_finish|]. destruct (is_Exception e); [|by apply runs_finish].
    apply runs_seq. exists [], [], (Ok tt), (f s1). split_and!; [done|by apply Hc|by apply runs_finish].
Qed.

Lemma runs_on_exception_ok {A} (m : stprog A) (cleanup : stprog unit) s tr a s' :
  runs (on_exception m cleanup) s tr (Ok a) s' -> runs m s tr (Ok a) s'.
Proof.
  unfold on_exception. intros (tr1 & tr2 & [b|e] & s1 & -> & H1 & H2)%runs_then.
  - apply runs_finish in H2 as (-> & [= ->] & ->). by rewrite app_nil_r.
  - exfalso. destruct (is_Exception e); [|by apply runs_finish in H2 as (_ & ? & _)].
    apply runs_seq in H2 as (? & ? & [[]|e'] & ? & _ & _ & H3); [by apply runs_finish in H3 as (_ & ? & _)|].
    by destruct H3 as (_ & ? & _).
Qed.

Lemma runs_catching {A} (m : stprog A) h s tr o s' :
  runs (catching m h) s tr o s' <->
  exists tr1 tr2 o1 s1, tr = tr1 ++ tr2 /\ runs m s tr1 o1 s1 /\
    match o1 with
    | Err e => if is_Exception e then runs (h e) s1 tr2 o s' else tr2 = [] /\ o = Err e /\ s' = s1
    | Ok a => tr2 = [] /\ o = Ok a /\ s' = s1
    end.
Proof.
  unfold catching. rewrite runs_then. split; intros (tr1 & tr2 & o1 & s1 & -> & H1 & H2);
    exists tr1, tr2, o1, s1; (split; [done|]; split; [done|]); destruct o1 as [a|e];
    try destruct (is_Exception e); try exact H2.
  - by apply runs_finish in H2.
  - by apply runs_finish in H2.
  - by apply runs_finish.
  - by apply runs_finish.
Qed.

End StateProg.

Arguments stprog E S A : clear implicits.

(** ** A method of a part of the state *)

Section Zoom.
Context {E : Type -> Type} {Ev : Type} (log : forall X, E X -> outcome X -> Ev) {S T : Type}.
Context (part : S -> T) (update : T -> S -> S).

Definition zoom {A} (m : stprog E T A) : stprog E S A :=
  fun s => bind (m (part s)) (fun os => Ret (os.1, update os.2 s)).

Lemma runs_zoom {A} (m : stprog E T A) s tr o s' :
  runs log (zoom m) s tr o s' <-> exists t, runs log m (part s) tr o t /\ s' = update t s.
Proof.
  unfold runs, zoom, bind. rewrite exec_handle. split.
  - intros (tr1 & tr2 & [[o1 t]|e] & -> & H1 & H2).
    + apply (exec_of_outcome log (Ok (o1, update t s))) in H2 as [-> [= -> ->]].
      rewrite app_nil_r. by exists t.
    + by apply (exec_of_outcome log (Err e)) in H2 as [_ H2].
  - intros (t & H & ->). exists tr, [], (Ok (o, t)). rewrite app_nil_r. split_and!; [done..|].
    by apply (exec_of_outcome log (Ok (o, update t s))).
Qed.
End Zoom.

(** ** Weakest preconditions: every way [m] can end from [s] satisfies [Q]. *)

Section Ends.
Context {E : Type -> Type} {Ev : Type} (log : forall X, E X -> outcome X -> Ev).

Definition ends {S A} (m : stprog E S A) (s : S) (Q : list Ev -> outcome A -> S -> Prop) : Prop :=
  forall tr o s', runs log m s tr o s' -> Q tr o s'.

Context {S : Type}.
Implicit Types s : S.

Lemma ends_mono {A} (m : stprog E S A) s (P Q : list Ev -> outcome A -> S -> Prop) :
  ends m s P -> (forall tr o s', P tr o s' -> Q tr o s') -> ends m s Q.
Proof. intros H HPQ tr o s' Hr. by apply HPQ, H. Qed.

Lemma ends_finish {A} (o : outcome A) s Q : Q [] o s -> ends (finish o) s Q.
Proof. by intros H tr o' s' (-> & -> & ->)%runs_finish. Qed.

Lemma ends_failing {A} k msg s (Q : list Ev -> outcome A -> S -> Prop) :
  Q [] (raise k msg) s -> ends (failing k msg) s Q.
Proof. apply ends_finish. Qed.

Lemma ends_reads {A} (f : S -> A) s Q : Q [] (Ok (f s)) s -> ends (reads f) s Q.
Proof. by intros H tr o s' (-> & -> & ->)%runs_reads. Qed.

Lemma ends_modify f s (Q : list Ev -> outcome unit -> S -> Prop) : Q [] (Ok tt) (f s) -> ends (modify f) s Q.
Proof. by intros H tr o s' (-> & -> & ->)%runs_modify. Qed.

Lemma ends_embed {A} (f : S -> outcome A * S) s Q : Q [] (f s).1 (f s).2 -> ends (embed f) s Q.
Proof. by intros H tr o s' (-> & -> & ->)%runs_embed. Qed.

Lemma ends_perform {X} (op : E X) s Q : (forall o, Q [log X op o] o s) -> ends (perform op) s Q.
Proof. by intros H tr o s' (-> & ->)%runs_perform. Qed.

Lemma ends_seq {A B} (m : stprog E S A) (f : A -> stprog E S B) s Q :
  ends m s (fun tr1 o1 s1 => match o1 with
    | Ok a => ends (f a) s1 (fun tr2 o s' => Q (tr1 ++ tr2) o s')
    | Err e => Q tr1 (Err e) s1 end) ->
  ends (seq m f) s Q.
Proof.
  intros H tr o s' (tr1 & tr2 & o1 & s1 & -> & H1 & H2)%runs_seq. specialize (H _ _ _ H1).
  destruct o1; [by apply H|]. destruct H2 as (-> & -> & ->). by rewrite app_nil_r.
Qed.

Lemma ends_catching {A} (m : stprog E S A) h s Q :
  ends m s (fun tr1 o1 s1 => match o1 with
    | Err e => if is_Exception e then ends (h e) s1 (fun tr2 o s' => Q (tr1 ++ tr2) o s') else Q tr1 (Err e) s1
    | Ok a => Q tr1 (Ok a) s1 end) ->
  ends (catching m h) s Q.
Proof.
  intros H tr o s' (tr1 & tr2 & o1 & s1 & -> & H1 & H2)%runs_catching. specialize (H _ _ _ H1).
  destruct o1 as [a|e]; [|destruct (is_Exception e); [by apply H|]].
  all: destruct H2 as (-> & -> & ->); by rewrite app_nil_r.
Qed.

Lemma ends_zoom {T A} (part : S -> T) (update : T -> S -> S) (m : stprog E T A) s Q :
  ends m (part s) (fun tr o t => Q tr o (update t s)) -> ends (zoom part update m) s Q.
Proof. intros H tr o s' (t & Ht & ->)%runs_zoom. by apply H. Qed.
End Ends.

(** One step of a method, read off its first construct. *)
Ltac ends_step :=
  lazymatch goal with
  | |- ends _ (seq _ _) _ _ => apply ends_seq
  | |- ends _ (catching _ _) _ _ => apply ends_catching
  | |- ends _ (finish _) _ _ => apply ends_finish
  | |- ends _ (failing _ _) _ _ => apply ends_failing
  | |- ends _ (reads _) _ _ => apply ends_reads
  | |- ends _ (modify _) _ _ => apply ends_modify
  | |- ends _ (embed _) _ _ => apply ends_embed
  | |- ends _ (perform _) _ _ => apply ends_perform; intros ?
  | |- ends _ (zoom _ _ _) _ _ => apply ends_zoom
  end; cbn beta iota.

(** ** Evaluation against a deterministic environment *)

Section Evaluate.
Context {E : Type -> Type} {Ev : Type} (log : forall X, E X -> outcome X -> Ev) {S T : Type}.
Context (env : forall X, E X -> T -> outcome X * T) (start : T).

Definition evaluate {A} (m : stprog E S A) (s : S) : outcome (outcome A * S) := (run log env (m s) start).1.1.
Definition events_of {A} (m : stprog E S A) (s : S) : list Ev := (run log env (m s) start).1.2.
Definition state_after {A} (m : stprog E S A) (s : S) : S :=
  match evaluate m s with Ok (_, s') => s' | Err _ => s end.
Definition result_of {A} (m : stprog E S A) (s : S) : outcome A :=
  match evaluate m s with Ok (o, _) => o | Err e => Err e end.

Lemma evaluate_runs {A} (m : stprog E S A) s : is_ok (evaluate m s) = true ->
  runs log m s (events_of m s) (result_of m s) (state_after m s).
Proof.
  unfold result_of, state_after, evaluate, events_of, runs.
  destruct (run log env (m s) start) as [[r tr] u] eqn:Hr. cbn. destruct r as [[o s']|e]; [|done]. intros _.
  exact (run_exec log env _ _ _ _ _ Hr).
Qed.
End Evaluate.

Notation "'let^' x := m 'in' k" := (seq m (fun x => k))
  (at level 10, x pattern, m at level 100, k at level 200) : py_scope.
