(* ===== verification/DistributedService.v ===== *)
(** [services/distributed_work_service.py]: the service between proposal intake, the
    coordinator of [DistributedWork.v], the lifecycle sink and the Queen's result sink.

    The two sinks are operations of the environment: they answer with any value or raise.
    A method is a program over them that starts in a service state and ends with its result
    or exception and the state it leaves; the service is the coordinator's only client. *)

From stdpp Require Import base gmap sets list strings sorting.
From Stdlib Require Import ZArith Ascii SpecFloat.
From S2P Require Import Prelude PyText PyVal Json PyFloat Effects StateProg DistributedWork.

(** ** Events and flags *)

Definition NODE_ADVERTISEMENT_PUBLISHED : string := "NODE_ADVERTISEMENT_PUBLISHED".
Definition WORK_OFFERED : string := "WORK_OFFERED".
Definition WORK_ACCEPTED : string := "WORK_ACCEPTED".
Definition WORK_REFUSED : string := "WORK_REFUSED".
Definition WORK_HANDOFF_REQUESTED : string := "WORK_HANDOFF_REQUESTED".
Definition WORK_COMPLETED : string := "WORK_COMPLETED".
Definition WORK_DEGRADED : string := "WORK_DEGRADED".
Definition WORK_RECOVERY_REASSIGNED : string := "WORK_RECOVERY_REASSIGNED".

Definition result_states : list string := ["completed"; "partial"; "failed"; "cancelled"].

Definition transport_flags : list (string * pyval) :=
  [("transport_only", PBool true); ("canonical", PBool false); ("authority", PStr "none");
   ("grants_authority", PBool false); ("grants_execution", PBool false);
   ("grants_actuation", PBool false)].

(** [_validate_transport_boundary]; [%r] of an expected flag. *)
Definition flag_repr (v : pyval) : string :=
  match v with PBool true => "True" | PBool false => "False" | PStr s => repr s | _ => "" end.

Fixpoint check_flags (payload : items) (flags : list (string * pyval)) : outcome unit :=
  match flags with
  | [] => Ok tt
  | (key, expected) :: rest =>
      if negb (atom_eqb (get payload key) expected)
      then raise ValueError ("distributed work payload " +:+ key +:+ " must be " +:+ flag_repr expected)
      else check_flags payload rest
  end.

Definition validate_transport_boundary (payload : items) : outcome unit := check_flags payload transport_flags.

(** ** Checked values *)

(** [_require_normalized], [_require_text] and their versions for tuples. *)
Definition require_normalized (name value : string) : outcome unit :=
  if negb (is_nonempty value) then raise ValueError (name +:+ " must be a non-empty normalized string") else
  if bool_decide (value <> text value) then raise ValueError (name +:+ " must already be normalized")
  else Ok tt.

Definition require_text (name value : string) : outcome string :=
  if is_blank value then raise ValueError (name +:+ " must be a non-empty string") else Ok (strip value).

Definition require_normalized_tuple (name : string) (values : list string) (required : bool) : outcome unit :=
  if required && bool_decide (values = []) then raise ValueError (name +:+ " cannot be empty") else
  let? _ := mapM_outcome (require_normalized name) values in
  if negb (bool_decide (NoDup values)) then raise ValueError (name +:+ " cannot contain duplicates")
  else Ok tt.

Definition require_text_tuple (name : string) (values : list string) : outcome unit :=
  let? _ := mapM_outcome (require_text name) values in Ok tt.

Record WorkProposal := mkWorkProposal {
  wp_proposal_id : string;
  wp_work_class : string;
  wp_objective : string;
  wp_required_capabilities : list string;
  wp_preferred_capabilities : list string;
  wp_evidence_references : list string;
  wp_constraints : list string;
  wp_min_health : float;
  wp_max_load : float;
  wp_allow_overflow : bool;
  wp_allow_temporary_absorption : bool;
  wp_allow_partial : bool;
  wp_partial_result_useful : bool;
  wp_allow_queen_fallback : bool;
  wp_observe_only_capability : option string;
  wp_whole_system_coordination : bool;
  wp_consequential : bool;
  wp_intent_kind : string;
  wp_candidate : bool;
  wp_proposal_only : bool;
  wp_command : bool;
  wp_canonical : bool;
  wp_runtime_placement_authorized : bool;
  wp_court_authorized : bool;
  wp_execution_authorized : bool;
  wp_actuation_authorized : bool;
  wp_authority : string
}.

(** [WorkProposal.__post_init__] *)
Definition make_work_proposal (p : WorkProposal) : outcome WorkProposal :=
  let? _ := require_normalized "proposal_id" (wp_proposal_id p) in
  let? _ := require_normalized "work_class" (wp_work_class p) in
  let? _ := require_text "objective" (wp_objective p) in
  let? _ := require_normalized_tuple "required_capabilities" (wp_required_capabilities p) true in
  let? _ := require_normalized_tuple "preferred_capabilities" (wp_preferred_capabilities p) false in
  let? _ := require_text_tuple "evidence_references" (wp_evidence_references p) in
  let? _ := require_text_tuple "constraints" (wp_constraints p) in
  if negb (in_unit (wp_min_health p)) then raise ValueError "min_health must be between 0 and 1" else
  if negb (in_unit (wp_max_load p)) then raise ValueError "max_load must be between 0 and 1" else
  let? _ := match wp_observe_only_capability p with
            | Some c => require_normalized "observe_only_capability" c | None => Ok tt end in
  if bool_decide (wp_intent_kind p <> "propose_work")
  then raise ValueError "distributed work requires a propose_work intent" else
  if negb (wp_candidate p) || negb (wp_proposal_only p)
  then raise ValueError "distributed work intake must remain proposal-only" else
  if wp_command p || wp_canonical p
  then raise ValueError "work proposals cannot be commands or canonical memory" else
  if wp_runtime_placement_authorized p || wp_court_authorized p || wp_execution_authorized p
     || wp_actuation_authorized p
  then raise ValueError "work proposals cannot arrive with downstream authority" else
  if bool_decide (wp_authority p <> "none")
  then raise ValueError "work proposals cannot carry authority" else
  if wp_allow_partial p && negb (wp_partial_result_useful p)
  then raise ValueError "partial placement requires partial_result_useful" else Ok p.

(** [WorkProposal.to_requirement] *)
Definition to_requirement (p : WorkProposal) : outcome WorkRequirement :=
  make_requirement (mkRequirement (wp_proposal_id p) (wp_work_class p) (wp_required_capabilities p)
    (wp_preferred_capabilities p) (wp_min_health p) (wp_max_load p) (wp_allow_overflow p)
    (wp_allow_temporary_absorption p) (wp_allow_partial p) (wp_partial_result_useful p)
    (wp_allow_queen_fallback p) (wp_observe_only_capability p) (wp_whole_system_coordination p)
    (wp_consequential p)).

Record WorkResult := mkWorkResult {
  rs_work_id : string;
  rs_node_id : string;
  rs_result_status : string;
  rs_summary : string;
  rs_evidence_references : list string;
  rs_important : bool;
  rs_canonical : bool;
  rs_execution_authorized : bool;
  rs_actuation_authorized : bool;
  rs_authority : string
}.

#[export] Instance WorkResult_eq_dec : EqDecision WorkResult.
Proof. solve_decision. Defined.

(** [WorkResult.__post_init__] *)
Definition make_work_result (r : WorkResult) : outcome WorkResult :=
  let? _ := require_normalized "work_id" (rs_work_id r) in
  let? _ := require_normalized "node_id" (rs_node_id r) in
  if negb (bool_decide (rs_result_status r ∈ result_states))
  then raise ValueError "unsupported distributed work result status" else
  let? _ := require_text "summary" (rs_summary r) in
  let? _ := require_text_tuple "evidence_references" (rs_evidence_references r) in
  if rs_canonical r then raise ValueError "distributed work results are not canonical memory" else
  if rs_execution_authorized r || rs_actuation_authorized r
  then raise ValueError "work results cannot authorize execution or actuation" else
  if bool_decide (rs_authority r <> "none")
  then raise ValueError "work results cannot carry authority" else Ok r.

Record LifecycleEvidence := mkEvidence {
  le_event_type : string; le_subject_id : string; le_receipt_id : string; le_payload : items }.

(** [LifecycleEvidence.__post_init__] *)
Definition make_evidence (e : LifecycleEvidence) : outcome LifecycleEvidence :=
  let? _ := require_text "event_type" (le_event_type e) in
  let? _ := require_normalized "subject_id" (le_subject_id e) in
  let? _ := require_text "receipt_id" (le_receipt_id e) in
  let? _ := validate_transport_boundary (le_payload e) in Ok e.

Record ServiceOutcome := mkServiceOutcome {
  so_state : string;
  so_work_id : string;
  so_node_id : option string;
  so_lease_id : option string;
  so_degradation : string;
  so_lifecycle : list LifecycleEvidence;
  so_accepted : bool;
  so_completed : bool;
  so_escalated_to_queen : bool;
  so_canonical : bool;
  so_execution_authorized : bool;
  so_actuation_authorized : bool;
  so_authority : string
}.

(** [DistributedWorkServiceOutcome.__post_init__], and an outcome with default flags. *)
Definition make_service_outcome (o : ServiceOutcome) : outcome ServiceOutcome :=
  let? _ := require_text "state" (so_state o) in
  let? _ := require_normalized "work_id" (so_work_id o) in
  let? _ := match so_node_id o with Some n => require_normalized "node_id" n | None => Ok tt end in
  let? _ := match so_lease_id o with
            | Some l => let? _ := require_text "lease_id" l in Ok tt | None => Ok tt end in
  if so_canonical o || so_execution_authorized o || so_actuation_authorized o
  then raise ValueError "service outcomes cannot authorize downstream effects" else
  if bool_decide (so_authority o <> "none")
  then raise ValueError "service outcomes cannot carry authority" else Ok o.

Definition service_outcome (state work : string) (node lease : option string) (deg : DegradationMode)
    (lifecycle : list LifecycleEvidence) (accepted completed escalated : bool) : outcome ServiceOutcome :=
  make_service_outcome (mkServiceOutcome state work node lease (degradation_value deg) lifecycle
    accepted completed escalated false false false "none").

(** ** Payloads *)

Definition str_list (l : list string) : pyval := PList (PStr <$> l).

Definition flag_items : items := (fun kv => (PStr kv.1, kv.2)) <$> transport_flags.

(** [_node_payload] *)
Definition node_payload (a : NodeAdvertisement) : items :=
  str_items [("node_id", PStr (nd_node_id a)); ("body_id", PStr (nd_body_id a));
    ("organ", PStr (nd_organ a)); ("tier", PStr (tier_value (nd_tier a)));
    ("capabilities", str_list (nd_capabilities a)); ("current_load", PFloat (nd_current_load a));
    ("health", PFloat (nd_health a)); ("availability", PStr (availability_value (nd_availability a)));
    ("last_heartbeat", PFloat (nd_last_heartbeat a));
    ("max_concurrent_tasks", PInt (nd_max_concurrent_tasks a)); ("current_tasks", PInt (nd_current_tasks a));
    ("accepted_work_classes", str_list (nd_accepted_work_classes a));
    ("refused_work_classes", str_list (nd_refused_work_classes a));
    ("overflow_capabilities", str_list (nd_overflow_capabilities a));
    ("temporary_absorption_capabilities", str_list (nd_temporary_absorption_capabilities a));
    ("fallback_options", str_list (sorted_set (nd_overflow_capabilities a
                                               ++ nd_temporary_absorption_capabilities a)));
    ("body_verified", PBool (nd_body_verified a)); ("continuity_verified", PBool (nd_continuity_verified a))]
  ++ flag_items.

(** [_work_payload(proposal, **values)]: a value of [None] is left out. *)
Definition work_payload (p : WorkProposal) (values : list (string * pyval)) : items :=
  fold_left (fun d kv => if is_none kv.2 then d else dict_set d (PStr kv.1) kv.2) values
    (str_items [("work_id", PStr (wp_proposal_id p)); ("work_class", PStr (wp_work_class p));
       ("required_capabilities", str_list (wp_required_capabilities p)); ("fallback_options", PList []);
       ("important_result", PBool false); ("escalate_to_queen", PBool true);
       ("court_authorization_required", PBool (wp_consequential p))] ++ flag_items).

(** ** The service *)

Inductive sop : Type -> Type :=
| OpLifecycle (event_type subject_id : string) (payload : items) : sop pyval
| OpQueen (payload : items) : sop unit.

Inductive sevent : Type :=
| ELifecycle (event_type subject_id : string) (payload : items) (o : outcome pyval)
| EQueen (payload : items) (o : outcome unit).

Definition slog (X : Type) (o : sop X) : outcome X -> sevent :=
  match o in sop X return outcome X -> sevent with
  | OpLifecycle t s p => ELifecycle t s p
  | OpQueen p => EQueen p
  end.

Record service := mkService {
  sv_work : work_state;
  sv_proposals : gmap string WorkProposal;
  sv_accepted : gset string;
  sv_pending : gmap string (WorkResult * LifecycleEvidence)
}.

(** A method of the service. *)
Abbreviation svc := (stprog sop service).
Abbreviation runs := (StateProg.runs slog).

(** The service with another coordinator state. *)
Definition set_work (w : work_state) (s : service) : service :=
  mkService w (sv_proposals s) (sv_accepted s) (sv_pending s).

(** A call of the coordinator: its own result and state. *)
Definition coordinate {A} (f : work_state -> outcome A * work_state) : svc A :=
  embed (fun s => let '(o, w) := f (sv_work s) in (o, set_work w s)).

Definition add_proposal (k : string) (p : WorkProposal) (s : service) : service :=
  mkService (sv_work s) (<[k := p]> (sv_proposals s)) (sv_accepted s) (sv_pending s).
Definition drop_proposal (k : string) (s : service) : service :=
  mkService (sv_work s) (delete k (sv_proposals s)) (sv_accepted s) (sv_pending s).
Definition add_accepted (k : string) (s : service) : service :=
  mkService (sv_work s) (sv_proposals s) ({[k]} ∪ sv_accepted s) (sv_pending s).
Definition discard_accepted (k : string) (s : service) : service :=
  mkService (sv_work s) (sv_proposals s) (sv_accepted s ∖ {[k]}) (sv_pending s).
Definition add_pending (k : string) (v : WorkResult * LifecycleEvidence) (s : service) : service :=
  mkService (sv_work s) (sv_proposals s) (sv_accepted s) (<[k := v]> (sv_pending s)).
Definition drop_pending (k : string) (s : service) : service :=
  mkService (sv_work s) (sv_proposals s) (sv_accepted s) (delete k (sv_pending s)).

(** [_emit] *)
Definition emit (event_type subject_id : string) (payload : items) : svc LifecycleEvidence :=
  let^ _ := finish (validate_transport_boundary payload) in
  let^ receipt_id := perform (OpLifecycle event_type subject_id payload) in
  match receipt_id with
  | PStr r =>
      if is_blank r then failing RuntimeError "lifecycle sink must return a receipt identifier"
      else finish (make_evidence (mkEvidence event_type (text subject_id) (strip r) payload))
  | _ => failing RuntimeError "lifecycle sink must return a receipt identifier"
  end.

(** [_required_proposal], [_required_owned_lease] *)
Definition required_proposal (work_id : string) : svc WorkProposal :=
  let^ found := reads (fun s => sv_proposals s !! text work_id) in
  match found with
  | Some p => finish (Ok p)
  | None => failing ValueError "unknown active distributed work"
  end.

Definition required_owned_lease (work_id node_id : string) : svc WorkLease :=
  let^ lease := reads (fun s => work_lease_for (text work_id) (sv_work s)) in
  match lease with
  | None => failing ValueError "no active workload lease"
  | Some l =>
      if bool_decide (wl_node_id l <> text node_id)
      then failing ValueError "node does not own the active workload lease" else finish (Ok l)
  end.

(** The entries of a payload that describe a lease. *)
Definition offer_values (l : WorkLease) : list (string * pyval) :=
  [("node_id", PStr (wl_node_id l)); ("organ", PStr (wl_organ l));
   ("placement_mode", PStr (mode_value (wl_mode l))); ("lease_id", PStr (wl_lease_id l));
   ("lease_expires_at", PFloat (wl_expires_at l))].

(** [_outcome_from_decision] *)
Definition outcome_from_decision (d : WorkPlacementDecision) (state : string)
    (lifecycle : list LifecycleEvidence) : outcome ServiceOutcome :=
  match pd_lease d with
  | None => raise ValueError "placed decision requires a lease"
  | Some l => service_outcome state (wl_work_id l) (Some (wl_node_id l)) (Some (wl_lease_id l))
                (pd_degradation d) lifecycle false false false
  end.

(** The lease of a decision that placed the work. *)
Definition placed_lease (d : WorkPlacementDecision) : option WorkLease :=
  if pd_placed d then pd_lease d else None.

(** [register_node] *)
Definition register_node (a : NodeAdvertisement)
    : svc (NodeRegistrationDecision * list LifecycleEvidence) :=
  let^ decision := coordinate (fun w => let '(d, w) := node_register a w in (Ok d, w)) in
  if negb (nr_accepted decision) then finish (Ok (decision, [])) else
  let^ evidence := on_exception (emit NODE_ADVERTISEMENT_PUBLISHED (nd_node_id a) (node_payload a))
    (coordinate (fun w => (Ok tt, (node_remove (nd_node_id a) w).2))) in
  finish (Ok (decision, [evidence])).

(** The two emissions of [submit] inside its [try]. *)
Definition offer_placed (p : WorkProposal) (d : WorkPlacementDecision) (l : WorkLease)
    : svc (list LifecycleEvidence) :=
  let^ offered := emit WORK_OFFERED (wp_proposal_id p) (work_payload p (offer_values l)) in
  if bool_decide (pd_degradation d = D_NONE) then finish (Ok [offered]) else
  let^ degraded := emit WORK_DEGRADED (wp_proposal_id p) (work_payload p
    [("node_id", PStr (wl_node_id l)); ("organ", PStr (wl_organ l));
     ("degradation_mode", PStr (degradation_value (pd_degradation d)));
     ("reason", PStr "Runtime placed work through a declared fallback mode")]) in
  finish (Ok [offered; degraded]).

(** [submit] *)
Definition submit_work (p : WorkProposal) (now lease_seconds : float) : svc ServiceOutcome :=
  if flt now f0 then failing ValueError "now cannot be negative" else
  let^ active := reads (fun s => bool_decide (is_Some (sv_proposals s !! wp_proposal_id p))) in
  if (active : bool) then failing ValueError "proposal_id is already active" else
  let^ requirement := finish (to_requirement p) in
  let^ d := coordinate (place requirement now lease_seconds []) in
  match placed_lease d with
  | None =>
      let^ degraded := emit WORK_DEGRADED (wp_proposal_id p) (work_payload p
        [("degradation_mode", PStr (degradation_value (pd_degradation d)));
         ("reason", PStr (join "; " (pd_reasons d)))]) in
      finish (service_outcome (pd_state d) (wp_proposal_id p) None None (pd_degradation d) [degraded]
              false false false)
  | Some l =>
      let^ _ := modify (add_proposal (wp_proposal_id p) p) in
      let^ lifecycle := on_exception (offer_placed p d l)
        (let^ _ := coordinate (fun w => (Ok tt, (work_complete (wp_proposal_id p) (wl_node_id l) w).2)) in
         modify (drop_proposal (wp_proposal_id p))) in
      finish (outcome_from_decision d "offered" lifecycle)
  end.

(** [accept] *)
Definition accept_work (work_id node_id : string) : svc ServiceOutcome :=
  let work := text work_id in
  let^ p := required_proposal work in
  let^ l := required_owned_lease work (text node_id) in
  let^ evidence := emit WORK_ACCEPTED work (work_payload p (offer_values l)) in
  let^ _ := modify (add_accepted work) in
  finish (service_outcome "accepted" work (Some (wl_node_id l)) (Some (wl_lease_id l)) (wl_degradation l)
          [evidence] true false false).

(** [refuse] *)
Definition refuse_work (work_id node_id reason : string) (now lease_seconds : float) : svc ServiceOutcome :=
  let work := text work_id in
  let node := text node_id in
  let^ refusal_reason := finish (require_text "reason" reason) in
  let^ p := required_proposal work in
  let^ old := required_owned_lease work node in
  let^ refused := emit WORK_REFUSED work (work_payload p
    [("node_id", PStr (wl_node_id old)); ("organ", PStr (wl_organ old)); ("reason", PStr refusal_reason)]) in
  let^ handed := emit WORK_HANDOFF_REQUESTED work (work_payload p
    [("node_id", PStr (wl_node_id old)); ("organ", PStr (wl_organ old));
     ("from_node_id", PStr (wl_node_id old)); ("reason", PStr refusal_reason)]) in
  let^ d := coordinate (refuse_and_reassign work node refusal_reason now lease_seconds) in
  let^ _ := modify (discard_accepted work) in
  match placed_lease d with
  | None =>
      let^ degraded := emit WORK_DEGRADED work (work_payload p
        [("degradation_mode", PStr (degradation_value (pd_degradation d)));
         ("reason", PStr (join "; " (pd_reasons d))); ("from_node_id", PStr (wl_node_id old))]) in
      finish (service_outcome (pd_state d) work None None (pd_degradation d) [refused; handed; degraded]
              false false false)
  | Some l =>
      let^ offered := emit WORK_OFFERED work (work_payload p
        (offer_values l ++ [("from_node_id", PStr (wl_node_id old)); ("to_node_id", PStr (wl_node_id l));
                            ("reason", PStr refusal_reason)])) in
      finish (outcome_from_decision d "reassigned_offered" [refused; handed; offered])
  end.

(** What the Queen's sink is given. *)
Definition queen_payload (r : WorkResult) (l : WorkLease) (completion : LifecycleEvidence) : items :=
  str_items [("work_id", PStr (rs_work_id r)); ("node_id", PStr (rs_node_id r)); ("organ", PStr (wl_organ l));
    ("result_status", PStr (rs_result_status r)); ("summary", PStr (rs_summary r));
    ("evidence_references", str_list (rs_evidence_references r));
    ("receipt_id", PStr (le_receipt_id completion)); ("canonical", PBool false);
    ("execution_authorized", PBool false); ("actuation_authorized", PBool false); ("authority", PStr "none")].

(** The completion's evidence: emitted once, kept for a retry with the same result. *)
Definition completion_evidence (r : WorkResult) (p : WorkProposal) (l : WorkLease) : svc LifecycleEvidence :=
  let^ pending := reads (fun s => sv_pending s !! rs_work_id r) in
  match pending with
  | None =>
      let^ completion := emit WORK_COMPLETED (rs_work_id r) (work_payload p
        [("node_id", PStr (wl_node_id l)); ("organ", PStr (wl_organ l));
         ("placement_mode", PStr (mode_value (wl_mode l))); ("lease_id", PStr (wl_lease_id l));
         ("result_status", PStr (rs_result_status r)); ("important_result", PBool (rs_important r))]) in
      let^ _ := modify (add_pending (rs_work_id r) (r, completion)) in
      finish (Ok completion)
  | Some (pending_result, completion) =>
      if bool_decide (pending_result <> r) then failing ValueError "completion retry must use the same result"
      else finish (Ok completion)
  end.

(** [result.important and lease.escalate_results_to_queen], and the escalation. *)
Definition escalates (r : WorkResult) (l : WorkLease) : bool :=
  rs_important r && wl_escalate_results_to_queen l.

Definition escalate (queen : bool) (r : WorkResult) (l : WorkLease) (completion : LifecycleEvidence) : svc unit :=
  if negb (escalates r l) then finish (Ok tt)
  else if negb queen then failing RuntimeError "important result requires a Queen result sink"
  else perform (OpQueen (queen_payload r l completion)).

(** [complete]; [queen] tells whether a Queen sink is configured. *)
Definition complete_work (queen : bool) (r : WorkResult) : svc ServiceOutcome :=
  let^ p := required_proposal (rs_work_id r) in
  let^ l := required_owned_lease (rs_work_id r) (rs_node_id r) in
  let^ was_accepted := reads (fun s => bool_decide (rs_work_id r ∈ sv_accepted s)) in
  if negb was_accepted then failing ValueError "work must be accepted before completion" else
  let^ completion := completion_evidence r p l in
  let^ _ := escalate queen r l completion in
  let^ closed := coordinate (fun w => let '(b, w) := work_complete (rs_work_id r) (rs_node_id r) w in (Ok b, w)) in
  if negb closed then failing RuntimeError "Runtime could not close the completed workload lease" else
  let^ _ := modify (discard_accepted (rs_work_id r)) in
  let^ _ := modify (drop_proposal (rs_work_id r)) in
  let^ _ := modify (drop_pending (rs_work_id r)) in
  finish (service_outcome "completed" (rs_work_id r) (Some (rs_node_id r)) (Some (wl_lease_id l))
            (wl_degradation l) [completion] true true (escalates r l)).

(** [reason.split(":", 1)[1]] of a reason that has a colon. *)
Fixpoint after_colon (s : string) : string :=
  match s with "" => "" | String c s' => if bool_decide (c = ":"%char) then s' else after_colon s' end.

(** [_work_id_from_recovery_reason]; [prior] are the leases before recovery. *)
Definition work_id_from_recovery_reason (d : WorkPlacementDecision) (prior : list WorkLease) : outcome string :=
  let recovery_nodes := after_colon <$> filter (fun r => startswith "recovery-from:" r = true) (pd_reasons d) in
  match wl_work_id <$> filter (fun l => wl_node_id l ∈ recovery_nodes) prior with
  | [work] => Ok work
  | _ => raise RuntimeError "could not identify degraded recovery work"
  end.

(** [prior[work]] *)
Definition prior_lease (prior : list WorkLease) (work : string) : outcome WorkLease :=
  match filter (fun l => wl_work_id l = work) prior with
  | l :: _ => Ok l
  | [] => raise KeyError work
  end.

(** One decision of the recovery. *)
Definition report_recovery (prior : list WorkLease) (d : WorkPlacementDecision) : svc ServiceOutcome :=
  let^ work := finish (match pd_lease d with
                       | Some l => Ok (wl_work_id l)
                       | None => work_id_from_recovery_reason d prior end) in
  let^ p := required_proposal work in
  let^ old := finish (prior_lease prior work) in
  let^ _ := modify (discard_accepted work) in
  match placed_lease d with
  | Some l =>
      let^ evidence := emit WORK_RECOVERY_REASSIGNED work (work_payload p
        (offer_values l ++ [("from_node_id", PStr (wl_node_id old)); ("to_node_id", PStr (wl_node_id l));
                            ("reason", PStr "source node unavailable or stale")])) in
      finish (outcome_from_decision d "recovery_reassigned" [evidence])
  | None =>
      let^ evidence := emit WORK_DEGRADED work (work_payload p
        [("from_node_id", PStr (wl_node_id old));
         ("degradation_mode", PStr (degradation_value (pd_degradation d)));
         ("reason", PStr (join "; " (pd_reasons d)))]) in
      finish (service_outcome (pd_state d) work None None (pd_degradation d) [evidence] false false false)
  end.

Fixpoint report_all (prior : list WorkLease) (ds : list WorkPlacementDecision) : svc (list ServiceOutcome) :=
  match ds with
  | [] => finish (Ok [])
  | d :: ds =>
      let^ o := report_recovery prior d in
      let^ os := report_all prior ds in
      finish (Ok (o :: os))
  end.

(** [recover] *)
Definition recover_work (now max_heartbeat_age lease_seconds : float) : svc (list ServiceOutcome) :=
  let^ prior := reads (fun s => work_snapshot (sv_work s)) in
  let^ ds := coordinate (recover_unavailable_nodes now max_heartbeat_age lease_seconds) in
  report_all prior ds.

(** ** Runs *)

Lemma runs_coordinate {A} (f : work_state -> outcome A * work_state) s tr o s' :
  runs (coordinate f) s tr o s' <-> tr = [] /\ o = (f (sv_work s)).1 /\ s' = set_work (f (sv_work s)).2 s.
Proof. unfold coordinate. rewrite runs_embed. by destruct (f (sv_work s)). Qed.

(** Reads one step off a run. *)
Ltac run_step H :=
  lazymatch type of H with
  | runs (finish _) _ _ _ _ => apply runs_finish in H as (?Htr & ?Ho & ?Hs)
  | runs (failing _ _) _ _ _ _ => apply runs_finish in H as (?Htr & ?Ho & ?Hs)
  | runs (perform _) _ _ _ _ => apply runs_perform in H as (?Htr & ?Hs)
  end.

(** What one emission does: one event; its result is the evidence of the receipt, or an
    exception; the state does not change. *)
Definition evidence_of (event_type subject_id : string) (payload : items) (o : outcome pyval)
    : outcome LifecycleEvidence :=
  match o with
  | Err e => Err e
  | Ok (PStr r) =>
      if is_blank r then raise RuntimeError "lifecycle sink must return a receipt identifier"
      else make_evidence (mkEvidence event_type (text subject_id) (strip r) payload)
  | Ok _ => raise RuntimeError "lifecycle sink must return a receipt identifier"
  end.

Lemma runs_emit t subject payload s tr o s' : validate_transport_boundary payload = Ok tt ->
  runs (emit t subject payload) s tr o s' <->
  s' = s /\ exists r, tr = [ELifecycle t subject payload r] /\ o = evidence_of t subject payload r.
Proof.
  intros Hv. unfold emit. rewrite runs_seq. split.
  - intros (tr1 & tr2 & o1 & s1 & -> & H1 & H2). run_step H1. subst. rewrite Hv in H2. cbn.
    apply runs_seq in H2 as (tr3 & tr4 & o2 & s2 & -> & H2 & H3). run_step H2. subst. cbn.
    destruct o2 as [v|e]; [|destruct H3 as (-> & -> & ->); split; [done|]; by exists (Err e)].
    split; [|exists (Ok v)]; destruct v as [| | | |r| | |]; cbn in *; try destruct (is_blank r); run_step H3; by subst.
  - intros (-> & r & -> & ->). exists [], [ELifecycle t subject payload r], (Ok tt), s. rewrite runs_finish, Hv.
    split_and!; [done..|]. apply runs_seq. exists [ELifecycle t subject payload r], [], r, s.
    rewrite runs_perform. split_and!; [done..|]. destruct r as [v|e]; [|done].
    destruct v as [| | | |x| | |]; cbn; try destruct (is_blank x); by apply runs_finish.
Qed.

Lemma runs_required_proposal w s tr o s' :
  runs (required_proposal w) s tr o s' <-> tr = [] /\ s' = s /\
    o = match sv_proposals s !! text w with
        | Some p => Ok p | None => raise ValueError "unknown active distributed work" end.
Proof.
  unfold required_proposal. rewrite runs_seq. setoid_rewrite runs_reads. split.
  - intros (tr1 & tr2 & o1 & s1 & -> & (-> & -> & ->) & H). destruct (sv_proposals s !! text w); run_step H; by subst.
  - intros (-> & -> & ->). exists [], [], (Ok (sv_proposals s !! text w)), s. split_and!; [done..|].
    destruct (sv_proposals s !! text w); by apply runs_finish.
Qed.

(** The lease [_required_owned_lease] answers with. *)
Definition owned_lease (w n : string) (s : service) : outcome WorkLease :=
  match w_leases (sv_work s) !! text w with
  | None => raise ValueError "no active workload lease"
  | Some l => if bool_decide (wl_node_id l <> text n)
              then raise ValueError "node does not own the active workload lease" else Ok l
  end.

Lemma runs_required_owned_lease w n s tr o s' :
  runs (required_owned_lease w n) s tr o s' <-> tr = [] /\ s' = s /\ o = owned_lease w n s.
Proof.
  unfold required_owned_lease, owned_lease, work_lease_for. rewrite runs_seq. setoid_rewrite runs_reads.
  rewrite text_idem. split.
  - intros (tr1 & tr2 & o1 & s1 & -> & (-> & -> & ->) & H).
    destruct (w_leases (sv_work s) !! text w) as [l|]; [case_bool_decide|]; run_step H; by subst.
  - intros (-> & -> & ->). eexists [], [], (Ok _), s. split_and!; [done..|].
    destruct (w_leases (sv_work s) !! text w) as [l|]; [case_bool_decide|]; by apply runs_finish.
Qed.

Lemma owned_lease_ok w n s l : owned_lease w n s = Ok l <->
  w_leases (sv_work s) !! text w = Some l /\ wl_node_id l = text n.
Proof.
  unfold owned_lease. destruct (w_leases (sv_work s) !! text w) as [m|]; [|naive_solver].
  case_bool_decide; naive_solver.
Qed.

(** Symbolic execution of a method: splits a run into the runs of its steps. *)
Ltac svc_atom H :=
  lazymatch type of H with
  | runs (required_proposal _) _ _ _ _ => apply runs_required_proposal in H as (-> & -> & ->)
  | runs (required_owned_lease _ _) _ _ _ _ => apply runs_required_owned_lease in H as (-> & -> & ->)
  | runs (emit _ _ _) _ _ _ _ =>
      let r := fresh "receipt" in apply runs_emit in H as (-> & r & -> & ->); [|reflexivity]
  | runs (perform _) _ _ _ _ => apply runs_perform in H as (-> & ->)
  | runs (reads _) _ _ _ _ => apply runs_reads in H as (-> & -> & ->)
  | runs (modify _) _ _ _ _ => apply runs_modify in H as (-> & -> & ->)
  | runs (coordinate _) _ _ _ _ => apply runs_coordinate in H as (-> & -> & ->)
  | runs (finish _) _ _ _ _ => apply runs_finish in H as (-> & -> & ->)
  | runs (failing _ _) _ _ _ _ => apply runs_finish in H as (-> & -> & ->)
  end.

Ltac svc_step H :=
  lazymatch type of H with
  | runs (seq _ _) _ _ _ _ =>
      let tr1 := fresh "tr" in let tr2 := fresh "tr" in let o := fresh "o" in let s := fresh "st" in
      let H1 := fresh "H" in
      apply runs_seq in H as (tr1 & tr2 & o & s & -> & H1 & H); try svc_atom H1;
      cbn beta iota in H
  | runs (if ?b then _ else _) _ _ _ _ => let E := fresh "E" in destruct b eqn:E
  | runs (match ?x with Some _ => _ | None => _ end) _ _ _ _ => let E := fresh "E" in destruct x eqn:E
  | runs _ _ _ _ _ => svc_atom H
  | match ?o with Ok _ => _ | Err _ => _ end => let E := fresh "E" in destruct o eqn:E
  | _ /\ _ => destruct H as (-> & -> & ->)
  end.

(** ** The invariant *)

(** Leases, acceptances and pending completions belong to active proposals. *)
Record service_inv (s : service) : Prop := {
  si_work : work_inv (sv_work s);
  si_proposals : map_Forall (fun w p => wp_proposal_id p = w /\ make_work_proposal p = Ok p) (sv_proposals s);
  si_leases : forall w, is_Some (w_leases (sv_work s) !! w) -> is_Some (sv_proposals s !! w);
  si_accepted : forall w, w ∈ sv_accepted s -> is_Some (sv_proposals s !! w);
  si_pending : forall w, is_Some (sv_pending s !! w) -> is_Some (sv_proposals s !! w)
}.

Lemma require_normalized_ok name v : require_normalized name v = Ok tt -> text v = v /\ v <> "".
Proof.
  unfold require_normalized. intros H. guards H. split; [|by intros ->].
  by destruct (decide (v = text v)) as [<-|].
Qed.

Lemma proposal_id_normal p : make_work_proposal p = Ok p ->
  text (wp_proposal_id p) = wp_proposal_id p /\ wp_proposal_id p <> "".
Proof.
  unfold make_work_proposal. intros H. apply outcome_bind_ok in H as ([] & H & _).
  by eapply require_normalized_ok.
Qed.

Lemma to_requirement_id p r : to_requirement p = Ok r -> wr_work_id r = wp_proposal_id p.
Proof. unfold to_requirement, make_requirement. intros H. guards H. by injection H as <-. Qed.

Lemma inv_set_work s w : service_inv s -> work_inv w ->
  (forall v, is_Some (w_leases w !! v) -> is_Some (w_leases (sv_work s) !! v)) -> service_inv (set_work w s).
Proof. intros [] Hw Hsub. split; cbn; auto. Qed.

Lemma inv_discard_accepted s w : service_inv s -> service_inv (discard_accepted w s).
Proof. intros []. split; cbn; auto. set_solver. Qed.

Lemma inv_add_accepted s w : service_inv s -> is_Some (sv_proposals s !! w) -> service_inv (add_accepted w s).
Proof. intros [] Hp. split; cbn; auto. intros v [->%elem_of_singleton|Hv]%elem_of_union; auto. Qed.

Lemma inv_add_pending s w v : service_inv s -> is_Some (sv_proposals s !! w) -> service_inv (add_pending w v s).
Proof.
  intros [] Hp. split; cbn; auto. intros u Hu. destruct (decide (u = w)) as [->|Hne]; [done|].
  rewrite lookup_insert_ne in Hu by done. auto.
Qed.

(** A completed work leaves every table. *)
Lemma inv_close s w : service_inv s ->
  service_inv (drop_pending w (drop_proposal w (discard_accepted w (set_work (forget_work w (sv_work s)) s)))).
Proof.
  intros []. split; cbn.
  - by apply inv_forget.
  - by apply map_Forall_delete.
  - intros v [Hne Hv]%lookup_delete_is_Some. apply lookup_delete_is_Some. auto.
  - intros v [Hv Hne%not_elem_of_singleton]%elem_of_difference. apply lookup_delete_is_Some. auto.
  - intros v [Hne Hv]%lookup_delete_is_Some. apply lookup_delete_is_Some. auto.
Qed.

(** The proposal of a submission, from the placement to the end of its roll-back. *)
Lemma inv_submitted s p requirement now ls : service_inv s -> make_work_proposal p = Ok p ->
  to_requirement p = Ok requirement ->
  let w := (place requirement now ls [] (sv_work s)).2 in
  service_inv (add_proposal (wp_proposal_id p) p (set_work w s)) /\
  (sv_proposals s !! wp_proposal_id p = None -> w_leases w !! wp_proposal_id p = None ->
   service_inv (set_work w s)).
Proof.
  intros [H1 H2 H3 H4 H5] Hp Hr w. destruct (proposal_id_normal p Hp) as [Ht _].
  assert (forall v, is_Some (w_leases w !! v) -> is_Some (w_leases (sv_work s) !! v) \/ v = wp_proposal_id p) as Hv.
  { intros v Hv. rewrite <- Ht, <- (to_requirement_id p requirement Hr). by eapply place_leases. }
  assert (work_inv w) as Hw by by apply (work_inv_step (WPlace requirement now ls [])).
  split.
  - split; cbn; [done|by apply map_Forall_insert_2|..].
    + intros v [Hl| ->]%Hv; apply lookup_insert_is_Some; [|by left].
      destruct (decide (wp_proposal_id p = v)); auto.
    + intros v Hin. apply lookup_insert_is_Some. destruct (decide (wp_proposal_id p = v)); auto.
    + intros v Hin. apply lookup_insert_is_Some. destruct (decide (wp_proposal_id p = v)); auto.
  - intros Hnone Hnl. split; cbn; try done. intros v Hl. destruct (Hv v Hl) as [Hl'| ->]; [auto|].
    rewrite Hnl in Hl. by destruct Hl.
Qed.

(** *** Each method keeps it, whatever the sinks answer *)

Ltac svc_steps H := repeat svc_step H.

Lemma node_register_leases a w : w_leases (node_register a w).2 = w_leases w.
Proof. unfold node_register. by destruct (_ ++ _ ++ _). Qed.

Lemma register_node_inv a s tr o s' : service_inv s -> make_node a = Ok a ->
  runs (register_node a) s tr o s' -> service_inv s'.
Proof.
  intros Hinv Ha H. unfold register_node in H.
  assert (forall w, work_inv w -> service_inv (set_work (set_nodes (w_nodes w) (sv_work s)) s) -> True) as _ by done.
  svc_step H. destruct (node_register a (sv_work s)) as [d w] eqn:Hreg. cbn [fst snd] in H.
  assert (service_inv (set_work w s)) as Hw.
  { apply inv_set_work; [done| |].
    - pose proof (work_inv_step (WRegister a) (sv_work s) Ha (si_work s Hinv)) as Hx. cbn in Hx. by rewrite Hreg in Hx.
    - pose proof (node_register_leases a (sv_work s)) as Hl. rewrite Hreg in Hl. cbn in Hl. by rewrite Hl. }
  cbn [fst snd] in *. svc_step H; [by svc_steps H; subst|].
  apply runs_seq in H as (tr3 & tr4 & o1 & s1 & -> & H1 & H).
  apply (runs_on_exception slog _ (fun s => set_work (node_remove (nd_node_id a) (sv_work s)).2 s)) in H1.
  2: { intros. apply runs_coordinate. }
  destruct H1 as (s2 & H1 & ->). svc_atom H1.
  assert (service_inv (set_work (node_remove (nd_node_id a) w).2 (set_work w s))) as Hrem.
  { apply inv_set_work; [done| |done]. apply (inv_remove w), (si_work _ Hw). }
  destruct (evidence_of _ _ _ _) as [e|e]; svc_steps H; [done|]. by destruct (is_Exception e).
Qed.

Lemma accept_work_inv w n s tr o s' : service_inv s -> runs (accept_work w n) s tr o s' -> service_inv s'.
Proof.
  intros Hinv H. unfold accept_work in H. cbv zeta in H. svc_steps H; try done.
  apply inv_add_accepted; [done|]. rewrite text_idem in E. by destruct (sv_proposals s !! text w).
Qed.

Lemma refuse_state w n reason now ls s : service_inv s ->
  service_inv (set_work (refuse_and_reassign w n reason now ls (sv_work s)).2 s).
Proof.
  intros Hinv. apply inv_set_work; [done| |].
  - exact (work_inv_step (WRefuse w n reason now ls) (sv_work s) I (si_work s Hinv)).
  - intros v. apply refuse_leases, si_work, Hinv.
Qed.

Lemma refuse_work_inv w n reason now ls s tr o s' : service_inv s ->
  runs (refuse_work w n reason now ls) s tr o s' -> service_inv s'.
Proof.
  intros Hinv H. unfold refuse_work in H. cbv zeta in H. svc_steps H; try done;
    try apply inv_discard_accepted; by apply refuse_state.
Qed.

Lemma work_complete_leased w n s l : w_leases s !! text w = Some l -> wl_node_id l = text n ->
  work_complete w n s = (true, forget_work (text w) s).
Proof. intros Hl Hn. unfold work_complete. rewrite Hl. by rewrite bool_decide_false by auto. Qed.

(** The events and the state after [complete]'s evidence. *)
Lemma runs_completion_evidence r p l s tr o s' :
  runs (completion_evidence r p l) s tr o s' ->
  (sv_pending s !! rs_work_id r = None /\
    (s' = s /\ is_ok o = false \/ exists e, o = Ok e /\ s' = add_pending (rs_work_id r) (r, e) s)) \/
  (exists res e, sv_pending s !! rs_work_id r = Some (res, e) /\ s' = s /\ tr = [] /\
    o = if decide (res = r) then Ok e else raise ValueError "completion retry must use the same result").
Proof.
  intros H. unfold completion_evidence in H. svc_step H.
  destruct (sv_pending s !! rs_work_id r) as [[res e]|] eqn:Hp.
  - right. exists res, e. case_bool_decide as Hr; svc_steps H; [by rewrite decide_False|].
    rewrite decide_True; [done|]. done.
  - left. split; [done|]. svc_steps H; [right; by eexists|by left].
Qed.

Lemma runs_escalate queen r l e s tr o s' : runs (escalate queen r l e) s tr o s' ->
  s' = s /\ (if escalates r l
              then tr = [] /\ is_ok o = false \/ tr = [EQueen (queen_payload r l e) o]
              else tr = [] /\ o = Ok tt).
Proof.
  intros H. unfold escalate in H. destruct (escalates r l); cbn [negb] in H; svc_steps H; auto.
Qed.

(** The state once work [w] is complete. *)
Definition closed (w : string) (s : service) : service :=
  drop_pending w (drop_proposal w (discard_accepted w (set_work (forget_work w (sv_work s)) s))).

(** An outcome about a lease that the coordinator recorded passes its checks. *)
Lemma service_outcome_ok state w l n deg lc acc com esc : is_blank state = false -> text w = w -> w <> "" ->
  lease_named w l -> n = wl_node_id l ->
  service_outcome state w (Some n) (Some (wl_lease_id l)) deg lc acc com esc
  = Ok (mkServiceOutcome state w (Some n) (Some (wl_lease_id l)) (degradation_value deg) lc acc com esc
          false false false "none").
Proof.
  intros Hs Hw Hne (Hn & Hnn & Hid) ->. unfold service_outcome, make_service_outcome, require_text, require_normalized.
  cbn [so_state so_work_id so_node_id so_lease_id so_canonical so_execution_authorized so_actuation_authorized so_authority].
  rewrite Hs, Hw, Hn, Hid, is_blank_app. cbn [outcome_bind].
  destruct w; [done|]. destruct (wl_node_id l); [done|]. cbn [is_nonempty negb].
  rewrite !bool_decide_false by auto. cbn [outcome_bind]. rewrite is_blank_app. cbn [is_blank]. 
  change (is_blank ":") with false. by rewrite andb_false_r.
Qed.

Lemma work_result_ids r : make_work_result r = Ok r ->
  text (rs_work_id r) = rs_work_id r /\ rs_work_id r <> "" /\ text (rs_node_id r) = rs_node_id r.
Proof.
  unfold make_work_result. intros H. apply outcome_bind_ok in H as ([] & Hw & H).
  apply outcome_bind_ok in H as ([] & Hn & _). apply require_normalized_ok in Hw, Hn. tauto.
Qed.

Lemma completion_evidence_state r p l s tr o s' : runs (completion_evidence r p l) s tr o s' ->
  s' = s \/ exists e, s' = add_pending (rs_work_id r) (r, e) s.
Proof.
  intros [(_ & [[-> _]|(e & _ & ->)])|(? & ? & _ & -> & _)]%runs_completion_evidence; [by left| |by left].
  right. by exists e.
Qed.

(** A completion either fails and at most records the pending evidence, or it was asked for
    by the node that holds the lease of an accepted work, which it closes. *)
Lemma complete_work_effect queen r s tr o s' : service_inv s -> make_work_result r = Ok r ->
  runs (complete_work queen r) s tr o s' ->
  let w := rs_work_id r in
  exists s1, (s1 = s \/ exists e, s1 = add_pending w (r, e) s /\ is_Some (sv_proposals s !! w)) /\
  ((is_ok o = false /\ s' = s1) \/
   (s' = closed w s1 /\ is_Some (sv_proposals s !! w) /\ w ∈ sv_accepted s /\
    exists l ev, w_leases (sv_work s) !! w = Some l /\ wl_node_id l = rs_node_id r /\
      o = Ok (mkServiceOutcome "completed" w (Some (rs_node_id r)) (Some (wl_lease_id l))
                (degradation_value (wl_degradation l)) [ev] true true (escalates r l) false false false "none"))).
Proof.
  intros Hinv (Hw & Hwne & Hn)%work_result_ids H. unfold complete_work in H. cbv zeta. svc_steps H.
  all: try (exists s; split; [by left|by left]).
  all: rewrite Hw in E; destruct (sv_proposals s !! rs_work_id r) as [p|] eqn:Hp; try done.
  all: apply owned_lease_ok in E0 as [El En]; rewrite Hw in El; rewrite Hn in En.
  all: apply negb_false_iff, bool_decide_eq_true in E1.
  all: match goal with Hc : runs (completion_evidence _ _ _) _ _ _ _ |- _ =>
         apply completion_evidence_state in Hc end.
  all: try (match goal with Hq : runs (escalate _ _ _ _) _ _ _ _ |- _ => apply runs_escalate in Hq as [-> _] end).
  all: assert (sv_work st = sv_work s) as Hwk by (destruct H0 as [->|[? ->]]; done).
  all: exists st; (split; [destruct H0 as [->|[e' ->]]; [by left|right; by exists e']|]).
  all: try (left; split; done).
  all: rewrite ?Hwk, ?(work_complete_leased _ _ _ a0) in * by congruence.
  all: cbn [fst snd] in *; simplify_eq.
  right. rewrite Hw. unfold closed. rewrite Hwk. split_and!; try done. exists a0, a1. split_and!; try done.
  apply service_outcome_ok; try done. by destruct (inv_leases _ (si_work s Hinv) _ _ El) as (_ & _ & _ & ? & _).
Qed.

Lemma complete_work_inv queen r s tr o s' : service_inv s -> make_work_result r = Ok r ->
  runs (complete_work queen r) s tr o s' -> service_inv s'.
Proof.
  intros Hinv Hr H. destruct (complete_work_effect _ _ _ _ _ _ Hinv Hr H) as (s1 & Hs1 & Hs').
  assert (service_inv s1) as Hinv1 by (destruct Hs1 as [->|(e & -> & Hp)]; [done|by apply inv_add_pending]).
  destruct Hs' as [[_ ->]|[-> _]]; [done|by apply inv_close].
Qed.

Lemma runs_offer_placed p d l s tr o s' : runs (offer_placed p d l) s tr o s' -> s' = s.
Proof. intros H. unfold offer_placed in H. by svc_steps H. Qed.

(** A submission either leaves the proposals and works already active as they were, or
    activates the proposal with the lease its placement recorded. *)
Lemma submit_work_effect p now ls s tr o s' : service_inv s -> make_work_proposal p = Ok p ->
  runs (submit_work p now ls) s tr o s' ->
  s' = s \/
  sv_proposals s !! wp_proposal_id p = None /\
  exists requirement d w, to_requirement p = Ok requirement /\ place requirement now ls [] (sv_work s) = (d, w) /\
    (s' = set_work w s /\ w_leases w !! wp_proposal_id p = None \/
     s' = set_work (forget_work (wp_proposal_id p) w) s /\ is_ok o = false \/
     s' = add_proposal (wp_proposal_id p) p (set_work w s) /\
       match o with Err e => is_Exception e = false | Ok _ => True end).
Proof.
  intros Hinv Hp H. destruct (proposal_id_normal p Hp) as [Ht Hne0]. unfold submit_work in H. cbv zeta in H.
  svc_step H; [svc_steps H; by left|]. do 2 svc_step H; [svc_steps H; by left|].
  svc_step H. svc_step H; [|svc_steps H; by left]. apply bool_decide_eq_false in E0.
  assert (sv_proposals s !! wp_proposal_id p = None) as Hnone by (by apply eq_None_not_Some).
  assert (text (wr_work_id a) = wp_proposal_id p) as Hid by by rewrite (to_requirement_id _ _ E1).
  svc_step H. destruct (place a now ls [] (sv_work s)) as [[d|e] w] eqn:Hpl; cbn [fst snd] in H; right;
    (split; [done|]); exists a; do 2 eexists; (split; [done|]); (split; [done|]).
  2: { destruct H as (-> & -> & ->). left. split; [done|]. rewrite <- Hid.
       apply (place_error_no_lease _ _ _ _ _ _ _ (si_work s Hinv) Hpl). rewrite Hid. apply eq_None_not_Some.
       intros Hl%(si_leases s Hinv). by rewrite Hnone in Hl; destruct Hl. }
  destruct (place_recorded _ _ _ _ _ _ _ (si_work s Hinv) Hpl) as [Hm Hrec]. rewrite Hid in Hrec.
  unfold placed_lease in H. rewrite (placed_iff_lease d Hm) in H. destruct (pd_lease d) as [l|] eqn:Hl.
  - right. svc_step H. apply runs_seq in H as (tr3 & tr4 & o1 & s1 & -> & H1 & H).
    apply (runs_on_exception slog _ (fun s => drop_proposal (wp_proposal_id p)
      (set_work (work_complete (wp_proposal_id p) (wl_node_id l) (sv_work s)).2 s))) in H1.
    2: { intros s0 tr0 o0 s0'. rewrite runs_seq. split.
         - intros (tr5 & tr6 & o2 & s2 & -> & H2 & H3). svc_atom H2. cbn [fst snd] in H3. by svc_atom H3.
         - intros (-> & -> & ->). exists [], [], (Ok tt), (set_work (work_complete (wp_proposal_id p) (wl_node_id l) (sv_work s0)).2 s0).
           split; [done|]. by rewrite runs_coordinate, runs_modify. }
    destruct H1 as (s2 & H2%runs_offer_placed & ->). subst s2. cbn [sv_work add_proposal set_work] in H.
    assert (work_inv w) as Hw.
    { pose proof (work_inv_step (WPlace a now ls []) (sv_work s) I (si_work s Hinv)) as Hx. cbn in Hx.
      by rewrite Hpl in Hx. }
    assert (text (wl_node_id l) = wl_node_id l) as Hnode
      by by destruct (inv_leases w Hw _ l Hrec) as (_ & _ & _ & (? & _) & _).
    rewrite (work_complete_leased _ _ _ l) in H by (by rewrite ?Ht). cbn [snd] in H. rewrite Ht in H.
    destruct o1 as [lc|e]; svc_steps H.
    { right. split; [done|]. unfold outcome_from_decision. rewrite Hl.
      destruct (inv_leases w Hw _ l Hrec) as (Hwid & _ & _ & Hnamed & _).
      by rewrite Hwid, (service_outcome_ok _ _ l) by done. }
    destruct (is_Exception e) eqn:He; [left|by right].
    split; [|done]. unfold drop_proposal, set_work, add_proposal. cbn. by rewrite delete_insert_id.
  - left. svc_steps H; done.
Qed.

Lemma submit_work_inv p now ls s tr o s' : service_inv s -> make_work_proposal p = Ok p ->
  runs (submit_work p now ls) s tr o s' -> service_inv s'.
Proof.
  intros Hinv Hp H. destruct (submit_work_effect _ _ _ _ _ _ _ Hinv Hp H) as
    [->|(Hnone & r & d & w & Hr & Hpl & Hs')]; [done|].
  destruct (inv_submitted s p r now ls Hinv Hp Hr) as [Hadd Hset]. rewrite Hpl in Hadd, Hset. cbn [snd] in *.
  destruct Hs' as [[-> Hl]|[[-> _]|[-> _]]]; [by apply Hset| |done].
  pose proof (inv_close _ (wp_proposal_id p) Hadd) as [H1 H2 H3 H4 H5]. split; cbn in *; try done.
  - apply (si_proposals s Hinv).
  - intros v Hv. specialize (H3 v Hv). by rewrite delete_insert_id in H3.
  - apply (si_accepted s Hinv).
  - apply (si_pending s Hinv).
Qed.

Lemma report_recovery_inv prior d s tr o s' : service_inv s ->
  runs (report_recovery prior d) s tr o s' -> service_inv s'.
Proof.
  intros Hinv H. unfold report_recovery in H. svc_steps H; try done; by apply inv_discard_accepted.
Qed.

Lemma report_all_inv prior ds : forall s tr o s', service_inv s ->
  runs (report_all prior ds) s tr o s' -> service_inv s'.
Proof.
  induction ds as [|d ds IH]; intros s tr o s' Hinv H; cbn [report_all] in H; [by svc_steps H|].
  svc_step H. apply report_recovery_inv in H0; [|done]. svc_step H; [|by svc_steps H].
  svc_step H. apply IH in H1; [|done]. svc_steps H; done.
Qed.

Lemma recover_state now age ls s : service_inv s ->
  service_inv (set_work (recover_unavailable_nodes now age ls (sv_work s)).2 s).
Proof.
  intros Hinv. apply inv_set_work; [done| |].
  - exact (work_inv_step (WRecover now age ls) (sv_work s) I (si_work s Hinv)).
  - intros v. apply recover_leases, si_work, Hinv.
Qed.

Lemma recover_work_inv now age ls s tr o s' : service_inv s ->
  runs (recover_work now age ls) s tr o s' -> service_inv s'.
Proof.
  intros Hinv H. unfold recover_work in H. do 2 svc_step H. pose proof (recover_state now age ls s Hinv) as Hr.
  svc_step H; [by eapply report_all_inv|by svc_steps H].
Qed.

(** *** Histories *)

Inductive service_call :=
| CRegister (a : NodeAdvertisement)
| CSubmit (p : WorkProposal) (now lease_seconds : float)
| CAccept (work_id node_id : string)
| CRefuse (work_id node_id reason : string) (now lease_seconds : float)
| CComplete (r : WorkResult)
| CRecover (now max_heartbeat_age lease_seconds : float).

(** The objects a call is given have passed their constructors' checks. *)
Definition checked_call (c : service_call) : Prop :=
  match c with
  | CRegister a => make_node a = Ok a
  | CSubmit p _ _ => make_work_proposal p = Ok p
  | CComplete r => make_work_result r = Ok r
  | _ => True
  end.

Section Histories.
Context (queen : bool).

(** One call, with any answers of the sinks. *)
Definition call_runs (c : service_call) (s : service) (tr : list sevent) (s' : service) : Prop :=
  match c with
  | CRegister a => exists o, runs (register_node a) s tr o s'
  | CSubmit p now ls => exists o, runs (submit_work p now ls) s tr o s'
  | CAccept w n => exists o, runs (accept_work w n) s tr o s'
  | CRefuse w n why now ls => exists o, runs (refuse_work w n why now ls) s tr o s'
  | CComplete r => exists o, runs (complete_work queen r) s tr o s'
  | CRecover now age ls => exists o, runs (recover_work now age ls) s tr o s'
  end.

Inductive history : service -> list (service_call * list sevent) -> service -> Prop :=
| history_nil s : history s [] s
| history_cons s c tr s1 h s' :
    checked_call c -> call_runs c s tr s1 -> history s1 h s' -> history s ((c, tr) :: h) s'.

Lemma call_inv c s tr s' : checked_call c -> call_runs c s tr s' -> service_inv s -> service_inv s'.
Proof.
  destruct c; intros Hc [o H] Hinv.
  - exact (register_node_inv _ _ _ _ _ Hinv Hc H).
  - exact (submit_work_inv _ _ _ _ _ _ _ Hinv Hc H).
  - exact (accept_work_inv _ _ _ _ _ _ Hinv H).
  - exact (refuse_work_inv _ _ _ _ _ _ _ _ _ Hinv H).
  - exact (complete_work_inv _ _ _ _ _ _ Hinv Hc H).
  - exact (recover_work_inv _ _ _ _ _ _ _ Hinv H).
Qed.

Lemma history_inv s h s' : history s h s' -> service_inv s -> service_inv s'.
Proof. induction 1 as [|s c tr s1 h s' Hc Hr _ IH]; [done|]. intros Hinv. by apply IH, (call_inv c s tr). Qed.
End Histories.

Definition new_service (w : work_state) : service := mkService w ∅ ∅ ∅.

Lemma new_service_inv w : work_inv w -> w_leases w = ∅ -> service_inv (new_service w).
Proof.
  intros Hw Hl. split; cbn; [done|apply map_Forall_empty|..].
  - intros v [x Hx]. rewrite Hl in Hx. by rewrite lookup_empty in Hx.
  - intros v. set_solver.
  - intros v [x Hx]. by rewrite lookup_empty in Hx.
Qed.
