(* ===== verification/ServiceTheorems.v ===== *)
(** The properties of the distributed-work service ([DistributedService.v]): they hold for
    every answer of the lifecycle sink and the Queen's sink, including exceptions. *)

From stdpp Require Import base gmap sets list strings sorting.
From Stdlib Require Import ZArith Ascii SpecFloat.
From S2P Require Import Prelude PyText PyVal Json PyFloat Effects StateProg DistributedWork DistributedTheorems.
From S2P Require Import DistributedService.

(** ** Sinks for the witnesses *)

(** The lifecycle sink answers with a receipt; the Queen's sink fails the first time when
    [fails]. *)
Definition sinks (fails : bool) (X : Type) (op : sop X) (calls : nat) : outcome X * nat :=
  match op in sop X return outcome X * nat with
  | OpLifecycle t _ _ => (Ok (PStr ("receipt " +:+ t)), calls)
  | OpQueen _ => (if fails && bool_decide (calls = 0) then raise OSError "queen unreachable" else Ok tt, S calls)
  end.

Definition serve {A} (fails : bool) (m : svc A) (sc : service * nat) : outcome A * list sevent * (service * nat) :=
  let '(s, c) := sc in
  match run slog (sinks fails) (m s) c with
  | (Ok (o, s'), tr, c') => (o, tr, (s', c'))
  | (Err e, tr, c') => (Err e, tr, (s, c'))
  end.

Definition ran {A} (fails : bool) (m : svc A) (sc : service * nat) : bool :=
  is_ok (run slog (sinks fails) (m sc.1) sc.2).1.1.

Lemma serve_runs {A} fails (m : svc A) sc : ran fails m sc = true ->
  runs m sc.1 (serve fails m sc).1.2 (serve fails m sc).1.1 (serve fails m sc).2.1.
Proof.
  destruct sc as [s c]. unfold ran, serve, runs. cbn [fst snd].
  destruct (run slog (sinks fails) (m s) c) as [[[[o s']|e] tr] c'] eqn:Hr; [|done].
  intros _. exact (run_exec slog (sinks fails) _ _ _ _ _ Hr).
Qed.

Definition sample_proposal (id : string) (caps : list string) : WorkProposal :=
  mkWorkProposal id "analyse" "look" caps [] [] [] (flit 5 (-1)) (flit 85 (-2)) true true false false true None
    false false "propose_work" true true false false false false false false "none".

Definition sample_result (id node : string) (important : bool) : WorkResult :=
  mkWorkResult id node "completed" "done" [] important false false false "none".

(** A body of the nodes [eyes] (vision) and [ears] (hearing, vision), and its service. *)
Definition two_organs : work_state :=
  work_run [WRegister (sample_node "eyes" HEAVY_LINUX ["vision"; "plan"] 10);
            WRegister (sample_node "ears" HEAVY_LINUX ["vision"] 60)] body_one.
Definition fresh_service : service := new_service two_organs.

Lemma two_organs_inv : work_inv two_organs.
Proof. apply work_inv_run; [repeat constructor; vm_compute; reflexivity|exact (new_work_inv "body one" _ eq_refl)]. Qed.

Lemma fresh_service_inv : service_inv fresh_service.
Proof. apply new_service_inv; [exact two_organs_inv|vm_compute; reflexivity]. Qed.

(** A script of calls, each a method that is run for its state. *)
Definition after {A} (fails : bool) (m : svc A) (sc : service * nat) : service * nat := (serve fails m sc).2.

Definition offered : service * nat :=
  after false (submit_work (sample_proposal "w1" ["vision"]) t100 t60) (fresh_service, 0).
Definition accepted_once : service * nat := after false (accept_work "w1" "eyes") offered.

(** ** Consistency *)

(** C17: The service's tables stay consistent in every history of calls, whatever the sinks
    answer and wherever they raise: a lease, an acceptance and a pending completion belong
    to an active proposal, and each lease is for its work, carries no authority and is held
    by a node that has not refused the work. *)
Theorem service_tables_consistent queen w h s' :
  work_inv w -> w_leases w = ∅ -> history queen (new_service w) h s' ->
  (forall k l, w_leases (sv_work s') !! k = Some l ->
     is_Some (sv_proposals s' !! k) /\ wl_work_id l = k /\ wl_authority l = "none" /\
     wl_execution_authorized l = false /\ (wl_node_id l ∉ refused_by k (sv_work s'))) /\
  (forall k, k ∈ sv_accepted s' -> is_Some (sv_proposals s' !! k)) /\
  (forall k, is_Some (sv_pending s' !! k) -> is_Some (sv_proposals s' !! k)) /\
  (forall k p, sv_proposals s' !! k = Some p -> wp_proposal_id p = k /\ text k = k /\ k <> "").
Proof.
  intros Hw Hl Hh. destruct (history_inv _ _ _ _ Hh (new_service_inv w Hw Hl)) as [H1 H2 H3 H4 H5].
  split_and!; try done.
  - intros k l Hk. destruct (inv_leases _ H1 k l Hk) as (Hid & Hm & Href & _).
    destruct (make_work_lease_ok _ _ Hm) as (_ & _ & _ & Hx & Ha). split_and!; try done. apply H3. by exists l.
  - intros k p Hk. destruct (H2 k p Hk) as [Hid Hm]. destruct (proposal_id_normal p Hm) as [Ht Hne].
    rewrite <- Hid. done.
Qed.

Lemma one_call queen c s s' tr : checked_call c -> call_runs queen c s tr s' -> history queen s [(c, tr)] s'.
Proof. intros Hc Hr. eapply history_cons; [done|done|constructor]. Qed.

Lemma offered_runs : ran false (submit_work (sample_proposal "w1" ["vision"]) t100 t60) (fresh_service, 0) = true.
Proof. vm_compute. reflexivity. Qed.

Lemma offered_history : exists h, history false fresh_service h offered.1.
Proof.
  eexists. refine (one_call _ (CSubmit (sample_proposal "w1" ["vision"]) t100 t60) _ _ _ _ _).
  - vm_compute. reflexivity.
  - exact (ex_intro (fun o => runs (submit_work (sample_proposal "w1" ["vision"]) t100 t60) fresh_service _ o offered.1)
      _ (serve_runs false _ _ offered_runs)).
Qed.

Lemma service_tables_consistent_witness :
  exists l, w_leases (sv_work offered.1) !! "w1" = Some l /\ is_Some (sv_proposals offered.1 !! "w1").
Proof.
  destruct (w_leases (sv_work offered.1) !! "w1") as [l|] eqn:Hl;
    [|apply (f_equal (fmap wl_node_id)) in Hl; vm_compute in Hl; discriminate Hl].
  exists l. split; [reflexivity|]. destruct offered_history as [h Hh].
  destruct (service_tables_consistent false two_organs h offered.1) as [H _];
    [exact two_organs_inv|vm_compute; reflexivity|exact Hh|]. exact (proj1 (H _ _ Hl)).
Defined.

(** ** Submission is all or nothing *)

(** A submission that raises an [Exception] leaves nothing behind: the active proposals,
    acceptances and pending completions are those before, and the work of a proposal that
    was not active has no lease, so that it can be submitted again. *)
Theorem failed_submission_leaves_nothing p now ls s tr e s' :
  service_inv s -> make_work_proposal p = Ok p ->
  runs (submit_work p now ls) s tr (Err e) s' -> is_Exception e = true ->
  sv_proposals s' = sv_proposals s /\ sv_accepted s' = sv_accepted s /\ sv_pending s' = sv_pending s /\
  (sv_proposals s !! wp_proposal_id p = None -> w_leases (sv_work s') !! wp_proposal_id p = None).
Proof.
  intros Hinv Hp H He. destruct (submit_work_effect _ _ _ _ _ _ _ Hinv Hp H) as
    [->|(Hnone & r & d & w & Hr & Hpl & [[-> Hl]|[[-> _]|[-> Hx]]])].
  - split_and!; try done. intros Hnone. apply eq_None_not_Some. intros Hl%(si_leases s Hinv).
    rewrite Hnone in Hl. by destruct Hl.
  - done.
  - split_and!; try done. intros _. cbn. apply lookup_delete_eq.
  - congruence.
Qed.

(** The lifecycle sink raises when it is told of the offer. *)
Definition deaf_sink (X : Type) (op : sop X) (calls : nat) : outcome X * nat :=
  match op in sop X return outcome X * nat with
  | OpLifecycle _ _ _ => (raise OSError "event bus down", calls)
  | OpQueen _ => (Ok tt, calls)
  end.
Definition deaf_run := run slog deaf_sink (submit_work (sample_proposal "w1" ["vision"]) t100 t60 fresh_service) 0.

Lemma failed_submission_leaves_nothing_witness :
  exists tr e s', runs (submit_work (sample_proposal "w1" ["vision"]) t100 t60) fresh_service tr (Err e) s' /\
    length tr = 1 /\ w_leases (sv_work s') !! "w1" = None.
Proof.
  destruct deaf_run as [[[[[o|e] s']|x] tr] c] eqn:Hr;
    pose proof (f_equal (fun x => match x.1 with (Ok (Err e, _), tr) => (is_Exception e, length tr) | _ => (false, 0) end) Hr) as Hc;
    vm_compute in Hc; try discriminate Hc.
  assert (runs (submit_work (sample_proposal "w1" ["vision"]) t100 t60) fresh_service tr (Err e) s') as Hruns
    by exact (run_exec slog deaf_sink _ _ _ _ _ Hr).
  exists tr, e, s'. split; [exact Hruns|]. injection Hc as He Hlen. split; [exact (eq_sym Hlen)|].
  apply (failed_submission_leaves_nothing (sample_proposal "w1" ["vision"]) t100 t60 fresh_service tr e s');
    [exact fresh_service_inv|vm_compute; reflexivity|exact Hruns|exact (eq_sym He)|vm_compute; reflexivity].
Defined.

(** ** Completion *)

(** A work is completed only on behalf of its holder.  A completion succeeds only for
    an active, accepted work whose lease the reporting node holds; it then removes the work
    from every table and reports the lease that was closed.  When it fails, leases,
    proposals and acceptances are unchanged, and at most the evidence kept for a retry is
    recorded. *)
Theorem completion_needs_accepted_lease queen r s tr o s' :
  service_inv s -> make_work_result r = Ok r -> runs (complete_work queen r) s tr o s' ->
  let w := rs_work_id r in
  match o with
  | Err _ => sv_work s' = sv_work s /\ sv_proposals s' = sv_proposals s /\ sv_accepted s' = sv_accepted s
  | Ok out =>
      exists l, w_leases (sv_work s) !! w = Some l /\ wl_node_id l = rs_node_id r /\ w ∈ sv_accepted s /\
      is_Some (sv_proposals s !! w) /\
      w_leases (sv_work s') !! w = None /\ sv_proposals s' !! w = None /\ (w ∉ sv_accepted s') /\
      sv_pending s' !! w = None /\ so_lease_id out = Some (wl_lease_id l) /\ so_completed out = true
  end.
Proof.
  intros Hinv Hr H w. destruct (complete_work_effect _ _ _ _ _ _ Hinv Hr H) as (s1 & Hs1 & Hs').
  fold w in Hs1, Hs'. destruct Hs' as [[Hf ->]|(-> & Hp & Ha & l & ev & Hl & Hn & ->)].
  - destruct o; [done|]. by destruct Hs1 as [->|(e' & -> & _)].
  - exists l. split_and!; try done; [apply lookup_delete_eq|apply lookup_delete_eq| |apply lookup_delete_eq].
    cbn. set_solver.
Qed.

Definition completion := complete_work true (sample_result "w1" "eyes" true).

Lemma completion_ran : ran false completion accepted_once = true.
Proof. vm_compute. reflexivity. Qed.

Lemma accepted_once_inv : service_inv accepted_once.1.
Proof.
  destruct offered_history as [h Hh]. pose proof (history_inv _ _ _ _ Hh fresh_service_inv) as Hinv.
  assert (ran false (accept_work "w1" "eyes") offered = true) as Hr by (vm_compute; reflexivity).
  exact (accept_work_inv _ _ _ _ _ _ Hinv (serve_runs false _ _ Hr)).
Qed.

Lemma completion_needs_accepted_lease_witness :
  is_ok (serve false completion accepted_once).1.1 = true /\
  "w1" ∈ sv_accepted accepted_once.1 /\ sv_proposals (after false completion accepted_once).1 !! "w1" = None.
Proof.
  split; [vm_compute; reflexivity|].
  pose proof (completion_needs_accepted_lease true (sample_result "w1" "eyes" true) accepted_once.1 _ _ _
    accepted_once_inv ltac:(vm_compute; reflexivity) (serve_runs false _ _ completion_ran)) as H.
  assert (is_ok (serve false completion accepted_once).1.1 = true) as Hok by (vm_compute; reflexivity).
  cbv zeta in H. destruct (serve false completion accepted_once).1.1 as [out|e]; [|discriminate Hok].
  destruct H as (l & _ & _ & Ha & _ & _ & Hp & _). split; [exact Ha|exact Hp].
Defined.

(** ** Receipts *)

(** The events of a run, each answered with a receipt, as the evidence of an outcome. *)
Definition reported : list sevent -> list LifecycleEvidence -> Prop :=
  Forall2 (fun e v => exists t subject p r, e = ELifecycle t subject p (Ok (PStr r)) /\ is_blank r = false /\
    v = mkEvidence t (text subject) (strip r) p).

Lemma evidence_reported t subject p r v : evidence_of t subject p r = Ok v ->
  reported [ELifecycle t subject p r] [v].
Proof.
  unfold evidence_of. destruct r as [[| | | |x| | |]|]; try done. destruct (is_blank x) eqn:Hx; [done|].
  intros H. constructor; [|constructor]. exists t, subject, p, x. split_and!; [done..|].
  unfold make_evidence in H. guards H. by injection H as <-.
Qed.

Lemma reported_app tr1 tr2 e1 e2 : reported tr1 e1 -> reported tr2 e2 -> reported (tr1 ++ tr2) (e1 ++ e2).
Proof. apply Forall2_app. Qed.

Lemma service_outcome_lifecycle state w n l d lc a c e out :
  service_outcome state w n l d lc a c e = Ok out -> so_lifecycle out = lc.
Proof. unfold service_outcome, make_service_outcome. intros H. guards H. by injection H as <-. Qed.

Lemma outcome_from_decision_lifecycle d state lc out :
  outcome_from_decision d state lc = Ok out -> so_lifecycle out = lc.
Proof. unfold outcome_from_decision. destruct (pd_lease d); [|done]. apply service_outcome_lifecycle. Qed.

Ltac report :=
  repeat match goal with
  | H : Ok _ = Ok _ |- _ => injection H as <-
  | H : Ok _ = service_outcome _ _ _ _ _ _ _ _ _ |- _ => symmetry in H
  | H : Ok _ = outcome_from_decision _ _ _ |- _ => symmetry in H
  | H : service_outcome _ _ _ _ _ _ _ _ _ = Ok _ |- _ => apply service_outcome_lifecycle in H; rewrite H
  | H : outcome_from_decision _ _ _ = Ok _ |- _ => apply outcome_from_decision_lifecycle in H; rewrite H
  | H : evidence_of _ _ _ _ = Ok _ |- _ => apply evidence_reported in H
  end.
Ltac reports := report; cbn [app]; rewrite ?app_nil_r;
  repeat match goal with
  | H : reported [_] [_] |- reported (_ :: ?tr) (_ :: ?es) => apply (reported_app [_] tr [_] es); [exact H|clear H]
  | |- reported [] [] => constructor
  end.

Lemma submit_reported p now ls s tr out s' :
  runs (submit_work p now ls) s tr (Ok out) s' -> reported tr (so_lifecycle out).
Proof.
  intros H. unfold submit_work in H. cbv zeta in H. remember (Ok out) as o eqn:Ho.
  svc_step H; [by svc_steps H|]. do 2 svc_step H; [by svc_steps H|].
  do 2 svc_step H; [|by svc_steps H; subst]. do 2 svc_step H; [|by svc_steps H; subst].
  svc_step H.
  - do 2 svc_step H. svc_step H; [|by svc_steps H; subst]. apply runs_on_exception_ok in H0.
    remember (Ok a1) as o1 eqn:Ho1. unfold offer_placed in H0.
    svc_steps H0; svc_steps H; subst; simplify_eq; by reports.
  - svc_steps H; subst; try discriminate; by reports.
Qed.

Lemma accept_reported w n s tr out s' :
  runs (accept_work w n) s tr (Ok out) s' -> reported tr (so_lifecycle out).
Proof.
  intros H. unfold accept_work in H. cbv zeta in H. remember (Ok out) as o eqn:Ho.
  svc_steps H; subst; try discriminate; by reports.
Qed.

Lemma refuse_reported w n why now ls s tr out s' :
  runs (refuse_work w n why now ls) s tr (Ok out) s' -> reported tr (so_lifecycle out).
Proof.
  intros H. unfold refuse_work in H. cbv zeta in H. remember (Ok out) as o eqn:Ho.
  svc_steps H; subst; try discriminate; by reports.
Qed.

Lemma recovery_reported prior d s tr out s' :
  runs (report_recovery prior d) s tr (Ok out) s' -> reported tr (so_lifecycle out).
Proof.
  intros H. unfold report_recovery in H. remember (Ok out) as o eqn:Ho.
  svc_steps H; subst; try discriminate; by reports.
Qed.

Lemma report_all_reported prior ds : forall s tr outs s',
  runs (report_all prior ds) s tr (Ok outs) s' -> reported tr (concat (so_lifecycle <$> outs)).
Proof.
  induction ds as [|d ds IH]; intros s tr outs s' H; cbn [report_all] in H; remember (Ok outs) as o eqn:Ho.
  - svc_steps H. injection Ho as <-. constructor.
  - svc_step H. destruct o0 as [out|e]; [|by svc_steps H; subst].
    svc_step H. destruct o0 as [outs'|e]; [|by svc_steps H; subst].
    svc_steps H. injection Ho as <-. rewrite app_nil_r. cbn. apply reported_app; [|by eapply IH].
    by eapply recovery_reported.
Qed.

(** Nothing is reported that was not receipted.  When a submission, acceptance, refusal
    or recovery returns, every event it sent to the lifecycle sink was answered with a
    receipt, and the outcome's lifecycle is those events with those receipts, in the order
    they happened; no other effect took place. *)
Theorem outcomes_are_receipted s s' tr :
  (forall p now ls out, runs (submit_work p now ls) s tr (Ok out) s' -> reported tr (so_lifecycle out)) /\
  (forall w n out, runs (accept_work w n) s tr (Ok out) s' -> reported tr (so_lifecycle out)) /\
  (forall w n why now ls out, runs (refuse_work w n why now ls) s tr (Ok out) s' -> reported tr (so_lifecycle out)) /\
  (forall now age ls outs, runs (recover_work now age ls) s tr (Ok outs) s' ->
     reported tr (concat (so_lifecycle <$> outs))).
Proof.
  split_and!; eauto using submit_reported, accept_reported, refuse_reported.
  intros now age ls outs H. unfold recover_work in H. remember (Ok outs) as o eqn:Ho. do 2 svc_step H.
  svc_step H; [|by svc_steps H; subst]. cbn [app]. subst o. by eapply report_all_reported.
Qed.

Lemma outcomes_are_receipted_witness :
  exists out tr s', runs (submit_work (sample_proposal "w1" ["vision"]) t100 t60) fresh_service tr (Ok out) s' /\
    length tr = 1 /\ reported tr (so_lifecycle out).
Proof.
  pose proof (serve_runs false _ _ offered_runs) as Hr.
  assert (is_ok (serve false (submit_work (sample_proposal "w1" ["vision"]) t100 t60) (fresh_service, 0)).1.1 = true)
    as Hok by (vm_compute; reflexivity).
  assert (length (serve false (submit_work (sample_proposal "w1" ["vision"]) t100 t60) (fresh_service, 0)).1.2 = 1)
    as Hlen by (vm_compute; reflexivity).
  destruct (serve false (submit_work (sample_proposal "w1" ["vision"]) t100 t60) (fresh_service, 0)) as [[o tr] [s' c]].
  cbn [fst snd] in *. destruct o as [out|e]; [|discriminate Hok]. exists out, tr, s'.
  split; [exact Hr|]. split; [exact Hlen|]. exact (proj1 (outcomes_are_receipted fresh_service s' tr) _ _ _ _ Hr).
Defined.

(** ** Work without a lease *)

(** Work [w] is active and no node holds it. *)
Definition orphaned (w : string) (s : service) : Prop :=
  is_Some (sv_proposals s !! w) /\ w_leases (sv_work s) !! w = None.

Definition about (w : string) (c : service_call) : Prop :=
  match c with
  | CSubmit p _ _ => wp_proposal_id p = w
  | CAccept v _ | CRefuse v _ _ _ _ => text v = w
  | CComplete r => rs_work_id r = w
  | _ => False
  end.

Lemma report_all_tables prior ds : forall s tr o s', runs (report_all prior ds) s tr o s' ->
  sv_work s' = sv_work s /\ sv_proposals s' = sv_proposals s.
Proof.
  induction ds as [|d ds IH]; intros s tr o s' H; cbn [report_all] in H; [by svc_steps H|].
  svc_step H. assert (sv_work st = sv_work s /\ sv_proposals st = sv_proposals s) as [Hw Hp]
    by (unfold report_recovery in H0; svc_steps H0; done).
  svc_step H; [|by svc_steps H]. svc_step H. apply IH in H1 as [Hw1 Hp1].
  svc_steps H; by rewrite Hw1, Hp1.
Qed.

Lemma register_tables a s tr o s' : runs (register_node a) s tr o s' ->
  w_leases (sv_work s') = w_leases (sv_work s) /\ sv_proposals s' = sv_proposals s.
Proof.
  intros H. unfold register_node in H. svc_step H. pose proof (node_register_leases a (sv_work s)) as Hl.
  destruct (node_register a (sv_work s)) as [d w]. cbn [fst snd] in *. svc_step H; [by svc_steps H|].
  apply runs_seq in H as (tr3 & tr4 & o1 & s1 & -> & H1 & H).
  apply (runs_on_exception slog _ (fun s => set_work (node_remove (nd_node_id a) (sv_work s)).2 s)) in H1.
  2: { intros. apply runs_coordinate. }
  destruct H1 as (s2 & H1 & ->). svc_atom H1.
  destruct (evidence_of _ _ _ _) as [e|e]; svc_steps H; [done|]. by destruct (is_Exception e).
Qed.

Lemma orphaned_kept queen w c s tr s' : checked_call c -> call_runs queen c s tr s' ->
  service_inv s -> orphaned w s -> orphaned w s'.
Proof.
  intros Hc Hrun Hinv [Hp Hl]. destruct c as [a|p now ls|v n|v n why now ls|r|now age ls]; destruct Hrun as [o H]; cbn in Hc.
  - destruct (register_tables _ _ _ _ _ H) as [Hl' Hp']. split; [by rewrite Hp'|by rewrite Hl'].
  - destruct (submit_work_effect _ _ _ _ _ _ _ Hinv Hc H) as [->|(Hnone & r & d & w' & Hr & Hpl & Hs')]; [done|].
    assert (w <> wp_proposal_id p) as Hne by (intros ->; rewrite Hnone in Hp; by destruct Hp).
    assert (w_leases w' !! w = None) as Hl'.
    { apply eq_None_not_Some. intros Hx. pose proof (place_leases r now ls [] (sv_work s) w (si_work s Hinv)) as Hpk.
      rewrite Hpl in Hpk. destruct (Hpk Hx) as [Hy|Hy]; [rewrite Hl in Hy; by destruct Hy|].
      rewrite (to_requirement_id _ _ Hr) in Hy. by rewrite (proj1 (proposal_id_normal p Hc)) in Hy. }
    destruct Hs' as [[-> _]|[[-> _]|[-> _]]]; split; cbn; try done.
    + by rewrite lookup_delete_ne.
    + by rewrite lookup_insert_ne.
  - unfold accept_work in H. cbv zeta in H. by svc_steps H.
  - unfold refuse_work in H. cbv zeta in H. svc_steps H; try done; (split; [done|]); cbn;
      apply eq_None_not_Some; intros Hx%refuse_leases; try (apply (si_work s Hinv));
      rewrite Hl in Hx; by destruct Hx.
  - destruct (complete_work_effect _ _ _ _ _ _ Hinv Hc H) as (s1 & Hs1 & Hs').
    assert (orphaned w s1) as [Hp1 Hl1] by (by destruct Hs1 as [->|(e & -> & _)]).
    assert (sv_work s1 = sv_work s) as Hwk by (by destruct Hs1 as [->|(e & -> & _)]).
    destruct Hs' as [[_ ->]|(-> & _ & _ & l & ev & Hlw & _)]; [done|].
    assert (w <> rs_work_id r) as Hne by (intros ->; congruence).
    split; cbn; rewrite lookup_delete_ne by done; [done|by rewrite Hwk].
  - unfold recover_work in H. do 2 svc_step H.
    assert (w_leases (recover_unavailable_nodes now age ls (sv_work s)).2 !! w = None) as Hl'.
    { apply eq_None_not_Some. intros Hx%recover_leases; [|apply (si_work s Hinv)]. rewrite Hl in Hx. by destruct Hx. }
    svc_step H; [|by svc_steps H]. apply report_all_tables in H as [Hw' Hp']. by split; rewrite ?Hw', ?Hp'.
Qed.

Lemma orphaned_refused queen w c s tr s' : checked_call c -> call_runs queen c s tr s' ->
  service_inv s -> orphaned w s -> about w c -> tr = [] /\ s' = s.
Proof.
  intros Hc Hrun Hinv [Hp Hl] Hab. destruct c as [a|p now ls|v n|v n why now ls|r|now age ls]; try done;
    destruct Hrun as [o H]; cbn in Hc, Hab.
  - unfold submit_work in H. cbv zeta in H. svc_step H; [by svc_steps H|].
    do 2 svc_step H; [by svc_steps H|]. by rewrite Hab, bool_decide_true in E0.
  - unfold accept_work in H. cbv zeta in H. svc_steps H; try done.
    all: apply owned_lease_ok in E0 as [E0 _]; rewrite text_idem, Hab in E0; congruence.
  - unfold refuse_work in H. cbv zeta in H. svc_steps H; try done.
    all: apply owned_lease_ok in E1 as [E1 _]; rewrite text_idem, Hab in E1; congruence.
  - destruct (work_result_ids r Hc) as (Hid & _). unfold complete_work in H. svc_steps H; try done.
    all: apply owned_lease_ok in E0 as [E0 _]; rewrite Hid, Hab in E0; congruence.
Qed.

(** A work that loses its last lease is stuck.  Once an active work has no lease (its
    last candidate refused it, its lease expired, or its recovery found no other node), no
    history of calls places it again or retires it: it stays active without a lease, and
    every later submission, acceptance, refusal or completion of it has no effect and
    reports no event, whatever nodes join and whatever the sinks answer. *)
Theorem orphaned_work_is_stuck queen w s h s' :
  history queen s h s' -> service_inv s -> orphaned w s ->
  orphaned w s' /\ forall c tr, (c, tr) ∈ h -> about w c -> tr = [].
Proof.
  induction 1 as [s|s c tr s1 h s' Hc Hrun Hh IH]; intros Hinv Ho.
  - split; [done|]. intros c tr Hin. by apply elem_of_nil in Hin.
  - destruct IH as [Ho' Hall]; [by eapply call_inv|by eapply orphaned_kept|]. split; [done|].
    intros c' tr' [[= -> ->]|Hin]%elem_of_cons Hab; [|by eapply Hall].
    by eapply orphaned_refused.
Qed.

(** The only node that can plan refuses the plan; then a new planner joins, and the work is
    submitted again. *)
Definition planned : service * nat :=
  after false (submit_work (sample_proposal "w1" ["plan"]) t100 t60) (fresh_service, 0).
Definition abandoned : service * nat := after false (refuse_work "w1" "eyes" "busy" t100 t60) planned.
Definition rejoined : service * nat :=
  after false (register_node (sample_node "planner" HEAVY_LINUX ["plan"] 5)) abandoned.
Definition resubmitted : service * nat :=
  after false (submit_work (sample_proposal "w1" ["plan"]) (flit 500 0) t60) rejoined.

Lemma abandoned_inv : service_inv abandoned.1.
Proof.
  assert (ran false (submit_work (sample_proposal "w1" ["plan"]) t100 t60) (fresh_service, 0) = true) as H1
    by (vm_compute; reflexivity).
  assert (ran false (refuse_work "w1" "eyes" "busy" t100 t60) planned = true) as H2 by (vm_compute; reflexivity).
  assert (make_work_proposal (sample_proposal "w1" ["plan"]) = Ok (sample_proposal "w1" ["plan"])) as Hp
    by (vm_compute; reflexivity).
  pose proof (submit_work_inv _ _ _ fresh_service _ _ planned.1 fresh_service_inv Hp (serve_runs false _ _ H1)) as Hinv.
  exact (refuse_work_inv _ _ _ _ _ planned.1 _ _ abandoned.1 Hinv (serve_runs false _ _ H2)).
Qed.

Lemma rejoined_ran : ran false (register_node (sample_node "planner" HEAVY_LINUX ["plan"] 5)) abandoned = true.
Proof. vm_compute. reflexivity. Qed.
Lemma resubmitted_ran : ran false (submit_work (sample_proposal "w1" ["plan"]) (flit 500 0) t60) rejoined = true.
Proof. vm_compute. reflexivity. Qed.

Lemma rejoined_history : exists tr1 tr2, history false abandoned.1
  [(CRegister (sample_node "planner" HEAVY_LINUX ["plan"] 5), tr1);
   (CSubmit (sample_proposal "w1" ["plan"]) (flit 500 0) t60, tr2)] resubmitted.1.
Proof.
  do 2 eexists. apply (history_cons _ _ _ _ rejoined.1); [vm_compute; reflexivity|..].
  - exact (ex_intro (fun o => runs (register_node (sample_node "planner" HEAVY_LINUX ["plan"] 5)) abandoned.1 _ o rejoined.1)
      _ (serve_runs false _ _ rejoined_ran)).
  - refine (one_call _ (CSubmit (sample_proposal "w1" ["plan"]) (flit 500 0) t60) _ _ _ _ _); [vm_compute; reflexivity|].
    exact (ex_intro (fun o => runs (submit_work (sample_proposal "w1" ["plan"]) (flit 500 0) t60) rejoined.1 _ o resubmitted.1)
      _ (serve_runs false _ _ resubmitted_ran)).
Qed.

Lemma orphaned_work_is_stuck_witness : orphaned "w1" abandoned.1 /\ orphaned "w1" resubmitted.1.
Proof.
  assert (orphaned "w1" abandoned.1) as Ho.
  { split; [apply (bool_decide_unpack _); vm_compute; exact I|vm_compute; reflexivity]. }
  split; [exact Ho|]. destruct rejoined_history as (tr1 & tr2 & Hh).
  exact (proj1 (orphaned_work_is_stuck false "w1" abandoned.1 _ resubmitted.1 Hh abandoned_inv Ho)).
Defined.

(** ** Two findings *)

(** Both works on [eyes]: one that only it can do, one that [ears] can do too; both accepted. *)
Definition both_accepted : service * nat :=
  let s1 := after false (submit_work (sample_proposal "w1" ["plan"]) t100 t60) (fresh_service, 0) in
  let s2 := after false (submit_work (sample_proposal "w2" ["vision"]) t100 t60) s1 in
  let s3 := after false (accept_work "w1" "eyes") s2 in after false (accept_work "w2" "eyes") s3.

(** The node [eyes] is quarantined and recovery runs. *)
Definition lost_eyes : service * nat :=
  (set_work (set_availability "eyes" QUARANTINED (sv_work both_accepted.1)).2 both_accepted.1, both_accepted.2).
Definition recovery := recover_work (flit 110 0) t60 t60.
Definition recovered : service * nat := after false recovery lost_eyes.

Definition holder (w : string) (s : service) : option string := wl_node_id <$> w_leases (sv_work s) !! w.

(** Recovery of two works from one failed node goes wrong when one of them cannot be
    placed.  The unplaced work cannot be told from the other by the failed node's id alone,
    so recovery raises without reporting any event; the first work is left without a lease
    for good, and the second, which moved to a node that never accepted it, still counts as
    accepted, so that this node completes it without an acceptance. *)
Theorem recovery_of_two_works_goes_wrong :
  (holder "w1" lost_eyes.1 = Some "eyes" /\ holder "w2" lost_eyes.1 = Some "eyes") /\
  (serve false recovery lost_eyes).1 = (raise RuntimeError "could not identify degraded recovery work", []) /\
  orphaned "w1" recovered.1 /\ holder "w2" recovered.1 = Some "ears" /\
  match (serve false (complete_work true (sample_result "w2" "ears" false)) recovered).1.1 with
  | Ok out => so_state out = "completed" | Err _ => False end.
Proof.
  split_and!; try (vm_compute; reflexivity).
  split; [apply (bool_decide_unpack _); vm_compute; exact I|vm_compute; reflexivity].
Qed.

(** The Queen cannot be reached when [eyes] completes; [eyes] is then lost, the work moves
    to [ears], which accepts and completes it. *)
Definition unreported : service * nat :=
  after true (complete_work true (sample_result "w1" "eyes" true)) (accepted_once.1, 0).
Definition moved : service * nat :=
  after true recovery (set_work (set_availability "eyes" OFFLINE (sv_work unreported.1)).2 unreported.1, unreported.2).
Definition accepted_again : service * nat := after true (accept_work "w1" "ears") moved.

(** A completion that failed half-way blocks the work for every later node.  When the
    Queen's sink fails, the completion's result is kept for a retry; if the node is then
    lost, the work moves and is accepted anew, but the new holder's completion is refused
    because it is not the lost node's result. *)
Theorem pending_completion_blocks_new_holder :
  is_ok (serve true (complete_work true (sample_result "w1" "eyes" true)) (accepted_once.1, 0)).1.1 = false /\
  holder "w1" accepted_again.1 = Some "ears" /\ bool_decide ("w1" ∈ sv_accepted accepted_again.1) = true /\
  forall important status,
    (serve false (complete_work true
       (mkWorkResult "w1" "ears" status "done" [] important false false false "none")) accepted_again).1.1
    = raise ValueError "completion retry must use the same result".
Proof.
  split_and!; try (vm_compute; reflexivity).
Qed.
