(* ===== verification/BodyCapacity.v ===== *)
(** [services/body_capacity.py] and the resource service of
    [services/body_resource_transport.py]: which resources the nodes of a body advertise.

    The registry asks its clock and its verification provider, which are operations of the
    environment: they answer with any value or raise. *)

From stdpp Require Import base gmap sets list strings sorting.
From Stdlib Require Import ZArith Ascii SpecFloat.
From S2P Require Import Prelude PyText PyVal Json PyFloat StrDict Effects StateProg.

(** ** Data *)

Inductive ResourceKind : Set := MEMORY | STORAGE | COMPUTE | ACCELERATOR.
Inductive ResourceScope : Set := LOCAL | ATTACHED | BODY_SHARED.

#[export] Instance ResourceKind_eq_dec : EqDecision ResourceKind.
Proof. solve_decision. Defined.
#[export] Instance ResourceScope_eq_dec : EqDecision ResourceScope.
Proof. solve_decision. Defined.

Definition kind_value (k : ResourceKind) : string :=
  match k with MEMORY => "memory" | STORAGE => "storage" | COMPUTE => "compute"
             | ACCELERATOR => "accelerator" end.

(** [_require_text], [_require_text_tuple] of this module. *)
Definition required_text (name value : string) : outcome unit :=
  if is_blank value then raise ValueError (name +:+ " is required") else Ok tt.

Definition required_texts (name : string) (values : list string) : outcome unit :=
  if existsb is_blank values then raise ValueError (name +:+ " cannot contain blank values") else Ok tt.

Record ResourceAdvertisement := mkResource {
  ra_resource_id : string;
  ra_kind : ResourceKind;
  ra_scope : ResourceScope;
  ra_capacity : float;
  ra_available : float;
  ra_unit : string;
  ra_capabilities : list string;
  ra_online : bool;
  ra_authority : string
}.

(** [ResourceAdvertisement.__post_init__] *)
Definition make_resource (r : ResourceAdvertisement) : outcome ResourceAdvertisement :=
  let? _ := required_text "resource_id" (ra_resource_id r) in
  if negb (ffinite (ra_capacity r)) then raise ValueError "capacity must be finite" else
  if negb (ffinite (ra_available r)) then raise ValueError "available must be finite" else
  if fle (ra_capacity r) f0 then raise ValueError "capacity must be positive" else
  if negb (fle f0 (ra_available r) && fle (ra_available r) (ra_capacity r))
  then raise ValueError "available must fit inside capacity" else
  let? _ := required_text "unit" (ra_unit r) in
  let? _ := required_texts "capabilities" (ra_capabilities r) in
  if bool_decide (ra_authority r <> "none")
  then raise ValueError "resource advertisements cannot carry authority" else Ok r.

Record NodeResourceAdvertisement := mkNodeResources {
  na_node_id : string;
  na_body_id : string;
  na_observed_at : float;
  na_resources : list ResourceAdvertisement;
  na_body_verified : bool;
  na_continuity_verified : bool;
  na_authority : string;
  na_boot_id : string
}.

(** [NodeResourceAdvertisement.__post_init__] *)
Definition make_node_resources (a : NodeResourceAdvertisement) : outcome NodeResourceAdvertisement :=
  let? _ := required_text "node_id" (na_node_id a) in
  let? _ := required_text "body_id" (na_body_id a) in
  if negb (ffinite (na_observed_at a)) || flt (na_observed_at a) f0
  then raise ValueError "observed_at cannot be negative" else
  if negb (bool_decide (NoDup (ra_resource_id <$> na_resources a)))
  then raise ValueError "resource ids must be unique per node" else
  if bool_decide (na_authority a <> "none")
  then raise ValueError "node resource advertisements cannot carry authority" else Ok a.

Record ResourceRequirement := mkResourceRequirement {
  rr_kind : ResourceKind;
  rr_minimum_available : float;
  rr_unit : string;
  rr_accepted_scopes : list ResourceScope;
  rr_required_capabilities : list string
}.

(** [ResourceRequirement.__post_init__] *)
Definition make_resource_requirement (r : ResourceRequirement) : outcome ResourceRequirement :=
  if negb (ffinite (rr_minimum_available r)) || flt (rr_minimum_available r) f0
  then raise ValueError "minimum_available must be finite and non-negative" else
  let? _ := required_text "unit" (rr_unit r) in
  if bool_decide (rr_accepted_scopes r = [])
  then raise ValueError "at least one accepted resource scope is required" else
  let? _ := required_texts "required_capabilities" (rr_required_capabilities r) in Ok r.

Record BodyCapacityTotal := mkTotal {
  bt_kind : ResourceKind;
  bt_unit : string;
  bt_capacity : float;
  bt_available : float;
  bt_resource_count : nat
}.

Record BodyCapacitySnapshot := mkSnapshot {
  bs_body_id : string;
  bs_node_ids : list string;
  bs_totals : list BodyCapacityTotal;
  bs_resource_count : nat;
  bs_canonical : bool;
  bs_authority : string
}.

(** [BodyCapacitySnapshot.__post_init__] *)
Definition make_snapshot (s : BodyCapacitySnapshot) : outcome BodyCapacitySnapshot :=
  let? _ := required_text "body_id" (bs_body_id s) in
  if bs_canonical s then raise ValueError "capacity snapshots are observational, not canonical" else
  if bool_decide (bs_authority s <> "none")
  then raise ValueError "capacity snapshots cannot carry authority" else Ok s.

Record ResourceRegistrationDecision := mkResourceRegistration {
  rg_accepted : bool; rg_state : string; rg_node_id : string; rg_reasons : list string }.

(** ** Requirements *)

(** The test of a resource against a requirement, up to its free capacity. *)
Definition resource_fits (r : ResourceAdvertisement) (q : ResourceRequirement) : bool :=
  ra_online r && bool_decide (ra_kind r = rr_kind q) && bool_decide (ra_scope r ∈ rr_accepted_scopes q)
  && bool_decide (strip (ra_unit r) = strip (rr_unit q))
  && forallb (fun c => bool_decide (c ∈ ra_capabilities r)) (rr_required_capabilities q).

(** [_requirement_met] *)
Definition requirement_met (resources : list ResourceAdvertisement) (q : ResourceRequirement) : bool :=
  existsb (fun r => resource_fits r q && fle (rr_minimum_available q) (ra_available r)) resources.

(** ** The registry *)

(** What [NodeResourceRegistry.__init__] fixes: the body, whether a verification provider is
    installed, and the age limit. *)
Record registry_config := mkRegistryConfig {
  rc_body_id : string; rc_provider : bool; rc_max_age_seconds : float }.

Definition new_resource_registry (body_id : string) (provider : bool) (max_age : float)
    : outcome registry_config :=
  let? _ := required_text "body_id" body_id in
  if negb (ffinite max_age) || fle max_age f0
  then raise ValueError "max_age_seconds must be finite and positive"
  else Ok (mkRegistryConfig (text body_id) provider max_age).

(** The clock and the verification provider. *)
Inductive rop : Type -> Type :=
| OpClock : rop float
| OpVerify (a : NodeResourceAdvertisement) : rop pyval.

Inductive revent : Type :=
| EClock (o : outcome float)
| EVerify (a : NodeResourceAdvertisement) (o : outcome pyval).

Definition rlog (X : Type) (op : rop X) : outcome X -> revent :=
  match op in rop X return outcome X -> revent with
  | OpClock => EClock
  | OpVerify a => EVerify a
  end.

(** [_nodes] *)
Abbreviation advertised := (sdict NodeResourceAdvertisement).
Abbreviation reg := (stprog rop advertised).

(** [str(uuid.UUID(s)) == s]: lower-case hexadecimal in groups of 8, 4, 4, 4 and 12. *)
Definition hex_char (c : ascii) : bool :=
  let n := nat_of_ascii c in ((48 <=? n) && (n <=? 57)) || ((97 <=? n) && (n <=? 102)).

Fixpoint uuid_shape (n : nat) (groups : list nat) (s : string) : bool :=
  match n, groups, s with
  | S n, _, String c s => hex_char c && uuid_shape n groups s
  | O, g :: groups, String c s => bool_decide (c = "-"%char) && uuid_shape g groups s
  | O, [], "" => true
  | _, _, _ => false
  end.

Definition canonical_uuid (s : string) : bool := uuid_shape 8 [4; 4; 4; 12] s.

Section Registry.
Context (config : registry_config).

(** [_proof_is_current]; a boot id that is no UUID raises [ValueError], which is caught. *)
Definition proof_is_current (a : NodeResourceAdvertisement) : reg bool :=
  catching
    (let^ now := perform OpClock in
     let age := fsub now (na_observed_at a) in
     if negb (ffinite age) || negb (fle f0 age && flt age (rc_max_age_seconds config))
     then finish (Ok false) else
     if negb (canonical_uuid (na_boot_id a)) then finish (Ok false) else
     if negb (rc_provider config) then finish (Ok false) else
     let^ proof := perform (OpVerify a) in
     finish (Ok (is_true_obj proof)))
    (fun _ => finish (Ok false)).

(** [remove] *)
Definition resources_remove (node_id : string) : reg (option NodeResourceAdvertisement) :=
  let^ item := reads (fun d => d_get d (text node_id)) in
  let^ _ := modify (fun d => d_del d (text node_id)) in
  finish (Ok item).

(** [get] *)
Definition resources_get (node_id : string) : reg (option NodeResourceAdvertisement) :=
  let^ item := reads (fun d => d_get d (text node_id)) in
  match item with
  | None => finish (Ok None)
  | Some a =>
      let^ current := proof_is_current a in
      if current then finish (Ok (Some a)) else
      let^ _ := modify (fun d => d_del d (text node_id)) in finish (Ok None)
  end.

(** The registration of an advertisement whose proof is current. *)
Definition store_newest (node_id : string) (a : NodeResourceAdvertisement) (d : advertised) : advertised :=
  match d_get d node_id with
  | Some current => if fle (na_observed_at current) (na_observed_at a) then d_set d node_id a else d
  | None => d_set d node_id a
  end.

(** [register] *)
Definition resources_register (a : NodeResourceAdvertisement) : reg ResourceRegistrationDecision :=
  let node_id := text (na_node_id a) in
  let^ current := proof_is_current a in
  let reasons :=
    (if bool_decide (text (na_body_id a) <> rc_body_id config) then ["body-binding-mismatch"] else [])
    ++ (if negb current then ["node-body-boot-proof-unavailable-or-stale"] else []) in
  match reasons with
  | _ :: _ =>
      let^ _ := resources_remove node_id in
      finish (Ok (mkResourceRegistration false "rejected" node_id reasons))
  | [] =>
      let^ _ := modify (store_newest node_id a) in
      finish (Ok (mkResourceRegistration true "registered" node_id ["verified-body-resources"]))
  end.

(** The loop of [snapshot] over the entries it started with. *)
Fixpoint drop_unproved (entries : advertised) : reg unit :=
  match entries with
  | [] => finish (Ok tt)
  | (key, a) :: rest =>
      let^ current := proof_is_current a in
      let^ _ := (if current then finish (Ok tt) else modify (fun d => d_del d key)) in
      drop_unproved rest
  end.

(** [snapshot] *)
Definition resources_snapshot : reg (list NodeResourceAdvertisement) :=
  let^ entries := reads (fun d => d) in
  let^ _ := drop_unproved entries in
  reads d_sorted.

(** *** Totals *)

(** [sum] of floats, started at the integer 0: from Python 3.12 on it is [compensated], before
    it adds up from the left. *)
Definition sum_step (acc : float * float) (x : float) : float * float :=
  let '(total, c) := acc in
  let t := fadd total x in
  (t, fadd c (if fle (SFabs x) (SFabs total) then fadd (fsub total t) x else fadd (fsub x t) total)).

Definition py_sum (compensated : bool) (xs : list float) : float :=
  match xs with
  | [] => f0
  | x :: xs =>
      if compensated then
        let '(total, c) := fold_left sum_step xs (fadd f0 x, f0) in
        if negb (feq c f0) && ffinite c then fadd total c else total
      else fold_left fadd xs (fadd f0 x)
  end.

(** The keys of [buckets], [(kind, unit)], and their order. *)
Definition bucket_of (r : ResourceAdvertisement) : ResourceKind * string := (ra_kind r, strip (ra_unit r)).

Definition bucket_lt (a b : ResourceKind * string) : bool :=
  if bool_decide (kind_value a.1 = kind_value b.1) then str_lt a.2 b.2
  else str_lt (kind_value a.1) (kind_value b.1).

Definition online_resources (ads : list NodeResourceAdvertisement) : list ResourceAdvertisement :=
  filter (fun r => ra_online r = true) (concat (na_resources <$> ads)).

Definition bucket_total (compensated : bool) (rs : list ResourceAdvertisement) (key : ResourceKind * string)
    : BodyCapacityTotal :=
  let members := filter (fun r => bucket_of r = key) rs in
  mkTotal key.1 key.2 (py_sum compensated (ra_capacity <$> members))
    (py_sum compensated (ra_available <$> members)) (length members).

(** [capacity_snapshot] *)
Definition capacity_snapshot (compensated : bool) : reg BodyCapacitySnapshot :=
  let^ ads := resources_snapshot in
  let rs := online_resources ads in
  let totals := bucket_total compensated rs <$> py_sorted bucket_lt (remove_dups (bucket_of <$> rs)) in
  finish (make_snapshot (mkSnapshot (rc_body_id config)
    (py_sorted str_lt ((fun a => text (na_node_id a)) <$> ads)) totals
    (foldr Nat.add 0 (bt_resource_count <$> totals)) false "none")).

(** ** [BodyResourceService] *)

Definition MAX_RESOURCES_PER_NODE : nat := 64.

Record heartbeat_limits := mkLimits { hl_max_age_seconds : float; hl_max_future_skew_seconds : float }.

Definition new_resource_service (max_age skew : float) : outcome heartbeat_limits :=
  if fle max_age f0 then raise ValueError "max_age_seconds must be positive" else
  if fle skew f0 then raise ValueError "max_future_skew_seconds must be positive"
  else Ok (mkLimits max_age skew).

Record ResourceHeartbeatResult := mkHeartbeat {
  hb_decision : ResourceRegistrationDecision;
  hb_capacity : BodyCapacitySnapshot;
  hb_observed_at : float;
  hb_authority : string
}.

(** [ResourceHeartbeatResult.__post_init__] *)
Definition make_heartbeat (h : ResourceHeartbeatResult) : outcome ResourceHeartbeatResult :=
  if flt (hb_observed_at h) f0 then raise ValueError "observed_at cannot be negative" else
  if bool_decide (hb_authority h <> "none")
  then raise ValueError "resource heartbeat results cannot carry authority" else Ok h.

(** [_validate_now] *)
Definition validate_now (now : float) : outcome unit :=
  if flt now f0 then raise ValueError "now must be a non-negative number" else Ok tt.

Context (limits : heartbeat_limits).

(** The loop of [prune] over the snapshot. *)
Fixpoint remove_stale (now : float) (ads : list NodeResourceAdvertisement) : reg (list string) :=
  match ads with
  | [] => finish (Ok [])
  | a :: rest =>
      if fle (hl_max_age_seconds limits) (fsub now (na_observed_at a)) then
        let^ gone := resources_remove (na_node_id a) in
        let^ removed := remove_stale now rest in
        finish (Ok (match gone with Some _ => na_node_id a :: removed | None => removed end))
      else remove_stale now rest
  end.

(** [prune] *)
Definition service_prune (now : float) : reg (list string) :=
  let^ _ := finish (validate_now now) in
  let^ ads := resources_snapshot in
  let^ removed := remove_stale now ads in
  finish (Ok (py_sorted str_lt removed)).

(** [BodyResourceService.register] *)
Definition service_register (compensated : bool) (a : NodeResourceAdvertisement) (now : float)
    : reg ResourceHeartbeatResult :=
  let^ _ := finish (validate_now now) in
  if (MAX_RESOURCES_PER_NODE <? length (na_resources a))%nat
  then failing ValueError "resource advertisement exceeds per-node resource bound" else
  let age := fsub now (na_observed_at a) in
  if flt age (fneg (hl_max_future_skew_seconds limits))
  then failing ValueError "resource advertisement timestamp is too far in the future" else
  if fle (hl_max_age_seconds limits) age
  then failing ValueError "resource advertisement is already stale" else
  let^ _ := service_prune now in
  let^ decision := resources_register a in
  let^ capacity := capacity_snapshot compensated in
  finish (make_heartbeat (mkHeartbeat decision capacity (na_observed_at a) "none")).

(** [BodyResourceService.capacity_snapshot] *)
Definition service_capacity (compensated : bool) (now : float) : reg BodyCapacitySnapshot :=
  let^ _ := finish (validate_now now) in
  let^ _ := service_prune now in
  capacity_snapshot compensated.

End Registry.
