(* ===== verification/ResourceReservations.v ===== *)
(** [services/resource_reservations.py]: the ledger that charges the observed capacity of a
    node for the work leased to it.

    The table keeps its insertion order, which is the order in which commitments are added
    up.  Every method runs under the ledger's lock, so it is one step. *)

From stdpp Require Import base gmap sets list strings sorting.
From Stdlib Require Import ZArith Ascii SpecFloat.
From S2P Require Import Prelude PyText PyVal Json PyFloat StrDict BodyCapacity.

(** ** Data *)

Record ResourceReservationItem := mkReservationItem {
  ri_resource_id : string;
  ri_kind : ResourceKind;
  ri_scope : ResourceScope;
  ri_amount : float;
  ri_unit : string;
  ri_required_capabilities : list string;
  ri_authority : string
}.

(** [ResourceReservationItem.__post_init__] *)
Definition make_reservation_item (i : ResourceReservationItem) : outcome ResourceReservationItem :=
  let? _ := required_text "resource_id" (ri_resource_id i) in
  if negb (ffinite (ri_amount i)) || flt (ri_amount i) f0
  then raise ValueError "amount must be finite and non-negative" else
  let? _ := required_text "unit" (ri_unit i) in
  let? _ := required_texts "required_capabilities" (ri_required_capabilities i) in
  if bool_decide (ri_authority i <> "none")
  then raise ValueError "reservation items cannot carry authority" else Ok i.

Record ResourceReservation := mkReservation {
  rv_work_id : string;
  rv_lease_id : string;
  rv_node_id : string;
  rv_expires_at : float;
  rv_items : list ResourceReservationItem;
  rv_canonical : bool;
  rv_authority : string
}.

(** [ResourceReservation.__post_init__] *)
Definition make_reservation (r : ResourceReservation) : outcome ResourceReservation :=
  let? _ := required_text "work_id" (rv_work_id r) in
  let? _ := required_text "lease_id" (rv_lease_id r) in
  let? _ := required_text "node_id" (rv_node_id r) in
  if negb (ffinite (rv_expires_at r)) || fle (rv_expires_at r) f0
  then raise ValueError "expires_at must be finite and positive" else
  if bool_decide (rv_items r = []) then raise ValueError "reservation must contain at least one item" else
  if rv_canonical r then raise ValueError "resource reservations are not canonical memory" else
  if bool_decide (rv_authority r <> "none")
  then raise ValueError "resource reservations cannot carry authority" else Ok r.

(** [_text] of this module, which keeps the case. *)
Definition plain_text (s : string) : string := join " " (split (strip s)).

(** [_by_work] *)
Abbreviation reservations := (sdict ResourceReservation).

(** ** Commitments *)

Definition item_amounts (resource : string) (r : ResourceReservation) : list float :=
  ri_amount <$> filter (fun i => ri_resource_id i = resource) (rv_items r).

(** The amounts [reserved_amount] adds up, in the order of the table. *)
Definition charged_amounts (node resource : string) (excluded : option string) (d : reservations) : list float :=
  concat ((fun wr => item_amounts resource wr.2)
    <$> filter (fun wr => excluded <> Some wr.1 /\ rv_node_id wr.2 = node) d).

(** [reserved_amount] *)
Definition reserved_amount (node_id resource_id : string) (exclude_work_id : option string)
    (d : reservations) : float :=
  fold_left fadd (charged_amounts (text node_id) (plain_text resource_id) (text <$> exclude_work_id) d) f0.

(** ** Reservation *)

(** [committed] and [effective], with the amounts staged for the same work. *)
Definition committed (node : string) (d : reservations) (staged : gmap string float) (r : ResourceAdvertisement)
    : float :=
  fadd (reserved_amount node (ra_resource_id r) None d) (default f0 (staged !! ra_resource_id r)).

Definition effective (node : string) (d : reservations) (staged : gmap string float) (r : ResourceAdvertisement)
    : float :=
  fmax f0 (fsub (ra_available r) (committed node d staged r)).

(** [_choose_resource_locked] *)
Definition choose_resource (node : string) (d : reservations) (resources : list ResourceAdvertisement)
    (q : ResourceRequirement) (staged : gmap string float) : option ResourceAdvertisement :=
  head (filter (fun r => (resource_fits r q && fle (rr_minimum_available q) (effective node d staged r)) = true)
          resources).

Definition unavailable_message (node : string) (q : ResourceRequirement) : string :=
  "node " +:+ node +:+ " cannot reserve " +:+ kind_value (rr_kind q) +:+ " "
  +:+ fixed 3 (rr_minimum_available q) +:+ " " +:+ rr_unit q.

(** The loop of [reserve] over the requirements. *)
Fixpoint stage (node : string) (d : reservations) (resources : list ResourceAdvertisement)
    (values : list ResourceRequirement) (staged : gmap string float) : outcome (list ResourceReservationItem) :=
  match values with
  | [] => Ok []
  | q :: rest =>
      match choose_resource node d resources q staged with
      | None => raise ReservationUnavailable (unavailable_message node q)
      | Some r =>
          let amount := rr_minimum_available q in
          let staged := <[ra_resource_id r := fadd (default f0 (staged !! ra_resource_id r)) amount]> staged in
          let? item := make_reservation_item (mkReservationItem (ra_resource_id r) (ra_kind r) (ra_scope r)
                         amount (ra_unit r) (rr_required_capabilities q) "none") in
          let? items := stage node d resources rest staged in
          Ok (item :: items)
      end
  end.

(** [sorted(resources, key=lambda item: item.resource_id)] *)
Definition by_resource_id (rs : list ResourceAdvertisement) : list ResourceAdvertisement :=
  py_sorted (fun a b => str_lt (ra_resource_id a) (ra_resource_id b)) rs.

(** [reserve] *)
Definition reserve (work_id lease_id node_id : string) (expires_at : float)
    (advertisement : NodeResourceAdvertisement) (requirements : list ResourceRequirement) (d : reservations)
    : outcome ResourceReservation * reservations :=
  let work := text work_id in
  let lease := plain_text lease_id in
  let node := text node_id in
  if negb (is_nonempty work) || negb (is_nonempty lease) || negb (is_nonempty node)
  then (raise ValueError "work_id, lease_id, and node_id are required", d) else
  if bool_decide (text (na_node_id advertisement) <> node)
  then (raise ValueError "resource advertisement does not belong to lease node", d) else
  if bool_decide (requirements = [])
  then (raise ValueError "at least one resource requirement is required", d) else
  match d_get d work with
  | Some current =>
      if bool_decide (rv_lease_id current = lease) && bool_decide (rv_node_id current = node)
      then (Ok current, d)
      else (raise ValueError "work already owns a different resource reservation", d)
  | None =>
      match (let? items := stage node d (by_resource_id (na_resources advertisement)) requirements ∅ in
             make_reservation (mkReservation work lease node expires_at items false "none")) with
      | Ok reservation => (Ok reservation, d_set d work reservation)
      | Err e => (Err e, d)
      end
  end.

(** [release], [get], [snapshot] *)
Definition reservation_release (work_id : string) (d : reservations) : option ResourceReservation * reservations :=
  (d_get d (text work_id), d_del d (text work_id)).
Definition reservation_get (work_id : string) (d : reservations) : option ResourceReservation :=
  d_get d (text work_id).
Definition reservation_snapshot (d : reservations) : list ResourceReservation := d_sorted d.

(** [prune] *)
Definition reservation_expired (now : float) (r : ResourceReservation) : bool := fle (rv_expires_at r) now.

Definition reservation_prune (now : float) (d : reservations) : outcome (list string) * reservations :=
  if flt now f0 then (raise ValueError "now must be a non-negative number", d) else
  (Ok (sorted_strings (fst <$> filter (fun wr => reservation_expired now wr.2 = true) d)),
   filter (fun wr => reservation_expired now wr.2 = false) d).
