(* ===== verification/ReservationTheorems.v ===== *)
(** The properties of the reservation ledger ([ResourceReservations.v]): what a reservation
    consists of, that a failed one changes nothing, and that whole amounts never add up to
    more than a node advertised. *)

From stdpp Require Import base gmap sets list strings sorting.
From Stdlib Require Import ZArith Ascii SpecFloat.
From S2P Require Import Prelude PyText PyVal Json PyFloat PyWhole StrDict BodyCapacity ResourceReservations.

(** ** The staged items *)

(** An item charges a resource of the advertisement that meets the requirement. *)
Definition item_for (resources : list ResourceAdvertisement) (q : ResourceRequirement)
    (i : ResourceReservationItem) : Prop :=
  exists r, r ∈ resources /\ resource_fits r q = true /\
    i = mkReservationItem (ra_resource_id r) (ra_kind r) (ra_scope r) (rr_minimum_available q) (ra_unit r)
          (rr_required_capabilities q) "none".

Lemma choose_resource_some node d rs q staged r : choose_resource node d rs q staged = Some r ->
  r ∈ rs /\ resource_fits r q = true /\ fle (rr_minimum_available q) (effective node d staged r) = true.
Proof.
  unfold choose_resource. intros H%head_Some_elem_of.
  apply list_elem_of_filter in H as [[H1 H2]%andb_true_iff H]. done.
Qed.

Lemma make_reservation_item_ok i j : make_reservation_item i = Ok j -> j = i.
Proof.
  unfold make_reservation_item. intros (? & _ & H)%outcome_bind_ok. case_match; [done|].
  apply outcome_bind_ok in H as (? & _ & H). apply outcome_bind_ok in H as (? & _ & H).
  case_match; [done|]. by injection H.
Qed.

(** One step of the loop. *)
Lemma stage_cons node d rs q qs staged items : stage node d rs (q :: qs) staged = Ok items ->
  exists r items', choose_resource node d rs q staged = Some r /\
    stage node d rs qs (<[ra_resource_id r := fadd (default f0 (staged !! ra_resource_id r))
                                                 (rr_minimum_available q)]> staged) = Ok items' /\
    items = mkReservationItem (ra_resource_id r) (ra_kind r) (ra_scope r) (rr_minimum_available q) (ra_unit r)
              (rr_required_capabilities q) "none" :: items'.
Proof.
  cbn [stage]. destruct (choose_resource node d rs q staged) as [r|]; [|done].
  intros (i & ->%make_reservation_item_ok & H)%outcome_bind_ok.
  apply outcome_bind_ok in H as (items' & H & [= <-]). by exists r, items'.
Qed.

Lemma stage_items node d rs qs staged items : stage node d rs qs staged = Ok items ->
  Forall2 (item_for rs) qs items.
Proof.
  revert staged items. induction qs as [|q qs IH]; intros staged items; [intros [= <-]; constructor|].
  intros (r & items' & (Hin & Hfit & _)%choose_resource_some & Hs & ->)%stage_cons.
  constructor; [by exists r|]. by apply (IH _ _ Hs).
Qed.

Lemma stage_error node d rs qs staged e : stage node d rs qs staged = Err e ->
  exn_class e = ReservationUnavailable \/ exn_class e = ValueError.
Proof.
  revert staged. induction qs as [|q qs IH]; intros staged; cbn [stage]; [done|].
  destruct (choose_resource node d rs q staged) as [r|]; [|intros [= <-]; by left].
  unfold make_reservation_item, required_text, required_texts.
  repeat case_match; cbn [outcome_bind]; try (intros [= <-]; by right).
  all: match goal with |- context [stage ?a ?b ?c ?d ?e] => destruct (stage a b c d e) eqn:Hs end; [done|].
  all: intros [= <-]; by apply (IH _ Hs).
Qed.

Lemma make_reservation_ok r r' : make_reservation r = Ok r' ->
  r' = r /\ ffinite (rv_expires_at r) = true /\ fle (rv_expires_at r) f0 = false.
Proof.
  unfold make_reservation. intros (? & _ & H)%outcome_bind_ok.
  apply outcome_bind_ok in H as (? & _ & H). apply outcome_bind_ok in H as (? & _ & H).
  destruct (ffinite _), (fle _ _); try done. repeat (case_match; [done|]). by injection H.
Qed.

Lemma by_resource_id_perm rs : by_resource_id rs ≡ₚ rs.
Proof. apply py_sorted_perm. Qed.

(** How [reserve] ends. *)
Inductive reserve_ends (work lease node : string) (expires_at : float) (a : NodeResourceAdvertisement)
    (reqs : list ResourceRequirement) (d : reservations)
    : outcome ResourceReservation * reservations -> Prop :=
| reserve_fails e : reserve_ends work lease node expires_at a reqs d (Err e, d)
| reserve_again current :
    d_get d work = Some current -> rv_lease_id current = lease -> rv_node_id current = node ->
    reserve_ends work lease node expires_at a reqs d (Ok current, d)
| reserve_new items :
    d_get d work = None -> text (na_node_id a) = node ->
    stage node d (by_resource_id (na_resources a)) reqs ∅ = Ok items ->
    ffinite expires_at = true -> fle expires_at f0 = false ->
    reserve_ends work lease node expires_at a reqs d
      (Ok (mkReservation work lease node expires_at items false "none"),
       d ++ [(work, mkReservation work lease node expires_at items false "none")]).

Lemma reserve_spec w l n expires_at a reqs d :
  reserve_ends (text w) (plain_text l) (text n) expires_at a reqs d (reserve w l n expires_at a reqs d).
Proof.
  unfold reserve. case_match; [constructor|]. case_bool_decide as Hn; [constructor|].
  case_bool_decide; [constructor|]. destruct (d_get d (text w)) as [c|] eqn:Hc.
  - case_match eqn:Hb; [|constructor]. apply andb_true_iff in Hb as [H1 H2].
    apply bool_decide_eq_true in H1, H2. by constructor.
  - destruct (stage _ _ _ _ _) as [items|e] eqn:Hs; [|constructor]. cbn [outcome_bind].
    destruct (make_reservation _) as [r|e] eqn:Hm; [|constructor].
    apply make_reservation_ok in Hm as (-> & H1 & H2). cbn in H1, H2.
    rewrite d_set_fresh by done. by apply reserve_new.
Qed.

(** A reservation is made whole or not at all.  When [reserve] raises, the ledger is as it
    was.  When it returns for a work without a reservation, exactly one entry is added, under
    the work's id, for that lease and node, with one item per requirement, in their order:
    the required amount of an online resource of the advertisement that has the required
    kind, unit, scope and capabilities.  For a work that already has one, it returns that
    reservation if lease and node agree, and the ledger is as it was. *)
Theorem reserve_is_atomic w l n expires_at a reqs d o d' :
  reserve w l n expires_at a reqs d = (o, d') ->
  match o with
  | Err _ => d' = d
  | Ok r =>
      rv_lease_id r = plain_text l /\ rv_node_id r = text n /\
      (d_get d (text w) = Some r /\ d' = d \/
       d_get d (text w) = None /\ d' = d ++ [(text w, r)] /\ rv_work_id r = text w /\
       rv_expires_at r = expires_at /\ ffinite expires_at = true /\
       Forall2 (item_for (na_resources a)) reqs (rv_items r))
  end.
Proof.
  intros Hr. pose proof (reserve_spec w l n expires_at a reqs d) as Hs. rewrite Hr in Hs.
  inversion Hs as [e|c Hc Hl Hn|items Hc Hn Hst Hf He]; subst; [done|split_and!; [done..|by left]|].
  cbn. split_and!; [done..|right]. split_and!; [done..|].
  eapply Forall2_impl; [apply (stage_items _ _ _ _ _ _ Hst)|].
  intros q i (r & Hin & Hfit & ->). exists r. split; [|done]. by rewrite <- by_resource_id_perm.
Qed.

(** ** Whole amounts *)

(** The value of a float that stands for an integer. *)
Definition whole_value (f : float) : Z :=
  match f with
  | S754_finite s m e =>
      let v := if (0 <=? e)%Z then (Zpos m * 2 ^ e)%Z else (Zpos m / 2 ^ (- e))%Z in
      if s then (- v)%Z else v
  | _ => 0%Z
  end.

Definition whole_amount (f : float) : Prop := exists z, (0 <= z < 2 ^ 53)%Z /\ f = float_of_Z z.

Lemma whole_value_of_Z z : (0 <= z < 2 ^ 53)%Z -> whole_value (float_of_Z z) = z.
Proof.
  intros Hz. destruct z as [|p|p]; [done| |lia]. assert (small (Zpos p)) as Hs by (unfold small; lia).
  rewrite float_of_pos by done. pose proof (small_digits p Hs) as Hd. unfold whole, whole_value.
  rewrite shifted_value, Z2Nat.id by lia. destruct (Z.leb_spec 0 (Zpos (digits2_pos p) - 53)).
  - replace (Zpos (digits2_pos p)) with 53%Z by lia. cbn. lia.
  - replace (- (Zpos (digits2_pos p) - 53))%Z with (53 - Zpos (digits2_pos p))%Z by lia.
    apply Z.div_mul. lia.
Qed.

Lemma whole_amount_value f : whole_amount f -> f = float_of_Z (whole_value f) /\ (0 <= whole_value f < 2 ^ 53)%Z.
Proof. intros (z & Hz & ->). by rewrite whole_value_of_Z. Qed.

Definition sum_of (l : list float) : Z := foldr Z.add 0%Z (whole_value <$> l).

Lemma sum_of_nonneg l : Forall whole_amount l -> (0 <= sum_of l)%Z.
Proof.
  induction 1 as [|f l Hf _ IH]; [done|]. destruct (whole_amount_value f Hf) as [_ ?].
  change (sum_of (f :: l)) with (whole_value f + sum_of l)%Z. lia.
Qed.

Lemma sum_of_app l1 l2 : sum_of (l1 ++ l2) = (sum_of l1 + sum_of l2)%Z.
Proof. unfold sum_of. rewrite fmap_app. induction (whole_value <$> l1) as [|z zs IH]; cbn; lia. Qed.

(** Adding up whole amounts from the left is exact. *)
Lemma fold_fadd_whole l acc : Forall whole_amount l -> (0 <= acc)%Z -> (acc + sum_of l < 2 ^ 53)%Z ->
  fold_left fadd l (float_of_Z acc) = float_of_Z (acc + sum_of l).
Proof.
  intros Hl. revert acc. induction Hl as [|f l Hf Hl IH]; intros acc Hacc Hlt; [by rewrite Z.add_0_r|].
  change (sum_of (f :: l)) with (whole_value f + sum_of l)%Z in *. cbn [fold_left].
  pose proof (sum_of_nonneg l Hl). destruct (whole_amount_value f Hf) as [Hv ?]. rewrite Hv at 1.
  rewrite fadd_whole by (unfold small; lia). rewrite IH by lia. f_equal. lia.
Qed.

(** ** What is charged *)

(** The amounts charged for a resource of a node, as integers. *)
Definition charge (node resource : string) (d : reservations) : Z :=
  sum_of (charged_amounts node resource None d).

Definition items_amounts (resource : string) (items : list ResourceReservationItem) : list float :=
  ri_amount <$> filter (fun i => ri_resource_id i = resource) items.

Lemma charged_amounts_snoc node resource d k r :
  charged_amounts node resource None (d ++ [(k, r)]) =
  charged_amounts node resource None d
  ++ (if bool_decide (rv_node_id r = node) then items_amounts resource (rv_items r) else []).
Proof.
  unfold charged_amounts. rewrite filter_app, fmap_app, concat_app. f_equal.
  case_bool_decide; [rewrite filter_cons_True by done|rewrite filter_cons_False by (cbn; naive_solver)]; cbn;
    [apply app_nil_r|done].
Qed.

(** Every amount is whole, and no resource is charged 2^53 or more. *)
Record whole_ledger (d : reservations) : Prop := {
  wl_amounts : forall k r i, (k, r) ∈ d -> i ∈ rv_items r -> whole_amount (ri_amount i);
  wl_charge : forall node resource, (charge node resource d < 2 ^ 53)%Z
}.

Lemma charged_amounts_whole node resource d : whole_ledger d ->
  Forall whole_amount (charged_amounts node resource None d).
Proof.
  intros H. unfold charged_amounts. apply Forall_concat, Forall_fmap, Forall_forall.
  intros [k r] [_ Hin]%list_elem_of_filter. cbn. apply Forall_fmap, Forall_forall.
  intros i [_ Hi]%list_elem_of_filter. by apply (wl_amounts d H k r).
Qed.

Lemma reserved_amount_whole node resource d : whole_ledger d -> plain_text resource = resource ->
  text node = node -> reserved_amount node resource None d = float_of_Z (charge node resource d).
Proof.
  intros H Hr Hn. unfold reserved_amount. rewrite Hr, Hn. cbn [option_map fmap option_fmap].
  change f0 with (float_of_Z 0). apply (fold_fadd_whole _ 0); [by apply charged_amounts_whole|done|].
  apply (wl_charge d H).
Qed.

Definition staged_amount (staged : gmap string float) (resource : string) : float := default f0 (staged !! resource).

Definition whole_resource (r : ResourceAdvertisement) : Prop :=
  plain_text (ra_resource_id r) = ra_resource_id r /\ whole_amount (ra_available r).

Lemma whole_zero : whole_amount f0.
Proof. by exists 0%Z. Qed.

(** The guard of a choice, in integers: a positive amount fits into what is left. *)
Lemma choose_resource_within node d rs q staged r :
  whole_ledger d -> text node = node -> whole_resource r -> whole_amount (rr_minimum_available q) ->
  whole_amount (staged_amount staged (ra_resource_id r)) ->
  (charge node (ra_resource_id r) d + whole_value (staged_amount staged (ra_resource_id r)) < 2 ^ 53)%Z ->
  choose_resource node d rs q staged = Some r ->
  let a := whole_value (rr_minimum_available q) in
  (a = 0 \/ charge node (ra_resource_id r) d + whole_value (staged_amount staged (ra_resource_id r)) + a
            <= whole_value (ra_available r))%Z.
Proof.
  intros Hd Hn [Hid Hav] Hq Hs Hlt (_ & _ & Hg)%choose_resource_some.
  destruct (whole_amount_value _ Hq) as [Hqv Hq0], (whole_amount_value _ Hav) as [Hav' Ha0].
  destruct (whole_amount_value _ Hs) as [Hsv Hs0].
  pose proof (sum_of_nonneg _ (charged_amounts_whole node (ra_resource_id r) d Hd)) as Hc.
  fold (charge node (ra_resource_id r) d) in Hc. unfold effective, committed in Hg.
  rewrite reserved_amount_whole in Hg by done. fold (staged_amount staged (ra_resource_id r)) in Hg.
  rewrite Hsv, fadd_whole in Hg by (unfold small; lia).
  rewrite Hqv, Hav', fsub_whole, fmax_whole, fle_whole in Hg by (unfold small; lia).
  apply Z.leb_le in Hg. cbn zeta. lia.
Qed.

(** What the loop of [reserve] commits. *)
Definition within (node : string) (d : reservations) (rs : list ResourceAdvertisement)
    (staged : gmap string float) (items : list ResourceReservationItem) (resource : string) : Prop :=
  sum_of (items_amounts resource items) = 0%Z \/
  exists r, r ∈ rs /\ ra_resource_id r = resource /\
    (charge node resource d + whole_value (staged_amount staged resource) + sum_of (items_amounts resource items)
     <= whole_value (ra_available r))%Z.

Lemma items_amounts_cons resource i items : items_amounts resource (i :: items) =
  if bool_decide (ri_resource_id i = resource) then ri_amount i :: items_amounts resource items
  else items_amounts resource items.
Proof.
  unfold items_amounts. case_bool_decide; [by rewrite filter_cons_True|by rewrite filter_cons_False].
Qed.

Lemma stage_within node d rs qs : whole_ledger d -> text node = node -> Forall whole_resource rs ->
  Forall (fun q => whole_amount (rr_minimum_available q)) qs ->
  forall staged items, (forall id, whole_amount (staged_amount staged id)) ->
  (forall id, charge node id d + whole_value (staged_amount staged id) < 2 ^ 53)%Z ->
  stage node d rs qs staged = Ok items ->
  Forall (fun i => whole_amount (ri_amount i)) items /\ forall id, within node d rs staged items id.
Proof.
  intros Hd Hn Hrs Hqs. rewrite Forall_forall in Hrs.
  induction Hqs as [|q qs Hq Hqs IH]; intros staged items Hst Hlt; [intros [= <-]; split; [constructor|by left]|].
  intros (r & items' & Hc & Hs & ->)%stage_cons.
  destruct (choose_resource_some _ _ _ _ _ _ Hc) as (Hin & _).
  pose proof (choose_resource_within node d rs q staged r Hd Hn (Hrs r Hin) Hq (Hst _) (Hlt _) Hc) as Hg.
  cbn zeta in Hg. fold (staged_amount staged (ra_resource_id r)) in Hs.
  destruct (whole_amount_value _ Hq) as [Hqv Hq0], (whole_amount_value _ (Hst (ra_resource_id r))) as [Hsv Hs0].
  destruct (whole_amount_value _ (proj2 (Hrs r Hin))) as [_ Hav].
  pose proof (Hlt (ra_resource_id r)) as Hltr.
  pose proof (sum_of_nonneg _ (charged_amounts_whole node (ra_resource_id r) d Hd)) as Hc0.
  fold (charge node (ra_resource_id r) d) in Hc0.
  set (sv := whole_value (staged_amount staged (ra_resource_id r))) in *.
  set (a := whole_value (rr_minimum_available q)) in *.
  assert (fadd (staged_amount staged (ra_resource_id r)) (rr_minimum_available q) = float_of_Z (sv + a)) as Hsum
    by (rewrite Hsv, Hqv; apply fadd_whole; unfold small; lia).
  set (staged' := <[_ := _]> staged) in Hs.
  assert (forall id, staged_amount staged' id = if bool_decide (id = ra_resource_id r) then float_of_Z (sv + a)
            else staged_amount staged id) as Hst'.
  { intros id. unfold staged_amount at 1, staged'. case_bool_decide as Hid.
    - subst id. by rewrite lookup_insert_eq.
    - by rewrite lookup_insert_ne. }
  destruct (IH staged' items') as [Hw Hin']; [| |exact Hs|].
  { intros id. rewrite Hst'. case_bool_decide; [|apply Hst]. exists (sv + a)%Z. split; [lia|done]. }
  { intros id. rewrite Hst'. case_bool_decide as Hid; [|apply Hlt]. subst id.
    rewrite whole_value_of_Z by lia. lia. }
  split; [by constructor|]. intros id. specialize (Hin' id). unfold within in *.
  rewrite items_amounts_cons. cbn [ri_resource_id ri_amount]. rewrite Hst' in Hin'.
  destruct (decide (id = ra_resource_id r)) as [Heq|Hne].
  - subst id. rewrite !bool_decide_true in * by done. rewrite whole_value_of_Z in Hin' by lia.
    change (sum_of (rr_minimum_available q :: ?l)) with (a + sum_of l)%Z.
    destruct Hin' as [H0|(r' & Hr' & Hid & Hle)].
    + rewrite H0. destruct Hg as [Hg|Hg]; [left; lia|right]. exists r. split_and!; [done..|lia].
    + right. exists r'. split_and!; [done..|].
      change (sum_of (rr_minimum_available q :: items_amounts (ra_resource_id r) items'))
        with (a + sum_of (items_amounts (ra_resource_id r) items'))%Z. lia.
  - by rewrite !bool_decide_false in * by congruence.
Qed.

(** ** Histories of the ledger *)

Inductive ledger_op :=
| LReserve (w l n : string) (expires_at : float) (a : NodeResourceAdvertisement) (reqs : list ResourceRequirement)
| LRelease (w : string)
| LPrune (now : float).

Definition ledger_step (d : reservations) (op : ledger_op) : reservations :=
  match op with
  | LReserve w l n e a reqs => (reserve w l n e a reqs d).2
  | LRelease w => (reservation_release w d).2
  | LPrune now => (reservation_prune now d).2
  end.

Definition ledger_run (ops : list ledger_op) (d : reservations) : reservations := fold_left ledger_step ops d.

(** The amounts a reservation deals with are whole, and resource ids have no stray spaces. *)
Definition whole_op (op : ledger_op) : Prop :=
  match op with
  | LReserve _ _ _ _ a reqs =>
      Forall whole_resource (na_resources a) /\ Forall (fun q => whole_amount (rr_minimum_available q)) reqs
  | _ => True
  end.

Lemma charge_snoc node resource d k r : charge node resource (d ++ [(k, r)]) =
  (charge node resource d
   + if bool_decide (rv_node_id r = node) then sum_of (items_amounts resource (rv_items r)) else 0)%Z.
Proof. unfold charge. rewrite charged_amounts_snoc, sum_of_app. by case_bool_decide. Qed.

(** Removing entries frees capacity. *)
Lemma charge_filter (P : string * ResourceReservation -> Prop) `{!forall kr, Decision (P kr)} node resource d :
  (forall k r i, (k, r) ∈ d -> i ∈ rv_items r -> whole_amount (ri_amount i)) ->
  (charge node resource (filter P d) <= charge node resource d)%Z.
Proof.
  induction d as [|[k r] d IH] using rev_ind; intros Hd; [done|].
  assert (0 <= sum_of (items_amounts resource (rv_items r)))%Z as Hr.
  { apply sum_of_nonneg, Forall_fmap, Forall_forall. intros i [_ Hi]%list_elem_of_filter.
    apply (Hd k r); [set_solver|done]. }
  rewrite charge_snoc, filter_app. specialize (IH (fun k' r' i H => Hd k' r' i (proj2 (elem_of_app _ _ _) (or_introl H)))).
  destruct (decide (P (k, r))); [rewrite filter_cons_True by done|rewrite filter_cons_False by done].
  - cbn [filter list_filter]. rewrite charge_snoc. lia.
  - cbn [filter list_filter]. rewrite app_nil_r. case_bool_decide; lia.
Qed.

Lemma whole_ledger_filter (P : string * ResourceReservation -> Prop) `{!forall kr, Decision (P kr)} d :
  whole_ledger d -> whole_ledger (filter P d).
Proof.
  intros [Ha Hc]. split.
  - intros k r i [_ Hin]%list_elem_of_filter. by apply (Ha k r i).
  - intros node resource. eapply Z.le_lt_trans; [by apply charge_filter|done].
Qed.

(** An item that charges anything shows in the sum. *)
Lemma item_in_sum i items : Forall (fun i => whole_amount (ri_amount i)) items -> i ∈ items ->
  (whole_value (ri_amount i) <= sum_of (items_amounts (ri_resource_id i) items))%Z.
Proof.
  induction 1 as [|j items Hj Hall IH]; [by intros ?%not_elem_of_nil|]. intros Hi.
  destruct (whole_amount_value _ Hj) as [_ Hj0].
  assert (0 <= sum_of (items_amounts (ri_resource_id i) items))%Z as H0.
  { apply sum_of_nonneg, Forall_fmap. apply Forall_forall. intros k [_ Hk]%list_elem_of_filter.
    rewrite Forall_forall in Hall. by apply Hall. }
  assert (forall f l, sum_of (f :: l) = whole_value f + sum_of l)%Z as Hcons by done.
  rewrite items_amounts_cons. apply elem_of_cons in Hi as [->|Hi].
  - rewrite bool_decide_true, Hcons by done. lia.
  - specialize (IH Hi). case_bool_decide; [rewrite Hcons; lia|done].
Qed.

Section ReserveWhole.
Context (n work : string) (a : NodeResourceAdvertisement) (reqs : list ResourceRequirement) (d : reservations).
Context (r : ResourceReservation).
Hypothesis Hd : whole_ledger d.
Hypothesis Hrs : Forall whole_resource (na_resources a).
Hypothesis Hqs : Forall (fun q => whole_amount (rr_minimum_available q)) reqs.
Hypothesis Hstage : stage (text n) d (by_resource_id (na_resources a)) reqs ∅ = Ok (rv_items r).
Hypothesis Hnode : rv_node_id r = text n.

Lemma reserved_items : Forall (fun i => whole_amount (ri_amount i)) (rv_items r) /\
  forall id, sum_of (items_amounts id (rv_items r)) = 0%Z \/ exists x, x ∈ na_resources a /\ ra_resource_id x = id /\
    (charge (text n) id (d ++ [(work, r)]) <= whole_value (ra_available x))%Z.
Proof using All.
  destruct (stage_within (text n) d (by_resource_id (na_resources a)) reqs Hd (text_idem n)) with (staged := (∅ : gmap string float)) (items := rv_items r)
    as [Hw Hin]; [by rewrite by_resource_id_perm|done|intros id; apply whole_zero| |exact Hstage|].
  { intros id. unfold staged_amount. rewrite lookup_empty. cbn. rewrite Z.add_0_r. apply (wl_charge d Hd). }
  split; [done|]. intros id. destruct (Hin id) as [H|(x & Hx & Hid & Hle)]; [by left|right].
  exists x. rewrite by_resource_id_perm in Hx. split_and!; [done..|].
  rewrite charge_snoc, bool_decide_true by done.
  unfold staged_amount in Hle. rewrite lookup_empty in Hle. cbn in Hle. lia.
Qed.

Lemma reserve_keeps_whole : whole_ledger (d ++ [(work, r)]).
Proof using All.
  destruct reserved_items as [Hw Hcharge]. rewrite Forall_forall in Hw. split.
  - intros k r' i [Hk|[= -> ->]%list_elem_of_singleton]%elem_of_app; [by apply (wl_amounts d Hd k r')|].
    apply Hw.
  - intros node id. pose proof (wl_charge d Hd node id) as Hlt.
    destruct (decide (node = text n)) as [->|Hne].
    + destruct (Hcharge id) as [H|(x & Hx & _ & Hle)].
      * rewrite charge_snoc, H. case_bool_decide; lia.
      * destruct (whole_amount_value _ (proj2 (proj1 (Forall_forall _ _) Hrs x Hx))). lia.
    + rewrite charge_snoc, bool_decide_false by congruence. lia.
Qed.

Lemma reserve_within i : i ∈ rv_items r -> ri_amount i <> f0 -> exists x, x ∈ na_resources a /\
  ra_resource_id x = ri_resource_id i /\
  fle (reserved_amount n (ri_resource_id i) None (d ++ [(work, r)])) (ra_available x) = true.
Proof using All.
  intros Hi Hnz. destruct reserved_items as [Hw Hcharge].
  destruct (Hcharge (ri_resource_id i)) as [H|(x & Hx & Hid & Hle)].
  - exfalso. pose proof (item_in_sum i _ Hw Hi) as Hle. rewrite Forall_forall in Hw.
    destruct (whole_amount_value _ (Hw i Hi)) as [Hv Hv0]. apply Hnz. rewrite Hv.
    by replace (whole_value (ri_amount i)) with 0%Z by lia.
  - exists x. split_and!; [done..|]. destruct (proj1 (Forall_forall _ _) Hrs x Hx) as [Hplain Hav].
    rewrite <- Hid in *. pose proof reserve_keeps_whole as Hd'.
    replace (reserved_amount n) with (reserved_amount (text n)) by (unfold reserved_amount; by rewrite text_idem).
    rewrite reserved_amount_whole by (done || apply text_idem).
    destruct (whole_amount_value _ Hav) as [Hv Hav0]. rewrite Hv.
    pose proof (sum_of_nonneg _ (charged_amounts_whole (text n) (ra_resource_id x) _ Hd')) as H0.
    fold (charge (text n) (ra_resource_id x) (d ++ [(work, r)])) in H0.
    rewrite fle_whole by (unfold small; lia). by apply Z.leb_le.
Qed.
End ReserveWhole.

Lemma whole_ledger_step d op : whole_ledger d -> whole_op op -> whole_ledger (ledger_step d op).
Proof.
  intros Hd Hop. destruct op as [w l n e a reqs|w|now]; cbn [ledger_step].
  - destruct Hop as [Hrs Hqs]. destruct (reserve_spec w l n e a reqs d); [done..|].
    by apply (reserve_keeps_whole n _ a reqs).
  - by apply whole_ledger_filter.
  - unfold reservation_prune. case_match; [done|]. by apply whole_ledger_filter.
Qed.

Lemma whole_ledger_run ops d : whole_ledger d -> Forall whole_op ops -> whole_ledger (ledger_run ops d).
Proof.
  intros Hd Hops. revert d Hd. induction Hops as [|op ops Hop _ IH]; intros d Hd; [done|].
  by apply IH, whole_ledger_step.
Qed.

Lemma whole_ledger_empty : whole_ledger [].
Proof. split; [by intros ? ? ? ?%not_elem_of_nil|done]. Qed.


(** ** On a small node *)

Definition sample_resource (id : string) (available : Z) : ResourceAdvertisement :=
  mkResource id MEMORY LOCAL (float_of_Z 16) (float_of_Z available) "gib" [] true "none".
Definition sample_resources (id : string) (available : Z) : NodeResourceAdvertisement :=
  mkNodeResources "Lyra One" "Body One" (float_of_Z 100) [sample_resource id available] true true "none"
    "01234567-89ab-cdef-0123-456789abcdef".
Definition sample_memory (amount : Z) : ResourceRequirement :=
  mkResourceRequirement MEMORY (float_of_Z amount) "gib" [LOCAL] [].

(** The reservation of [amount] for work [w]. *)
Definition reserve_sample (w id : string) (amount : Z) (d : reservations) : outcome ResourceReservation * reservations :=
  reserve w (w +:+ ":lyra one") "lyra one" (float_of_Z 160) (sample_resources id 8) [sample_memory amount] d.

Definition one_reserved : reservations := (reserve_sample "w1" "ram" 3 []).2.

Lemma reserve_is_atomic_witness :
  exists r, reserve_sample "w1" "ram" 3 [] = (Ok r, one_reserved) /\ rv_lease_id r = "w1:lyra one".
Proof.
  destruct (reserve_sample "w1" "ram" 3 []) as [[r|e] d'] eqn:Hr; [|vm_compute in Hr; discriminate Hr].
  exists r. split; [by unfold one_reserved; rewrite Hr|].
  exact (proj1 (reserve_is_atomic "w1" "w1:lyra one" "lyra one" (float_of_Z 160) (sample_resources "ram" 8)
    [sample_memory 3] [] (Ok r) d' Hr)).
Defined.

Lemma sample_whole id w l amount : plain_text id = id -> (0 <= amount < 2 ^ 53)%Z ->
  whole_op (LReserve w l "lyra one" (float_of_Z 160) (sample_resources id 8) [sample_memory amount]).
Proof.
  intros Hid Ha. split; apply Forall_singleton; [|by exists amount]. split; [done|]. by exists 8%Z.
Qed.


(** A stray space defeats the ledger.  [reserve] records the resource id as it was
    advertised, but [reserved_amount] looks for it with its spaces collapsed: on a node that
    advertises 8 units as "ram" two works cannot both reserve 5, on a node that advertises
    them as "ram " they can, and the reserved amount stays 0. *)
Theorem padded_resource_id_overcommits :
  let twice id := (reserve_sample "w2" id 5 (reserve_sample "w1" id 5 []).2) in
  make_resource (sample_resource "ram " 8) = Ok (sample_resource "ram " 8) /\
  is_ok (twice "ram").1 = false /\ length (twice "ram").2 = 1 /\
  is_ok (twice "ram ").1 = true /\ length (twice "ram ").2 = 2 /\
  reserved_amount "lyra one" "ram " None (twice "ram ").2 = f0.
Proof. vm_compute. by split_and!. Qed.
