(* ===== verification/ResourcePlacement.v ===== *)
(** The coordinator inside the resource bounds of the body: [ResourceAwareWorkCoordinator] of
    [services/body_capacity.py] and [LiveResourceAwareCoordinator] of
    [services/resource_aware_work_proposals.py].

    Both wrap the coordinator of [DistributedWork.v], the resource registry and the
    reservation ledger, which together make one state; the clock and the verification
    provider of the registry are the environment. *)

From stdpp Require Import base gmap sets list strings sorting.
From Stdlib Require Import ZArith Ascii SpecFloat.
From S2P Require Import Prelude PyText PyVal Json PyFloat StrDict Effects StateProg DistributedWork.
From S2P Require Import BodyCapacity ResourceReservations.

(** ** State *)

Record bound_state := mkBound {
  bn_work : work_state;
  bn_resources : advertised;
  bn_requirements : gmap string (list ResourceRequirement);
  bn_declared : gmap string (list ResourceRequirement);
  bn_reservations : reservations
}.

Abbreviation bound := (stprog rop bound_state).

Definition put_work (w : work_state) (s : bound_state) : bound_state :=
  mkBound w (bn_resources s) (bn_requirements s) (bn_declared s) (bn_reservations s).
Definition put_resources (d : advertised) (s : bound_state) : bound_state :=
  mkBound (bn_work s) d (bn_requirements s) (bn_declared s) (bn_reservations s).
Definition put_requirements (m : gmap string (list ResourceRequirement)) (s : bound_state) : bound_state :=
  mkBound (bn_work s) (bn_resources s) m (bn_declared s) (bn_reservations s).
Definition put_declared (m : gmap string (list ResourceRequirement)) (s : bound_state) : bound_state :=
  mkBound (bn_work s) (bn_resources s) (bn_requirements s) m (bn_reservations s).
Definition put_reservations (d : reservations) (s : bound_state) : bound_state :=
  mkBound (bn_work s) (bn_resources s) (bn_requirements s) (bn_declared s) d.

(** Calls of the parts. *)
Definition on_work {A} (f : work_state -> outcome A * work_state) : bound A :=
  embed (fun s => let '(o, w) := f (bn_work s) in (o, put_work w s)).
Definition on_resources {A} (m : reg A) : bound A := zoom bn_resources put_resources m.
Definition on_reservations {A} (f : reservations -> outcome A * reservations) : bound A :=
  embed (fun s => let '(o, d) := f (bn_reservations s) in (o, put_reservations d s)).

(** [_requirements.get(_normal(work_id), ())] *)
Definition required_of (work_id : string) (s : bound_state) : list ResourceRequirement :=
  default [] (bn_requirements s !! text work_id).

(** [current.lease] of a decision that is placed. *)
Definition held_lease (d : WorkPlacementDecision) : option WorkLease :=
  if pd_placed d then pd_lease d else None.

(** [max(1, len(registry.snapshot()))] *)
Definition node_bound (s : bound_state) : nat := Nat.max 1 (length (registry_snapshot (bn_work s))).

Section Placement.
Context (config : registry_config) (limits : heartbeat_limits).

(** ** [ResourceAwareWorkCoordinator] *)

(** [_node_meets] *)
Definition node_meets (node_id : string) (reqs : list ResourceRequirement) : bound bool :=
  let^ a := on_resources (resources_get config node_id) in
  finish (Ok (match a with Some a => forallb (requirement_met (na_resources a)) reqs | None => false end)).

(** The nodes that do not meet the requirements. *)
Fixpoint unfit_nodes (nodes : list NodeAdvertisement) (reqs : list ResourceRequirement) : bound (list string) :=
  match nodes with
  | [] => finish (Ok [])
  | n :: rest =>
      let^ meets := node_meets (nd_node_id n) reqs in
      let^ others := unfit_nodes rest reqs in
      finish (Ok (if (meets : bool) then others else text (nd_node_id n) :: others))
  end.

(** [place] *)
Definition aware_place (r : WorkRequirement) (reqs : list ResourceRequirement) (now lease_seconds : float)
    (exclude_nodes : list string) : bound WorkPlacementDecision :=
  let^ _ := modify (fun s => put_requirements (<[text (wr_work_id r) := reqs]> (bn_requirements s)) s) in
  let excluded := filter is_nonempty (text <$> exclude_nodes) in
  let^ nodes := reads (fun s => registry_snapshot (bn_work s)) in
  let^ unfit := (if bool_decide (reqs = []) then finish (Ok []) else unfit_nodes nodes reqs) in
  on_work (place r now lease_seconds (sorted_set (excluded ++ unfit))).

(** The test of a lease's node: it is registered and meets the requirements. *)
Definition lease_meets (l : WorkLease) (reqs : list ResourceRequirement) : bound bool :=
  let^ node := reads (fun s => node_get (wl_node_id l) (bn_work s)) in
  match node with
  | Some a => node_meets (nd_node_id a) reqs
  | None => finish (Ok false)
  end.

(** The loop of [_ensure_resource_eligible], with the attempts left. *)
Fixpoint ensure_eligible (now lease_seconds : float) (attempts : nat) (current : WorkPlacementDecision)
    : bound WorkPlacementDecision :=
  match held_lease current, attempts with
  | Some l, S attempts =>
      let^ reqs := reads (required_of (wl_work_id l)) in
      if bool_decide (reqs = []) then finish (Ok current) else
      let^ meets := lease_meets l reqs in
      if (meets : bool) then finish (Ok current) else
      let^ next := on_work (refuse_and_reassign (wl_work_id l) (wl_node_id l)
                     "resource-requirement-unmet" now lease_seconds) in
      ensure_eligible now lease_seconds attempts next
  | _, _ => finish (Ok current)
  end.

Definition ensure_resource_eligible (now lease_seconds : float) (d : WorkPlacementDecision)
    : bound WorkPlacementDecision :=
  let^ attempts := reads node_bound in ensure_eligible now lease_seconds attempts d.

(** [refuse_and_reassign], [handoff] *)
Definition aware_refuse (work_id node_id reason : string) (now lease_seconds : float)
    : bound WorkPlacementDecision :=
  let^ d := on_work (refuse_and_reassign work_id node_id reason now lease_seconds) in
  ensure_resource_eligible now lease_seconds d.

Definition aware_handoff (work_id from_node_id : string) (now : float) (reason : string)
    (lease_seconds : float) : bound WorkPlacementDecision :=
  aware_refuse work_id from_node_id reason now lease_seconds.

(** [revalidate] *)
Definition revalidate (work_id : string) (now lease_seconds : float) : bound (option WorkPlacementDecision) :=
  let^ lease := reads (fun s => work_lease_for work_id (bn_work s)) in
  match lease with
  | None => finish (Ok None)
  | Some l =>
      let^ reqs := reads (required_of work_id) in
      if bool_decide (reqs = []) then finish (Ok None) else
      let^ meets := lease_meets l reqs in
      if (meets : bool) then finish (Ok None) else
      let^ d := on_work (handoff work_id (wl_node_id l) now "resource-requirement-no-longer-met" lease_seconds) in
      let^ d := ensure_resource_eligible now lease_seconds d in
      finish (Ok (Some d))
  end.

(** [complete] *)
Definition aware_complete (work_id node_id : string) : bound bool :=
  let^ completed := on_work (fun w => let '(b, w) := work_complete work_id node_id w in (Ok b, w)) in
  let^ _ := (if (completed : bool)
             then modify (fun s => put_requirements (delete (text work_id) (bn_requirements s)) s)
             else finish (Ok tt)) in
  finish (Ok completed).

(** ** [LiveResourceAwareCoordinator] *)

(** [declare] *)
Definition declare (work_id : string) (reqs : list ResourceRequirement) : bound unit :=
  let key := text work_id in
  if negb (is_nonempty key) then failing ValueError "work_id is required" else
  if bool_decide (reqs = []) then failing ValueError "resource_requirements cannot be empty" else
  let^ lease := reads (fun s => work_lease_for key (bn_work s)) in
  if bool_decide (is_Some lease)
  then failing ValueError "cannot add resource requirements to active work" else
  let^ known := reads (fun s => bn_declared s !! key) in
  if bool_decide (is_Some known)
  then failing ValueError "resource requirements are already declared for work" else
  modify (fun s => put_declared (<[key := reqs]> (bn_declared s)) s).

Definition release_reservation (work_id : string) : bound (option ResourceReservation) :=
  on_reservations (fun d => let '(r, d) := reservation_release work_id d in (Ok r, d)).

Definition drop_declared (work_id : string) (s : bound_state) : bound_state :=
  put_declared (delete (text work_id) (bn_declared s)) s.

(** [cancel_declaration] *)
Definition cancel_declaration (work_id : string) : bound unit :=
  let^ _ := modify (drop_declared work_id) in
  let^ _ := modify (fun s => put_requirements (delete (text work_id) (bn_requirements s)) s) in
  let^ _ := release_reservation work_id in
  finish (Ok tt).

(** [_prune] *)
Definition live_prune (now : float) : bound unit :=
  let^ _ := on_resources (service_prune config limits now) in
  let^ _ := on_reservations (reservation_prune now) in
  finish (Ok tt).

(** The [try] block of [_ensure_reserved]: whether the lease is reserved. *)
Definition try_reserve (l : WorkLease) (reqs : list ResourceRequirement) : bound bool :=
  let^ advertisement := on_resources (resources_get config (wl_node_id l)) in
  match advertisement with
  | None => finish (Ok false)
  | Some a =>
      on_reservations (fun d =>
        let '(o, d) := reserve (wl_work_id l) (wl_lease_id l) (wl_node_id l) (wl_expires_at l) a reqs d in
        (match o with
         | Ok _ => Ok true
         | Err e => if bool_decide (exn_class e = ReservationUnavailable) then Ok false else Err e
         end, d))
  end.

(** The loop of [_ensure_reserved], with the moves left. *)
Fixpoint ensure_reserved (now lease_seconds : float) (moves : nat) (current : WorkPlacementDecision)
    : bound WorkPlacementDecision :=
  match held_lease current with
  | None => finish (Ok current)
  | Some l =>
      let^ reqs := reads (required_of (wl_work_id l)) in
      if bool_decide (reqs = []) then finish (Ok current) else
      let^ reserved := try_reserve l reqs in
      if (reserved : bool) then finish (Ok current) else
      match moves with
      | O => failing RuntimeError "resource reservation reassignment exceeded node bound"
      | S moves =>
          let^ next := aware_refuse (wl_work_id l) (wl_node_id l) "resource-reservation-unavailable"
                         now lease_seconds in
          ensure_reserved now lease_seconds moves next
      end
  end.

Definition ensure_lease_reserved (now lease_seconds : float) (d : WorkPlacementDecision)
    : bound WorkPlacementDecision :=
  let^ moves := reads node_bound in ensure_reserved now lease_seconds moves d.

(** [place] *)
Definition live_place (r : WorkRequirement) (now lease_seconds : float) (exclude_nodes : list string)
    : bound WorkPlacementDecision :=
  let^ _ := live_prune now in
  let^ reqs := reads (fun s => default [] (bn_declared s !! text (wr_work_id r))) in
  let^ _ := modify (drop_declared (wr_work_id r)) in
  let^ d := aware_place r reqs now lease_seconds exclude_nodes in
  ensure_lease_reserved now lease_seconds d.

(** [refuse_and_reassign], [handoff] *)
Definition live_refuse (work_id node_id reason : string) (now lease_seconds : float)
    : bound WorkPlacementDecision :=
  let^ _ := live_prune now in
  let^ lease := reads (fun s => work_lease_for work_id (bn_work s)) in
  let^ _ := (match lease with
             | Some l => if bool_decide (wl_node_id l = text node_id)
                         then let^ _ := release_reservation work_id in finish (Ok tt) else finish (Ok tt)
             | None => finish (Ok tt)
             end) in
  let^ d := aware_refuse work_id node_id reason now lease_seconds in
  ensure_lease_reserved now lease_seconds d.

Definition live_handoff (work_id from_node_id : string) (now : float) (reason : string)
    (lease_seconds : float) : bound WorkPlacementDecision :=
  live_refuse work_id from_node_id reason now lease_seconds.

(** [complete] *)
Definition live_complete (work_id node_id : string) : bound bool :=
  let^ _ := modify (drop_declared work_id) in
  let^ completed := aware_complete work_id node_id in
  let^ _ := (if (completed : bool) then let^ _ := release_reservation work_id in finish (Ok tt)
             else finish (Ok tt)) in
  finish (Ok completed).

(** [failed] and [affected_work_ids] of [recover_unavailable_nodes]; the ids of unavailable
    nodes are used as they were advertised. *)
Definition live_failed (now max_heartbeat_age : float) (w : work_state) : outcome (list string) :=
  let? stale := expired_node_ids now max_heartbeat_age w in
  Ok (stale ++ (nd_node_id <$> filter (fun a => is_unavailable a = true) (registry_snapshot w))).

Definition live_affected (now : float) (failed : list string) (w : work_state) : list string :=
  let prior := dict_comp ((fun l => (wl_work_id l, l)) <$> work_snapshot w) in
  filter (fun k => match prior !! k with
                   | Some l => flt now (wl_expires_at l) && bool_decide (wl_node_id l ∈ failed)
                   | None => false end = true) (sorted_keys prior).

(** The loop over the affected works and the coordinator's decisions. *)
Fixpoint rebind (now lease_seconds : float) (moved : list (string * WorkPlacementDecision))
    : bound (list WorkPlacementDecision) :=
  match moved with
  | [] => finish (Ok [])
  | (work_id, d) :: rest =>
      let^ _ := release_reservation work_id in
      let^ current :=
        match pd_lease d with
        | None => finish (Ok d)
        | Some l =>
            let^ replacement := revalidate (wl_work_id l) now lease_seconds in
            ensure_lease_reserved now lease_seconds (default d replacement)
        end in
      let^ others := rebind now lease_seconds rest in
      finish (Ok (current :: others))
  end.

(** [recover_unavailable_nodes] *)
Definition live_recover (now max_heartbeat_age lease_seconds : float) : bound (list WorkPlacementDecision) :=
  let^ _ := live_prune now in
  let^ failed := on_work (fun w => (live_failed now max_heartbeat_age w, w)) in
  let^ affected := reads (fun s => live_affected now failed (bn_work s)) in
  let^ decisions := on_work (recover_unavailable_nodes now max_heartbeat_age lease_seconds) in
  if negb (length decisions =? length affected)%nat
  then failing RuntimeError "resource recovery work count diverged from coordinator"
  else rebind now lease_seconds (zip affected decisions).

End Placement.
