(* ===== verification/ResourceTheorems.v ===== *)
(** The properties of the body's resources: the registry serves only what is proved now
    ([BodyCapacity.v]), and work with resource requirements is placed on a node that meets
    them, with a reservation, or not at all ([ResourcePlacement.v]). *)

From stdpp Require Import base gmap sets list strings sorting.
From Stdlib Require Import ZArith Ascii SpecFloat.
From S2P Require Import Prelude PyText PyVal Json PyFloat StrDict Effects StateProg DistributedWork.
From S2P Require Import DistributedTheorems BodyCapacity ResourceReservations ReservationTheorems ResourcePlacement.

(** ** The registry *)

(** The events of a successful proof: the advertisement is neither in the future nor too
    old, it names a boot, and the provider said [True] about it. *)
Definition proved_now (config : registry_config) (a : NodeResourceAdvertisement) (tr : list revent) : Prop :=
  exists now proof, tr = [EClock (Ok now); EVerify a (Ok proof)] /\ is_true_obj proof = true /\
    rc_provider config = true /\ canonical_uuid (na_boot_id a) = true /\
    ffinite (fsub now (na_observed_at a)) = true /\ fle f0 (fsub now (na_observed_at a)) = true /\
    flt (fsub now (na_observed_at a)) (rc_max_age_seconds config) = true.

Section RegistryFacts.
Context (config : registry_config).

Lemma ends_proof a s Q :
  (forall tr b, (b = true -> proved_now config a tr) -> Q tr (Ok b) s) ->
  (forall tr e, is_Exception e = false -> Q tr (Err e) s) ->
  ends rlog (proof_is_current config a) s Q.
Proof.
  intros Hok Herr. unfold proof_is_current. repeat ends_step.
  destruct o as [now|e]; [|destruct (is_Exception e) eqn:He; [ends_step; by apply Hok|by apply Herr]].
  cbv zeta. destruct (negb _ || negb _) eqn:Hage; [ends_step; by apply Hok|].
  destruct (negb (canonical_uuid _)) eqn:Hu; [ends_step; by apply Hok|].
  destruct (negb (rc_provider _)) eqn:Hp; [ends_step; by apply Hok|]. repeat ends_step.
  destruct o as [v|e]; [|destruct (is_Exception e) eqn:He; [ends_step; by apply Hok|by apply Herr]].
  ends_step. apply Hok. intros Hv.
  apply orb_false_iff in Hage as [H1%negb_false_iff H2%negb_false_iff].
  apply andb_true_iff in H2 as [H2 H3]. apply negb_false_iff in Hu, Hp. by exists now, v.
Qed.

(** A proof that succeeds is answered [True]. *)
Lemma proved_now_runs a s tr : proved_now config a tr -> runs rlog (proof_is_current config a) s tr (Ok true) s.
Proof.
  intros (now & v & -> & Hv & Hp & Hu & Hf & H1 & H2). unfold proof_is_current.
  apply runs_catching. exists [EClock (Ok now); EVerify a (Ok v)], [], (Ok true), s.
  split; [done|]. split; [|done]. apply runs_seq. exists [EClock (Ok now)], [EVerify a (Ok v)], (Ok now), s.
  split_and!; [done|by apply runs_perform|]. cbv zeta beta. rewrite Hf, H1, H2, Hu, Hp. cbn.
  apply runs_seq. exists [EVerify a (Ok v)], [], (Ok v), s.
  split_and!; [done|by apply runs_perform|]. apply runs_finish. by rewrite Hv.
Qed.

Lemma ends_get n s Q :
  (forall tr a, d_get s (text n) = Some a -> proved_now config a tr -> Q tr (Ok (Some a)) s) ->
  (forall tr, d_get s (text n) = None -> Q tr (Ok None) s) ->
  (forall tr, is_Some (d_get s (text n)) -> Q tr (Ok None) (d_del s (text n))) ->
  (forall tr e, is_Exception e = false -> Q tr (Err e) s) ->
  ends rlog (resources_get config n) s Q.
Proof.
  intros Hsome Hnone Hdel Herr. unfold resources_get. repeat ends_step.
  destruct (d_get s (text n)) as [a|] eqn:Ha; [|ends_step; by apply Hnone].
  ends_step. apply ends_proof; [|intros; by apply Herr]. intros tr [] Hb.
  - ends_step. rewrite app_nil_r. by apply Hsome; [|apply Hb].
  - repeat ends_step. apply Hdel. by exists a.
Qed.

(** What a registration did. *)
Definition registered_as (a : NodeResourceAdvertisement) (s : advertised) (tr : list revent)
    (d : ResourceRegistrationDecision) (s' : advertised) : Prop :=
  rg_node_id d = text (na_node_id a) /\
  if rg_accepted d
  then text (na_body_id a) = rc_body_id config /\ proved_now config a tr /\
       s' = store_newest (text (na_node_id a)) a s
  else d_get s' (text (na_node_id a)) = None.

Lemma ends_register a s Q : (forall tr d s', registered_as a s tr d s' -> Q tr (Ok d) s') ->
  (forall tr e, is_Exception e = false -> Q tr (Err e) s) ->
  ends rlog (resources_register config a) s Q.
Proof.
  intros Hok Herr. unfold resources_register. cbv zeta. ends_step.
  apply ends_proof; [|intros; by apply Herr]. intros tr b Hb.
  destruct (_ ++ _) as [|why whys] eqn:Hr.
  - apply app_eq_nil in Hr as [H1 H2]. destruct b; [|done]. case_bool_decide as Hbody; [done|].
    repeat ends_step. rewrite app_nil_r. apply Hok. split; [done|]. split; [done|]. split; [by apply Hb|done].
  - repeat ends_step. unfold resources_remove. repeat ends_step. apply Hok. split; [done|].
    cbn. rewrite text_idem, d_get_del. by rewrite bool_decide_true.
Qed.

End RegistryFacts.

(** ** Steps of the coordinator *)

Lemma make_placement_error d e : make_placement d = Err e -> exn_class e = ValueError.
Proof. unfold make_placement. repeat case_match; by intros [= <-]. Qed.

Lemma lease_of_error r c now ls e : lease_of r c now ls = Err e -> exn_class e = ValueError.
Proof. unfold lease_of, make_work_lease. repeat case_match; by intros [= <-]. Qed.

Lemma place_locked_error r now ls ex s e s' : checked_registry s -> place_locked r now ls ex s = (Err e, s') ->
  exn_class e = ValueError.
Proof.
  intros Hreg Hp. pose proof (place_locked_spec r now ls ex s Hreg) as H. rewrite Hp in H. cbn in H.
  inversion H; subst. by eapply lease_of_error.
Qed.

Lemma place_error r now ls ex s e s' : work_inv s -> place r now ls ex s = (Err e, s') -> exn_class e = ValueError.
Proof.
  intros Hinv. unfold place. case_match; [by intros [= <- _]|].
  destruct (w_leases (expire_leases now s) !! text (wr_work_id r)) eqn:Hl; [rewrite new_placement_ok by done; done|].
  apply place_locked_error. by apply work_inv_registry, inv_require; [apply inv_expire|].
Qed.

Lemma refuse_error w n reason now ls s e s' : work_inv s -> refuse_and_reassign w n reason now ls s = (Err e, s') ->
  exn_class e = ValueError.
Proof.
  intros Hinv. unfold refuse_and_reassign. case_match; [by intros [= <- _]|].
  rewrite new_placement_ok by done.
  destruct (w_leases s !! text w); [|done]. destruct (w_requirements s !! text w); [|done]. case_bool_decide; [done|].
  destruct (place_locked _ _ _ _ _) as [[d|e'] s3] eqn:Hp; cbn [outcome_bind].
  - unfold with_reasons. destruct (make_placement _) eqn:Hm; [done|]. intros [= <- _]. by eapply make_placement_error.
  - intros [= <- _]. eapply place_locked_error; [|exact Hp]. by apply work_inv_registry, inv_take_back.
Qed.

(** A decision for work [w] whose lease, if any, is the recorded one and held by a
    registered node. *)
Definition current_for (w : string) (s : work_state) (d : WorkPlacementDecision) : Prop :=
  work_inv s /\ held_lease d = pd_lease d /\
  forall l, pd_lease d = Some l -> w_leases s !! w = Some l /\ is_Some (w_nodes s !! wl_node_id l).

Lemma held_recorded d : make_placement d = Ok d -> held_lease d = pd_lease d.
Proof.
  intros (_ & H & _)%make_placement_ok. unfold held_lease. rewrite H. by destruct (pd_lease d).
Qed.

Lemma current_lease w s d l : current_for w s d -> held_lease d = Some l ->
  w_leases s !! w = Some l /\ is_Some (w_nodes s !! wl_node_id l) /\ wl_work_id l = w /\ text (wl_node_id l) = wl_node_id l.
Proof.
  intros (Hinv & Hh & Hd) Hl. rewrite Hh in Hl. destruct (Hd l Hl) as [Hw Hn].
  destruct (inv_leases s Hinv w l Hw) as (? & _ & _ & (? & _) & _). done.
Qed.

(** A lease held by a registered node leaves a node open. *)
Lemma open_nodes_pos w s d : current_for w s d -> open_nodes w s = 0 -> held_lease d = None.
Proof.
  intros Hc H0. destruct (held_lease d) as [l|] eqn:Hl; [|done]. exfalso.
  destruct (current_lease w s d l Hc Hl) as (Hw & [a Ha] & _). destruct Hc as (Hinv & _).
  destruct (inv_leases s Hinv w l Hw) as (_ & _ & Hnot & _).
  assert (filter (fun ka => ka.1 ∉ refused_by w s) (w_nodes s) !! wl_node_id l = Some a) as Hin
    by (apply map_lookup_filter_Some; done).
  apply map_size_empty_iff in H0. rewrite H0 in Hin. by rewrite lookup_empty in Hin.
Qed.

Lemma open_nodes_bound w s : open_nodes w (bn_work s) <= node_bound s.
Proof.
  unfold node_bound, open_nodes. etrans; [apply map_subseteq_size, map_filter_subseteq|].
  etrans; [|apply Nat.le_max_r]. unfold registry_snapshot, sorted_values.
  enough (size (w_nodes (bn_work s)) = length (omap (fun k => w_nodes (bn_work s) !! k) (sorted_keys (w_nodes (bn_work s)))))
    as -> by done.
  transitivity (length (sorted_keys (w_nodes (bn_work s)))).
  - unfold sorted_keys. rewrite sorted_strings_perm. by rewrite <- size_dom.
  - assert (forall k, k ∈ sorted_keys (w_nodes (bn_work s)) -> is_Some (w_nodes (bn_work s) !! k)) as Hk
      by (intros k; apply elem_of_sorted_keys).
    induction (sorted_keys (w_nodes (bn_work s))) as [|k ks IH]; [done|]. cbn.
    destruct (Hk k (list_elem_of_here _ _)) as [a ->]. cbn. f_equal. apply IH. intros k' Hk'. apply Hk. by right.
Qed.

(** The holder of [w] refuses it: one node less is open. *)
Lemma refuse_current w reason now ls s d l : text w = w -> text reason <> "" -> current_for w s d ->
  held_lease d = Some l ->
  match refuse_and_reassign w (wl_node_id l) reason now ls s with
  | (Ok d', s') => current_for w s' d' /\ open_nodes w s' < open_nodes w s
  | (Err e, s') => exn_class e = ValueError
  end.
Proof.
  intros Hw Hreason Hc Hl. destruct (current_lease w s d l Hc Hl) as (Hlease & Hnode & Hwork & Hn).
  destruct Hc as (Hinv & _). destruct (inv_leases s Hinv w l Hlease) as (_ & _ & Hnot & _).
  pose proof (refuse_and_reassign_state w reason now ls s l Hinv Hw Hreason Hlease) as (Hinv' & Hnodes & Href & Hreg & _).
  destruct (refuse_and_reassign w (wl_node_id l) reason now ls s) as [[d'|e] s'] eqn:Hr; cbn [snd] in *.
  - destruct (refuse_recorded w (wl_node_id l) reason now ls s d' s' l Hinv) as [Hm Hrec]; [by rewrite Hw|done|done|].
    rewrite Hw in Hrec. split; [|by eapply open_nodes_shrink].
    split; [done|]. split; [by apply held_recorded|]. intros l' Hl'. rewrite Hl' in Hrec. split; [done|].
    rewrite Hnodes. by apply Hreg.
  - exact (refuse_error _ _ _ _ _ _ _ _ Hinv Hr).
Qed.

(** ** The loops *)

(** Only the coordinator and the registry changed. *)
Definition tables_kept (s s' : bound_state) : Prop :=
  bn_requirements s' = bn_requirements s /\ bn_declared s' = bn_declared s /\
  bn_reservations s' = bn_reservations s.

Lemma tables_kept_trans s1 s2 s3 : tables_kept s1 s2 -> tables_kept s2 s3 -> tables_kept s1 s3.
Proof. intros (H1 & H2 & H3) (H4 & H5 & H6). unfold tables_kept. by rewrite H4, H5, H6. Qed.

Lemma tables_kept_required s s' w : tables_kept s s' -> required_of w s' = required_of w s.
Proof. intros (H & _). unfold required_of. by rewrite H. Qed.

(** An exception the code does not raise itself. *)
Lemma outside_error e : is_Exception e = false -> exn_class e <> RuntimeError.
Proof. unfold is_Exception. by destruct (exn_class e). Qed.

Lemma value_error e : exn_class e = ValueError -> exn_class e <> RuntimeError.
Proof. by intros ->. Qed.

(** The node's advertisement in the registry meets the requirements. *)
Definition advertised_meets (s : bound_state) (node_id : string) (reqs : list ResourceRequirement) : Prop :=
  exists a, d_get (bn_resources s) (text node_id) = Some a /\
    forallb (requirement_met (na_resources a)) reqs = true.

(** The node that holds the lease is registered and meets what the work requires. *)
Definition lease_ok (s : bound_state) (w : string) (l : WorkLease) : Prop :=
  required_of w s = [] \/
  exists n, w_nodes (bn_work s) !! wl_node_id l = Some n /\ advertised_meets s (nd_node_id n) (required_of w s).

Section Loops.
Context (config : registry_config) (limits : heartbeat_limits).

Lemma ends_node_meets n reqs s (Q : list revent -> outcome bool -> bound_state -> Prop) :
  (forall tr b res, (b = true -> advertised_meets (put_resources res s) n reqs) -> Q tr (Ok b) (put_resources res s)) ->
  (forall tr e res, is_Exception e = false -> Q tr (Err e) (put_resources res s)) ->
  ends rlog (node_meets config n reqs) s Q.
Proof.
  intros Hok Herr. unfold node_meets, on_resources. repeat ends_step. apply ends_get.
  - intros tr a Ha _. ends_step. apply Hok. intros Hb. by exists a.
  - intros tr _. ends_step. by apply Hok.
  - intros tr _. ends_step. by apply Hok.
  - intros. by apply Herr.
Qed.

Lemma ends_lease_meets w l reqs s (Q : list revent -> outcome bool -> bound_state -> Prop) :
  text (wl_node_id l) = wl_node_id l -> required_of w s = reqs ->
  (forall tr b res, (b = true -> lease_ok (put_resources res s) w l) -> Q tr (Ok b) (put_resources res s)) ->
  (forall tr e res, is_Exception e = false -> Q tr (Err e) (put_resources res s)) ->
  ends rlog (lease_meets config l reqs) s Q.
Proof.
  intros Hn Hreq Hok Herr. unfold lease_meets. repeat ends_step. unfold node_get. rewrite Hn.
  destruct (w_nodes (bn_work s) !! wl_node_id l) as [n|] eqn:Hnode.
  - apply ends_node_meets; [|intros; by apply Herr]. intros tr b res Hb. apply Hok. intros ->.
    right. exists n. split; [exact Hnode|]. change (required_of w (put_resources res s)) with (required_of w s).
    rewrite Hreq. by apply Hb.
  - ends_step. pose proof (Hok [] false (bn_resources s) ltac:(done)) as H. by destruct s.
Qed.

(** How [_ensure_resource_eligible] ends. *)
Definition eligible_end (w : string) (s : bound_state) (o : outcome WorkPlacementDecision) (s' : bound_state) : Prop :=
  tables_kept s s' /\
  match o with
  | Err e => exn_class e <> RuntimeError
  | Ok d => current_for w (bn_work s') d /\ open_nodes w (bn_work s') <= open_nodes w (bn_work s) /\
      forall l, held_lease d = Some l -> lease_ok s' w l
  end.

Lemma ends_on_work {A} (f : work_state -> outcome A * work_state) s (Q : list revent -> outcome A -> bound_state -> Prop) :
  Q [] (f (bn_work s)).1 (put_work (f (bn_work s)).2 s) -> ends rlog (on_work f) s Q.
Proof. intros H. unfold on_work. apply ends_embed. by destruct (f (bn_work s)). Qed.

Lemma eligible_end_more w s s1 o s' : tables_kept s s1 -> open_nodes w (bn_work s1) <= open_nodes w (bn_work s) ->
  eligible_end w s1 o s' -> eligible_end w s o s'.
Proof.
  intros Hk Ho [Hk' H]. split; [by eapply tables_kept_trans|]. destruct o; [|done].
  destruct H as (? & ? & ?). split_and!; [done|lia|done].
Qed.

Lemma ends_ensure_eligible w now ls : text w = w -> forall attempts d s,
  current_for w (bn_work s) d -> open_nodes w (bn_work s) <= attempts ->
  ends rlog (ensure_eligible config now ls attempts d) s (fun _ => eligible_end w s).
Proof.
  intros Hw. induction attempts as [|attempts IH]; intros d s Hc Ho; cbn [ensure_eligible].
  - rewrite (open_nodes_pos w (bn_work s) d Hc) by lia. ends_step. split; [done|].
    split_and!; [done..|]. rewrite (open_nodes_pos w (bn_work s) d Hc) by lia. done.
  - destruct (held_lease d) as [l|] eqn:Hl.
    2: { ends_step. split; [done|]. split_and!; [done..|]. by rewrite Hl. }
    destruct (current_lease w _ d l Hc Hl) as (Hlease & Hnode & Hwork & Hn). rewrite Hwork.
    repeat ends_step. case_bool_decide as Hreq.
    { ends_step. split; [done|]. split_and!; [done..|]. intros l'. rewrite Hl. intros [= <-]. by left. }
    ends_step. apply (ends_lease_meets w); [done|done| |].
    2: { intros tr e res He. split; [done|]. by apply outside_error. }
    intros tr b res Hb. destruct b.
    { ends_step. split; [done|]. split_and!; [done..|]. intros l'. rewrite Hl. intros [= <-]. by apply Hb. }
    ends_step. apply ends_on_work. cbn [put_resources bn_work].
    pose proof (refuse_current w "resource-requirement-unmet" now ls (bn_work s) d l Hw ltac:(done) Hc Hl) as Hr.
    destruct (refuse_and_reassign w (wl_node_id l) _ now ls (bn_work s)) as [[d'|e] w']; cbn [fst snd].
    + destruct Hr as [Hc' Hlt]. eapply ends_mono; [apply IH; [exact Hc'|cbn; lia]|].
      intros tr' o s' H. refine (eligible_end_more w s _ o s' _ _ H); [done|]. cbn. lia.
    + split; [done|]. by apply value_error.
Qed.

(** [refuse_and_reassign] of the resource-aware coordinator, by the holder. *)
Lemma ends_aware_refuse w l d reason now ls s : text w = w -> text reason <> "" ->
  current_for w (bn_work s) d -> held_lease d = Some l ->
  ends rlog (aware_refuse config w (wl_node_id l) reason now ls) s (fun _ o s' =>
    tables_kept s s' /\
    match o with
    | Err e => exn_class e <> RuntimeError
    | Ok d => current_for w (bn_work s') d /\ open_nodes w (bn_work s') < open_nodes w (bn_work s) /\
        forall l, held_lease d = Some l -> lease_ok s' w l
    end).
Proof.
  intros Hw Hreason Hc Hl. unfold aware_refuse, ensure_resource_eligible. ends_step. apply ends_on_work.
  pose proof (refuse_current w reason now ls (bn_work s) d l Hw Hreason Hc Hl) as Hr.
  destruct (refuse_and_reassign w (wl_node_id l) reason now ls (bn_work s)) as [[d'|e] w'] eqn:Hw'; cbn [fst snd].
  - destruct Hr as [Hc' Hlt]. repeat ends_step.
    eapply ends_mono; [apply (ends_ensure_eligible w); [done|exact Hc'|apply open_nodes_bound]|].
    intros tr o s' [Hk H]. split; [exact Hk|]. destruct o; [|done]. destruct H as (? & Hle & ?).
    cbn in Hle. split_and!; [done|lia|done].
  - split; [done|]. by apply value_error.
Qed.

(** The lease is reserved: the ledger holds for its work a reservation for this lease and
    node, with one item per requirement, of resources the node advertises now. *)
Definition lease_reserved (s : bound_state) (w : string) (l : WorkLease) : Prop :=
  exists a r, d_get (bn_resources s) (wl_node_id l) = Some a /\ d_get (bn_reservations s) w = Some r /\
    rv_lease_id r = plain_text (wl_lease_id l) /\ rv_node_id r = wl_node_id l /\
    Forall2 (item_for (na_resources a)) (required_of w s) (rv_items r).

Definition secured (s : bound_state) (w : string) (l : WorkLease) : Prop :=
  required_of w s = [] \/ lease_reserved s w l.

Lemma reserve_error w l n e a reqs d err d' : reserve w l n e a reqs d = (Err err, d') ->
  exn_class err = ReservationUnavailable \/ exn_class err = ValueError.
Proof.
  unfold reserve. case_match; [intros [= <- _]; by right|]. case_bool_decide; [intros [= <- _]; by right|].
  case_bool_decide; [intros [= <- _]; by right|].
  destruct (d_get d (text w)); [case_match; [done|intros [= <- _]; by right]|].
  destruct (stage _ _ _ _ _) as [items|err'] eqn:Hs; cbn [outcome_bind].
  - destruct (make_reservation _) as [r|err'] eqn:Hm; [done|]. intros [= <- _]. right. revert Hm.
    unfold make_reservation, required_text. repeat case_match; cbn [outcome_bind]; by intros [= <-].
  - intros [= <- _]. by eapply stage_error.
Qed.

(** The [try] block reserves the lease or changes at most the registry. *)
Lemma ends_try_reserve w l s (Q : list revent -> outcome bool -> bound_state -> Prop) :
  text w = w -> wl_work_id l = w -> text (wl_node_id l) = wl_node_id l -> d_get (bn_reservations s) w = None ->
  (forall tr s', bn_work s' = bn_work s -> bn_requirements s' = bn_requirements s ->
     lease_reserved s' w l -> Q tr (Ok true) s') ->
  (forall tr res, Q tr (Ok false) (put_resources res s)) ->
  (forall tr e res, exn_class e <> RuntimeError -> Q tr (Err e) (put_resources res s)) ->
  ends rlog (try_reserve config l (required_of w s)) s Q.
Proof.
  intros Hw Hwork Hn Hnone Htrue Hfalse Herr. unfold try_reserve, on_resources. repeat ends_step. apply ends_get.
  - intros tr a Ha _. unfold on_reservations. ends_step. rewrite Hn in Ha. cbn [put_resources bn_reservations].
    destruct (reserve _ _ _ _ _ _ _) as [o d] eqn:Hr.
    pose proof (reserve_is_atomic _ _ _ _ _ _ _ _ _ Hr) as Hat. rewrite Hwork, Hw, Hn in Hat.
    destruct o as [r|e]; cbn [fst snd].
    + destruct Hat as (Hl & Hnode & [[Hget _]|(_ & -> & _ & _ & _ & Hitems)]); [congruence|].
      apply Htrue; [done..|]. exists a, r. split_and!; [exact Ha| |done|done|exact Hitems].
      cbn. rewrite <- d_set_fresh, d_get_set by done. by rewrite bool_decide_true.
    + subst d. destruct (reserve_error _ _ _ _ _ _ _ _ _ Hr) as [Hc|Hc]; rewrite Hc;
        [rewrite bool_decide_true by done; apply Hfalse|rewrite bool_decide_false by done].
      apply (Herr _ e). by rewrite Hc.
  - intros tr _. ends_step. apply Hfalse.
  - intros tr _. ends_step. apply Hfalse.
  - intros tr e He. apply Herr. by apply outside_error.
Qed.

(** How [_ensure_reserved] ends. *)
Definition secured_end (w : string) (s : bound_state) (o : outcome WorkPlacementDecision) (s' : bound_state) : Prop :=
  required_of w s' = required_of w s /\
  match o with
  | Err e => exn_class e <> RuntimeError
  | Ok d => current_for w (bn_work s') d /\ forall l, held_lease d = Some l -> secured s' w l
  end.

Lemma ends_ensure_reserved w now ls : text w = w -> forall moves d s,
  current_for w (bn_work s) d -> open_nodes w (bn_work s) <= moves -> d_get (bn_reservations s) w = None ->
  ends rlog (ensure_reserved config now ls moves d) s (fun _ => secured_end w s).
Proof.
  intros Hw. induction moves as [|moves IH]; intros d s Hc Ho Hnone; cbn [ensure_reserved].
  - rewrite (open_nodes_pos w (bn_work s) d Hc) by lia. ends_step. split; [done|]. split; [done|].
    by rewrite (open_nodes_pos w (bn_work s) d Hc) by lia.
  - destruct (held_lease d) as [l|] eqn:Hl.
    2: { ends_step. split; [done|]. split; [done|]. by rewrite Hl. }
    destruct (current_lease w _ d l Hc Hl) as (Hlease & Hnode & Hwork & Hn). rewrite Hwork.
    repeat ends_step. case_bool_decide as Hreq.
    { ends_step. split; [done|]. split; [done|]. intros l'. rewrite Hl. intros [= <-]. by left. }
    ends_step. apply (ends_try_reserve w); [done..| | |].
    + intros tr s' Hwork' Hreq' Hres. ends_step. split; [unfold required_of; by rewrite Hreq'|].
      rewrite Hwork'. split; [done|]. intros l'. rewrite Hl. intros [= <-]. by right.
    + intros tr res. ends_step.
      eapply ends_mono; [apply (ends_aware_refuse w l d); [done|done|exact Hc|done]|].
      intros tr' o s' [Hk H]. destruct o as [d'|e].
      * destruct H as (Hc' & Hlt & _). cbn in Hlt.
        pose proof (tables_kept_required _ _ w Hk) as Hreq'. destruct Hk as (_ & _ & Hres).
        eapply ends_mono; [apply IH; [exact Hc'|lia|by rewrite Hres]|].
        intros tr'' o s'' [Hr H]. split; [rewrite Hr; exact Hreq'|done].
      * split; [by apply (tables_kept_required _ _ w Hk)|done].
    + intros tr e res He. split; [done|done].
Qed.

Lemma ends_ensure_lease_reserved w now ls d s : text w = w -> current_for w (bn_work s) d ->
  (held_lease d <> None -> d_get (bn_reservations s) w = None) ->
  ends rlog (ensure_lease_reserved config now ls d) s (fun _ => secured_end w s).
Proof.
  intros Hw Hc Hnone. unfold ensure_lease_reserved. repeat ends_step.
  destruct (held_lease d) as [l|] eqn:Hl.
  - eapply ends_mono; [apply (ends_ensure_reserved w); [done..|apply open_nodes_bound|by apply Hnone]|]. done.
  - assert (forall n, ensure_reserved config now ls n d = finish (Ok d)) as -> by (by intros []; cbn; rewrite Hl).
    ends_step. split; [done|]. split; [done|]. by rewrite Hl.
Qed.

(** ** Whole methods *)

Lemma ends_drop_unproved entries s (Q : list revent -> outcome unit -> advertised -> Prop) :
  (forall tr s', Q tr (Ok tt) s') -> (forall tr e s', is_Exception e = false -> Q tr (Err e) s') ->
  ends rlog (drop_unproved config entries) s Q.
Proof.
  revert s Q. induction entries as [|[k a] entries IH]; intros s Q Hok Herr; cbn [drop_unproved]; [by ends_step|].
  ends_step. apply ends_proof; [|intros; by apply Herr]. intros tr b _. ends_step.
  destruct b; ends_step; apply IH; auto.
Qed.

Lemma ends_snapshot s (Q : list revent -> outcome (list NodeResourceAdvertisement) -> advertised -> Prop) :
  (forall tr l s', Q tr (Ok l) s') -> (forall tr e s', is_Exception e = false -> Q tr (Err e) s') ->
  ends rlog (resources_snapshot config) s Q.
Proof.
  intros Hok Herr. unfold resources_snapshot. repeat ends_step. apply ends_drop_unproved; [|by auto].
  intros. ends_step. apply Hok.
Qed.

Lemma ends_remove_stale now ads s (Q : list revent -> outcome (list string) -> advertised -> Prop) :
  (forall tr l s', Q tr (Ok l) s') -> ends rlog (remove_stale limits now ads) s Q.
Proof.
  revert s Q. induction ads as [|a ads IH]; intros s Q Hok; cbn [remove_stale]; [by ends_step|].
  case_match; [|by apply IH]. unfold resources_remove. repeat ends_step. apply IH. intros. by ends_step.
Qed.

Lemma ends_service_prune now s (Q : list revent -> outcome (list string) -> advertised -> Prop) :
  (forall tr l s', Q tr (Ok l) s') -> (forall tr e s', exn_class e <> RuntimeError -> Q tr (Err e) s') ->
  ends rlog (service_prune config limits now) s Q.
Proof.
  intros Hok Herr. unfold service_prune, validate_now. repeat ends_step. destruct (flt now f0); [by apply Herr|].
  ends_step. apply ends_snapshot; [|intros; by apply Herr, outside_error].
  intros. ends_step. apply ends_remove_stale. intros. by ends_step.
Qed.

(** After the pruning only live reservations are left. *)
Lemma ends_live_prune now s (Q : list revent -> outcome unit -> bound_state -> Prop) :
  (forall tr res, Q tr (Ok tt) (put_reservations
     (filter (fun wr => reservation_expired now wr.2 = false) (bn_reservations s)) (put_resources res s))) ->
  (forall tr e s', exn_class e <> RuntimeError -> Q tr (Err e) s') ->
  ends rlog (live_prune config limits now) s Q.
Proof.
  intros Hok Herr. unfold live_prune, on_resources, on_reservations. repeat ends_step.
  apply ends_service_prune; [|intros; by apply Herr]. intros tr _ res. repeat ends_step.
  unfold reservation_prune. destruct (flt now f0); cbn [fst snd]; [by apply Herr|]. ends_step. apply Hok.
Qed.

(** What a method that places work [w] promises. *)
Definition placed_securely (w : string) (s' : bound_state) (o : outcome WorkPlacementDecision) : Prop :=
  match o with
  | Err e => exn_class e <> RuntimeError
  | Ok d => work_inv (bn_work s') /\
      match pd_lease d with
      | None => True
      | Some l => w_leases (bn_work s') !! w = Some l /\ secured s' w l
      end
  end.

Lemma secured_end_placed w s o s' : secured_end w s o s' -> placed_securely w s' o.
Proof.
  intros [_ H]. destruct o as [d|e]; [|done]. destruct H as [(Hinv & Hh & Hc) Hs]. split; [done|].
  rewrite Hh in Hs. destruct (pd_lease d) as [l|] eqn:Hl; [|done]. split; [by apply Hc|by apply Hs].
Qed.

Lemma not_owned_current w s d : work_inv s -> held_lease d = pd_lease d -> pd_lease d = None -> current_for w s d.
Proof. intros Hinv Hh Hn. split; [done|]. split; [done|]. intros l. by rewrite Hn. Qed.

(** A refusal by a node that does not hold the lease changes nothing. *)
Lemma refuse_not_owned w n reason now ls s : text reason <> "" ->
  ~ (exists l, w_leases s !! text w = Some l /\ wl_node_id l = text n) ->
  exists d, refuse_and_reassign w n reason now ls s = (Ok d, s) /\ pd_lease d = None /\ held_lease d = None.
Proof.
  intros Hreason Hno. unfold refuse_and_reassign. destruct (is_nonempty (text reason)) eqn:Hr; [|by destruct (text reason)].
  cbn [negb]. rewrite new_placement_ok by done.
  exists (mkPlacement false "lease_not_owned" None [] D_CAPABILITY_UNAVAILABLE
            ["node does not own the active workload lease"] false "none"). split; [|done].
  destruct (w_leases s !! text w) as [l|]; [|done]. destruct (w_requirements s !! text w); [|done].
  case_bool_decide as Hl; [done|]. destruct Hno. by exists l.
Qed.

Lemma d_get_filter_none {A} (P : string * A -> Prop) `{!forall kv, Decision (P kv)} (d : sdict A) k :
  (forall v, d_get d k = Some v -> ~ P (k, v)) -> NoDup d.*1 -> d_get (filter P d) k = None.
Proof.
  intros Hk Hd. apply d_get_none. intros (kv & -> & Hin)%list_elem_of_fmap.
  apply list_elem_of_filter in Hin as [HP Hin]. destruct kv as [k v]. by apply (Hk v); [apply d_get_nodup|].
Qed.

(** Both loops, for a work without a reservation. *)
Lemma ends_loops w now ls d s : text w = w -> current_for w (bn_work s) d ->
  (held_lease d <> None -> d_get (bn_reservations s) w = None) ->
  ends rlog (ensure_resource_eligible config now ls d) s (fun _ o s1 =>
    match o with
    | Ok d => ends rlog (ensure_lease_reserved config now ls d) s1 (fun _ o s' => placed_securely w s' o)
    | Err e => exn_class e <> RuntimeError
    end).
Proof.
  intros Hw Hc Hnone. unfold ensure_resource_eligible. repeat ends_step.
  destruct (held_lease d) as [l|] eqn:Hl.
  - eapply ends_mono; [apply (ends_ensure_eligible w); [done|exact Hc|apply open_nodes_bound]|].
    intros tr [d'|e] s' [(_ & _ & Hres) H]; [|exact H]. destruct H as (Hc' & _ & _).
    eapply ends_mono; [apply (ends_ensure_lease_reserved w _ _ _ _ Hw Hc')|intros ? ? ?; apply secured_end_placed].
    intros _. rewrite Hres. by apply Hnone.
  - assert (forall n, ensure_eligible config now ls n d = finish (Ok d)) as -> by (by intros []; cbn; rewrite Hl).
    ends_step. eapply ends_mono; [apply (ends_ensure_lease_reserved w _ _ _ _ Hw Hc)|intros ? ? ?; apply secured_end_placed].
    by rewrite Hl.
Qed.

Lemma refuse_text w n reason now ls s :
  refuse_and_reassign w n reason now ls s = refuse_and_reassign (text w) (text n) reason now ls s.
Proof. unfold refuse_and_reassign. by rewrite !text_idem. Qed.

(** What a refusal leaves the loops with. *)
Lemma refused_current w n reason now ls s d s' : work_inv s -> text reason <> "" ->
  refuse_and_reassign w n reason now ls s = (Ok d, s') ->
  current_for (text w) s' d /\
  (held_lease d <> None -> exists l, w_leases s !! text w = Some l /\ wl_node_id l = text n).
Proof.
  intros Hinv Hreason Hr.
  assert ((exists l, w_leases s !! text w = Some l /\ wl_node_id l = text n) \/
          ~ (exists l, w_leases s !! text w = Some l /\ wl_node_id l = text n)) as [(l & Hl & Hn)|Hno].
  { destruct (w_leases s !! text w) as [l|]; [|right; by intros (? & ? & _)].
    destruct (decide (wl_node_id l = text n)); [left; by exists l|right; by intros (? & [= <-] & ?)]. }
  - split; [|by exists l]. rewrite refuse_text, <- Hn in Hr.
    pose proof (refuse_and_reassign_state (text w) reason now ls s l Hinv (text_idem w) Hreason Hl)
      as (Hinv' & Hnodes & _ & Hreg & _). rewrite Hr in Hinv', Hnodes, Hreg. cbn in Hinv', Hnodes, Hreg.
    destruct (refuse_recorded (text w) (wl_node_id l) reason now ls s d s' l Hinv) as [Hm Hrec];
      [by rewrite text_idem|by rewrite Hn, text_idem|exact Hr|].
    rewrite text_idem in Hrec. split; [done|]. split; [by apply held_recorded|].
    intros l' Hl'. rewrite Hl' in Hrec. split; [done|]. rewrite Hnodes. by apply Hreg.
  - destruct (refuse_not_owned w n reason now ls s Hreason Hno) as (d' & Hr' & H1 & H2).
    rewrite Hr' in Hr. injection Hr as <- <-. split; [|by rewrite H2]. by apply not_owned_current; [|congruence|].
Qed.

Lemma ends_live_refuse w n reason now ls s : work_inv (bn_work s) ->
  ends rlog (live_refuse config limits w n reason now ls) s (fun _ o s' => placed_securely (text w) s' o).
Proof.
  intros Hinv. unfold live_refuse. ends_step. apply ends_live_prune; [|done]. intros tr res. repeat ends_step.
  set (s1 := put_reservations _ _).
  assert (forall s2, bn_work s2 = bn_work s ->
    ((exists l, w_leases (bn_work s) !! text w = Some l /\ wl_node_id l = text n) -> d_get (bn_reservations s2) (text w) = None) ->
    ends rlog (let^ d := aware_refuse config w n reason now ls in ensure_lease_reserved config now ls d) s2
      (fun _ o s' => placed_securely (text w) s' o)) as Hrest.
  { intros s2 Hs2 Hnone. unfold aware_refuse. repeat ends_step. apply ends_on_work. rewrite Hs2.
    destruct (refuse_and_reassign w n reason now ls (bn_work s)) as [[d|e] w'] eqn:Hr; cbn [fst snd];
      [|by apply value_error, (refuse_error _ _ _ _ _ _ _ _ Hinv Hr)].
    assert (text reason <> "") as Hreason.
    { intros Hb. unfold refuse_and_reassign in Hr. by rewrite Hb in Hr. }
    destruct (refused_current _ _ _ _ _ _ _ _ Hinv Hreason Hr) as [Hc Hown].
    eapply ends_mono; [apply (ends_loops (text w)); [apply text_idem|exact Hc|]|].
    - intros Hh. by apply Hnone, Hown.
    - intros tr' [d'|e] s' H; exact H. }
  change (bn_work s1) with (bn_work s). unfold work_lease_for.
  destruct (w_leases (bn_work s) !! text w) as [l|] eqn:Hl; [case_bool_decide as Hn|].
  - unfold release_reservation, on_reservations. do 2 ends_step. cbn [reservation_release fst snd].
    ends_step. apply Hrest; [done|]. intros _. cbn [put_reservations bn_reservations]. rewrite d_get_del. by rewrite bool_decide_true.
  - ends_step. apply Hrest; [done|]. intros (l' & [= <-] & Hl'). done.
  - ends_step. apply Hrest; [done|]. by intros (l' & Hl' & _).
Qed.

Lemma ends_unfit_nodes nodes reqs s (Q : list revent -> outcome (list string) -> bound_state -> Prop) :
  (forall tr l res, Q tr (Ok l) (put_resources res s)) ->
  (forall tr e res, is_Exception e = false -> Q tr (Err e) (put_resources res s)) ->
  ends rlog (unfit_nodes config nodes reqs) s Q.
Proof.
  revert s Q. induction nodes as [|n nodes IH]; intros s Q Hok Herr; cbn [unfit_nodes].
  - ends_step. pose proof (Hok [] [] (bn_resources s)) as H. by destruct s.
  - ends_step. apply ends_node_meets; [|intros; by apply Herr]. intros tr b res _. ends_step.
    apply IH; [|intros; by apply Herr]. intros tr' l res'. ends_step. apply Hok.
Qed.

(** A placement of work without a live lease is recorded, on a registered node. *)
Lemma placed_current r now ls ex s d s' : work_inv s ->
  w_leases (expire_leases now s) !! text (wr_work_id r) = None -> place r now ls ex s = (Ok d, s') ->
  current_for (text (wr_work_id r)) s' d.
Proof.
  intros Hinv Hnone Hp. destruct (place_recorded _ _ _ _ _ _ _ Hinv Hp) as [Hm Hrec].
  pose proof (work_inv_step (WPlace r now ls ex) s I Hinv) as Hinv'. cbn [work_step] in Hinv'. rewrite Hp in Hinv'.
  split; [exact Hinv'|]. split; [by apply held_recorded|]. intros l Hl. rewrite Hl in Hrec. split; [done|].
  revert Hp. unfold place. case_match; [done|]. rewrite Hnone.
  set (s1 := set_requirements _ _). set (ex1 := _ ∪ _). intros Hp.
  assert (checked_registry s1) as Hreg by (by apply work_inv_registry, inv_require; [apply inv_expire|]).
  pose proof (place_locked_spec r now ls ex1 s1 Hreg) as Hspec. rewrite Hp in Hspec. cbn in Hspec.
  inversion Hspec as [d' _ Hl'|c e a|a c l' d' Ho Hm' _ Hl']; subst; [congruence|].
  rewrite Hl in Hl'. injection Hl' as ->. rewrite (offers_lease_node _ _ _ _ _ _ _ _ Ho Hm').
  destruct Ho as (Ha & _). apply elem_of_sorted_values in Ha as (k & Hk).
  destruct (inv_nodes s Hinv k a Hk) as (-> & _). by exists a.
Qed.

Lemma ends_aware_place r reqs now ls ex s : work_inv (bn_work s) ->
  w_leases (expire_leases now (bn_work s)) !! text (wr_work_id r) = None ->
  ends rlog (aware_place config r reqs now ls ex) s (fun _ o s' =>
    match o with
    | Err e => exn_class e <> RuntimeError
    | Ok d => current_for (text (wr_work_id r)) (bn_work s') d /\ bn_reservations s' = bn_reservations s /\
        required_of (text (wr_work_id r)) s' = reqs
    end).
Proof.
  intros Hinv Hlease. unfold aware_place. cbv zeta. do 5 ends_step. set (s1 := put_requirements _ s).
  assert (forall unfit res, ends rlog (on_work (place r now ls unfit)) (put_resources res s1) (fun _ o s' =>
    match o with
    | Err e => exn_class e <> RuntimeError
    | Ok d => current_for (text (wr_work_id r)) (bn_work s') d /\ bn_reservations s' = bn_reservations s /\
        required_of (text (wr_work_id r)) s' = reqs
    end)) as Hplace.
  { intros unfit res. apply ends_on_work. change (bn_work (put_resources res s1)) with (bn_work s).
    destruct (place r now ls unfit (bn_work s)) as [[d|e] w'] eqn:Hp; cbn [fst snd].
    - split_and!; [exact (placed_current _ _ _ _ _ _ _ Hinv Hlease Hp)|done|].
      unfold required_of. cbn. by rewrite text_idem, lookup_insert_eq.
    - exact (value_error _ (place_error _ _ _ _ _ _ _ Hinv Hp)). }
  case_match.
  - ends_step. exact (Hplace _ (bn_resources s)).
  - apply ends_unfit_nodes; [intros; apply Hplace|]. intros tr e res He. by apply outside_error.
Qed.

Lemma ends_live_place r now ls ex s : work_inv (bn_work s) ->
  w_leases (expire_leases now (bn_work s)) !! text (wr_work_id r) = None ->
  (forall v, (text (wr_work_id r), v) ∈ bn_reservations s -> reservation_expired now v = true) ->
  ends rlog (live_place config limits r now ls ex) s (fun _ o s' =>
    placed_securely (text (wr_work_id r)) s' o /\
    (is_ok o = true ->
     required_of (text (wr_work_id r)) s' = default [] (bn_declared s !! text (wr_work_id r)))).
Proof.
  intros Hinv Hlease Hres. unfold live_place. ends_step. apply ends_live_prune; [|done]. intros tr res.
  do 4 ends_step. set (s1 := drop_declared _ _). ends_step.
  eapply ends_mono; [by apply (ends_aware_place r _ now ls ex s1)|].
  intros tr' [d|e] s' H; [|by split]. destruct H as (Hc & Hkept & Hreq).
  eapply ends_mono; [apply (ends_ensure_lease_reserved _ _ _ _ _ (text_idem _) Hc)|].
  - intros _. rewrite Hkept. apply d_get_none. intros ((k & v) & Heq & Hin)%list_elem_of_fmap. cbn in Heq. subst k.
    apply list_elem_of_filter in Hin as [Hf Hin]. cbn in Hf. by rewrite (Hres v Hin) in Hf.
  - intros tr'' o s'' H. split; [exact (secured_end_placed _ _ _ _ H)|]. intros _. destruct H as [Hr _].
    rewrite Hr. exact Hreq.
Qed.
End Loops.


(** Reassignment for resources ends on a fitting node.  When the resource-aware
    [refuse_and_reassign] returns a lease, its node is registered and, by the advertisement
    in the registry, meets every requirement of the work; the attempts it allows itself
    always suffice to find such a node or to end without a lease. *)
Theorem reassigned_node_meets_requirements config w l reason now ls s tr d s' :
  work_inv (bn_work s) -> text w = w -> text reason <> "" -> w_leases (bn_work s) !! w = Some l ->
  is_Some (w_nodes (bn_work s) !! wl_node_id l) ->
  runs rlog (aware_refuse config w (wl_node_id l) reason now ls) s tr (Ok d) s' ->
  open_nodes w (bn_work s') < open_nodes w (bn_work s) /\
  match pd_lease d with
  | None => True
  | Some l' => w_leases (bn_work s') !! w = Some l' /\ lease_ok s' w l'
  end.
Proof.
  intros Hinv Hw Hreason Hl Hn Hr.
  assert (current_for w (bn_work s) (mkPlacement true "" (Some l) [] D_NONE [""] false "none")) as Hc.
  { split; [done|]. split; [done|]. by intros l' [= <-]. }
  destruct (ends_aware_refuse config w l _ reason now ls s Hw Hreason Hc eq_refl _ _ _ Hr) as (_ & (_ & Hh & Hd) & Hlt & Hok).
  split; [done|]. rewrite Hh in Hok. destruct (pd_lease d) as [l'|]; [|done]. split; [by apply Hd|by apply Hok].
Qed.

(** ** On a small body *)

(** The clock stands at 110 and every proof is good. *)
Definition good_environment (X : Type) (op : rop X) (n : unit) : outcome X * unit :=
  match op in rop X return outcome X * unit with
  | OpClock => (Ok (float_of_Z 110), tt)
  | OpVerify _ => (Ok (PBool true), tt)
  end.

#[local] Abbreviation events_of := (StateProg.events_of rlog good_environment tt).
#[local] Abbreviation state_after := (StateProg.state_after rlog good_environment tt).
#[local] Abbreviation result_of := (StateProg.result_of rlog good_environment tt).
#[local] Abbreviation result_runs := (StateProg.evaluate_runs rlog good_environment tt).

Definition sample_config : registry_config := mkRegistryConfig "body one" true (float_of_Z 20).
Definition sample_limits : heartbeat_limits := mkLimits (float_of_Z 20) (float_of_Z 5).

Definition advertise (node : string) (available : Z) : NodeResourceAdvertisement :=
  mkNodeResources node "Body One" (float_of_Z 100) [sample_resource "ram" available] true true "none"
    "01234567-89ab-cdef-0123-456789abcdef".

(** A body whose first node advertises itself under [id], with work w1 declared. *)
Definition two_bound_nodes (id : string) : bound_state :=
  mkBound (work_run [WRegister (sample_node id HEAVY_LINUX ["vision"] 20);
                     WRegister (sample_node "Queen" QUEEN ["vision"; "plan"] 10)] body_one)
    [("eyes", advertise id 8); ("queen", advertise "Queen" 16)] ∅ {["w1" := [sample_memory 5]]} [].

Definition place_w1 : bound WorkPlacementDecision :=
  live_place sample_config sample_limits (sample_requirement "w1" ["vision"]) (float_of_Z 110) t60 [].
Definition placed_bound (id : string) : bound_state := state_after place_w1 (two_bound_nodes id).

Lemma two_bound_nodes_inv id : make_node (sample_node id HEAVY_LINUX ["vision"] 20) = Ok (sample_node id HEAVY_LINUX ["vision"] 20) ->
  work_inv (bn_work (two_bound_nodes id)).
Proof.
  intros Hid. apply work_inv_run; [|exact (new_work_inv "body one" body_one eq_refl)].
  apply Forall_cons. split; [exact Hid|]. apply Forall_singleton. vm_compute. reflexivity.
Qed.


(** The holder is asked to move although it meets the requirements. *)
Definition refuse_w1 : bound WorkPlacementDecision :=
  aware_refuse sample_config "w1" "eyes" "busy" (float_of_Z 110) t60.

Lemma place_w1_inv s : work_inv (bn_work s) -> bn_reservations s = [] ->
  w_leases (expire_leases (float_of_Z 110) (bn_work s)) !! "w1" = None ->
  is_ok (evaluate rlog good_environment tt place_w1 s) = true -> is_ok (result_of place_w1 s) = true ->
  work_inv (bn_work (state_after place_w1 s)).
Proof.
  intros Hinv Hres Hl Hp%result_runs Hok. revert Hp.
  generalize (events_of place_w1 s) (state_after place_w1 s). destruct (result_of place_w1 s) as [d|e]; [|done].
  intros tr s' Hr.
  refine (proj1 (proj1 (ends_live_place sample_config sample_limits (sample_requirement "w1" ["vision"])
    (float_of_Z 110) t60 [] s Hinv Hl _ _ _ _ Hr))).
  rewrite Hres. intros v Hv. exact (False_ind _ (proj1 (elem_of_nil _) Hv)).
Qed.

Lemma placed_bound_inv : work_inv (bn_work (placed_bound "eyes")).
Proof.
  apply place_w1_inv; [apply two_bound_nodes_inv|reflexivity|..]; vm_compute; reflexivity.
Qed.

Lemma reassigned_node_meets_requirements_witness :
  is_ok (result_of refuse_w1 (placed_bound "eyes")) = true /\
  open_nodes "w1" (bn_work (state_after refuse_w1 (placed_bound "eyes"))) < open_nodes "w1" (bn_work (placed_bound "eyes")).
Proof.
  assert (is_ok (result_of refuse_w1 (placed_bound "eyes")) = true) as Hok by (vm_compute; reflexivity).
  split; [exact Hok|].
  destruct (w_leases (bn_work (placed_bound "eyes")) !! "w1") as [l|] eqn:Hl;
    [|apply (f_equal (fmap wl_node_id)) in Hl; vm_compute in Hl; discriminate Hl].
  assert (wl_node_id l = "eyes") as Hn
    by (apply (f_equal (fmap wl_node_id)) in Hl; vm_compute in Hl; injection Hl as Hl; exact (eq_sym Hl)).
  pose proof (result_runs refuse_w1 (placed_bound "eyes") ltac:(vm_compute; reflexivity)) as Hr.
  destruct (result_of refuse_w1 (placed_bound "eyes")) as [d|e] eqn:Hd; [|discriminate Hok].
  refine (proj1 (reassigned_node_meets_requirements sample_config "w1" l "busy" (float_of_Z 110) t60
    (placed_bound "eyes") (events_of refuse_w1 (placed_bound "eyes")) d (state_after refuse_w1 (placed_bound "eyes"))
    placed_bound_inv eq_refl _ Hl _ _)).
  - by intros H.
  - rewrite Hn. apply (bool_decide_unpack _). vm_compute. exact I.
  - rewrite Hn. exact Hr.
Defined.


(** Recovery trips over a node id that is not in normal form.  The live coordinator
    compares advertised ids with the normal ids of leases.  When the node of a work fails and
    the body knows it as "eyes", recovery moves lease and reservation to the other node; when
    it advertised itself as "Eyes", recovery raises [RuntimeError] after the lease has moved,
    and the reservation stays with the failed node. *)
Theorem recovery_misses_unnormalised_node :
  let failed id := put_work (set_availability "eyes" OFFLINE (bn_work (placed_bound id))).2 (placed_bound id) in
  let recovery := live_recover sample_config sample_limits (float_of_Z 110) (float_of_Z 30) t60 in
  let holders id := (wl_node_id <$> (w_leases (bn_work (state_after recovery (failed id))) !! "w1"),
                     rv_node_id <$> d_get (bn_reservations (state_after recovery (failed id))) "w1") in
  is_ok (result_of recovery (failed "eyes")) = true /\ holders "eyes" = (Some "queen", Some "queen") /\
  result_of recovery (failed "Eyes") = raise RuntimeError "resource recovery work count diverged from coordinator" /\
  holders "Eyes" = (Some "queen", Some "eyes").
Proof. vm_compute. by split_and!. Qed.
