(* ===== verification/PyJson.v ===== *)
(** [json.dumps(value, sort_keys=True, separators=(",", ":"))] of any Python value, floats
    included: what the module services sign, digest and copy values with.  [Json.v] holds
    the decoder and the encoder of values without floats; the two encoders agree. *)

From stdpp Require Import base gmap sets list strings sorting.
From Stdlib Require Import ZArith Ascii SpecFloat.
From S2P Require Import Prelude PyText PyVal Json PyFloat.

(** ** [repr] of a float: the shortest decimal that reads back as the float *)

Definition digit_count (n : Z) : Z := Z.of_nat (String.length (str_of_Z n)).

(** [floor(log10 (n / d))] for [0 < n] and [0 < d], [n / d] no negative power of ten. *)
Definition decimal_exponent (n d : Z) : Z :=
  if (d <=? n)%Z then (digit_count (n / d) - 1)%Z else (- digit_count (d / n))%Z.

(** The decimal of [p] significant digits, [N * 10 ^ E], that is nearest to [f] among those
    that read back as [f]. *)
Definition decimal_candidate (f : float) (n d k p : Z) : option (Z * Z) :=
  let E := (k + 1 - p)%Z in
  let '(n', d') := if (0 <=? E)%Z then (n, d * 10 ^ E)%Z else (n * 10 ^ (- E), d)%Z in
  let '(lo, r) := Z.div_eucl n' d' in
  let reads N := feq (float_of_decimal false N E) f in
  let nearest := div_half_even n' d' in
  let other := if (nearest =? lo)%Z then (lo + 1)%Z else lo in
  if reads nearest then Some (nearest, E) else if reads other then Some (other, E) else None.

Fixpoint first_candidate (f : float) (n d k : Z) (ps : list Z) : Z * Z :=
  match ps with
  | [] => (n / d, 0)%Z
  | p :: ps' => match decimal_candidate f n d k p with
                | Some c => c
                | None => first_candidate f n d k ps'
                end
  end.

Definition shortest_decimal (m : positive) (e : Z) : Z * Z :=
  let '(n, d) := if (0 <=? e)%Z then (Zpos m * 2 ^ e, 1)%Z else (Zpos m, 2 ^ (- e))%Z in
  first_candidate (S754_finite false m e) n d (decimal_exponent n d) (seqZ 1 17).

Fixpoint strip_zeros (s : string) : string :=
  match s with
  | "" => ""
  | String c s' => match strip_zeros s' with
                   | "" => if bool_decide (c = "0"%char) then "" else String c ""
                   | t => String c t
                   end
  end.

Fixpoint zeros (n : nat) : string := match n with O => "" | S n => String "0" (zeros n) end.

Fixpoint str_drop (n : nat) (s : string) : string :=
  match n, s with O, _ => s | S n, String _ s' => str_drop n s' | S _, "" => "" end.

(** The digits [ds] with the decimal point after [pt] of them, as [repr] places it. *)
Definition place_point (ds : string) (pt : Z) : string :=
  let n := Z.of_nat (String.length ds) in
  if (pt <=? -4)%Z || (16 <? pt)%Z then
    let ex := (pt - 1)%Z in
    let mantissa := str_take 1 ds +:+ (if (n <=? 1)%Z then "" else "." +:+ str_drop 1 ds) in
    mantissa +:+ "e" +:+ (if (ex <? 0)%Z then "-" else "+") +:+ pad_left 2 (str_of_Z (Z.abs ex))
  else if (pt <=? 0)%Z then "0." +:+ zeros (Z.to_nat (- pt)) +:+ ds
  else if (n <=? pt)%Z then ds +:+ zeros (Z.to_nat (pt - n)) +:+ ".0"
  else str_take (Z.to_nat pt) ds +:+ "." +:+ str_drop (Z.to_nat pt) ds.

(** [float.__repr__] *)
Definition float_repr (f : float) : string :=
  let sign (s : bool) := if s then "-" else "" in
  match f with
  | S754_nan => "nan"
  | S754_infinity s => sign s +:+ "inf"
  | S754_zero s => sign s +:+ "0.0"
  | S754_finite s m e =>
      let '(N, E) := shortest_decimal m e in
      sign s +:+ place_point (strip_zeros (str_of_Z N)) (digit_count N + E)
  end.

(** ** [repr(v)] and [str(v)] *)

Fixpoint py_repr (v : pyval) : string :=
  match v with
  | PNone => "None"
  | PBool true => "True"
  | PBool false => "False"
  | PInt z => str_of_Z z
  | PFloat f => float_repr f
  | PStr s => repr s
  | PList l => "[" +:+ join ", " (py_repr <$> l) +:+ "]"
  | PTuple [x] => "(" +:+ py_repr x +:+ ",)"
  | PTuple l => "(" +:+ join ", " (py_repr <$> l) +:+ ")"
  | PDict kvs => "{" +:+ join ", " ((fun kv => py_repr kv.1 +:+ ": " +:+ py_repr kv.2) <$> kvs) +:+ "}"
  end.

Definition py_str (v : pyval) : string := match v with PStr s => s | _ => py_repr v end.

(** [float(v)] of a number; [OverflowError] on an integer beyond the floats. *)
Definition py_float (v : pyval) : outcome float :=
  match v with
  | PFloat f => Ok f
  | _ => match as_int v with
         | Some z => let f := float_of_Z z in
                     if ffinite f then Ok f else raise OtherError "int too large to convert to float"
         | None => raise TypeError "float() argument must be a string or a real number"
         end
  end.

(** [isinstance(v, (int, float)) and not isinstance(v, bool)] *)
Definition is_real (v : pyval) : bool := negb (is_bool v) && (is_int v || is_float v).

(** [value is False] *)
Definition is_false_obj (v : pyval) : bool := match v with PBool false => true | _ => false end.

(** ** [json.dumps] *)

Definition float_text (allow_nan : bool) (f : float) : outcome string :=
  match f with
  | S754_zero _ | S754_finite _ _ _ => Ok (float_repr f)
  | _ =>
      if allow_nan
      then Ok (match f with S754_nan => "NaN" | S754_infinity true => "-Infinity" | _ => "Infinity" end)
      else raise ValueError "Out of range float values are not JSON compliant"
  end.

(** The text of a dictionary key; only scalars can be keys of an object. *)
Definition key_text (allow_nan : bool) (k : pyval) : outcome string :=
  match k with
  | PStr s => Ok s
  | PBool true => Ok "true"
  | PBool false => Ok "false"
  | PNone => Ok "null"
  | PInt z => Ok (str_of_Z z)
  | PFloat f => float_text allow_nan f
  | _ => raise TypeError "keys must be str, int, float, bool or None"
  end.

(** The order of numeric keys. *)
Definition as_float (v : pyval) : float :=
  match v with PFloat f => f | _ => match as_int v with Some z => float_of_Z z | None => f0 end end.
Definition numeric_lt (a b : pyval) : bool :=
  match as_int a, as_int b with
  | Some x, Some y => (x <? y)%Z
  | _, _ => flt (as_float a) (as_float b)
  end.
Definition is_number (v : pyval) : bool := is_int v || is_float v.

Definition member_le {A} (a b : pyval * A) : Prop := String.le (text_key a.1) (text_key b.1).
#[export] Instance member_le_dec {A} : RelDecision (@member_le A).
Proof. intros a b. unfold member_le. apply _. Defined.

(** [sorted(d.items())]: keys of different kinds do not compare. *)
Definition sort_members {A} (kvs : list (pyval * A)) : outcome (list (pyval * A)) :=
  match kvs with
  | [] | [_] => Ok kvs
  | _ =>
      if forallb is_str kvs.*1
      then Ok (merge_sort member_le kvs)
      else if forallb is_number kvs.*1 then Ok (py_sorted (fun a b => numeric_lt a.1 b.1) kvs)
      else raise TypeError "'<' not supported between instances"
  end.

(** [json.dumps(v, sort_keys=True, separators=(",", ":"), allow_nan=allow_nan)] *)
Fixpoint py_dumps (allow_nan : bool) (v : pyval) : outcome string :=
  match v with
  | PNone => Ok "null"
  | PBool true => Ok "true"
  | PBool false => Ok "false"
  | PInt z => Ok (str_of_Z z)
  | PFloat f => float_text allow_nan f
  | PStr s => Ok (quote s)
  | PList l | PTuple l =>
      let? ts := mapM_outcome id (py_dumps allow_nan <$> l) in Ok ("[" +:+ join "," ts +:+ "]")
  | PDict kvs =>
      let? sorted := sort_members ((fun kv => (kv.1, py_dumps allow_nan kv.2)) <$> kvs) in
      let? ts := mapM_outcome (fun kv : pyval * outcome string =>
        let? k := key_text allow_nan kv.1 in let? t := kv.2 in Ok (quote k +:+ ":" +:+ t)) sorted in
      Ok ("{" +:+ join "," ts +:+ "}")
  end.

Example repr_tenth : float_repr (flit 1 (-1)) = "0.1". Proof. vm_compute. reflexivity. Qed.
Example repr_large : float_repr (flit 5 324) = "inf". Proof. vm_compute. reflexivity. Qed.
Example repr_exp : float_repr (flit 12345 (-10)) = "1.2345e-06". Proof. vm_compute. reflexivity. Qed.
Example repr_small : float_repr (flit 1 (-4)) = "0.0001". Proof. vm_compute. reflexivity. Qed.
Example repr_e16 : float_repr (flit 1 16) = "1e+16". Proof. vm_compute. reflexivity. Qed.
Example repr_e15 : float_repr (flit 15 14) = "1500000000000000.0". Proof. vm_compute. reflexivity. Qed.
Example repr_third : float_repr (SFdiv 53 1024 f1 (float_of_Z 3)) = "0.3333333333333333". Proof. vm_compute. reflexivity. Qed.
Example repr_sum : float_repr (fadd (flit 1 (-1)) (flit 2 (-1))) = "0.30000000000000004". Proof. vm_compute. reflexivity. Qed.

(** ** The two encoders agree *)

Section SortMap.
Context {A B} (R : relation A) (T : relation B) `{!RelDecision R, !RelDecision T} (f : A -> B).
Hypothesis order_kept : forall x y, R x y <-> T (f x) (f y).

Lemma list_merge_fmap l1 : forall l2, f <$> list_merge R l1 l2 = list_merge T (f <$> l1) (f <$> l2).
Proof.
  induction l1 as [|x l1 IH1]; intros l2; [by rewrite fmap_nil, !list_merge_nil_l|].
  induction l2 as [|y l2 IH2]; [by rewrite fmap_nil, !list_merge_nil_r|].
  rewrite !fmap_cons, !list_merge_cons. rewrite (decide_ext _ _ _ _ (order_kept x y)).
  case_decide; rewrite fmap_cons; f_equal; [apply IH1|apply IH2].
Qed.

#[local] Definition on_stack : list (option (list A)) -> list (option (list B)) := map (option_map (fmap f)).

Lemma merge_list_to_stack_fmap st : forall l,
  on_stack (merge_list_to_stack R st l) = merge_list_to_stack T (on_stack st) (f <$> l).
Proof.
  induction st as [|[l'|] st IH]; intros l; [done| |done].
  cbn. f_equal. by rewrite IH, list_merge_fmap.
Qed.

Lemma merge_stack_fmap st : f <$> merge_stack R st = merge_stack T (on_stack st).
Proof. induction st as [|[l|] st IH]; [done| |done]. cbn. by rewrite list_merge_fmap, IH. Qed.

Lemma merge_sort_fmap l : f <$> merge_sort R l = merge_sort T (f <$> l).
Proof.
  unfold merge_sort. change (@nil (option (list B))) with (on_stack []).
  generalize (@nil (option (list A))) as st.
  induction l as [|x l IH]; intros st; [apply merge_stack_fmap|].
  cbn. by rewrite IH, merge_list_to_stack_fmap.
Qed.
End SortMap.

Lemma merge_sort_single {A} (R : relation A) `{!RelDecision R} x : merge_sort R [x] = [x].
Proof. done. Qed.

Lemma sort_members_str {A} (kvs : list (string * A)) :
  sort_members ((fun kv => (PStr kv.1, kv.2)) <$> kvs)
  = Ok (merge_sort member_le ((fun kv => (PStr kv.1, kv.2)) <$> kvs)).
Proof.
  destruct kvs as [|x [|y kvs]]; [done..|]. unfold sort_members. rewrite !fmap_cons.
  cbn [fst forallb is_str andb].
  assert (forallb is_str ((fun kv : string * A => (PStr kv.1, kv.2)) <$> kvs).*1 = true) as ->; [|done].
  apply forallb_Forall, Forall_fmap, Forall_fmap, Forall_forall. done.
Qed.

Lemma mapM_id_Ok {A} (l : list A) : mapM_outcome id (Ok <$> l) = Ok l.
Proof. induction l as [|a l IH]; [done|]. cbn in *. by rewrite IH. Qed.

Lemma mapM_outcome_fmap {A B C} (f : B -> outcome C) (g : A -> B) l :
  mapM_outcome f (g <$> l) = mapM_outcome (f ∘ g) l.
Proof. induction l as [|a l IH]; [done|]. cbn. by rewrite IH. Qed.

Lemma mapM_outcome_pure {A B} (f : A -> outcome B) (g : A -> B) l :
  (forall a, a ∈ l -> f a = Ok (g a)) -> mapM_outcome f l = Ok (g <$> l).
Proof.
  induction l as [|a l IH]; intros H; [done|]. cbn. rewrite (H a) by left.
  rewrite IH; [done|]. intros b Hb. apply H. by right.
Qed.

Lemma py_dumps_of_json b j : py_dumps b (of_json j) = Ok (dumps j).
Proof.
  induction j as [|[]|z|s|l IH|kvs IH] using json_nested_ind; [done..| |]; cbn [of_json py_dumps dumps].
  - replace (py_dumps b <$> (of_json <$> l)) with ((Ok ∘ dumps) <$> l).
    + by rewrite list_fmap_compose, mapM_id_Ok.
    + rewrite <- list_fmap_compose. apply list_fmap_ext. intros i x Hx. rewrite Forall_forall in IH.
      symmetry. apply IH. by apply list_elem_of_lookup_2 in Hx.
  - set (ds := (fun kv => (kv.1, dumps kv.2)) <$> kvs).
    replace ((fun kv => (kv.1, py_dumps b kv.2)) <$> ((fun kv => (PStr kv.1, of_json kv.2)) <$> kvs))
      with ((fun kv : string * outcome string => (PStr kv.1, kv.2)) <$> ((fun kv => (kv.1, Ok kv.2)) <$> ds)).
    2: { unfold ds. rewrite <- !list_fmap_compose. apply list_fmap_ext. intros i x Hx. cbn. f_equal.
         rewrite Forall_forall in IH. symmetry. apply IH. by apply list_elem_of_lookup_2 in Hx. }
    rewrite sort_members_str. cbn [outcome_bind]. rewrite <- list_fmap_compose.
    rewrite <- (merge_sort_fmap key_le member_le) by done.
    rewrite mapM_outcome_fmap.
    rewrite (mapM_outcome_pure _ (fun kv => quote kv.1 +:+ ":" +:+ kv.2)) by done. done.
Qed.
