(* ===== verification/TextChecks.v ===== *)
(** The text formats the module services accept: identifiers, versions, digests, printable
    text and relative POSIX paths, as their regular expressions and [pathlib] read them. *)

From stdpp Require Import base gmap sets list strings.
From Stdlib Require Import ZArith Ascii.
From S2P Require Import Prelude PyText PyVal Json.

(** ** Character classes *)

Definition digit_char (c : ascii) : bool := (48 <=? code c) && (code c <=? 57).
Definition lower_char_class (c : ascii) : bool := (97 <=? code c) && (code c <=? 122).
Definition upper_char_class (c : ascii) : bool := (65 <=? code c) && (code c <=? 90).

(** [_ID_PATTERN]: [^[a-z0-9][a-z0-9_.-]{0,63}$] *)
Definition lower_id_head (c : ascii) : bool := lower_char_class c || digit_char c.
Definition lower_id_char (c : ascii) : bool :=
  lower_id_head c || (code c =? 95) || (code c =? 46) || (code c =? 45).
Definition is_lower_id (s : string) : bool :=
  match s with
  | "" => false
  | String c t => lower_id_head c && str_forallb lower_id_char t && (String.length t <=? 63)
  end.

(** [_SYMBOL_PATTERN]: [^[A-Za-z_][A-Za-z0-9_]{0,63}$] *)
Definition symbol_head (c : ascii) : bool := lower_char_class c || upper_char_class c || (code c =? 95).
Definition is_symbol (s : string) : bool :=
  match s with
  | "" => false
  | String c t => symbol_head c && str_forallb (fun d => symbol_head d || digit_char d) t
                  && (String.length t <=? 63)
  end.

(** [[A-Za-z0-9_.:-]+] *)
Definition name_char (c : ascii) : bool :=
  symbol_head c || digit_char c || (code c =? 46) || (code c =? 58) || (code c =? 45).
Definition is_name (s : string) : bool := is_nonempty s && str_forallb name_char s.

(** [_HEX64_PATTERN]: [^[0-9a-f]{64}$] *)
Definition hex_char (c : ascii) : bool := digit_char c || ((97 <=? code c) && (code c <=? 102)).
Definition is_hex64 (s : string) : bool := str_forallb hex_char s && (String.length s =? 64).

(** [s.split(c)] *)
Fixpoint split_on (c : ascii) (s : string) : list string :=
  match s with
  | "" => [""]
  | String d t =>
      if bool_decide (d = c) then "" :: split_on c t
      else match split_on c t with
           | [] => [String d ""]
           | w :: ws => String d w :: ws
           end
  end.

(** [_SEMVER_PATTERN]: three numerals without leading zeros. *)
Definition is_numeral (s : string) : bool :=
  match s with
  | "" => false
  | String c t => digit_char c && str_forallb digit_char t && (negb (code c =? 48) || negb (is_nonempty t))
  end.
Definition is_semver (s : string) : bool :=
  match split_on "." s with
  | [a; b; c] => is_numeral a && is_numeral b && is_numeral c
  | _ => false
  end.

(** ** Printable text *)

(** [not (ord(char) < 32 or ord(char) > 126)] for every character: [Json.printable]. *)
Definition all_printable (s : string) : bool := str_forallb printable s.

(** ** Paths *)

(** [PurePosixPath(s)]: whether it is absolute, and its parts below the root; empty and [.]
    segments vanish. *)
Definition path_absolute (s : string) : bool := startswith "/" s.
Definition path_parts (s : string) : list string :=
  filter (fun w => w <> "" /\ w <> ".") (split_on "/" s).
(** [str(path)] of a relative path. *)
Definition path_text (parts : list string) : string := match parts with [] => "." | _ => join "/" parts end.

Definition str_contains (c : ascii) (s : string) : bool := negb (str_forallb (fun d => negb (bool_decide (d = c))) s).
Definition backslash : ascii := "092".
Definition nul : ascii := "000".

(** ** Stripping *)

Lemma rstrip_length s : String.length (rstrip s) <= String.length s.
Proof. induction s as [|c s IH]; [done|]. cbn. repeat case_match; cbn in *; lia. Qed.

Lemma lstrip_length s : String.length (lstrip s) <= String.length s.
Proof. induction s as [|c s IH]; [done|]. cbn. case_match; cbn; lia. Qed.

Lemma strip_length s : String.length (strip s) <= String.length s.
Proof. unfold strip. etrans; [apply rstrip_length|apply lstrip_length]. Qed.

Lemma rstrip_cons c s :
  rstrip (String c s) = if is_space c && negb (is_nonempty (rstrip s)) then "" else String c (rstrip s).
Proof. cbn. destruct (rstrip s); cbn; [|by rewrite andb_false_r]. by destruct (is_space c). Qed.

Lemma rstrip_rstrip s : rstrip (rstrip s) = rstrip s.
Proof.
  induction s as [|c s IH]; [done|]. rewrite rstrip_cons.
  destruct (is_space c && _) eqn:E; [done|]. by rewrite rstrip_cons, IH, E.
Qed.

Lemma lstrip_head s : match lstrip s with "" => True | String c _ => is_space c = false end.
Proof. induction s as [|c s IH]; [done|]. cbn. by destruct (is_space c) eqn:E. Qed.

Lemma lstrip_id s : match s with "" => True | String c _ => is_space c = false end -> lstrip s = s.
Proof. destruct s as [|c s]; [done|]. cbn. by intros ->. Qed.

Lemma rstrip_head c s : is_space c = false -> exists t, rstrip (String c s) = String c t.
Proof. intros H. rewrite rstrip_cons, H. cbn. by eexists. Qed.

Lemma strip_strip s : strip (strip s) = strip s.
Proof.
  unfold strip. pose proof (lstrip_head s) as H. destruct (lstrip s) as [|c t]; [done|].
  destruct (rstrip_head c t H) as [u Hu]. rewrite Hu, lstrip_id by done. by rewrite <- Hu, rstrip_rstrip.
Qed.

Lemma str_forallb_lstrip f s : str_forallb f s = true -> str_forallb f (lstrip s) = true.
Proof. induction s as [|c s IH]; [done|]. cbn. intros [Hc Hs]%andb_true_iff. case_match; [auto|]. cbn. by rewrite Hc, Hs. Qed.

Lemma str_forallb_rstrip f s : str_forallb f s = true -> str_forallb f (rstrip s) = true.
Proof.
  induction s as [|c s IH]; [done|]. intros [Hc Hs]%andb_true_iff. rewrite rstrip_cons.
  case_match; [done|]. cbn. by rewrite Hc, IH.
Qed.

Lemma str_forallb_strip f s : str_forallb f s = true -> str_forallb f (strip s) = true.
Proof. intros H. by apply str_forallb_rstrip, str_forallb_lstrip. Qed.

Lemma is_blank_strip s : is_blank (strip s) = is_blank s.
Proof. unfold is_blank. by rewrite strip_strip. Qed.

(** ** Normal paths *)

Lemma split_on_nonempty c s : split_on c s <> [].
Proof. destruct s as [|d s]; [done|]. cbn. case_bool_decide; [done|]. by destruct (split_on c s). Qed.

Lemma split_on_cons c d s : split_on c (String d s) =
  if bool_decide (d = c) then "" :: split_on c s
  else match split_on c s with [] => [String d ""] | w :: ws => String d w :: ws end.
Proof. done. Qed.

Definition lacks (c : ascii) (w : string) : Prop := str_forallb (fun d => negb (bool_decide (d = c))) w = true.

Lemma split_on_lacks c s : Forall (lacks c) (split_on c s).
Proof.
  induction s as [|d s IH]; [by repeat constructor|]. rewrite split_on_cons.
  case_bool_decide as Hd; [by constructor|]. destruct (split_on c s) as [|w ws].
  - constructor; [|constructor]. unfold lacks. cbn. by rewrite bool_decide_false.
  - inversion IH; subst. constructor; [|done]. unfold lacks in *. cbn. by rewrite bool_decide_false.
Qed.

Lemma split_on_word c w : lacks c w -> split_on c w = [w].
Proof.
  induction w as [|d w IH]; [done|]. unfold lacks. cbn [str_forallb]. intros [Hd Hw]%andb_true_iff.
  rewrite split_on_cons. apply negb_true_iff in Hd. rewrite Hd. by rewrite IH.
Qed.

Lemma split_on_app c w s : lacks c w -> split_on c (w +:+ String c s) = w :: split_on c s.
Proof.
  induction w as [|d w IH]; intros H.
  - cbn. by rewrite bool_decide_true.
  - unfold lacks in H. cbn [str_forallb] in H. apply andb_true_iff in H as [Hd Hw]. apply negb_true_iff in Hd.
    change (split_on c (String d (w +:+ String c s)) = String d w :: split_on c s).
    rewrite split_on_cons, Hd. by rewrite IH.
Qed.

Lemma split_on_join c ws : ws <> [] -> Forall (lacks c) ws -> split_on c (join (String c "") ws) = ws.
Proof.
  induction ws as [|w [|v ws] IH]; intros Hne Hws; [done| |].
  - rewrite join_one. apply split_on_word. by inversion Hws.
  - rewrite join_cons. apply Forall_cons in Hws as [Hw Hws]. cbn [String.append].
    rewrite split_on_app by done. f_equal. by apply IH.
Qed.

(** The text of a path's parts has these parts. *)
Lemma path_parts_text s : path_parts (path_text (path_parts s)) = path_parts s.
Proof.
  unfold path_text. destruct (path_parts s) as [|w ws] eqn:E; [done|].
  assert (Forall (lacks "/") (w :: ws) /\ Forall (fun w => w <> "" /\ w <> ".") (w :: ws)) as [H1 H2].
  { rewrite <- E. unfold path_parts. split.
    - rewrite Forall_forall. intros x [_ Hx]%list_elem_of_filter. pose proof (split_on_lacks "/" s) as Hl.
      rewrite Forall_forall in Hl. by apply Hl.
    - rewrite Forall_forall. by intros x [Hx _]%list_elem_of_filter. }
  unfold path_parts at 1. rewrite split_on_join by done. clear E H1.
  induction H2 as [|x l Hx _ IH]; [done|]. rewrite filter_cons_True by done. by f_equal.
Qed.

Lemma path_text_relative s : path_absolute (path_text (path_parts s)) = false.
Proof.
  unfold path_text, path_absolute. destruct (path_parts s) as [|w ws] eqn:E; [done|].
  assert (w ∈ path_parts s) as Hw by (rewrite E; left). unfold path_parts in Hw.
  apply list_elem_of_filter in Hw as [[Hne _] Hin]. pose proof (split_on_lacks "/" s) as Hl.
  rewrite Forall_forall in Hl. specialize (Hl w Hin).
  destruct w as [|c w]; [done|]. unfold lacks in Hl. cbn [str_forallb] in Hl. apply andb_true_iff in Hl as [Hc _].
  apply negb_true_iff, bool_decide_eq_false in Hc.
  destruct ws; [rewrite join_one|rewrite join_cons]; cbn; destruct (decide _); congruence.
Qed.

(** ** Splitting and joining *)

Lemma join_split_on c s : join (String c "") (split_on c s) = s.
Proof.
  induction s as [|d s IH]; [done|]. rewrite split_on_cons. pose proof (split_on_nonempty c s) as Hne.
  case_bool_decide as Hd; subst; destruct (split_on c s) as [|w ws]; [done| |done|].
  - rewrite join_cons. cbn. by rewrite IH.
  - destruct ws as [|v ws]; [rewrite join_one in *; by rewrite IH|]. rewrite join_cons in *. cbn. by rewrite <- IH.
Qed.

Lemma join_length_cons sep w ws : String.length (join sep ws) <= String.length (join sep (w :: ws)).
Proof. destruct ws as [|v ws]; [apply Nat.le_0_l|]. rewrite join_cons, !length_app_str. lia. Qed.

Lemma join_length_mono sep w ws vs : String.length (join sep ws) <= String.length (join sep vs) ->
  (vs = [] -> ws = []) -> String.length (join sep (w :: ws)) <= String.length (join sep (w :: vs)).
Proof.
  intros Hl Hn. destruct ws as [|u ws], vs as [|v vs]; [done| | |].
  - rewrite join_one, join_cons, !length_app_str. lia.
  - by specialize (Hn eq_refl).
  - rewrite !join_cons, !length_app_str. lia.
Qed.

Lemma join_filter_length sep (P : string -> Prop) `{!forall w, Decision (P w)} ws :
  String.length (join sep (filter P ws)) <= String.length (join sep ws).
Proof.
  induction ws as [|w ws IH]; [done|]. destruct (decide (P w)).
  - rewrite filter_cons_True by done. apply join_length_mono; [done|]. by intros ->.
  - rewrite filter_cons_False by done. etrans; [exact IH|apply join_length_cons].
Qed.

Lemma str_forallb_join f sep ws : str_forallb f sep = true ->
  Forall (fun w => str_forallb f w = true) ws -> str_forallb f (join sep ws) = true.
Proof.
  intros Hs. induction 1 as [|w ws Hw Hws IH]; [done|]. destruct ws as [|v ws]; [by rewrite join_one|].
  by rewrite join_cons, !str_forallb_app, Hw, Hs, IH.
Qed.

Lemma split_on_forallb f c s : str_forallb f s = true -> Forall (fun w => str_forallb f w = true) (split_on c s).
Proof.
  induction s as [|d s IH]; [by repeat constructor|]. cbn [str_forallb]. intros [Hd Hs]%andb_true_iff.
  rewrite split_on_cons. specialize (IH Hs). case_bool_decide; [by constructor|].
  destruct (split_on c s) as [|w ws]; [constructor; [cbn; by rewrite Hd|constructor]|].
  inversion IH; subst. constructor; [|done]. cbn. by rewrite Hd.
Qed.

Lemma path_text_length s : path_parts s <> [] -> String.length (path_text (path_parts s)) <= String.length s.
Proof.
  intros Hne. unfold path_text. destruct (path_parts s) as [|w ws] eqn:E; [done|]. rewrite <- E.
  rewrite <- (join_split_on "/" s) at 2. apply join_filter_length.
Qed.

Lemma path_text_forallb f s : f "/"%char = true -> path_parts s <> [] -> str_forallb f s = true ->
  str_forallb f (path_text (path_parts s)) = true.
Proof.
  intros Hf Hne Hs. unfold path_text. destruct (path_parts s) as [|w ws] eqn:E; [done|]. rewrite <- E.
  apply str_forallb_join; [cbn; by rewrite Hf|]. unfold path_parts. rewrite Forall_forall.
  intros x [_ Hx]%list_elem_of_filter. pose proof (split_on_forallb f "/" s Hs) as H. rewrite Forall_forall in H. by apply H.
Qed.

Lemma path_text_nonempty s : path_parts s <> [] -> is_nonempty (path_text (path_parts s)) = true.
Proof.
  unfold path_text. destruct (path_parts s) as [|w ws] eqn:E; [done|]. intros _.
  assert (w ∈ path_parts s) as Hw by (rewrite E; left). unfold path_parts in Hw.
  apply list_elem_of_filter in Hw as [[Hne _] _]. destruct w; [done|]. destruct ws; [by rewrite join_one|by rewrite join_cons].
Qed.

Lemma str_contains_path c s : c <> "/"%char -> path_parts s <> [] -> str_contains c s = false ->
  str_contains c (path_text (path_parts s)) = false.
Proof.
  intros Hc Hne. unfold str_contains. rewrite !negb_false_iff. apply path_text_forallb; [|done].
  by rewrite bool_decide_false.
Qed.
