(* ===== verification/BodyRecord.v ===== *)
(** [services/body_state_bridge.py]: the check of one sensor or health record, and the bridge
    that keeps the newest record of every module and publishes one snapshot of them.

    The clock, the journal and the snapshot file are operations of the environment; the
    bodies of [_append_journal] and [_write_atomic_json] below [json.dumps] are file system
    calls and are one operation each. *)

From stdpp Require Import base gmap sets list strings sorting.
From Stdlib Require Import ZArith Ascii SpecFloat.
From S2P Require Import Prelude PyText PyVal Json PyFloat StrDict Effects StateProg PyJson.

Definition BODY_STATE_SNAPSHOT_SCHEMA : string := "velvet.runtime.body_state_snapshot.v1".

Definition forbidden_fields : list string :=
  ["action"; "actuate"; "actuation"; "capability"; "capability_token"; "command"; "executor";
   "executor_name"; "hardware_target"; "route_id"; "shell"; "target"; "token"].
Definition false_only_claims : list string :=
  ["actuation_granted"; "actuation_performed"; "actuation_authorized"; "execution_authorized";
   "grants_authority"; "grants_execution"; "grants_actuation"].

Definition bridge_error {A} (msg : string) : outcome A := raise BodyStateBridgeError msg.

(** ** Authority claims *)

(** The tests [_reject_authority] makes on one member. *)
Definition reject_member (path name : string) (item : pyval) : outcome unit :=
  if bool_decide (name ∈ forbidden_fields)
  then bridge_error ("body record contains forbidden authority field: " +:+ path +:+ "." +:+ name)
  else if bool_decide (name ∈ false_only_claims) && negb (is_false_obj item)
  then bridge_error ("body record contains unsafe claim: " +:+ path +:+ "." +:+ name)
  else Ok tt.

(** [_reject_authority] *)
Fixpoint reject_authority (value : pyval) (path : string) : outcome unit :=
  let elements := fix go l (index : Z) := match l with
    | [] => Ok tt
    | item :: l' => let? _ := reject_authority item (path +:+ "[" +:+ str_of_Z index +:+ "]") in go l' (index + 1)%Z
    end in
  match value with
  | PDict kvs =>
      (fix go kvs := match kvs with
       | [] => Ok tt
       | kv :: kvs' =>
           let name := py_str kv.1 in
           let? _ := reject_member path name kv.2 in
           let? _ := reject_authority kv.2 (path +:+ "." +:+ name) in go kvs'
       end) kvs
  | PList l | PTuple l => elements l 0%Z
  | _ => Ok tt
  end.

(** [_copy_mapping], on the value of a member. *)
Fixpoint copy_value (v : pyval) : pyval :=
  match v with
  | PDict kvs => PDict (dict_of_items ((fun kv => (PStr (py_str kv.1), copy_value kv.2)) <$> kvs))
  | PList l => PList ((fun e => match e with PDict _ => copy_value e | _ => e end) <$> l)
  | _ => v
  end.

(** [_required_text] *)
Definition record_text (payload : items) (key : string) : outcome string :=
  match get payload key with
  | PStr s => if is_blank s then bridge_error (key +:+ " must be a non-empty string") else Ok (strip s)
  | _ => bridge_error (key +:+ " must be a non-empty string")
  end.

Fixpoint record_texts (payload : items) (keys : list string) : outcome unit :=
  match keys with
  | [] => Ok tt
  | k :: keys' => let? _ := record_text payload k in record_texts payload keys'
  end.

(** The timestamp of a payload: real, and not negative. *)
Definition check_timestamp (payload : items) : outcome unit :=
  let bad := bridge_error "payload timestamp must be non-negative numeric" in
  let ts := get payload "timestamp" in
  if negb (is_real ts) then bad else
  let? f := py_float ts in if flt f f0 then bad else Ok tt.

(** [validate_body_record] *)
Definition validate_body_record (record : pyval) : outcome items :=
  match record with
  | PDict kvs =>
      let? _ := reject_authority record "record" in
      let family := lower (strip (py_str (dict_get_default kvs "family" ""))) in
      let event_type := upper (strip (py_str (dict_get_default kvs "event_type" ""))) in
      let? _ :=
        if bool_decide (family = "sensor") then
          if bool_decide (event_type <> "SENSOR_PACKET_OBSERVED")
          then bridge_error "sensor record has unexpected event_type" else Ok tt
        else if bool_decide (family = "health") then
          if negb (startswith "HEALTH_" event_type)
          then bridge_error "health record has unexpected event_type" else Ok tt
        else bridge_error "body record family must be sensor or health" in
      match get kvs "payload" with
      | PDict payload =>
          let? _ := record_texts payload ["module_id"; "node_id"; "owning_handmaiden"; "receipt_id"] in
          let? _ := check_timestamp payload in
          let? _ :=
            if bool_decide (family = "sensor") then
              let? _ := record_texts payload
                ["sensor_type"; "interface_type"; "health_state"; "calibration_version"] in
              if negb (is_mapping (get payload "payload"))
              then bridge_error "sensor payload must contain a payload mapping" else Ok tt
            else
              let? _ := record_texts payload
                ["event_id"; "event_type"; "severity"; "state_before"; "state_after"] in
              if negb (is_mapping (get payload "diagnostic_payload"))
              then bridge_error "health payload must contain diagnostic_payload mapping" else Ok tt in
          match copy_value record with PDict copied => Ok copied | _ => Ok [] end
      | _ => bridge_error "body record payload must be a mapping"
      end
  | _ => raise TypeError "body record must be a mapping"
  end.

(** ** The bridge *)

Record bridge_config := mkBridgeConfig { bc_max_modules : Z; bc_journal : bool }.

(** [BodyStateSnapshotBridge.__init__], before it loads the existing snapshot. *)
Definition make_bridge_config (max_modules : Z) (journal : bool) : outcome bridge_config :=
  if negb ((1 <=? max_modules)%Z && (max_modules <=? 4096)%Z)
  then raise ValueError "max_modules must be between 1 and 4096"
  else Ok (mkBridgeConfig max_modules journal).

Record bridge := mkBridge { br_sensors : sdict items; br_health : sdict items }.
Definition new_bridge : bridge := mkBridge [] [].

Definition payload_of (record : items) : items :=
  match get record "payload" with PDict p => p | _ => [] end.
Definition module_key (record : items) : string := py_str (get (payload_of record) "module_id").
Definition record_time (record : items) : outcome float := py_float (get (payload_of record) "timestamp").

(** The table [_apply] files a record in: the family is lower-cased, not stripped. *)
Definition files_as_sensor (record : items) : bool :=
  bool_decide (lower (py_str (get record "family")) = "sensor").
Definition table_of (sensor : bool) (b : bridge) : sdict items := if sensor then br_sensors b else br_health b.
Definition set_table (sensor : bool) (t : sdict items) (b : bridge) : bridge :=
  if sensor then mkBridge t (br_health b) else mkBridge (br_sensors b) t.

Section Bridge.
Context (cfg : bridge_config).

(** [_apply] *)
Definition apply_record (record : items) (b : bridge) : outcome unit * bridge :=
  let sensor := files_as_sensor record in
  let target := table_of sensor b in
  let module_id := module_key record in
  let current := d_get target module_id in
  let older := match current with
    | Some held =>
        let? current_timestamp := record_time held in
        let? incoming_timestamp := record_time record in
        Ok (flt incoming_timestamp current_timestamp)
    | None => Ok false
    end in
  match older with
  | Err e => (Err e, b)
  | Ok true => (Ok tt, b)
  | Ok false =>
      match current with
      | None =>
          if (bc_max_modules cfg <=? Z.of_nat (length target))%Z
          then (bridge_error "body-state module limit reached", b)
          else (Ok tt, set_table sensor (d_set target module_id record) b)
      | Some _ => (Ok tt, set_table sensor (d_set target module_id record) b)
      end
  end.

(** ** Snapshots *)

(** [sorted(table.values(), key=...)]: by the module identity of the payload. *)
Definition sorted_records (t : sdict items) : list items :=
  py_sorted (fun a b => str_lt (module_key a) (module_key b)) t.*2.

(** The receipt identities of the records, each once, in order. *)
Definition add_receipt (ids : list string) (record : items) : list string :=
  match get (payload_of record) "receipt_id" with
  | PStr s => if is_nonempty s && negb (bool_decide (s ∈ ids)) then ids ++ [s] else ids
  | _ => ids
  end.
Definition receipt_ids (records : list items) : list string := fold_left add_receipt records [].

(** The document of [snapshot()]. *)
Definition snapshot_document (b : bridge) (captured_at generated : float) : items :=
  let records := sorted_records (br_sensors b) ++ sorted_records (br_health b) in
  str_items
    [("schema", PStr BODY_STATE_SNAPSHOT_SCHEMA);
     ("captured_at", PFloat captured_at);
     ("generated_monotonic", PFloat generated);
     ("record_count", PInt (Z.of_nat (length records)));
     ("sensor_count", PInt (Z.of_nat (length (br_sensors b))));
     ("health_event_count", PInt (Z.of_nat (length (br_health b))));
     ("records", PList ((fun r => copy_value (PDict r)) <$> records));
     ("receipt_ids", strs (receipt_ids records));
     ("mode", PStr "display-only");
     ("read_only", PBool true);
     ("authority", PStr "none");
     ("actuation_granted", PBool false);
     ("actuation_performed", PBool false)].

(** ** Operations of the environment *)

Inductive bop : Type -> Type :=
| BTime : bop float
| BMonotonic : bop float
| BJournal (line : string) : bop unit
| BSnapshotExists : bop bool
| BSnapshotIsFile : bop bool
| BReadSnapshot : bop string
| BWriteSnapshot (document : items) : bop unit.

Inductive bevent : Type :=
| EvTime (o : outcome float)
| EvMonotonic (o : outcome float)
| EvJournal (line : string) (o : outcome unit)
| EvExists (o : outcome bool)
| EvIsFile (o : outcome bool)
| EvRead (o : outcome string)
| EvWrite (document : items) (o : outcome unit).

Definition blog (X : Type) (op : bop X) : outcome X -> bevent :=
  match op in bop X return outcome X -> bevent with
  | BTime => EvTime
  | BMonotonic => EvMonotonic
  | BJournal l => EvJournal l
  | BSnapshotExists => EvExists
  | BSnapshotIsFile => EvIsFile
  | BReadSnapshot => EvRead
  | BWriteSnapshot d => EvWrite d
  end.

Abbreviation bsvc := (stprog bop bridge).

(** [_append_journal] *)
Definition append_journal (record : items) : bsvc unit :=
  if negb (bc_journal cfg) then finish (Ok tt)
  else let^ line := finish (py_dumps true (PDict record)) in perform (BJournal (line +:+ String "010" "")).

(** [snapshot] *)
Definition snapshot : bsvc items :=
  let^ captured := perform BTime in
  let^ generated := perform BMonotonic in
  reads (fun b => snapshot_document b captured generated).

(** The loop of [publish_many]; the result says whether a record was accepted. *)
Fixpoint publish_loop (records : list pyval) : bsvc bool :=
  match records with
  | [] => finish (Ok false)
  | record :: rest =>
      let^ normalized := finish (validate_body_record record) in
      let^ _ := append_journal normalized in
      let^ _ := embed (apply_record normalized) in
      let^ _ := publish_loop rest in finish (Ok true)
  end.

(** [publish_many] *)
Definition publish_many (records : list pyval) : bsvc items :=
  let^ accepted := publish_loop records in
  let^ document := snapshot in
  let^ write := if accepted : bool then finish (Ok true)
                else let^ there := perform BSnapshotExists in finish (Ok (negb there)) in
  let^ _ := if write : bool then perform (BWriteSnapshot document) else finish (Ok tt) in
  finish (Ok document).

(** [publish] *)
Definition publish (record : pyval) : bsvc items := publish_many [record].

(** [except (TypeError, ValueError)] *)
Definition skips_record (e : exn) : bool := bool_decide (exn_class e = TypeError) || is_ValueError e.

Fixpoint load_records (records : list pyval) : bsvc unit :=
  match records with
  | [] => finish (Ok tt)
  | record :: rest =>
      let^ _ := then_ (let^ normalized := finish (validate_body_record record) in embed (apply_record normalized))
        (fun o => match o with
         | Err e => if skips_record e then finish (Ok tt) else finish (Err e)
         | Ok _ => finish (Ok tt)
         end) in
      load_records rest
  end.

(** [_load_existing_snapshot] *)
Definition load_existing_snapshot : bsvc unit :=
  let^ there := perform BSnapshotIsFile in
  if negb there then finish (Ok tt) else
  then_ (perform BReadSnapshot) (fun o => match o with
    | Err e => if is_OSError e then finish (Ok tt) else finish (Err e)
    | Ok content =>
        match loads content with
        | Ok (PDict document) =>
            if negb (eq_str (get document "schema") BODY_STATE_SNAPSHOT_SCHEMA) then finish (Ok tt) else
            match get document "records" with
            | PList records => load_records records
            | _ => finish (Ok tt)
            end
        | _ => finish (Ok tt)
        end
    end).

End Bridge.
