(* ===== verification/BodyTheorems.v ===== *)
(** What the body-state bridge keeps and publishes: records without authority claims, at most
    the configured number of modules per family, and of every module the newest record. *)

From stdpp Require Import base gmap sets list strings sorting.
From Stdlib Require Import ZArith Ascii SpecFloat.
From S2P Require Import Prelude PyText PyVal Json PyFloat StrDict Effects StateProg PyJson BodyRecord.

(** ** Values without authority claims *)

Section ValueInd.
Variable P : pyval -> Prop.
Hypothesis P_atom : forall v, (match v with PList _ | PTuple _ | PDict _ => False | _ => True end) -> P v.
Hypothesis P_list : forall l, Forall P l -> P (PList l).
Hypothesis P_tuple : forall l, Forall P l -> P (PTuple l).
Hypothesis P_dict : forall kvs, Forall (fun kv => P kv.2) kvs -> P (PDict kvs).

Fixpoint pyval_nested_ind (v : pyval) : P v :=
  let go := fix go l := match l return Forall P l with
    | [] => Forall_nil_2 _
    | x :: l' => Forall_cons_2 _ _ _ (pyval_nested_ind x) (go l')
    end in
  match v with
  | PList l => P_list l (go l)
  | PTuple l => P_tuple l (go l)
  | PDict kvs => P_dict kvs
      ((fix go kvs := match kvs return Forall (fun kv => P kv.2) kvs with
        | [] => Forall_nil_2 _
        | x :: l' => Forall_cons_2 _ _ _ (pyval_nested_ind x.2) (go l')
        end) kvs)
  | PNone => P_atom PNone I
  | PBool b => P_atom (PBool b) I
  | PInt z => P_atom (PInt z) I
  | PFloat f => P_atom (PFloat f) I
  | PStr s => P_atom (PStr s) I
  end.
End ValueInd.

(** A member that claims nothing. *)
Definition innocent (name : string) (item : pyval) : bool :=
  negb (bool_decide (name ∈ forbidden_fields))
  && (negb (bool_decide (name ∈ false_only_claims)) || is_false_obj item).

Fixpoint claim_free (v : pyval) : bool :=
  match v with
  | PDict kvs => forallb (fun kv => innocent (py_str kv.1) kv.2 && claim_free kv.2) kvs
  | PList l | PTuple l => forallb claim_free l
  | _ => true
  end.

Lemma reject_member_ok path name item u : reject_member path name item = Ok u <-> innocent name item = true.
Proof.
  unfold reject_member, innocent. destruct u. repeat case_bool_decide; cbn; try done;
    by destruct (is_false_obj item).
Qed.

(** [_reject_authority] accepts exactly the values without a claim, at any depth. *)
Lemma reject_authority_ok v : forall path u, reject_authority v path = Ok u <-> claim_free v = true.
Proof.
  assert (forall l, Forall (fun v => forall path u, reject_authority v path = Ok u <-> claim_free v = true) l ->
    forall path i u, (fix go l (index : Z) := match l with
      | [] => Ok tt
      | item :: l' => let? _ := reject_authority item (path +:+ "[" +:+ str_of_Z index +:+ "]") in go l' (index + 1)%Z
      end) l i = Ok u <-> forallb claim_free l = true) as Hl.
  { clear v. intros l H path. induction H as [|w l Hv Hl IH]; intros i u; [by destruct u|].
    cbn [forallb]. rewrite andb_true_iff, <- (IH (i + 1)%Z u), <- (Hv (path +:+ "[" +:+ str_of_Z i +:+ "]") tt).
    destruct (reject_authority w _) as [[]|e]; cbn [outcome_bind]; naive_solver. }
  induction v as [v Hv|l H|l H|kvs H] using pyval_nested_ind; intros path u.
  - destruct v; try done; by destruct u.
  - apply Hl. done.
  - apply Hl. done.
  - cbn [reject_authority claim_free]. induction H as [|[k v] kvs Hv _ IH]; [by destruct u|].
    cbn [forallb fst snd] in *. rewrite !andb_true_iff, <- IH.
    rewrite <- (reject_member_ok path (py_str k) v tt), <- (Hv (path +:+ "." +:+ py_str k) tt).
    destruct (reject_member path (py_str k) v) as [[]|e]; cbn [outcome_bind]; [|naive_solver].
    destruct (reject_authority v (path +:+ "." +:+ py_str k)) as [[]|e]; cbn [outcome_bind]; naive_solver.
Qed.

(** Where the items of an assembled dictionary come from. *)
Lemma dict_set_in (d : items) (k : string) v kv :
  Forall (fun kv => is_str kv.1 = true) d -> kv ∈ dict_set d k v -> kv = (PStr k, v) \/ kv ∈ d.
Proof.
  induction 1 as [|[k' v'] d Hk _ IH]; cbn; [by intros ->%list_elem_of_singleton; left|].
  destruct k'; try done. cbn. case_bool_decide as Hs; intros [->|Hin]%elem_of_cons; subst.
  - by left.
  - right. by right.
  - right. by left.
  - destruct (IH Hin) as [->|]; [by left|right; by right].
Qed.

Lemma dict_set_str (d : items) (k : string) v :
  Forall (fun kv => is_str kv.1 = true) d -> Forall (fun kv => is_str kv.1 = true) (dict_set d k v).
Proof. induction 1 as [|[k' v'] d Hk Hd IH]; cbn; [by repeat constructor|]. case_match; by constructor. Qed.

Lemma dict_of_items_in (l : items) kv :
  Forall (fun kv => is_str kv.1 = true) l -> kv ∈ dict_of_items l -> kv ∈ l.
Proof.
  intros Hl. assert (Forall (fun kv => is_str kv.1 = true) (dict_of_items l) /\
    (kv ∈ dict_of_items l -> kv ∈ l)) as [_ H]; [|done].
  unfold dict_of_items. induction l as [|[k v] l IH] using rev_ind.
  { split; [constructor|done]. }
  apply Forall_app in Hl as [Hl Hk]. destruct (IH Hl) as [Hs Hin]. rewrite fold_left_app. cbn [fold_left fst snd].
  inversion Hk as [|? ? Hk' _]; subst. destruct k; try done. split; [by apply dict_set_str|].
  intros [->|H]%dict_set_in; [apply elem_of_app; right; by left| |done]. apply elem_of_app. left. by apply Hin.
Qed.

Lemma innocent_copy name v : innocent name (copy_value v) = innocent name v.
Proof. unfold innocent. by destruct v. Qed.

(** Copying a record adds no claim. *)
Lemma claim_free_copy v : claim_free v = true -> claim_free (copy_value v) = true.
Proof.
  induction v as [v Hv|l H|l H|kvs H] using pyval_nested_ind; intros Ha.
  - by destruct v.
  - cbn [copy_value claim_free] in *. rewrite forallb_Forall in *. apply Forall_fmap.
    rewrite Forall_forall in *. intros x Hx. specialize (H x Hx). specialize (Ha x Hx).
    destruct x; cbn; try done. by apply H.
  - done.
  - cbn [copy_value claim_free] in *. rewrite forallb_Forall in *. rewrite Forall_forall in *.
    intros kv Hkv. apply dict_of_items_in in Hkv; [|by apply Forall_fmap, Forall_forall].
    apply list_elem_of_fmap in Hkv as ([k v] & -> & Hin). specialize (Ha _ Hin). specialize (H _ Hin).
    cbn [fst snd] in *. apply andb_true_iff in Ha as [Hi Hf]. rewrite innocent_copy.
    apply andb_true_iff. split; [done|by apply H].
Qed.

(** ** Validated records *)

Lemma record_texts_ok p ks u : record_texts p ks = Ok u <-> forall k, k ∈ ks -> exists s, record_text p k = Ok s.
Proof.
  induction ks as [|k ks IH]; cbn [record_texts].
  - destruct u. split; [by intros _ k ?%elem_of_nil|done].
  - destruct (record_text p k) as [s|e] eqn:E; cbn [outcome_bind].
    + rewrite IH. split; [intros H k' [->|Hk]%elem_of_cons; eauto|intros H k' Hk; apply H; by right].
    + split; [done|]. intros H. destruct (H k) as [s Hs]; [left|]. congruence.
Qed.

Lemma check_timestamp_ok p u : check_timestamp p = Ok u ->
  is_real (get p "timestamp") = true /\ exists f, py_float (get p "timestamp") = Ok f /\ flt f f0 = false.
Proof.
  unfold check_timestamp, bridge_error. destruct (is_real _); cbn [negb]; [|done].
  destruct (py_float (get p "timestamp")) as [f|e]; cbn [outcome_bind]; [|done].
  destruct (flt f f0) eqn:E; [done|]. intros _. split; [done|]. by exists f.
Qed.

(** The original of a validated record. *)
Record validated (record : pyval) (r : items) : Prop := {
  vr_copy : copy_value record = PDict r;
  vr_free : claim_free record = true
}.

Lemma validate_body_record_ok record r : validate_body_record record = Ok r -> validated record r.
Proof.
  unfold validate_body_record. destruct record as [| | | | | | |kvs]; try done.
  destruct (reject_authority _ _) as [u|] eqn:Ha; [|done]. apply reject_authority_ok in Ha. cbn [outcome_bind].
  match goal with |- context [outcome_bind ?m] => destruct m as [[]|] end; cbn [outcome_bind]; [|done].
  destruct (get kvs "payload") as [| | | | | | |p]; try done.
  destruct (record_texts p _) as [[]|]; cbn [outcome_bind]; [|done].
  destruct (check_timestamp p) as [[]|]; cbn [outcome_bind]; [|done].
  match goal with |- context [outcome_bind ?m] => destruct m as [[]|] end; cbn [outcome_bind]; [|done].
  cbn [copy_value]. intros [= <-]. by split.
Qed.

Lemma validated_free record r : validated record r -> claim_free (PDict r) = true.
Proof. intros [Hc Hf]. rewrite <- Hc. by apply claim_free_copy. Qed.

(** ** The tables *)

Definition slot (r : items) : bool * string := (files_as_sensor r, module_key r).
Definition in_slot (s : bool) (m : string) (rs : list items) : list items := filter (fun r => slot r = (s, m)) rs.

Definition apply_all (cfg : bridge_config) (rs : list items) (b : bridge) : bridge :=
  fold_left (fun b r => (apply_record cfg r b).2) rs b.

Definition time_lt (x y : items) : bool :=
  match record_time x, record_time y with Ok f, Ok g => flt f g | _, _ => false end.

(** A record with a timestamp that compares. *)
Definition timed (r : items) : bool :=
  match record_time r with Ok f => negb (fnan f) | Err _ => false end.

(** [r] is the last of the latest records of [l]. *)
Definition newest (l : list items) (r : items) : Prop :=
  exists l1 l2, l = l1 ++ r :: l2 /\ Forall (fun x => time_lt r x = false) l1 /\ Forall (fun x => time_lt x r = true) l2.

Lemma timed_time r : timed r = true -> exists f, record_time r = Ok f /\ fnan f = false.
Proof. unfold timed. destruct (record_time r) as [f|]; [|done]. rewrite negb_true_iff. eauto. Qed.

Lemma time_lt_trans_false x y z : timed x = true -> timed y = true -> timed z = true ->
  time_lt x y = false -> time_lt y z = false -> time_lt x z = false.
Proof.
  intros (f & Hf & Nf)%timed_time (g & Hg & Ng)%timed_time (h & Hh & Nh)%timed_time. unfold time_lt.
  rewrite Hf, Hg, Hh, !flt_negb by done. rewrite !negb_false_iff. intros H1 H2. by eapply fle_trans.
Qed.

Lemma time_lt_asym x y : time_lt x y = true -> time_lt y x = false.
Proof.
  unfold time_lt. destruct (record_time x) as [f|]; [|done]. destruct (record_time y) as [g|]; [|done].
  intros H. destruct (flt g f) eqn:E; [|done]. pose proof (flt_trans _ _ _ H E) as Hf. by rewrite flt_irrefl in Hf.
Qed.

Lemma newest_in l r : newest l r -> r ∈ l.
Proof. intros (l1 & l2 & -> & _). apply elem_of_app. right. by left. Qed.

Lemma newest_snoc_older l r x : newest l r -> time_lt x r = true -> newest (l ++ [x]) r.
Proof.
  intros (l1 & l2 & -> & H1 & H2) Hx. exists l1, (l2 ++ [x]). rewrite <- app_assoc. split_and!; [done..|].
  apply Forall_app. by split; [|constructor].
Qed.

Lemma newest_snoc_latest l r x : Forall (fun y => timed y = true) (l ++ [x]) ->
  newest l r -> time_lt x r = false -> newest (l ++ [x]) x.
Proof.
  intros [Hl Hx]%Forall_app (l1 & l2 & -> & H1 & H2) Ht. inversion Hx as [|? ? Tx _]; subst.
  exists (l1 ++ r :: l2), []. split_and!; [done| |constructor].
  rewrite Forall_forall in Hl. assert (timed r = true) as Tr by (apply Hl, elem_of_app; right; by left).
  rewrite Forall_forall in *. intros y Hy. assert (timed y = true) as Ty by by apply Hl.
  apply (time_lt_trans_false x r y); try done. apply elem_of_app in Hy as [Hy|[->|Hy]%elem_of_cons].
  - by apply H1.
  - unfold time_lt. destruct (timed_time r Tr) as (f & -> & _). by rewrite flt_irrefl.
  - by apply time_lt_asym, H2.
Qed.

(** How one record changes the tables. *)
Inductive applied (cfg : bridge_config) (r : items) (b : bridge) : bridge -> Prop :=
| applied_refused : d_get (table_of (slot r).1 b) (slot r).2 = None ->
    (bc_max_modules cfg <= Z.of_nat (length (table_of (slot r).1 b)))%Z -> applied cfg r b b
| applied_older held : d_get (table_of (slot r).1 b) (slot r).2 = Some held ->
    (timed r = true -> timed held = true -> time_lt r held = true) -> applied cfg r b b
| applied_new : d_get (table_of (slot r).1 b) (slot r).2 = None ->
    (Z.of_nat (length (table_of (slot r).1 b)) < bc_max_modules cfg)%Z ->
    applied cfg r b (set_table (slot r).1 (d_set (table_of (slot r).1 b) (slot r).2 r) b)
| applied_replaced held : d_get (table_of (slot r).1 b) (slot r).2 = Some held -> time_lt r held = false ->
    applied cfg r b (set_table (slot r).1 (d_set (table_of (slot r).1 b) (slot r).2 r) b).

Lemma apply_record_applied cfg r b : applied cfg r b (apply_record cfg r b).2.
Proof.
  unfold apply_record. change (files_as_sensor r) with (slot r).1. change (module_key r) with (slot r).2.
  destruct (d_get (table_of (slot r).1 b) (slot r).2) as [held|] eqn:Hg.
  - destruct (record_time held) as [f|] eqn:Hh; cbn [outcome_bind].
    + destruct (record_time r) as [g|] eqn:Hr; cbn [outcome_bind].
      * destruct (flt g f) eqn:E; cbn [snd].
        -- eapply applied_older; [done|]. intros _ _. unfold time_lt. by rewrite Hr, Hh.
        -- eapply applied_replaced; [done|]. unfold time_lt. by rewrite Hr, Hh.
      * eapply applied_older; [done|]. unfold timed. by rewrite Hr.
    + eapply applied_older; [done|]. unfold timed at 2. by rewrite Hh.
  - destruct (Z.leb_spec (bc_max_modules cfg) (Z.of_nat (length (table_of (slot r).1 b)))); cbn [snd].
    + by apply applied_refused.
    + by apply applied_new.
Qed.

Lemma table_of_set s s' t b : table_of s' (set_table s t b) = if bool_decide (s = s') then t else table_of s' b.
Proof. by destruct s, s'. Qed.

Lemma d_set_length {A} (d : sdict A) k v : length (d_set d k v) = if d_get d k is Some _ then length d else S (length d).
Proof.
  induction d as [|[k' v'] d IH]; [done|]. cbn. case_bool_decide; cbn; [done|]. rewrite IH. by destruct (d_get d k).
Qed.

Lemma applied_length cfg r b b' s : applied cfg r b b' ->
  length (table_of s b) <= length (table_of s b').
Proof.
  intros [| |Hg _|held Hg _]; try done; rewrite table_of_set; case_bool_decide as Hs; subst; try done;
    rewrite d_set_length, Hg; lia.
Qed.

(** What the tables hold after [rs]: the newest record of every slot, unless the table is
    full of other modules. *)
Definition tracks (cfg : bridge_config) (rs : list items) (b : bridge) : Prop := forall s m,
  match d_get (table_of s b) m with
  | Some r => newest (in_slot s m rs) r
  | None => in_slot s m rs = [] \/ (bc_max_modules cfg <= Z.of_nat (length (table_of s b)))%Z
  end.

Lemma in_slot_snoc s m rs r :
  in_slot s m (rs ++ [r]) = in_slot s m rs ++ (if bool_decide (slot r = (s, m)) then [r] else []).
Proof. unfold in_slot. rewrite filter_app. f_equal. cbn. by repeat (case_decide || case_bool_decide). Qed.

Lemma tracks_apply cfg rs r b : Forall (fun r => timed r = true) (rs ++ [r]) ->
  tracks cfg rs b -> tracks cfg (rs ++ [r]) (apply_record cfg r b).2.
Proof.
  intros Ht Hb s m. pose proof (apply_record_applied cfg r b) as Ha. pose proof (applied_length _ _ _ _ s Ha) as Hl.
  specialize (Hb s m). rewrite in_slot_snoc.
  assert (Forall (fun r => timed r = true) (in_slot s m rs ++ [r])) as Ht'.
  { apply Forall_app in Ht as [H1 H2]. apply Forall_app. split; [|done]. unfold in_slot. rewrite Forall_forall in *.
    by intros x [_ Hx%H1]%list_elem_of_filter. }
  destruct Ha as [Hg Hfull|held Hg Hold|Hg Hlt|held Hg Hnew]; destruct (slot r) as [s' m'] eqn:Es; cbn [fst snd] in *.
  - case_bool_decide as E; [simplify_eq; rewrite Hg; by right|]. by rewrite app_nil_r.
  - case_bool_decide as E; [simplify_eq|by rewrite app_nil_r]. rewrite Hg in *.
    apply newest_snoc_older; [done|]. apply Hold.
    + by apply Forall_app in Ht' as [_ H%Forall_inv].
    + apply Forall_app in Ht' as [H _]. rewrite Forall_forall in H. by apply H, newest_in.
  - rewrite table_of_set in *. destruct (bool_decide_reflect ((s', m') = (s, m))) as [E|E].
    + simplify_eq. rewrite bool_decide_true by done. rewrite d_get_set, bool_decide_true by done. rewrite Hg in Hb.
      destruct Hb as [->|Hfull]; [by exists [], []|lia].
    + rewrite app_nil_r. case_bool_decide as Es'; [subst s'|by destruct (d_get _ m)].
      rewrite d_get_set, bool_decide_false by congruence. destruct (d_get _ m); [done|]. destruct Hb; [by left|right; lia].
  - rewrite table_of_set in *. destruct (bool_decide_reflect ((s', m') = (s, m))) as [E|E].
    + simplify_eq. rewrite bool_decide_true by done. rewrite d_get_set, bool_decide_true by done. rewrite Hg in Hb.
      by eapply newest_snoc_latest.
    + rewrite app_nil_r. case_bool_decide as Es'; [subst s'|by destruct (d_get _ m)].
      rewrite d_get_set, bool_decide_false by congruence. destruct (d_get _ m); [done|]. destruct Hb; [by left|right; lia].
Qed.

Lemma tracks_all cfg rs : Forall (fun r => timed r = true) rs -> tracks cfg rs (apply_all cfg rs new_bridge).
Proof.
  induction rs as [|r rs IH] using rev_ind; intros Ht.
  - intros s m. by destruct s; left.
  - unfold apply_all. rewrite fold_left_app. cbn [fold_left]. apply tracks_apply; [done|]. apply IH.
    by apply Forall_app in Ht as [? _].
Qed.

(** ** Every operation of the bridge applies validated records *)

Lemma apply_all_app cfg rs1 rs2 b : apply_all cfg (rs1 ++ rs2) b = apply_all cfg rs2 (apply_all cfg rs1 b).
Proof. apply fold_left_app. Qed.

(** The documents written during a run. *)
Definition writes (tr : list bevent) : list items :=
  omap (fun ev => match ev with EvWrite d _ => Some d | _ => None end) tr.

Lemma writes_app tr1 tr2 : writes (tr1 ++ tr2) = writes tr1 ++ writes tr2.
Proof. apply omap_app. Qed.

Section Runs.
Context (cfg : bridge_config).

Lemma append_journal_ends r b : ends blog (append_journal cfg r) b (fun tr o b' => b' = b /\ writes tr = []).
Proof.
  unfold append_journal. case_match; [by ends_step|]. ends_step. ends_step.
  destruct (py_dumps true (PDict r)) as [line|e]; [|done]. by ends_step.
Qed.

(** The records [publish_loop] has applied when it ends, and that it writes nothing. *)
Lemma publish_loop_ends records : forall b, ends blog (publish_loop cfg records) b (fun tr o b' =>
  writes tr = [] /\ exists norms, Forall2 validated (take (length norms) records) norms /\
    b' = apply_all cfg norms b /\
    match o with Ok acc => length norms = length records /\ acc = negb (bool_decide (records = [])) | Err _ => True end).
Proof.
  induction records as [|record rest IH]; intros b; cbn [publish_loop].
  { ends_step. split; [done|]. exists []. by split_and!; [constructor|..]. }
  ends_step. ends_step. destruct (validate_body_record record) as [r|e] eqn:Hv.
  2: { split; [done|]. exists []. by split_and!; [constructor|..]. }
  apply validate_body_record_ok in Hv. ends_step. eapply ends_mono; [apply append_journal_ends|].
  intros tr o b1 [-> Hn]. destruct o as [[]|e].
  2: { split; [done|]. exists []. by split_and!; [constructor|..]. }
  ends_step. ends_step. destruct (apply_record cfg r b) as [[[]|e] b1] eqn:Hap; cbn [fst snd].
  2: { split; [by rewrite app_nil_r|]. exists [r].
       split_and!; [by constructor; [|constructor]|by unfold apply_all; cbn; rewrite Hap|done]. }
  ends_step. eapply ends_mono; [apply IH|]. intros tr2 o2 b2 (Hw & norms & Hf & -> & Ho).
  assert (Forall2 validated (take (length (r :: norms)) (record :: rest)) (r :: norms) /\
    apply_all cfg norms b1 = apply_all cfg (r :: norms) b) as [H1 H2].
  { split; [by constructor|]. unfold apply_all. cbn. by rewrite Hap. }
  destruct o2 as [acc|e]; [ends_step|]; (split; [cbn; by rewrite ?app_nil_r, writes_app, Hn, Hw|]);
    exists (r :: norms); split_and!; try done.
  destruct Ho as [Ho _]. cbn. by rewrite Ho.
Qed.

(** [publish_many] writes what it returns, a document of the state it leaves, and writes it
    whenever it accepted a record. *)
Lemma publish_many_ends records b : ends blog (publish_many cfg records) b (fun tr o b' =>
  exists norms, Forall2 validated (take (length norms) records) norms /\ b' = apply_all cfg norms b /\
    (forall d, d ∈ writes tr -> exists t m, d = snapshot_document b' t m) /\
    match o with
    | Ok d => length norms = length records /\ (exists t m, d = snapshot_document b' t m) /\
        (records <> [] -> writes tr = [d])
    | Err _ => True
    end).
Proof.
  unfold publish_many, snapshot. ends_step. eapply ends_mono; [apply publish_loop_ends|].
  intros tr o b1 (Hw & norms & Hf & -> & Ho). set (b' := apply_all cfg norms b) in *.
  assert (forall tr2, (forall d, d ∈ writes tr2 -> exists t m, d = snapshot_document b' t m) ->
    forall d, d ∈ writes (tr ++ tr2) -> exists t m, d = snapshot_document b' t m) as Hdoc.
  { intros tr2 H d. rewrite writes_app, Hw. apply H. }
  assert (forall d, d ∈ [] -> exists t m, d = snapshot_document b' t m) as Hnil by by intros d ?%elem_of_nil.
  destruct o as [acc|e].
  2: { exists norms. split_and!; [done..| |done]. rewrite Hw. exact Hnil. }
  destruct Ho as [Hlen ->]. do 3 ends_step. destruct o as [t|e].
  2: { exists norms. split_and!; [done..| |done]. apply Hdoc. exact Hnil. }
  do 2 ends_step. destruct o as [m|e].
  2: { exists norms. split_and!; [done..| |done]. apply Hdoc. exact Hnil. }
  ends_step. fold b'. ends_step.
  eapply (ends_mono _ _ _ (fun tr1 o1 s1 => s1 = b' /\ writes tr1 = [] /\ (records <> [] -> o1 = Ok true))).
  { case_bool_decide as Hr; cbn [negb]; [|by ends_step]. do 2 ends_step. destruct o; [ends_step|]; (split_and!; [done..|intros Hne; by destruct Hne]). }
  intros tr1 [write|e] s1 (-> & Hw1 & Hr).
  2: { exists norms. split_and!; [done..| |done]. apply Hdoc. rewrite writes_app, Hw1. exact Hnil. }
  ends_step. eapply (ends_mono _ _ _ (fun tr2 o2 s2 => s2 = b' /\
    writes tr2 = if write : bool then [snapshot_document b' t m] else [])).
  { destruct write; ends_step; by split. }
  intros tr2 o2 s2 [-> Hw2].
  assert (forall d, d ∈ writes (tr ++ ([blog float BTime (Ok t)] ++ [blog float BMonotonic (Ok m)] ++ []) ++ tr1 ++ tr2) ->
    exists t0 m0, d = snapshot_document b' t0 m0) as Hd.
  { apply Hdoc. intros d. rewrite !writes_app, Hw1, Hw2. cbn [writes omap list_omap blog app].
    destruct write; [|by intros ?%elem_of_nil]. intros ->%list_elem_of_singleton. eauto. }
  destruct o2 as [u|e]; [|exists norms; by split_and!]. ends_step. rewrite ?app_nil_r in *. exists norms.
  split_and!; [done..|by exists t, m|]. intros Hne. specialize (Hr Hne) as [= ->].
  by rewrite !writes_app, Hw, Hw1, Hw2.
Qed.

(** Loading a snapshot applies validated records too, and writes nothing. *)
Lemma load_records_ends records : forall b, ends blog (load_records cfg records) b (fun tr o b' =>
  writes tr = [] /\ exists norms, (forall r, r ∈ norms -> exists record, validated record r) /\ b' = apply_all cfg norms b).
Proof.
  induction records as [|record rest IH]; intros b; cbn [load_records].
  { ends_step. split; [done|]. exists []. split; [by intros r ?%elem_of_nil|done]. }
  ends_step. eapply (ends_mono _ _ _ (fun tr o b1 => writes tr = [] /\
    exists norms, (forall r, r ∈ norms -> exists record, validated record r) /\ b1 = apply_all cfg norms b)).
  - intros tr o b' (tr1 & tr2 & o1 & b1 & -> & H1 & H2)%runs_then.
    apply runs_seq in H1 as (tr3 & tr4 & o2 & b2 & -> & (-> & -> & ->)%runs_finish & H1).
    assert (tr2 = [] /\ b' = b1) as [-> ->].
    { destruct o1 as [|e]; [|destruct (skips_record e)]; by apply runs_finish in H2 as (-> & _ & ->). }
    destruct (validate_body_record record) as [r|e] eqn:Hv.
    + apply runs_embed in H1 as (-> & _ & ->). split; [done|]. exists [r]. split; [|done].
      intros r' ->%list_elem_of_singleton. exists record. by apply validate_body_record_ok.
    + destruct H1 as (-> & _ & ->). split; [done|]. exists []. split; [by intros r ?%elem_of_nil|done].
  - intros tr [u|e] b1 (Hw & norms & Hn & ->); [|by split; [|exists norms]].
    eapply ends_mono; [apply IH|]. intros tr2 o2 b2 (Hw2 & norms2 & Hn2 & ->). rewrite writes_app, Hw, Hw2.
    split; [done|]. exists (norms ++ norms2). split; [|by rewrite apply_all_app].
    intros r [?|?]%elem_of_app; auto.
Qed.

Lemma load_existing_ends b : ends blog (load_existing_snapshot cfg) b (fun tr o b' =>
  writes tr = [] /\ exists norms, (forall r, r ∈ norms -> exists record, validated record r) /\ b' = apply_all cfg norms b).
Proof.
  assert (forall b, exists norms, (forall r, r ∈ norms -> exists record, validated record r) /\ b = apply_all cfg norms b)
    as Hnone by (intros b'; exists []; split; [by intros r ?%elem_of_nil|done]).
  unfold load_existing_snapshot. do 2 ends_step. destruct o as [there|e]; [|by split].
  destruct there; cbn [negb]; [|ends_step; by split].
  intros tr o b' (tr1 & tr2 & o1 & b1 & -> & [-> ->]%runs_perform & H2)%runs_then.
  destruct o1 as [content|e].
  2: { destruct (is_OSError e); apply runs_finish in H2 as (-> & _ & ->); by split. }
  repeat case_match; try (apply runs_finish in H2 as (-> & _ & ->); by split).
  apply load_records_ends in H2 as [Hw H2]. by split.
Qed.
End Runs.

(** ** The bridge over its life *)

(** The states a bridge goes through: created, its old snapshot loaded, records published. *)
Inductive bridge_life (cfg : bridge_config) : bridge -> Prop :=
| life_new : bridge_life cfg new_bridge
| life_load b tr o b' : bridge_life cfg b -> runs blog (load_existing_snapshot cfg) b tr o b' -> bridge_life cfg b'
| life_publish b records tr o b' : bridge_life cfg b ->
    runs blog (publish_many cfg records) b tr o b' -> bridge_life cfg b'.

Lemma bridge_life_records cfg b : bridge_life cfg b ->
  exists rs, (forall r, r ∈ rs -> exists record, validated record r) /\ b = apply_all cfg rs new_bridge.
Proof.
  induction 1 as [|b tr o b' _ (rs & Hrs & ->) Hr|b records tr o b' _ (rs & Hrs & ->) Hr].
  - exists []. split; [by intros r ?%elem_of_nil|done].
  - apply load_existing_ends in Hr as (_ & norms & Hn & ->). exists (rs ++ norms). split; [|by rewrite apply_all_app].
    intros r [?|?]%elem_of_app; auto.
  - apply publish_many_ends in Hr as (norms & Hn & -> & _). exists (rs ++ norms). split; [|by rewrite apply_all_app].
    intros r [?|Hin]%elem_of_app; [auto|]. apply list_elem_of_lookup in Hin as [i Hi].
    destruct (Forall2_lookup_r _ _ _ _ _ Hn Hi) as (record & _ & Hv). by exists record.
Qed.

(** Well-formed tables: distinct modules, at most the configured number, no claims. *)
Record bridge_wf (cfg : bridge_config) (b : bridge) : Prop := {
  bw_keys s : NoDup (table_of s b).*1;
  bw_bound s : (Z.of_nat (length (table_of s b)) <= Z.max 0 (bc_max_modules cfg))%Z;
  bw_free s kr : kr ∈ table_of s b -> claim_free (PDict kr.2) = true
}.

Lemma elem_of_d_set {A} (d : sdict A) k v kv : kv ∈ d_set d k v -> kv = (k, v) \/ kv ∈ d.
Proof.
  induction d as [|[k' v'] d IH]; cbn; [intros ->%list_elem_of_singleton; by left|].
  case_bool_decide as Hk; intros [->|Hin]%elem_of_cons; subst.
  - by left.
  - right. by right.
  - right. by left.
  - destruct (IH Hin) as [->|]; [by left|right; by right].
Qed.

Lemma bridge_wf_set cfg b s m r : bridge_wf cfg b -> claim_free (PDict r) = true ->
  (Z.of_nat (length (d_set (table_of s b) m r)) <= Z.max 0 (bc_max_modules cfg))%Z ->
  bridge_wf cfg (set_table s (d_set (table_of s b) m r) b).
Proof.
  intros [Hk Hb Hf] Hr Hl. split; intros s'; rewrite table_of_set; case_bool_decide; subst; auto.
  - by apply d_set_NoDup.
  - intros kr [->|Hin]%elem_of_d_set; [done|by eapply Hf].
  - intros kr Hin. by eapply Hf.
Qed.

Lemma bridge_wf_apply cfg r b : bridge_wf cfg b -> claim_free (PDict r) = true -> bridge_wf cfg (apply_record cfg r b).2.
Proof.
  intros Hwf Hr. destruct (apply_record_applied cfg r b) as [| |Hg Hlt|held Hg _]; [done..| |];
    (apply bridge_wf_set; [done..|]); rewrite d_set_length, Hg; pose proof (bw_bound _ _ Hwf (slot r).1); lia.
Qed.

Lemma bridge_life_wf cfg b : bridge_life cfg b -> bridge_wf cfg b.
Proof.
  intros (rs & Hrs & ->)%bridge_life_records. induction rs as [|r rs IH] using rev_ind.
  - split; intros []; cbn; first [constructor|lia|by intros ? ?%elem_of_nil].
  - rewrite apply_all_app. apply bridge_wf_apply.
    + apply IH. intros r' Hr'. apply Hrs, elem_of_app. by left.
    + destruct (Hrs r) as [record Hv]; [apply elem_of_app; right; by left|]. by eapply validated_free.
Qed.

Lemma sorted_records_perm t : sorted_records t ≡ₚ t.*2.
Proof. apply py_sorted_perm. Qed.

Lemma snapshot_document_free cfg b t m : bridge_wf cfg b -> claim_free (PDict (snapshot_document b t m)) = true.
Proof.
  intros Hwf. unfold snapshot_document. cbn [claim_free str_items fmap list_fmap fst snd].
  set (records := sorted_records (br_sensors b) ++ sorted_records (br_health b)).
  assert (forallb claim_free ((fun r => copy_value (PDict r)) <$> records) = true) as H1.
  { apply forallb_Forall, Forall_fmap, Forall_forall. intros r Hr. apply claim_free_copy.
    unfold records in Hr. rewrite !sorted_records_perm in Hr.
    apply elem_of_app in Hr as [(kr & -> & Hin)%list_elem_of_fmap|(kr & -> & Hin)%list_elem_of_fmap].
    - by apply (bw_free _ _ Hwf true).
    - by apply (bw_free _ _ Hwf false). }
  assert (forallb claim_free (PStr <$> receipt_ids records) = true) as H2.
  { by apply forallb_Forall, Forall_fmap, Forall_forall. }
  cbn [forallb fst snd claim_free py_str strs]. rewrite H1, H2. vm_compute. reflexivity.
Qed.

(** ** Properties *)


(** C25: The bridge keeps the newest record of every module.  After any history and one more
    successful [publish_many], each module of a family is represented by the last of its
    latest records, unless the family's table is full; the document returned shows exactly
    the records of the two tables, and it is the one written. *)
Theorem bridge_publishes_newest cfg rs records tr d b' :
  Forall (fun r => timed r = true) rs ->
  runs blog (publish_many cfg records) (apply_all cfg rs new_bridge) tr (Ok d) b' ->
  exists norms, Forall2 validated records norms /\
    (Forall (fun r => timed r = true) norms -> forall sensor m,
       match d_get (table_of sensor b') m with
       | Some r => newest (in_slot sensor m (rs ++ norms)) r
       | None => in_slot sensor m (rs ++ norms) = [] \/
                 (bc_max_modules cfg <= Z.of_nat (length (table_of sensor b')))%Z
       end) /\
    (exists shown, get d "records" = PList ((fun r => copy_value (PDict r)) <$> shown) /\
       shown ≡ₚ (br_sensors b').*2 ++ (br_health b').*2) /\
    (records <> [] -> writes tr = [d]).
Proof.
  intros Hrs (norms & Hn & -> & _ & Hlen & (t & m & ->) & Hw)%publish_many_ends. exists norms. split_and!.
  - by rewrite Hlen, take_ge in Hn by lia.
  - intros Ht sensor m'. rewrite <- apply_all_app. apply tracks_all. by apply Forall_app.
  - eexists. split; [reflexivity|]. by rewrite !sorted_records_perm.
  - done.
Qed.

Lemma validated_timed record r : validated record r ->
  match copy_value record with PDict kvs => timed kvs | _ => true end = timed r.
Proof. intros [-> _]. done. Qed.

(** ** On sample records *)

Definition sensor_record (family module_id : string) (timestamp : pyval) (value : Z) : pyval :=
  PDict (str_items
    [("family", PStr family); ("event_type", PStr "SENSOR_PACKET_OBSERVED");
     ("payload", PDict (str_items
        [("module_id", PStr module_id); ("node_id", PStr "node"); ("owning_handmaiden", PStr "Vesta");
         ("receipt_id", PStr "r1"); ("timestamp", timestamp); ("sensor_type", PStr "heat");
         ("interface_type", PStr "i2c"); ("health_state", PStr "ONLINE"); ("calibration_version", PStr "c1");
         ("payload", PDict (str_items [("value", PInt value)]))]))]).

(** The clocks stand at one second; no snapshot exists; every write succeeds. *)
Definition bridge_environment (X : Type) (op : bop X) (n : unit) : outcome X * unit :=
  match op in bop X return outcome X * unit with
  | BTime | BMonotonic => (Ok f1, tt)
  | BJournal _ | BWriteSnapshot _ => (Ok tt, tt)
  | BSnapshotExists | BSnapshotIsFile => (Ok false, tt)
  | BReadSnapshot => (Ok "", tt)
  end.

#[local] Abbreviation bridge_events := (StateProg.events_of blog bridge_environment tt).
#[local] Abbreviation bridge_after := (StateProg.state_after blog bridge_environment tt).
#[local] Abbreviation bridge_result := (StateProg.result_of blog bridge_environment tt).

Definition sample_bridge : bridge_config := mkBridgeConfig 2 true.
Definition two_readings : stprog bop bridge items := publish_many sample_bridge
  [sensor_record "sensor" "lamp" (PInt 20) 7; sensor_record "sensor" "lamp" (PInt 10) 8].


Lemma bridge_publishes_newest_witness : exists r norms,
  d_get (br_sensors (bridge_after two_readings new_bridge)) "lamp" = Some r /\
  newest (in_slot true "lamp" norms) r /\ get (payload_of r) "timestamp" = PInt 20.
Proof.
  pose proof (evaluate_runs blog bridge_environment tt two_readings new_bridge ltac:(vm_compute; reflexivity)) as Hruns.
  destruct (bridge_result two_readings new_bridge) as [d|e] eqn:Hd;
    [|apply (f_equal is_ok) in Hd; vm_compute in Hd; discriminate Hd].
  destruct (bridge_publishes_newest sample_bridge [] _ _ _ _ (Forall_nil_2 _) Hruns) as (norms & Hv & Ht & _).
  assert (Forall (fun r => timed r = true) norms) as Htimed.
  { apply (Forall2_Forall_r validated _ _ _ Hv). repeat (apply Forall_cons_2 || apply Forall_nil_2);
      (intros r Hr; rewrite <- (validated_timed _ _ Hr); vm_compute; reflexivity). }
  specialize (Ht Htimed true "lamp"). cbn [table_of] in Ht.
  destruct (d_get (br_sensors (bridge_after two_readings new_bridge)) "lamp") as [r|] eqn:Hg;
    [|apply (f_equal (fun o => match o with Some _ => true | None => false end)) in Hg; vm_compute in Hg; discriminate Hg].
  exists r, norms. split; [reflexivity|]. split; [exact Ht|].
  apply (f_equal (fmap (fun r => get (payload_of r) "timestamp"))) in Hg. vm_compute in Hg. injection Hg as Hg.
  exact (eq_sym Hg).
Defined.

(** The bridge tests the family of a record after stripping it, and files it without: a
    sensor record whose family carries a blank passes as a sensor record and is kept, shown
    and counted as a health event. *)
Theorem padded_family_misfiled :
  let s := bridge_after (publish sample_bridge (sensor_record " sensor" "lamp" (PInt 20) 7)) new_bridge in
  is_ok (validate_body_record (sensor_record " sensor" "lamp" (PInt 20) 7)) = true /\
  br_sensors s = [] /\ (br_health s).*1 = ["lamp"].
Proof. vm_compute. split_and!; reflexivity. Qed.

(** One record with an infinite timestamp, which JSON text can carry, silences its module
    for good: it is accepted, and after it no record with a finite timestamp is kept. *)
Theorem infinite_timestamp_silences_module r held b :
  d_get (table_of (slot r).1 b) (slot r).2 = Some held -> record_time held = Ok (S754_infinity false) ->
  (exists f, record_time r = Ok f /\ ffinite f = true) ->
  forall cfg, apply_record cfg r b = (Ok tt, b).
Proof.
  intros Hg Hh (f & Hf & Hfin) cfg. unfold apply_record.
  change (files_as_sensor r) with (slot r).1. change (module_key r) with (slot r).2. rewrite Hg, Hh, Hf.
  by destruct f as [[]| | |[]].
Qed.
