(* ===== verification/ModuleTrust.v ===== *)
(** [services/module_trust_registry.py]: the owner-signed ledger of trusted module packages,
    its creation, its signature, its document and the strict reading of that document.

    Files are operations of the environment: what [lstat] says of a path, the bytes read
    from it, and the text these bytes decode to. *)

From stdpp Require Import base gmap sets list strings sorting.
From Stdlib Require Import ZArith NArith Ascii.
From S2P Require Import Prelude PyText PyVal Json Sha256 CourtToken TextChecks Effects PyJson.

Definition OWNER_MODULE_TRUST_SCHEMA : string := "velvet.owner_module_trust.v1".

Definition allowed_registry_fields : list string :=
  ["schema"; "owner_key_id"; "generation"; "created_at"; "entries"; "hmac_sha256"].
Definition allowed_entry_fields : list string :=
  ["package_id"; "package_version"; "storage_id"; "relative_path"; "manifest_digest"; "approved_at"; "enabled"].

Definition trust_error {A} (msg : string) : outcome A := raise ModuleTrustRegistryError msg.

Record OwnerTrustedModuleEntry := mkTrusted {
  te_package_id : string;
  te_package_version : string;
  te_storage_id : string;
  te_relative_path : string;
  te_manifest_digest : string;
  te_approved_at : string;
  te_enabled : bool
}.

Record OwnerModuleTrustRegistry := mkTrustRegistry {
  tr_owner_key_id : string;
  tr_generation : Z;
  tr_created_at : string;
  tr_entries : list OwnerTrustedModuleEntry;
  tr_hmac_sha256 : string
}.

(** ** Validators *)

Definition validated_id (value : pyval) (label : string) : outcome string :=
  let bad := trust_error (label +:+ " must be a bounded lowercase identifier") in
  match value with PStr s => if is_lower_id s then Ok s else bad | _ => bad end.

Definition validated_semver (value : pyval) (label : string) : outcome string :=
  let bad := trust_error (label +:+ " must be semantic version x.y.z") in
  match value with PStr s => if is_semver s then Ok s else bad | _ => bad end.

Definition validated_digest (value : pyval) : outcome string :=
  let bad := trust_error "manifest_digest must be lowercase SHA-256 hex" in
  match value with PStr s => if is_hex64 s then Ok s else bad | _ => bad end.

Definition validated_relative_path (value : pyval) : outcome string :=
  match value with
  | PStr s =>
      if negb (is_nonempty s) then trust_error "relative_path must be non-empty text" else
      if str_contains backslash s || str_contains nul s || (512 <? String.length s)
      then trust_error "relative_path is invalid" else
      if path_absolute s || bool_decide (path_parts s = [])
      then trust_error "relative_path must be relative" else
      if bool_decide (Exists (fun part => part ∈ [""; "."; ".."]) (path_parts s))
      then trust_error "relative_path contains unsafe segments"
      else Ok (path_text (path_parts s))
  | _ => trust_error "relative_path must be non-empty text"
  end.

Definition validated_text (value : pyval) (label : string) (maximum : nat) : outcome string :=
  let bad := trust_error (label +:+ " must be bounded printable ASCII text") in
  match value with
  | PStr s => if is_blank s || (maximum <? String.length s) || negb (all_printable s) then bad else Ok (strip s)
  | _ => bad
  end.

Definition bounded_integer (value : pyval) (label : string) (minimum maximum : Z) : outcome Z :=
  let bad := trust_error (label +:+ " is outside supported bounds") in
  match value with
  | PInt z => if (minimum <=? z)%Z && (z <=? maximum)%Z then Ok z else bad
  | _ => bad
  end.

(** [OwnerModuleTrustRegistry.entry_for] *)
Definition find_entry (entries : list OwnerTrustedModuleEntry) (package : string) : option OwnerTrustedModuleEntry :=
  list_find (fun e => te_package_id e = package) entries ≫= fun ie => Some ie.2.
Definition entry_for (r : OwnerModuleTrustRegistry) (package_id : string) : outcome (option OwnerTrustedModuleEntry) :=
  let? package := validated_id (PStr package_id) "package_id" in Ok (find_entry (tr_entries r) package).

(** ** Documents and signatures *)

Definition entry_document (e : OwnerTrustedModuleEntry) : json :=
  JObj [("package_id", JStr (te_package_id e)); ("package_version", JStr (te_package_version e));
        ("storage_id", JStr (te_storage_id e)); ("relative_path", JStr (te_relative_path e));
        ("manifest_digest", JStr (te_manifest_digest e)); ("approved_at", JStr (te_approved_at e));
        ("enabled", JBool (te_enabled e))].

(** [registry_payload], also the [unsigned] document of the creation. *)
Definition payload_document (key_id : string) (generation : Z) (created_at : string)
    (entries : list OwnerTrustedModuleEntry) : list (string * json) :=
  [("schema", JStr OWNER_MODULE_TRUST_SCHEMA); ("owner_key_id", JStr key_id); ("generation", JInt generation);
   ("created_at", JStr created_at); ("entries", JArr (entry_document <$> entries))].
Definition registry_payload (r : OwnerModuleTrustRegistry) : list (string * json) :=
  payload_document (tr_owner_key_id r) (tr_generation r) (tr_created_at r) (tr_entries r).

(** [registry_document] *)
Definition registry_document (r : OwnerModuleTrustRegistry) : json :=
  JObj (registry_payload r ++ [("hmac_sha256", JStr (tr_hmac_sha256 r))]).

(** [canonical_json_bytes], on documents that are JSON. *)
Definition canonical_json_bytes (j : json) : byte_string := utf8 (dumps j).

(** [sign_owner_module_trust_payload] *)
Definition valid_key (key : byte_string) : bool := (32 <=? length key) && (length key <=? 4096).
Definition sign_payload (payload : list (string * json)) (key : byte_string) : outcome string :=
  if negb (valid_key key) then trust_error "owner module trust signing key is invalid"
  else Ok (hmac_sha256_hex key (canonical_json_bytes (JObj payload))).

(** ** Creation *)

Definition entry_le (a b : OwnerTrustedModuleEntry) : Prop := String.le (te_package_id a) (te_package_id b).
#[export] Instance entry_le_dec : RelDecision entry_le.
Proof. intros a b. unfold entry_le. apply _. Defined.

(** [sorted(entries, key=lambda item: item.package_id)] *)
Definition sort_entries (l : list OwnerTrustedModuleEntry) : list OwnerTrustedModuleEntry := merge_sort entry_le l.

(** The checks [_validate_entries] makes on one entry. *)
Definition check_entry (e : OwnerTrustedModuleEntry) : outcome unit :=
  let? _ := validated_semver (te_package_version e) "package_version" in
  let? _ := validated_id (te_storage_id e) "storage_id" in
  let? _ := validated_relative_path (te_relative_path e) in
  let? _ := validated_digest (te_manifest_digest e) in
  let? _ := validated_text (te_approved_at e) "approved_at" 96 in Ok tt.

Fixpoint check_entries (entries : list OwnerTrustedModuleEntry) (seen : list string) : outcome unit :=
  match entries with
  | [] => Ok tt
  | e :: rest =>
      if bool_decide (te_package_id e ∈ seen)
      then trust_error ("duplicate trusted package_id: " +:+ te_package_id e)
      else let? _ := check_entry e in check_entries rest (te_package_id e :: seen)
  end.

(** [_validate_entries] *)
Definition validate_entries (entries : list OwnerTrustedModuleEntry) : outcome (list OwnerTrustedModuleEntry) :=
  let? _ := check_entries entries [] in Ok (sort_entries entries).

(** [create_owner_module_trust_registry] *)
Definition create_registry (owner_key_id : string) (generation : Z) (created_at : string)
    (entries : list OwnerTrustedModuleEntry) (key : byte_string) : outcome OwnerModuleTrustRegistry :=
  let? key_id := validated_id (PStr owner_key_id) "owner_key_id" in
  let? gen := bounded_integer (PInt generation) "generation" 1 2147483647 in
  let? timestamp := validated_text (PStr created_at) "created_at" 96 in
  let? normalized := validate_entries entries in
  let? signature := sign_payload (payload_document key_id gen timestamp normalized) key in
  Ok (mkTrustRegistry key_id gen timestamp normalized signature).

(** [upsert_owner_trusted_entry] *)
Definition upsert_entry (registry : option OwnerModuleTrustRegistry) (owner_key_id : string)
    (e : OwnerTrustedModuleEntry) (key : byte_string) (created_at : string) : outcome OwnerModuleTrustRegistry :=
  let entries := match registry with None => [] | Some r => tr_entries r end in
  let entries := filter (fun item => te_package_id item <> te_package_id e) entries ++ [e] in
  let generation := match registry with None => 1%Z | Some r => (tr_generation r + 1)%Z end in
  let key_id := match registry with None => owner_key_id | Some r => tr_owner_key_id r end in
  if bool_decide (key_id <> owner_key_id) then trust_error "owner_key_id does not match existing registry"
  else create_registry key_id generation created_at (sort_entries entries) key.

(** ** Reading *)

(** The fields of an object are exactly the allowed ones. *)
Definition exact_fields (d : items) (allowed : list string) : bool :=
  forallb (fun kv => match kv.1 with PStr k => bool_decide (k ∈ allowed) | _ => false end) d
  && forallb (fun k => match dict_get d (PStr k) with Some _ => true | None => false end) allowed.

(** [_parse_entry] *)
Definition parse_entry (value : pyval) : outcome OwnerTrustedModuleEntry :=
  match value with
  | PDict d =>
      if negb (exact_fields d allowed_entry_fields) then trust_error "trust entry fields invalid" else
      match get d "enabled" with
      | PBool enabled =>
          let? package_id := validated_id (get d "package_id") "package_id" in
          let? package_version := validated_semver (get d "package_version") "package_version" in
          let? storage_id := validated_id (get d "storage_id") "storage_id" in
          let? relative_path := validated_relative_path (get d "relative_path") in
          let? manifest_digest := validated_digest (get d "manifest_digest") in
          let? approved_at := validated_text (get d "approved_at") "approved_at" 96 in
          Ok (mkTrusted package_id package_version storage_id relative_path manifest_digest approved_at enabled)
      | _ => trust_error "trust entry enabled must be boolean"
      end
  | _ => trust_error "trust entry must be an object"
  end.

(** [_parse_registry] *)
Definition parse_registry (d : items) : outcome OwnerModuleTrustRegistry :=
  if negb (exact_fields d allowed_registry_fields) then trust_error "trust registry fields invalid" else
  if negb (eq_str (get d "schema") OWNER_MODULE_TRUST_SCHEMA)
  then trust_error "unsupported owner module trust schema" else
  match get d "entries" with
  | PList raw =>
      if 4096 <? length raw then trust_error "trust registry entries must be a bounded list" else
      let? parsed := mapM_outcome parse_entry raw in
      let? entries := validate_entries parsed in
      match get d "hmac_sha256" with
      | PStr signature =>
          if negb (is_hex64 signature) then trust_error "trust registry HMAC is invalid" else
          let? key_id := validated_id (get d "owner_key_id") "owner_key_id" in
          let? generation := bounded_integer (get d "generation") "generation" 1 2147483647 in
          let? created_at := validated_text (get d "created_at") "created_at" 96 in
          Ok (mkTrustRegistry key_id generation created_at entries signature)
      | _ => trust_error "trust registry HMAC is invalid"
      end
  | _ => trust_error "trust registry entries must be a bounded list"
  end.

(** [_loads_unique] *)
Definition load_document (text : string) : outcome items :=
  match loads_unique text with
  | Ok (PDict d) => Ok d
  | Ok _ => trust_error "trust registry root must be an object"
  | Err e => trust_error ("owner module trust registry is not valid unique-key JSON: " +:+ exn_message e)
  end.

(** What [load_owner_module_trust_registry] makes of the text it read. *)
Definition read_registry (text : string) (key : byte_string) : outcome OwnerModuleTrustRegistry :=
  let? document := load_document text in
  let? registry := parse_registry document in
  let? expected := sign_payload (registry_payload registry) key in
  if bool_decide (expected = tr_hmac_sha256 registry) then Ok registry
  else trust_error "owner module trust registry HMAC does not verify".

(** ** Files *)

Inductive file_kind : Set := RegularFile | Directory | Symlink | OtherFile.
#[export] Instance file_kind_eq_dec : EqDecision file_kind.
Proof. solve_decision. Defined.

(** What [lstat] says of a path: its kind, its permission bits, its size. *)
Record file_stat := mkStat { fs_kind : file_kind; fs_mode : Z; fs_size : Z }.

Inductive fileop : Type -> Type :=
| OpExpandUser (path : string) : fileop string
| OpLstat (path : string) : fileop file_stat
| OpReadBytes (path : string) : fileop byte_string
| OpDecode (data : byte_string) : fileop string.

(** The operations of an environment that has files. *)
Class HasFiles (E : Type -> Type) := file_op : forall X, fileop X -> E X.
Arguments file_op {E _} {X} _.

Section Files.
Context {E : Type -> Type} `{!HasFiles E}.

Definition fcall {X} (op : fileop X) : prog E X := call (file_op op).

(** [absolute_path] *)
Definition absolute_path (value label : string) : prog E string :=
  let* path := fcall (OpExpandUser value) in
  of_outcome (if path_absolute path then Ok path else trust_error (label +:+ " must be absolute")).

(** The conditions of [_verified_direct_file] on the status of a file. *)
Definition direct_file (s : file_stat) (label : string) (max_bytes : Z) (key_file : bool) : outcome unit :=
  if bool_decide (fs_kind s <> RegularFile) then trust_error (label +:+ " must be a regular non-symlink file") else
  if negb (Z.land (fs_mode s) 18 =? 0)%Z then trust_error (label +:+ " must not be group- or world-writable") else
  if key_file && negb (Z.land (fs_mode s) 63 =? 0)%Z then trust_error (label +:+ " must use owner-only permissions") else
  if negb ((2 <=? fs_size s)%Z && (fs_size s <=? max_bytes)%Z)
  then trust_error (label +:+ " size is outside supported bounds") else Ok tt.

(** [_verified_direct_file] *)
Definition verified_direct_file (path label : string) (max_bytes : Z) (key_file : bool) : prog E unit :=
  handle (fcall (OpLstat path)) (fun o => match o with
    | Ok s => of_outcome (direct_file s label max_bytes key_file)
    | Err e => if is_OSError e then of_outcome (trust_error (label +:+ " is unavailable: " +:+ exn_message e)) else Raise e
    end).

(** [load_owner_module_trust_key] *)
Definition load_trust_key (key_path : string) : prog E byte_string :=
  let* path := absolute_path key_path "key_path" in
  let* _ := verified_direct_file path "owner module trust key" 4096 true in
  let* key := fcall (OpReadBytes path) in
  of_outcome (if valid_key key then Ok key
              else trust_error "owner module trust key must contain 32 to 4096 bytes").

(** [load_owner_module_trust_registry] *)
Definition load_trust_registry (registry_path key_path : string) : prog E OwnerModuleTrustRegistry :=
  let* registry_file := absolute_path registry_path "registry_path" in
  let* key := load_trust_key key_path in
  let* _ := verified_direct_file registry_file "owner module trust registry" 1048576 false in
  let* data := fcall (OpReadBytes registry_file) in
  handle (fcall (OpDecode data)) (fun o => match o with
    | Ok text => of_outcome (read_registry text key)
    | Err e => if bool_decide (exn_class e = UnicodeError)
               then of_outcome (trust_error "owner module trust registry is not UTF-8") else Raise e
    end).
End Files.
