(* ===== verification/ModuleTrustTheorems.v ===== *)
(** What the trust ledger guarantees: a ledger that loads is signed with the owner's key and
    lists every package once; a ledger made of normal entries reads back as it was made; an
    entry is replaced without touching the others. *)

From stdpp Require Import base gmap sets list strings sorting.
From Stdlib Require Import ZArith NArith Ascii.
From S2P Require Import Prelude PyText PyVal Json Sha256 CourtToken TextChecks Effects PyJson ModuleTrust.

(** ** Validators *)

Lemma validated_id_ok s label t : validated_id (PStr s) label = Ok t <-> t = s /\ is_lower_id s = true.
Proof. unfold validated_id, trust_error. destruct (is_lower_id s); [naive_solver|]. split; [done|naive_solver]. Qed.

Lemma validated_semver_ok s label t : validated_semver (PStr s) label = Ok t <-> t = s /\ is_semver s = true.
Proof. unfold validated_semver, trust_error. destruct (is_semver s); [naive_solver|]. split; [done|naive_solver]. Qed.

Lemma validated_digest_ok s t : validated_digest (PStr s) = Ok t <-> t = s /\ is_hex64 s = true.
Proof. unfold validated_digest, trust_error. destruct (is_hex64 s); [naive_solver|]. split; [done|naive_solver]. Qed.

Lemma bounded_integer_ok z label lo hi t :
  bounded_integer (PInt z) label lo hi = Ok t <-> t = z /\ (lo <= z <= hi)%Z.
Proof.
  unfold bounded_integer, trust_error. destruct (_ && _) eqn:E.
  - apply andb_true_iff in E as [?%Z.leb_le ?%Z.leb_le]. naive_solver.
  - apply andb_false_iff in E as [?%Z.leb_gt|?%Z.leb_gt]; (split; [done|]); intros [_ ?]; lia.
Qed.

Lemma validated_text_ok s label n t : validated_text (PStr s) label n = Ok t <->
  t = strip s /\ is_blank s = false /\ String.length s <= n /\ all_printable s = true.
Proof.
  unfold validated_text, trust_error. destruct (is_blank s); cbn [orb negb]; [split; [done|naive_solver]|].
  destruct (Nat.ltb_spec n (String.length s)); cbn [orb negb]; [split; [done|]; intros (_ & _ & ? & _); lia|].
  destruct (all_printable s); cbn [orb negb]; [naive_solver|]. split; [done|naive_solver].
Qed.

(** Accepted text is stable: what was accepted is accepted again, unchanged. *)
Lemma validated_text_stable s label n t : validated_text (PStr s) label n = Ok t -> validated_text (PStr t) label n = Ok t.
Proof.
  rewrite !validated_text_ok. intros (-> & Hb & Hl & Hp). split_and!.
  - by rewrite strip_strip.
  - by rewrite is_blank_strip.
  - pose proof (strip_length s). lia.
  - by apply str_forallb_strip.
Qed.

Lemma validated_path_ok s t : validated_relative_path (PStr s) = Ok t ->
  t = path_text (path_parts s) /\ path_absolute s = false /\ path_parts s <> [] /\ ".." ∉ path_parts s.
Proof.
  unfold validated_relative_path, trust_error. destruct (is_nonempty s); cbn [negb]; [|done].
  destruct (_ || _ || _); [done|]. destruct (path_absolute s); cbn [orb]; [done|].
  case_bool_decide as Hp; [done|]. case_bool_decide as He; [done|]. intros [= <-]. split_and!; try done.
  intros Hin. apply He, Exists_exists. exists "..". split; [done|]. right. right. left.
Qed.

(** ** Entries *)

(** An entry whose texts are in the form the reader would give them. *)
Record normal_entry (e : OwnerTrustedModuleEntry) : Prop := {
  ne_package : is_lower_id (te_package_id e) = true;
  ne_version : is_semver (te_package_version e) = true;
  ne_storage : is_lower_id (te_storage_id e) = true;
  ne_path : validated_relative_path (PStr (te_relative_path e)) = Ok (te_relative_path e);
  ne_digest : is_hex64 (te_manifest_digest e) = true;
  ne_approved : validated_text (PStr (te_approved_at e)) "approved_at" 96 = Ok (te_approved_at e)
}.

Definition sorted_entry (e : OwnerTrustedModuleEntry) : list (string * json) :=
  [("approved_at", JStr (te_approved_at e)); ("enabled", JBool (te_enabled e));
   ("manifest_digest", JStr (te_manifest_digest e)); ("package_id", JStr (te_package_id e));
   ("package_version", JStr (te_package_version e)); ("relative_path", JStr (te_relative_path e));
   ("storage_id", JStr (te_storage_id e))].

Lemma dumps_entry e : dumps (entry_document e) = dumps (JObj (sorted_entry e)).
Proof. reflexivity. Qed.

Lemma literal_canonical (kvs : list (string * json)) :
  bool_decide (Sorted String.le kvs.*1) = true -> bool_decide (NoDup kvs.*1) = true ->
  Forall (fun kv => canonical kv.2) kvs -> canonical (JObj kvs).
Proof. intros H1%bool_decide_eq_true H2%bool_decide_eq_true. by constructor. Qed.

Lemma sorted_entry_canonical e : canonical (JObj (sorted_entry e)).
Proof. apply literal_canonical; [reflexivity..|]. repeat constructor. Qed.

Lemma parse_sorted_entry e : normal_entry e -> parse_entry (of_json (JObj (sorted_entry e))) = Ok e.
Proof.
  intros [H1 H2 H3 H4 H5 H6].
  assert (exact_fields ((fun kv => (PStr kv.1, of_json kv.2)) <$> sorted_entry e) allowed_entry_fields = true) as Hf
    by reflexivity.
  cbn [of_json parse_entry]. rewrite Hf. cbn [negb].
  replace (get _ "enabled") with (PBool (te_enabled e)) by reflexivity.
  replace (get _ "package_id") with (PStr (te_package_id e)) by reflexivity.
  replace (get _ "package_version") with (PStr (te_package_version e)) by reflexivity.
  replace (get _ "storage_id") with (PStr (te_storage_id e)) by reflexivity.
  replace (get _ "relative_path") with (PStr (te_relative_path e)) by reflexivity.
  replace (get _ "manifest_digest") with (PStr (te_manifest_digest e)) by reflexivity.
  replace (get _ "approved_at") with (PStr (te_approved_at e)) by reflexivity.
  rewrite (proj2 (validated_id_ok _ _ _) (conj eq_refl H1)), (proj2 (validated_semver_ok _ _ _) (conj eq_refl H2)).
  rewrite (proj2 (validated_id_ok _ _ _) (conj eq_refl H3)), H4, (proj2 (validated_digest_ok _ _) (conj eq_refl H5)), H6.
  by destruct e.
Qed.

(** ** Sorted ledgers *)

Section SortKey.
Context {A : Type} (key : A -> string).
Let key_le (a b : A) : Prop := String.le (key a) (key b).

Lemma sorted_key_unique (l1 l2 : list A) :
  StronglySorted key_le l1 -> StronglySorted key_le l2 -> NoDup (key <$> l1) -> l1 ≡ₚ l2 -> l1 = l2.
Proof.
  intros H1; revert l2. induction H1 as [|x l1 H1 IH Hx]; intros l2 H2 Hnd Hp.
  { symmetry in Hp. by apply Permutation_nil_r in Hp as ->. }
  destruct H2 as [|y l2 H2 Hy]; [by apply Permutation_nil_r in Hp|]. apply NoDup_cons in Hnd as [Hn Hnd].
  assert (x = y) as <-.
  { assert (y ∈ x :: l1) as Hyx by (rewrite Hp; left). assert (x ∈ y :: l2) as Hxy by (rewrite <- Hp; left).
    apply elem_of_cons in Hyx as [->|Hyx], Hxy as [Hxy|Hxy]; try done. rewrite Forall_forall in Hx, Hy.
    destruct Hn. rewrite (anti_symm String.le (key x) (key y) (Hx _ Hyx) (Hy _ Hxy)). by apply list_elem_of_fmap_2. }
  f_equal. apply IH; [done..|]. by apply Permutation_cons_inv in Hp.
Qed.
End SortKey.

#[export] Instance entry_le_total : Total entry_le.
Proof. intros a b. unfold entry_le. apply (total String.le). Qed.
#[export] Instance entry_le_trans : Transitive entry_le.
Proof. intros a b c. unfold entry_le. by etrans. Qed.

Lemma sort_entries_perm l : sort_entries l ≡ₚ l.
Proof. apply merge_sort_Permutation. Qed.

Lemma sort_entries_sorted l : StronglySorted entry_le (sort_entries l).
Proof. apply StronglySorted_merge_sort; apply _. Qed.

Lemma sort_entries_ids l : te_package_id <$> sort_entries l ≡ₚ te_package_id <$> l.
Proof. by rewrite sort_entries_perm. Qed.

Lemma sort_entries_id l : StronglySorted entry_le l -> NoDup (te_package_id <$> l) -> sort_entries l = l.
Proof.
  intros Hs Hn. apply (sorted_key_unique te_package_id); [apply sort_entries_sorted|done| |apply sort_entries_perm].
  by rewrite sort_entries_ids.
Qed.

Lemma sort_entries_idem l : NoDup (te_package_id <$> l) -> sort_entries (sort_entries l) = sort_entries l.
Proof. intros H. apply sort_entries_id; [apply sort_entries_sorted|]. by rewrite sort_entries_ids. Qed.

Lemma check_entries_ok es : forall seen u, check_entries es seen = Ok u <->
  NoDup (te_package_id <$> es) /\ Forall (fun e => te_package_id e ∉ seen) es /\ Forall (fun e => check_entry e = Ok tt) es.
Proof.
  induction es as [|e es IH]; intros seen u; cbn [check_entries].
  { destruct u. split; [intros _; split_and!; constructor|done]. }
  rewrite fmap_cons, NoDup_cons, !Forall_cons. unfold trust_error. case_bool_decide as Hs; [split; [done|naive_solver]|].
  destruct (check_entry e) as [[]|x] eqn:Hc; cbn [outcome_bind]; [|split; [done|naive_solver]]. rewrite IH.
  assert (Forall (fun x => te_package_id x ∉ te_package_id e :: seen) es <->
    (te_package_id e ∉ te_package_id <$> es) /\ Forall (fun x => te_package_id x ∉ seen) es) as ->; [|naive_solver].
  rewrite !Forall_forall. setoid_rewrite not_elem_of_cons. split.
  - intros H. split; [|intros x Hx; by apply H]. intros (x & Hx & Hin)%list_elem_of_fmap. by destruct (H x Hin).
  - intros [H1 H2] x Hx. split; [|by apply H2]. intros Heq. apply H1. rewrite <- Heq. by apply list_elem_of_fmap_2.
Qed.

Lemma validate_entries_ok es l : validate_entries es = Ok l <->
  l = sort_entries es /\ NoDup (te_package_id <$> es) /\ Forall (fun e => check_entry e = Ok tt) es.
Proof.
  unfold validate_entries. destruct (check_entries es []) as [u|x] eqn:E; cbn [outcome_bind].
  - apply check_entries_ok in E as (H1 & _ & H2). split; [by intros [= <-]|by intros (-> & _)].
  - split; [done|]. intros (_ & H1 & H2). assert (check_entries es [] = Ok tt) as Hc; [|congruence].
    apply check_entries_ok. split_and!; [done| |done]. apply Forall_forall. intros e _ ?%elem_of_nil. done.
Qed.

Lemma sign_payload_ok p key s : sign_payload p key = Ok s <->
  valid_key key = true /\ s = hmac_sha256_hex key (canonical_json_bytes (JObj p)).
Proof. unfold sign_payload, trust_error. destruct (valid_key key); cbn [negb]; [naive_solver|]. split; [done|naive_solver]. Qed.

(** What a created ledger is. *)
Lemma create_registry_ok kid gen ts es key r : create_registry kid gen ts es key = Ok r <->
  is_lower_id kid = true /\ (1 <= gen <= 2147483647)%Z /\ validated_text (PStr ts) "created_at" 96 = Ok (strip ts) /\
  NoDup (te_package_id <$> es) /\ Forall (fun e => check_entry e = Ok tt) es /\ valid_key key = true /\
  r = mkTrustRegistry kid gen (strip ts) (sort_entries es)
        (hmac_sha256_hex key (canonical_json_bytes (JObj (payload_document kid gen (strip ts) (sort_entries es))))).
Proof.
  unfold create_registry. split.
  - destruct (validated_id (PStr kid) "owner_key_id") as [k|] eqn:H1; cbn [outcome_bind]; [|done].
    apply validated_id_ok in H1 as [-> H1].
    destruct (bounded_integer (PInt gen) _ _ _) as [g|] eqn:H2; cbn [outcome_bind]; [|done].
    apply bounded_integer_ok in H2 as [-> [H2 H2']].
    destruct (validated_text (PStr ts) _ _) as [t|] eqn:H3; cbn [outcome_bind]; [|done].
    pose proof (proj1 (proj1 (validated_text_ok _ _ _ _) H3)) as ->.
    destruct (validate_entries es) as [l|] eqn:H4; cbn [outcome_bind]; [|done].
    apply validate_entries_ok in H4 as (-> & H4 & H5).
    destruct (sign_payload _ key) as [s|] eqn:H6; cbn [outcome_bind]; [|done].
    apply sign_payload_ok in H6 as [H6 ->]. intros [= <-]. by split_and!.
  - intros (H1 & H2 & H3 & H4 & H5 & H6 & ->).
    rewrite (proj2 (validated_id_ok _ _ _) (conj eq_refl H1)), (proj2 (bounded_integer_ok _ _ _ _ _) (conj eq_refl H2)), H3.
    cbn [outcome_bind]. rewrite (proj2 (validate_entries_ok _ _) (conj eq_refl (conj H4 H5))). cbn [outcome_bind].
    by rewrite (proj2 (sign_payload_ok _ _ _) (conj H6 eq_refl)).
Qed.

(** ** Reading a ledger back *)

Definition newline : string := String "010" "".

(** The document with its fields sorted, as the encoder writes it. *)
Definition sorted_registry (r : OwnerModuleTrustRegistry) : list (string * json) :=
  [("created_at", JStr (tr_created_at r)); ("entries", JArr ((fun e => JObj (sorted_entry e)) <$> tr_entries r));
   ("generation", JInt (tr_generation r)); ("hmac_sha256", JStr (tr_hmac_sha256 r));
   ("owner_key_id", JStr (tr_owner_key_id r)); ("schema", JStr OWNER_MODULE_TRUST_SCHEMA)].

Lemma dumps_entries (l : list OwnerTrustedModuleEntry) :
  dumps (JArr (entry_document <$> l)) = dumps (JArr ((fun e => JObj (sorted_entry e)) <$> l)).
Proof. cbn [dumps]. do 2 f_equal. by rewrite <- !list_fmap_compose. Qed.

Lemma dumps_registry r : dumps (registry_document r) = dumps (JObj (sorted_registry r)).
Proof.
  assert (forall j1 j2 r, dumps j1 = dumps j2 ->
    dumps (JObj [("schema", JStr OWNER_MODULE_TRUST_SCHEMA); ("owner_key_id", JStr (tr_owner_key_id r));
      ("generation", JInt (tr_generation r)); ("created_at", JStr (tr_created_at r)); ("entries", j1);
      ("hmac_sha256", JStr (tr_hmac_sha256 r))]) =
    dumps (JObj [("created_at", JStr (tr_created_at r)); ("entries", j2); ("generation", JInt (tr_generation r));
      ("hmac_sha256", JStr (tr_hmac_sha256 r)); ("owner_key_id", JStr (tr_owner_key_id r));
      ("schema", JStr OWNER_MODULE_TRUST_SCHEMA)])) as H; [|apply H, dumps_entries].
  intros j1 j2 r' Hj. cbn [dumps fmap list_fmap fst snd]. rewrite Hj. reflexivity.
Qed.

Lemma sorted_registry_canonical r : canonical (JObj (sorted_registry r)).
Proof.
  apply literal_canonical; [reflexivity..|]. repeat apply Forall_cons_2; try constructor.
  apply Forall_fmap, Forall_forall. intros e _. apply sorted_entry_canonical.
Qed.

(** A ledger in the form the reader gives back. *)
Record normal_registry (r : OwnerModuleTrustRegistry) : Prop := {
  nr_key_id : is_lower_id (tr_owner_key_id r) = true;
  nr_generation : (1 <= tr_generation r <= 2147483647)%Z;
  nr_created : validated_text (PStr (tr_created_at r)) "created_at" 96 = Ok (tr_created_at r);
  nr_entries : Forall normal_entry (tr_entries r);
  nr_distinct : NoDup (te_package_id <$> tr_entries r);
  nr_sorted : StronglySorted entry_le (tr_entries r);
  nr_bounded : length (tr_entries r) <= 4096;
  nr_hmac : is_hex64 (tr_hmac_sha256 r) = true
}.

Lemma normal_entry_checks e : normal_entry e -> check_entry e = Ok tt.
Proof.
  intros [_ H2 H3 H4 H5 H6]. unfold check_entry.
  rewrite (proj2 (validated_semver_ok _ _ _) (conj eq_refl H2)), (proj2 (validated_id_ok _ _ _) (conj eq_refl H3)).
  cbn [outcome_bind]. by rewrite H4, (proj2 (validated_digest_ok _ _) (conj eq_refl H5)), H6.
Qed.

Lemma parse_sorted_registry r : normal_registry r ->
  parse_registry ((fun kv => (PStr kv.1, of_json kv.2)) <$> sorted_registry r) = Ok r.
Proof.
  intros [H1 H2 H3 H4 H5 H6 H7 H8]. unfold parse_registry.
  set (d := (fun kv => (PStr kv.1, of_json kv.2)) <$> sorted_registry r).
  replace (exact_fields d allowed_registry_fields) with true by reflexivity.
  replace (get d "schema") with (PStr OWNER_MODULE_TRUST_SCHEMA) by reflexivity.
  replace (get d "entries") with (PList (of_json <$> ((fun e => JObj (sorted_entry e)) <$> tr_entries r))) by reflexivity.
  replace (get d "hmac_sha256") with (PStr (tr_hmac_sha256 r)) by reflexivity.
  replace (get d "owner_key_id") with (PStr (tr_owner_key_id r)) by reflexivity.
  replace (get d "generation") with (PInt (tr_generation r)) by reflexivity.
  replace (get d "created_at") with (PStr (tr_created_at r)) by reflexivity.
  clear d. cbn [negb eq_str]. rewrite bool_decide_true by done. cbn [negb].
  rewrite !length_fmap. destruct (Nat.ltb_spec 4096 (length (tr_entries r))); [lia|].
  rewrite !mapM_outcome_fmap. rewrite (mapM_outcome_pure _ id).
  2: { intros e He. rewrite Forall_forall in H4. unfold compose. by apply parse_sorted_entry, H4. }
  rewrite list_fmap_id. cbn [outcome_bind].
  rewrite (proj2 (validate_entries_ok _ _) (conj eq_refl (conj H5 (Forall_impl _ _ _ H4 normal_entry_checks)))).
  cbn [outcome_bind]. rewrite H8. cbn [negb].
  rewrite (proj2 (validated_id_ok _ _ _) (conj eq_refl H1)), (proj2 (bounded_integer_ok _ _ _ _ _) (conj eq_refl H2)), H3.
  cbn [outcome_bind]. rewrite sort_entries_id by done. by destruct r.
Qed.

Lemma read_normal_registry r key :
  normal_registry r -> sign_payload (registry_payload r) key = Ok (tr_hmac_sha256 r) ->
  read_registry (dumps (registry_document r) +:+ newline) key = Ok r.
Proof.
  intros Hn Hs. unfold read_registry, load_document, loads_unique. rewrite dumps_registry.
  rewrite loads_dumps_ws by first [apply _|apply sorted_registry_canonical|reflexivity].
  cbn [of_json outcome_bind]. rewrite parse_sorted_registry by done. cbn [outcome_bind]. rewrite Hs. cbn [outcome_bind].
  by rewrite bool_decide_true.
Qed.

Lemma hex_words_hex ws : str_forallb hex_char (hex_words ws) = true.
Proof.
  assert (forall n, n < 16 -> hex_char (hex_digit n) = true) as Hd.
  { intros n Hn. do 16 (destruct n as [|n]; [done|]). lia. }
  assert (forall w i, hex_char (hex_nibble w i) = true) as Hh.
  { intros w i. apply Hd. change 15%N with (N.ones 4). rewrite N.land_ones.
    pose proof (N.mod_lt (N.shiftr w (4 * N.of_nat i)) (2 ^ 4) ltac:(done)). lia. }
  assert (forall w l rest, str_forallb hex_char rest = true ->
    str_forallb hex_char (foldr (fun i s => String (hex_nibble w i) s) rest l) = true) as Hw.
  { intros w l rest Hr. induction l as [|i l IH]; [done|]. cbn [foldr str_forallb]. by rewrite Hh. }
  induction ws as [|w ws IH]; [done|]. by apply Hw.
Qed.

Lemma hmac_is_hex64 key msg : is_hex64 (hmac_sha256_hex key msg) = true.
Proof.
  unfold is_hex64, hmac_sha256_hex. rewrite hex_words_hex. cbn [andb]. rewrite hex_words_length. reflexivity.
Qed.

Lemma created_registry_normal kid gen ts es key r :
  create_registry kid gen ts es key = Ok r -> Forall normal_entry es -> length es <= 4096 ->
  normal_registry r /\ sign_payload (registry_payload r) key = Ok (tr_hmac_sha256 r).
Proof.
  intros (H1 & H2 & H3 & H4 & H5 & H6 & ->)%create_registry_ok Hn Hl. split.
  - split; cbn [tr_owner_key_id tr_generation tr_created_at tr_entries tr_hmac_sha256]; try done.
    + by eapply validated_text_stable.
    + by rewrite sort_entries_perm.
    + by rewrite sort_entries_ids.
    + apply sort_entries_sorted.
    + by rewrite sort_entries_perm.
    + apply hmac_is_hex64.
  - by apply sign_payload_ok.
Qed.

(** ** What a text that reads back guarantees *)

Record trusted_ledger (key : byte_string) (r : OwnerModuleTrustRegistry) : Prop := {
  tl_signed : tr_hmac_sha256 r = hmac_sha256_hex key (canonical_json_bytes (JObj (registry_payload r)));
  tl_key : 32 <= length key <= 4096;
  tl_distinct : NoDup (te_package_id <$> tr_entries r);
  tl_sorted : StronglySorted entry_le (tr_entries r);
  tl_entries : Forall normal_entry (tr_entries r);
  tl_generation : (1 <= tr_generation r <= 2147483647)%Z;
  tl_bounded : length (tr_entries r) <= 4096
}.

Lemma validated_path_stable s t : validated_relative_path (PStr s) = Ok t -> validated_relative_path (PStr t) = Ok t.
Proof.
  intros H. pose proof (validated_path_ok s t H) as (-> & Ha & Hne & Hdd). revert H.
  unfold validated_relative_path, trust_error. destruct (is_nonempty s); cbn [negb]; [|done].
  destruct (str_contains backslash s) eqn:Hb; [done|]. destruct (str_contains nul s) eqn:Hn; [done|]. cbn [orb].
  destruct (Nat.ltb_spec 512 (String.length s)) as [|Hl]; [done|]. rewrite Ha. cbn [orb].
  case_bool_decide as Hp; [done|]. case_bool_decide as He; [done|]. intros _.
  rewrite path_text_nonempty, !str_contains_path, path_text_relative, path_parts_text by done. cbn [negb orb].
  pose proof (path_text_length s Hne). destruct (Nat.ltb_spec 512 (String.length (path_text (path_parts s)))); [lia|].
  by rewrite !bool_decide_false.
Qed.

Lemma parse_entry_ok v e : parse_entry v = Ok e -> normal_entry e.
Proof.
  unfold parse_entry, trust_error. destruct v as [| | | | | | |d]; try done. destruct (exact_fields d _); [|done]. cbn [negb].
  destruct (get d "enabled"); try done.
  destruct (get d "package_id") as [| | | |p| | |]; try done.
  destruct (validated_id (PStr p) _) as [a1|] eqn:H1; [|done]. apply validated_id_ok in H1 as [-> H1]. cbn [outcome_bind].
  destruct (get d "package_version") as [| | | |w| | |]; try done.
  destruct (validated_semver (PStr w) _) as [a2|] eqn:H2; [|done]. apply validated_semver_ok in H2 as [-> H2]. cbn [outcome_bind].
  destruct (get d "storage_id") as [| | | |st| | |]; try done.
  destruct (validated_id (PStr st) _) as [a3|] eqn:H3; [|done]. apply validated_id_ok in H3 as [-> H3]. cbn [outcome_bind].
  destruct (get d "relative_path") as [| | | |rp| | |]; try done.
  destruct (validated_relative_path (PStr rp)) as [a4|] eqn:H4; [|done]. apply validated_path_stable in H4. cbn [outcome_bind].
  destruct (get d "manifest_digest") as [| | | |md| | |]; try done.
  destruct (validated_digest (PStr md)) as [a5|] eqn:H5; [|done]. apply validated_digest_ok in H5 as [-> H5]. cbn [outcome_bind].
  destruct (get d "approved_at") as [| | | |ap| | |]; try done.
  destruct (validated_text (PStr ap) _ _) as [a6|] eqn:H6; [|done]. apply validated_text_stable in H6. cbn [outcome_bind].
  intros [= <-]. by split.
Qed.

Lemma parse_registry_ok d r : parse_registry d = Ok r -> normal_registry r.
Proof.
  unfold parse_registry, trust_error. destruct (exact_fields d _); [|done]. cbn [negb].
  destruct (eq_str (get d "schema") _); [|done]. cbn [negb]. destruct (get d "entries") as [| | | | |raw| |]; try done.
  destruct (Nat.ltb_spec 4096 (length raw)) as [|Hlen]; [done|].
  destruct (mapM_outcome parse_entry raw) as [parsed|] eqn:Hp; [|done]. cbn [outcome_bind].
  destruct (validate_entries parsed) as [es|] eqn:Hv; [|done]. cbn [outcome_bind].
  apply validate_entries_ok in Hv as (-> & Hnd & _).
  destruct (get d "hmac_sha256") as [| | | |sig| | |]; try done. destruct (is_hex64 sig) eqn:Hh; [|done]. cbn [negb].
  destruct (get d "owner_key_id") as [| | | |k| | |]; try done.
  destruct (validated_id (PStr k) _) as [k'|] eqn:H1; [|done]. apply validated_id_ok in H1 as [-> H1]. cbn [outcome_bind].
  destruct (get d "generation") as [| |g| | | | |]; try done.
  destruct (bounded_integer (PInt g) _ _ _) as [g'|] eqn:H2; [|done]. apply bounded_integer_ok in H2 as [-> H2]. cbn [outcome_bind].
  destruct (get d "created_at") as [| | | |c| | |]; try done.
  destruct (validated_text (PStr c) _ _) as [c'|] eqn:H3; [|done]. apply validated_text_stable in H3. cbn [outcome_bind].
  intros [= <-]. assert (Forall normal_entry parsed /\ length parsed = length raw) as [Hf Hl].
  { apply mapM_outcome_ok in Hp. split; [|by apply Forall2_length in Hp].
    apply (Forall2_Forall_r _ _ _ _ Hp), Forall_forall. intros v _ e He. by eapply parse_entry_ok. }
  split; cbn [tr_owner_key_id tr_generation tr_created_at tr_entries tr_hmac_sha256]; try done.
  - by rewrite sort_entries_perm.
  - by rewrite sort_entries_ids.
  - apply sort_entries_sorted.
  - rewrite sort_entries_perm. by rewrite Hl.
Qed.

Lemma read_registry_ok text key r : read_registry text key = Ok r -> valid_key key = true -> trusted_ledger key r.
Proof.
  unfold read_registry, trust_error. destruct (load_document text) as [d|]; [|done]. cbn [outcome_bind].
  destruct (parse_registry d) as [r'|] eqn:Hp; [|done]. cbn [outcome_bind]. apply parse_registry_ok in Hp as [].
  destruct (sign_payload _ key) as [s|] eqn:Hs; [|done]. apply sign_payload_ok in Hs as [Hk ->]. cbn [outcome_bind].
  case_bool_decide as Hsig; [|done]. intros [= <-] _. split; try done.
  unfold valid_key in Hk. apply andb_true_iff in Hk as [?%Nat.leb_le ?%Nat.leb_le]. by split.
Qed.

(** ** Loading from files *)

Section Load.
Context {E : Type -> Type} {Ev : Type} `{!HasFiles E} (log : forall X, E X -> outcome X -> Ev).

Definition answered {X} (op : fileop X) (a : X) : Ev := log X (file_op op) (Ok a).

Lemma exec_bind_ok {A B} (p : prog E A) (f : A -> prog E B) tr b : exec log (bind p f) tr (Ok b) <->
  exists tr1 tr2 a, tr = tr1 ++ tr2 /\ exec log p tr1 (Ok a) /\ exec log (f a) tr2 (Ok b).
Proof.
  unfold bind. rewrite exec_handle. split.
  - intros (tr1 & tr2 & [a|e] & -> & H1 & H2); [by exists tr1, tr2, a|]. by apply (exec_of_outcome log (Err e)) in H2 as [_ ?].
  - intros (tr1 & tr2 & a & -> & H1 & H2). by exists tr1, tr2, (Ok a).
Qed.

Lemma exec_fcall_ok {X} (op : fileop X) tr a : exec log (fcall op) tr (Ok a) <-> tr = [answered op a].
Proof.
  unfold fcall, call. rewrite exec_vis. split.
  - by intros (r & tr' & -> & (-> & <-)%exec_of_outcome).
  - intros ->. exists (Ok a), []. split; [done|]. by apply exec_of_outcome.
Qed.

Lemma exec_outcome_ok {A} (o : outcome A) tr a : exec log (of_outcome o) tr (Ok a) <-> tr = [] /\ o = Ok a.
Proof. rewrite exec_of_outcome. naive_solver. Qed.

Lemma absolute_path_ok value label tr p : exec log (absolute_path value label) tr (Ok p) <->
  tr = [answered (OpExpandUser value) p] /\ path_absolute p = true.
Proof.
  unfold absolute_path. rewrite exec_bind_ok. setoid_rewrite exec_fcall_ok. setoid_rewrite exec_outcome_ok. split.
  - intros (tr1 & tr2 & a & -> & -> & -> & H). destruct (path_absolute a) eqn:Ha; [|done]. by injection H as ->.
  - intros [-> Ha]. exists [answered (OpExpandUser value) p], [], p. by rewrite Ha.
Qed.

Lemma verified_direct_file_ok path label n k tr u : exec log (verified_direct_file path label n k) tr (Ok u) <->
  exists s, tr = [answered (OpLstat path) s] /\ direct_file s label n k = Ok u.
Proof.
  unfold verified_direct_file. rewrite exec_handle. split.
  - intros (tr1 & tr2 & [s|e] & -> & H1 & H2).
    + apply exec_fcall_ok in H1 as ->. apply exec_outcome_ok in H2 as [-> H2]. by exists s.
    + unfold trust_error in H2. destruct (is_OSError e).
      * by apply exec_outcome_ok in H2 as [_ ?].
      * by apply (exec_of_outcome log (Err e)) in H2 as [_ ?].
  - intros (s & -> & H). exists [answered (OpLstat path) s], [], (Ok s). split_and!; [done|by apply exec_fcall_ok|].
    by apply exec_outcome_ok.
Qed.

#[local] Opaque absolute_path verified_direct_file fcall.

(** The reads of a successful load, in order. *)
Definition ledger_reads (rpath kpath rfile kfile : string) (ks rs : file_stat) (key data : byte_string)
    (text : string) : list Ev :=
  [answered (OpExpandUser rpath) rfile; answered (OpExpandUser kpath) kfile; answered (OpLstat kfile) ks;
   answered (OpReadBytes kfile) key; answered (OpLstat rfile) rs; answered (OpReadBytes rfile) data;
   answered (OpDecode data) text].

Lemma load_trust_key_ok kpath tr key : exec log (load_trust_key kpath) tr (Ok key) <->
  exists kfile ks, tr = [answered (OpExpandUser kpath) kfile; answered (OpLstat kfile) ks; answered (OpReadBytes kfile) key] /\
    path_absolute kfile = true /\ direct_file ks "owner module trust key" 4096 true = Ok tt /\ valid_key key = true.
Proof.
  unfold load_trust_key. rewrite exec_bind_ok. setoid_rewrite exec_bind_ok. setoid_rewrite exec_bind_ok.
  setoid_rewrite absolute_path_ok. setoid_rewrite verified_direct_file_ok. setoid_rewrite exec_fcall_ok.
  setoid_rewrite exec_outcome_ok. split.
  - intros (? & ? & kfile & -> & [-> Ha] & ? & ? & [] & -> & (ks & -> & Hk) & ? & ? & k & -> & -> & -> & Hv).
    unfold trust_error in Hv. destruct (valid_key k) eqn:Hvk; [|done]. injection Hv as ->. by exists kfile, ks.
  - intros (kfile & ks & -> & Ha & Hk & Hv). exists [answered (OpExpandUser kpath) kfile].
    eexists _, kfile. split_and!; [done..|]. exists [answered (OpLstat kfile) ks]. eexists _, tt. split_and!; [done|by exists ks|].
    exists [answered (OpReadBytes kfile) key], [], key. by rewrite Hv.
Qed.
End Load.

#[local] Opaque absolute_path verified_direct_file fcall load_trust_key.

Section LoadRegistry.
Context {E : Type -> Type} {Ev : Type} `{!HasFiles E} (log : forall X, E X -> outcome X -> Ev).

Lemma load_trust_registry_ok rpath kpath tr r : exec log (load_trust_registry rpath kpath) tr (Ok r) <->
  exists rfile kfile ks rs key data text, tr = ledger_reads log rpath kpath rfile kfile ks rs key data text /\
    path_absolute rfile = true /\ path_absolute kfile = true /\ valid_key key = true /\
    direct_file ks "owner module trust key" 4096 true = Ok tt /\
    direct_file rs "owner module trust registry" 1048576 false = Ok tt /\ read_registry text key = Ok r.
Proof.
  unfold load_trust_registry. rewrite exec_bind_ok. setoid_rewrite exec_bind_ok. setoid_rewrite exec_bind_ok.
  setoid_rewrite exec_bind_ok. setoid_rewrite absolute_path_ok. setoid_rewrite load_trust_key_ok.
  setoid_rewrite verified_direct_file_ok. setoid_rewrite exec_fcall_ok. setoid_rewrite exec_handle. split.
  - intros (? & ? & rfile & -> & [-> Hra] & ? & ? & key & -> & (kfile & ks & -> & Hka & Hks & Hkey) & ? & ? & [] & -> &
      (rs & -> & Hrs) & ? & ? & data & -> & -> & ? & ? & [text|e] & -> & Hd & Hread).
    + apply exec_fcall_ok in Hd as ->. apply exec_outcome_ok in Hread as [-> Hread].
      by exists rfile, kfile, ks, rs, key, data, text.
    + unfold trust_error in Hread. case_bool_decide.
      * by apply exec_outcome_ok in Hread as [_ ?].
      * by apply (exec_of_outcome log (Err e)) in Hread as [_ ?].
  - intros (rfile & kfile & ks & rs & key & data & text & -> & Hra & Hka & Hkey & Hks & Hrs & Hread).
    exists [answered log (OpExpandUser rpath) rfile]. eexists _, rfile. split_and!; [done..|].
    exists [answered log (OpExpandUser kpath) kfile; answered log (OpLstat kfile) ks; answered log (OpReadBytes kfile) key].
    eexists _, key. split_and!; [done|by exists kfile, ks|]. exists [answered log (OpLstat rfile) rs].
    eexists _, tt. split_and!; [done|by exists rs|]. exists [answered log (OpReadBytes rfile) data].
    eexists _, data. split_and!; [done..|]. exists [answered log (OpDecode data) text], [], (Ok text).
    split_and!; [done|by apply exec_fcall_ok|by apply exec_outcome_ok].
Qed.

End LoadRegistry.

(** A ledger made of normal entries reads back as it was made: writing its document and
    reading the text under the same key gives the same ledger. *)
Theorem trust_registry_round_trip kid gen ts es key r :
  create_registry kid gen ts es key = Ok r -> Forall normal_entry es -> length es <= 4096 ->
  read_registry (dumps (registry_document r) +:+ newline) key = Ok r.
Proof.
  intros Hc Hn Hl. destruct (created_registry_normal _ _ _ _ _ _ Hc Hn Hl) as [H1 H2]. by apply read_normal_registry.
Qed.

(** The creator of ledgers does not normalise what it signs.  A path with a doubled slash
    is accepted and signed as it is, but read back without it, so the signature of the new
    ledger fails; so does the signature of one whose approval time carries a blank. *)
Theorem unnormalised_ledger_unreadable :
  let key := replicate 32 7%N in
  let entry path approved := mkTrusted "lamp" "1.0.0" "slot" path (zeros 64) approved true in
  let unreadable e := match create_registry "owner" 1 "now" [e] key with
    | Ok r => is_ok (read_registry (dumps (registry_document r) +:+ newline) key)
    | Err _ => true
    end in
  (unreadable (entry "a/b" "now"), unreadable (entry "a//b" "now"), unreadable (entry "a/b" " now")) = (true, false, false).
Proof. vm_compute. reflexivity. Qed.

(** ** Replacing an entry *)

Lemma find_entry_some l p e : NoDup (te_package_id <$> l) -> find_entry l p = Some e <-> e ∈ l /\ te_package_id e = p.
Proof.
  intros Hn. unfold find_entry. split.
  - destruct (list_find _ l) as [[i x]|] eqn:Hf; [|done]. apply list_find_Some in Hf as (Hi & Hx & _).
    intros [= <-]. split; [by eapply list_elem_of_lookup_2|done].
  - intros [Hin Hp]. destruct (list_find (fun e => te_package_id e = p) l) as [[i x]|] eqn:Hf.
    + apply list_find_Some in Hf as (Hi & Hx & _). cbn. f_equal. apply list_elem_of_lookup in Hin as [j Hj].
      assert (i = j) as ->; [|congruence]. apply (NoDup_lookup (te_package_id <$> l) i j p Hn); rewrite list_lookup_fmap.
      * rewrite Hi. cbn. by rewrite Hx.
      * rewrite Hj. cbn. by rewrite Hp.
    + apply list_find_None in Hf. rewrite Forall_forall in Hf. by destruct (Hf e Hin).
Qed.

Lemma find_entry_ext l1 l2 p : NoDup (te_package_id <$> l1) -> NoDup (te_package_id <$> l2) ->
  (forall e, te_package_id e = p -> e ∈ l1 <-> e ∈ l2) -> find_entry l1 p = find_entry l2 p.
Proof.
  intros H1 H2 H. destruct (find_entry l1 p) as [e|] eqn:E1.
  - apply find_entry_some in E1 as [Hin Hp]; [|done]. symmetry. apply find_entry_some; [done|]. split; [by apply H|done].
  - destruct (find_entry l2 p) as [e|] eqn:E2; [|done]. apply find_entry_some in E2 as [Hin Hp]; [|done].
    apply H in Hin; [|done]. assert (find_entry l1 p = Some e) as Hf by by apply find_entry_some. congruence.
Qed.

(** Approving a package replaces its entry and nothing else.  The new ledger is signed,
    one generation later, has exactly the given entry for the package, and answers as before
    for every other package; a ledger is never handed to another owner key. *)
Theorem upsert_replaces_entry r owner e key ts r' :
  NoDup (te_package_id <$> tr_entries r) -> upsert_entry (Some r) owner e key ts = Ok r' ->
  find_entry (tr_entries r') (te_package_id e) = Some e /\
  (forall p, p <> te_package_id e -> find_entry (tr_entries r') p = find_entry (tr_entries r) p) /\
  NoDup (te_package_id <$> tr_entries r') /\ tr_generation r' = (tr_generation r + 1)%Z /\
  owner = tr_owner_key_id r /\ tr_owner_key_id r' = owner /\
  tr_hmac_sha256 r' = hmac_sha256_hex key (canonical_json_bytes (JObj (registry_payload r'))).
Proof.
  intros Hn. unfold upsert_entry, trust_error. case_bool_decide as Hk; [done|].
  set (es := filter _ (tr_entries r) ++ [e]). intros (_ & _ & _ & Hnd & _ & _ & ->)%create_registry_ok.
  cbn [tr_entries tr_owner_key_id tr_generation tr_hmac_sha256].
  rewrite sort_entries_ids in Hnd. assert (sort_entries (sort_entries es) ≡ₚ es) as Hp by (rewrite !sort_entries_perm; done).
  assert (NoDup (te_package_id <$> sort_entries (sort_entries es))) as Hnd' by by rewrite Hp.
  assert (forall x, x ∈ sort_entries (sort_entries es) <-> (te_package_id x <> te_package_id e /\ x ∈ tr_entries r) \/ x = e) as Hin.
  { intros x. rewrite Hp. unfold es. by rewrite elem_of_app, list_elem_of_filter, list_elem_of_singleton. }
  split_and!; try done.
  - apply find_entry_some; [done|]. split; [|done]. apply Hin. by right.
  - intros p Hne. apply find_entry_ext; [done..|]. intros x Hx. rewrite Hin. naive_solver.
Qed.

(** ** On a small ledger *)

Definition sample_key : byte_string := replicate 32 7%N.
Definition sample_entry (version : string) : OwnerTrustedModuleEntry :=
  mkTrusted "lamp" version "slot" "a/b" (zeros 64) "now" true.
Definition made (o : outcome OwnerModuleTrustRegistry) : OwnerModuleTrustRegistry :=
  match o with Ok r => r | Err _ => mkTrustRegistry "" 0 "" [] "" end.
Definition sample_ledger : OwnerModuleTrustRegistry := made (create_registry "owner" 1 "now" [sample_entry "1.0.0"] sample_key).

#[export] Instance files_only : HasFiles fileop := fun X op => op.

Lemma sample_entry_normal : normal_entry (sample_entry "1.0.0").
Proof. split; vm_compute; reflexivity. Qed.


Lemma trust_registry_round_trip_witness :
  read_registry (dumps (registry_document sample_ledger) +:+ newline) sample_key = Ok sample_ledger.
Proof.
  apply (trust_registry_round_trip "owner" 1 "now" [sample_entry "1.0.0"] sample_key sample_ledger).
  - vm_compute. reflexivity.
  - constructor; [exact sample_entry_normal|constructor].
  - cbn. lia.
Defined.

Lemma upsert_replaces_entry_witness :
  find_entry (tr_entries (made (upsert_entry (Some sample_ledger) "owner" (sample_entry "1.1.0") sample_key "later"))) "lamp"
  = Some (sample_entry "1.1.0").
Proof.
  refine (proj1 (upsert_replaces_entry sample_ledger "owner" (sample_entry "1.1.0") sample_key "later" _ _ _)).
  - apply (bool_decide_unpack _). vm_compute. exact I.
  - vm_compute. reflexivity.
Defined.
