(* ===== verification/ModulePackage.v ===== *)
(** [services/module_package.py], below the manager: Module Package Contract v1.  The manifest
    and its strict reading, the policy of entry points, the bounds on the data packages hand
    to the runtime, and the claims they may not make. *)

From stdpp Require Import base gmap sets list strings sorting.
From Stdlib Require Import ZArith NArith Ascii SpecFloat.
From S2P Require Import Prelude PyText PyVal Json Sha256 PyFloat StrDict PyJson TextChecks ModuleTrust.

Definition MODULE_PACKAGE_SCHEMA : string := "velvet.module_package.v1".
Definition MODULE_RUNTIME_API : string := "velvet.runtime.module_api.v1".
Definition MODULE_LIFECYCLE_API : string := "velvet.module_lifecycle.v1".

Definition allowed_manifest_fields : list string :=
  ["schema"; "package_id"; "package_version"; "runtime_api"; "lifecycle_api"; "entrypoint"; "factory";
   "module_id"; "owning_handmaiden"; "authority"; "read_only"; "actuation_capable"; "network_access";
   "shell_access"; "simulation_supported"; "dependencies"; "conflicts"; "event_inputs"; "event_outputs";
   "hardware_requirements"; "resource_budget"; "state_policy"; "files"].
Definition allowed_resource_fields : list string := ["memory_mb"; "cpu_percent"; "storage_mb"].
Definition allowed_state_policy_fields : list string := ["persistent"; "schema"; "max_snapshot_bytes"].
Definition forbidden_import_roots : list string :=
  ["asyncio"; "ctypes"; "ftplib"; "http"; "multiprocessing"; "paramiko"; "pty"; "requests"; "socket";
   "subprocess"; "telnetlib"; "urllib"].
Definition forbidden_call_names : list string := ["__import__"; "compile"; "eval"; "exec"; "open"].
Definition forbidden_attribute_calls : list (string * string) :=
  (fun f => ("os", f)) <$>
    ["popen"; "spawnl"; "spawnle"; "spawnlp"; "spawnlpe"; "spawnv"; "spawnve"; "spawnvp"; "spawnvpe"; "system"].

Definition manifest_error {A} (msg : string) : outcome A := raise ModuleManifestError msg.
Definition integrity_error {A} (msg : string) : outcome A := raise ModuleIntegrityError msg.
Definition admission_error {A} (msg : string) : outcome A := raise ModuleAdmissionError msg.
Definition lifecycle_error {A} (msg : string) : outcome A := raise ModuleLifecycleError msg.

(** [isinstance(exc, ModulePackageError)] *)
Definition is_ModulePackageError (e : exn) : bool :=
  match exn_class e with
  | ModuleManifestError | ModuleIntegrityError | ModuleAdmissionError | ModuleLifecycleError => true
  | _ => false
  end.

(** ** Data *)

Record ModuleResourceBudget := mkBudget { rb_memory_mb : Z; rb_cpu_percent : float; rb_storage_mb : Z }.

Record ModuleStatePolicy := mkStatePolicy {
  sp_persistent : bool; sp_schema : string; sp_max_snapshot_bytes : Z }.

Record ModulePackageManifest := mkManifest {
  mf_package_id : string;
  mf_package_version : string;
  mf_entrypoint : string;
  mf_factory : string;
  mf_module_id : string;
  mf_owning_handmaiden : string;
  mf_simulation_supported : bool;
  mf_dependencies : list string;
  mf_conflicts : list string;
  mf_event_inputs : list string;
  mf_event_outputs : list string;
  mf_hardware_requirements : list string;
  mf_resource_budget : ModuleResourceBudget;
  mf_state_policy : ModuleStatePolicy;
  mf_files : sdict string;
  mf_digest : string
}.

(** ** The validators of the manifest *)

Definition manifest_id (payload : items) (key : string) : outcome string :=
  let bad := manifest_error (key +:+ " must be a bounded lowercase identifier") in
  match get payload key with PStr s => if is_lower_id s then Ok s else bad | _ => bad end.

Definition manifest_name (payload : items) (key : string) : outcome string :=
  let bad := manifest_error (key +:+ " must be a bounded name") in
  match get payload key with
  | PStr s => if is_blank s || (64 <? String.length s) || negb (is_name s) then bad else Ok s
  | _ => bad
  end.

Definition manifest_semver (payload : items) (key : string) : outcome string :=
  let bad := manifest_error (key +:+ " must be MAJOR.MINOR.PATCH") in
  match get payload key with PStr s => if is_semver s then Ok s else bad | _ => bad end.

(** [_validated_relative_path] *)
Definition relative_path (value label : string) : outcome string :=
  let unsafe := manifest_error (label +:+ " is not a safe relative path") in
  if negb (is_nonempty value) || str_contains backslash value || str_contains nul value then unsafe else
  if path_absolute value || bool_decide (Exists (fun part => part ∈ [""; "."; ".."]) (path_parts value)) then unsafe else
  if 240 <? String.length (path_text (path_parts value)) then manifest_error (label +:+ " path is too long")
  else Ok (path_text (path_parts value)).

(** [s.endswith(suffix)] *)
Definition endswith (suffix s : string) : bool :=
  bool_decide (str_drop (String.length s - String.length suffix) s = suffix).

Definition manifest_relative_file (payload : items) (key suffix : string) : outcome string :=
  match get payload key with
  | PStr s =>
      let? path := relative_path s key in
      if endswith suffix path then Ok path else manifest_error (key +:+ " must end with " +:+ suffix)
  | _ => manifest_error (key +:+ " must be text")
  end.

Fixpoint id_list (key : string) (l : list pyval) (seen : list string) : outcome (list string) :=
  match l with
  | [] => Ok []
  | PStr s :: rest =>
      if negb (is_lower_id s) then manifest_error (key +:+ " entries must be identifiers") else
      if bool_decide (s ∈ seen) then manifest_error (key +:+ " entries must be unique") else
      let? ids := id_list key rest (s :: seen) in Ok (s :: ids)
  | _ => manifest_error (key +:+ " entries must be identifiers")
  end.

(** [_manifest_id_list] *)
Definition manifest_id_list (payload : items) (key : string) : outcome (list string) :=
  match get payload key with
  | PList l => if 128 <? length l then manifest_error (key +:+ " must be a bounded list") else id_list key l []
  | _ => manifest_error (key +:+ " must be a bounded list")
  end.

Definition manifest_integer (payload : items) (key : string) (minimum maximum : Z) : outcome Z :=
  let bad := manifest_error (key +:+ " is outside supported bounds") in
  match get payload key with
  | PInt z => if (minimum <=? z)%Z && (z <=? maximum)%Z then Ok z else bad
  | _ => bad
  end.

Definition manifest_number (payload : items) (key : string) (minimum maximum : float) : outcome float :=
  let v := get payload key in
  if negb (is_real v) then manifest_error (key +:+ " must be numeric") else
  let? f := py_float v in
  if negb (ffinite f) || negb (fle minimum f && fle f maximum)
  then manifest_error (key +:+ " is outside supported bounds") else Ok f.

Definition manifest_text (payload : items) (key : string) (maximum : nat) : outcome string :=
  match get payload key with
  | PStr s =>
      if is_blank s || (maximum <? String.length s) then manifest_error (key +:+ " must be bounded non-empty text") else
      if negb (all_printable s) then manifest_error (key +:+ " must be printable ASCII") else Ok s
  | _ => manifest_error (key +:+ " must be bounded non-empty text")
  end.

(** The [files] object: normal relative paths and their digests. *)
Fixpoint manifest_files (raw : items) (files : sdict string) : outcome (sdict string) :=
  match raw with
  | [] => Ok files
  | (PStr raw_path, raw_digest) :: rest =>
      let? path := relative_path raw_path "package file" in
      if bool_decide (path = "manifest.json") then manifest_error "manifest.json cannot hash itself" else
      match raw_digest with
      | PStr digest =>
          if is_hex64 digest then manifest_files rest (d_set files path digest)
          else manifest_error "file digest must be lowercase SHA-256"
      | _ => manifest_error "file digest must be lowercase SHA-256"
      end
  | _ => manifest_error "file paths must be strings"
  end.

Definition require (c : bool) (msg : string) : outcome unit := if c then Ok tt else manifest_error msg.

(** ** Reading a manifest *)

(** The declarations of Contract v1, up to [simulation_supported]. *)
Definition contract_header (d : items) : outcome unit :=
  let? _ := require (forallb (fun kv => match kv.1 with PStr k => bool_decide (k ∈ allowed_manifest_fields) | _ => false end) d)
    "manifest has unsupported fields" in
  let? _ := require (exact_fields d allowed_manifest_fields) "manifest is missing fields" in
  let? _ := require (eq_str (get d "schema") MODULE_PACKAGE_SCHEMA) "unsupported module package schema" in
  let? _ := require (eq_str (get d "runtime_api") MODULE_RUNTIME_API) "unsupported module Runtime API" in
  let? _ := require (eq_str (get d "lifecycle_api") MODULE_LIFECYCLE_API) "unsupported module lifecycle API" in
  let? _ := require (eq_str (get d "authority") "none") "Contract v1 packages must declare authority none" in
  let? _ := require (is_true_obj (get d "read_only")) "Contract v1 packages must remain read-only" in
  let? _ := require (is_false_obj (get d "actuation_capable")) "Contract v1 package actuation_capable must be false" in
  let? _ := require (is_false_obj (get d "network_access")) "Contract v1 package network_access must be false" in
  let? _ := require (is_false_obj (get d "shell_access")) "Contract v1 package shell_access must be false" in
  require (is_bool (get d "simulation_supported")) "simulation_supported must be boolean".

Definition read_resource_budget (d : items) : outcome ModuleResourceBudget :=
  match get d "resource_budget" with
  | PDict resources =>
      let? _ := require (exact_fields resources allowed_resource_fields) "resource_budget fields are invalid" in
      let? memory := manifest_integer resources "memory_mb" 1 1048576 in
      let? cpu := manifest_number resources "cpu_percent" (flit 1 (-1)) (float_of_Z 10000) in
      let? storage := manifest_integer resources "storage_mb" 1 1048576 in
      Ok (mkBudget memory cpu storage)
  | _ => manifest_error "resource_budget must be an object"
  end.

Definition read_state_policy (d : items) : outcome ModuleStatePolicy :=
  match get d "state_policy" with
  | PDict state =>
      let? _ := require (exact_fields state allowed_state_policy_fields) "state_policy fields are invalid" in
      let? _ := require (is_false_obj (get state "persistent"))
        "Contract v1 package state must remain non-persistent; durable memory belongs outside the package" in
      let? schema := manifest_text state "schema" 96 in
      let? bound := manifest_integer state "max_snapshot_bytes" 128 1048576 in
      Ok (mkStatePolicy false schema bound)
  | _ => manifest_error "state_policy must be an object"
  end.

Definition read_factory (d : items) : outcome string :=
  let bad := manifest_error "factory must be a bounded Python symbol" in
  match get d "factory" with PStr s => if is_symbol s then Ok s else bad | _ => bad end.

Definition read_files (d : items) : outcome (sdict string) :=
  match get d "files" with
  | PDict (kv :: kvs) => manifest_files (kv :: kvs) []
  | _ => manifest_error "files must be a non-empty object"
  end.

(** [_canonical_json_bytes] *)
Definition canonical_bytes_of (v : pyval) : outcome byte_string := outcome_map utf8 (py_dumps false v).

(** [_parse_manifest] *)
Definition parse_manifest (d : items) : outcome ModulePackageManifest :=
  let? _ := contract_header d in
  let? package_id := manifest_id d "package_id" in
  let? package_version := manifest_semver d "package_version" in
  let? module_id := manifest_id d "module_id" in
  let? owning := manifest_name d "owning_handmaiden" in
  let? entrypoint := manifest_relative_file d "entrypoint" ".py" in
  let? factory := read_factory d in
  let? dependencies := manifest_id_list d "dependencies" in
  let? conflicts := manifest_id_list d "conflicts" in
  let? _ := require (negb (bool_decide (package_id ∈ dependencies) || bool_decide (package_id ∈ conflicts)))
    "package cannot depend on or conflict with itself" in
  let? _ := require (negb (existsb (fun p => bool_decide (p ∈ conflicts)) dependencies))
    "dependencies and conflicts must not overlap" in
  let? event_inputs := manifest_id_list d "event_inputs" in
  let? event_outputs := manifest_id_list d "event_outputs" in
  let? hardware := manifest_id_list d "hardware_requirements" in
  let? budget := read_resource_budget d in
  let? policy := read_state_policy d in
  let? files := read_files d in
  let? _ := require (match d_get files entrypoint with Some _ => true | None => false end)
    "entrypoint must be listed in files" in
  let? bytes := canonical_bytes_of (PDict d) in
  Ok (mkManifest package_id package_version entrypoint factory module_id owning
        (is_true_obj (get d "simulation_supported")) dependencies conflicts event_inputs event_outputs hardware
        budget policy files (sha256_hex bytes)).

(** [_loads_unique(text, ModuleManifestError)] *)
Definition load_manifest_document (text : string) : outcome items :=
  match loads_unique text with
  | Ok (PDict d) => Ok d
  | Ok _ => manifest_error "JSON root must be an object"
  | Err e => manifest_error ("invalid JSON: " +:+ exn_message e)
  end.

(** ** The policy of entry points *)

(** What [ast.walk(ast.parse(source))] meets, as far as the policy looks. *)
Inductive call_target : Set := CallName (id : string) | CallAttribute (owner attr : string) | CallOther.
Inductive ast_node : Set :=
| NImport (names : list string)
| NImportFrom (module_name : option string)
| NCall (func : call_target)
| NOther.

(** [name.split(".", 1)[0]] *)
Definition import_root (name : string) : string := default "" (head (split_on "." name)).

Definition forbidden_import (name : string) : outcome unit :=
  if bool_decide (import_root name ∈ forbidden_import_roots)
  then integrity_error ("entrypoint imports forbidden module: " +:+ import_root name) else Ok tt.

Fixpoint each {A} (f : A -> outcome unit) (l : list A) : outcome unit :=
  match l with [] => Ok tt | a :: l' => let? _ := f a in each f l' end.

Definition check_node (n : ast_node) : outcome unit :=
  match n with
  | NImport names => each forbidden_import names
  | NImportFrom m => forbidden_import (default "" m)
  | NCall (CallName id) =>
      if bool_decide (id ∈ forbidden_call_names)
      then integrity_error ("entrypoint calls forbidden builtin: " +:+ id) else Ok tt
  | NCall (CallAttribute owner attr) =>
      if bool_decide ((owner, attr) ∈ forbidden_attribute_calls)
      then integrity_error ("entrypoint calls forbidden function: " +:+ owner +:+ "." +:+ attr) else Ok tt
  | NCall CallOther | NOther => Ok tt
  end.

(** [_verify_entrypoint_policy], once the source is parsed. *)
Definition entrypoint_policy (tree : list ast_node) : outcome unit := each check_node tree.

(** ** The files of a package *)

(** What [rglob] and the queries on its paths say of one entry of the package. *)
Record tree_entry := mkTreeEntry {
  en_relative : string; en_symlink : bool; en_dir : bool; en_file : bool; en_size : Z }.

(** One round of the loop of [_verify_package_files]: the relative paths and bytes so far. *)
Definition visit_entry (root : string) (acc : list string * Z) (e : tree_entry) : outcome (list string * Z) :=
  let relative := en_relative e in
  if en_symlink e then integrity_error ("package contains symlink: " +:+ relative) else
  if en_dir e then Ok acc else
  if negb (en_file e) then integrity_error ("package contains non-regular entry: " +:+ relative) else
  if bool_decide (relative = "manifest.json") then Ok acc else
  if bool_decide ("__pycache__" ∈ path_parts root ++ path_parts relative) || endswith ".pyc" relative
  then integrity_error "package contains generated Python cache files" else
  let total := (acc.2 + en_size e)%Z in
  if (67108864 <? total)%Z then integrity_error "package exceeds 64 MiB verification bound"
  else Ok (acc.1 ++ [relative], total).

Fixpoint visit_entries (root : string) (acc : list string * Z) (l : list tree_entry) : outcome (list string * Z) :=
  match l with [] => Ok acc | e :: l' => let? acc' := visit_entry root acc e in visit_entries root acc' l' end.

Definition same_set (a b : list string) : bool :=
  forallb (fun x => bool_decide (x ∈ b)) a && forallb (fun x => bool_decide (x ∈ a)) b.

(** The file set found is the file set declared. *)
Definition check_file_set (root : string) (entries : list tree_entry) (declared : list string) : outcome unit :=
  let? found := visit_entries root ([], 0%Z) entries in
  if same_set found.1 declared then Ok tt else integrity_error "package file set differs from manifest".

(** [root / relative] *)
Definition path_join (root relative : string) : string :=
  if endswith "/" root then root +:+ relative else root +:+ "/" +:+ relative.

(** ** Data from packages *)

(** [_json_safe_mapping] *)
Definition json_safe_mapping (value : pyval) (label : string) : outcome items :=
  if negb (is_mapping value) then lifecycle_error (label +:+ " must be a mapping") else
  match (let? encoded := py_dumps false value in let? decoded := loads encoded in Ok (encoded, decoded)) with
  | Err e =>
      if bool_decide (exn_class e = TypeError) || is_ValueError e
      then lifecycle_error (label +:+ " is not bounded JSON data: " +:+ exn_message e) else Err e
  | Ok (encoded, PDict d) =>
      if (1048576 <? Z.of_nat (String.length encoded))%Z then lifecycle_error (label +:+ " exceeds 1 MiB bound") else Ok d
  | Ok _ => lifecycle_error (label +:+ " must normalize to an object")
  end.

(** [_deep_copy] *)
Definition deep_copy (v : pyval) : outcome pyval := let? text := py_dumps false v in loads text.

Definition claim_fields : list string :=
  ["action"; "actuate"; "actuation"; "capability_token"; "command"; "executor"; "route_id"; "shell"].
Definition claim_flags : list string :=
  ["actuation_granted"; "actuation_performed"; "authority_granted"; "grants_authority"].

Definition claim_member (path key : string) (item : pyval) : outcome unit :=
  if bool_decide (lower key ∈ claim_fields)
  then lifecycle_error ("module output contains forbidden field: " +:+ path +:+ "." +:+ key)
  else if bool_decide (lower key ∈ claim_flags) && negb (is_false_obj item)
  then lifecycle_error ("module output contains unsafe claim: " +:+ path +:+ "." +:+ key)
  else Ok tt.

(** [_reject_authority_claims] *)
Fixpoint reject_claims (value : pyval) (path : string) : outcome unit :=
  match value with
  | PDict kvs =>
      (fix go kvs := match kvs with
       | [] => Ok tt
       | kv :: kvs' =>
           let key := py_str kv.1 in
           let? _ := claim_member path key kv.2 in
           let? _ := reject_claims kv.2 (path +:+ "." +:+ key) in go kvs'
       end) kvs
  | PList l =>
      (fix go l (index : Z) := match l with
       | [] => Ok tt
       | item :: l' => let? _ := reject_claims item (path +:+ "[" +:+ str_of_Z index +:+ "]") in go l' (index + 1)%Z
       end) l 0%Z
  | _ => Ok tt
  end.

(** [_validate_state_snapshot] *)
Definition validate_snapshot (state : pyval) (policy : ModuleStatePolicy) : outcome items :=
  let? normalized := json_safe_mapping state "module state snapshot" in
  if negb (eq_str (get normalized "schema") (sp_schema policy))
  then lifecycle_error "module state snapshot schema does not match manifest" else
  let? encoded := py_dumps false (PDict normalized) in
  if (sp_max_snapshot_bytes policy <? Z.of_nat (String.length encoded))%Z
  then lifecycle_error "module state snapshot exceeds manifest bound" else
  let? _ := reject_claims (PDict normalized) "payload" in Ok normalized.

(** ** The validators that raise [ValueError] *)

Definition checked_id (value label : string) : outcome string :=
  if is_lower_id value then Ok value else raise ValueError (label +:+ " must be a bounded lowercase identifier").

Definition checked_semver (value label : string) : outcome string :=
  if is_semver value then Ok value else raise ValueError (label +:+ " must be MAJOR.MINOR.PATCH").

Definition checked_text (value label : string) (maximum : nat) : outcome string :=
  if is_blank value || (maximum <? String.length value)
  then raise ValueError (label +:+ " must be bounded non-empty text") else
  if negb (all_printable (strip value)) then raise ValueError (label +:+ " must be printable ASCII") else Ok (strip value).

Definition checked_enum (value label : string) (allowed : list string) : outcome string :=
  let normalized := upper (strip value) in
  if bool_decide (normalized ∈ allowed) then Ok normalized else raise ValueError (label +:+ " is unsupported").

Definition checked_integer (value : pyval) (label : string) (minimum maximum : Z) : outcome Z :=
  let bad := raise ValueError (label +:+ " is outside supported bounds") in
  match value with
  | PInt z => if (minimum <=? z)%Z && (z <=? maximum)%Z then Ok z else bad
  | _ => bad
  end.

Definition checked_number (value : pyval) (label : string) (minimum maximum : float) : outcome float :=
  if negb (is_real value) then raise ValueError (label +:+ " must be numeric") else
  let? f := py_float value in
  if negb (ffinite f) || negb (fle minimum f && fle f maximum)
  then raise ValueError (label +:+ " is outside supported bounds") else Ok f.

Definition checked_option (value : option string) (label : string) (maximum : nat) : outcome (option string) :=
  match value with None => Ok None | Some s => let? t := checked_text s label maximum in Ok (Some t) end.

(** [_bounded_detail] *)
Definition exn_name (k : exn_kind) : string :=
  match k with
  | ValueError => "ValueError" | TypeError => "TypeError" | KeyError => "KeyError"
  | FileNotFoundError => "FileNotFoundError" | RuntimeError => "RuntimeError" | OSError => "OSError"
  | ActuationError => "ActuationError" | ReservationUnavailable => "ReservationUnavailable"
  | UnicodeError => "UnicodeDecodeError" | SyntaxError => "SyntaxError"
  | BodyStateBridgeError => "BodyStateBridgeError" | ModuleManifestError => "ModuleManifestError"
  | ModuleIntegrityError => "ModuleIntegrityError" | ModuleAdmissionError => "ModuleAdmissionError"
  | ModuleLifecycleError => "ModuleLifecycleError" | ModuleTrustRegistryError => "ModuleTrustRegistryError"
  | ModuleTrustDeniedError => "ModuleTrustDeniedError" | ModuleTrustMismatchError => "ModuleTrustMismatchError"
  | SeatNodeProtocolError => "SeatNodeProtocolError"
  | SeatNodeReplayError => "SeatNodeReplayError"
  | SeatPressureProtocolError => "SeatPressureProtocolError"
  | SeatPressureReplayError => "SeatPressureReplayError"
  | SeatHeartbeatProtocolError => "SeatHeartbeatProtocolError"
  | SeatHeartbeatReplayError => "SeatHeartbeatReplayError"
  | SeatPersonSenseTopologyError => "SeatPersonSenseTopologyError"
  | GnssParseError => "GnssParseError"
  | ContactlessRegistryError => "ContactlessRegistryError"
  | Rdm6300Error => "Rdm6300Error"
  | RequiredModuleError => "RequiredModuleError" | OtherError => "Exception" | BaseExit => "BaseException"
  end.
Definition blank_breaks (c : ascii) : ascii := if (code c =? 10) || (code c =? 13) then " "%char else c.
Definition bounded_detail (e : exn) : string :=
  let t := strip (str_map blank_breaks (exn_message e)) in
  str_take 384 (if is_nonempty t then t else exn_name (exn_class e)).
