(* ===== verification/ModuleManager.v ===== *)
(** [services/module_package.py], class [ModulePackageManager]: packages are verified, loaded,
    started, quiesced, snapshotted, stopped and unloaded, each step explicit and receipted.

    The file system, the interpreter ([compile], [exec], [ast]), the code of the packages
    (factory and lifecycle methods), clocks, identities and the two sinks are operations of
    the environment.  Package code that calls back into its context does so while the
    manager is in the state the call was made in: [publish_sensor], [publish_health] and
    [get_service] are methods on that state, and none of them changes it. *)

From stdpp Require Import base gmap sets list strings sorting.
From Stdlib Require Import ZArith NArith Ascii SpecFloat.
From S2P Require Import Prelude PyText PyVal Json Sha256 PyFloat StrDict Effects StateProg PyJson TextChecks.
From S2P Require Import BodyRecord ModuleTrust ModulePackage.

(** ** State *)

Inductive package_state : Set := LOADED | ACTIVE | QUIESCED | STOPPED | UNLOADED | FAILED.
#[export] Instance package_state_eq_dec : EqDecision package_state.
Proof. solve_decision. Defined.

Definition state_name (s : package_state) : string :=
  match s with
  | LOADED => "LOADED" | ACTIVE => "ACTIVE" | QUIESCED => "QUIESCED" | STOPPED => "STOPPED"
  | UNLOADED => "UNLOADED" | FAILED => "FAILED"
  end.

(** [{"LOADED", "ACTIVE", "QUIESCED", "STOPPED"}] *)
Definition admitted_states : list package_state := [LOADED; ACTIVE; QUIESCED; STOPPED].

(** An instance: its identity, whether it is [None], and its callable attributes. *)
Record instance_info := mkInstance { ii_id : Z; ii_none : bool; ii_methods : list string }.

(** Namespace, imported module, instance and context, which are set and cleared together. *)
Record loaded_code := mkCode { lc_namespace : string; lc_instance : instance_info }.

Record package_record := mkRecord {
  pr_manifest : ModulePackageManifest;
  pr_root : string;
  pr_state : package_state;
  pr_code : option loaded_code;
  pr_last_snapshot : option items;
  pr_last_error : option string;
  pr_loaded_at : option float;
  pr_started_at : option float
}.

Definition with_state (st : package_state) (r : package_record) : package_record :=
  mkRecord (pr_manifest r) (pr_root r) st (pr_code r) (pr_last_snapshot r) (pr_last_error r) (pr_loaded_at r) (pr_started_at r).
Definition with_error (msg : string) (r : package_record) : package_record :=
  mkRecord (pr_manifest r) (pr_root r) FAILED (pr_code r) (pr_last_snapshot r) (Some msg) (pr_loaded_at r) (pr_started_at r).
Definition with_started (t : float) (r : package_record) : package_record :=
  mkRecord (pr_manifest r) (pr_root r) (pr_state r) (pr_code r) (pr_last_snapshot r) (pr_last_error r) (pr_loaded_at r) (Some t).
Definition with_snapshot (d : items) (r : package_record) : package_record :=
  mkRecord (pr_manifest r) (pr_root r) (pr_state r) (pr_code r) (Some d) (pr_last_error r) (pr_loaded_at r) (pr_started_at r).
Definition without_code (r : package_record) : package_record :=
  mkRecord (pr_manifest r) (pr_root r) (pr_state r) None (pr_last_snapshot r) (pr_last_error r) (pr_loaded_at r) (pr_started_at r).

Record manager := mkManager {
  mg_records : sdict package_record;
  mg_snapshots : gmap string items;
  mg_modules : gset string        (* the namespaces of packages in [sys.modules] *)
}.
Definition new_manager : manager := mkManager [] ∅ ∅.

(** [ModuleManagerBudget] *)
Record manager_budget := mkManagerBudget { mb_memory_mb : Z; mb_cpu_percent : float; mb_storage_mb : Z }.
Definition make_manager_budget (b : manager_budget) : outcome manager_budget :=
  let? _ := checked_integer (PInt (mb_memory_mb b)) "manager memory_mb" 1 1048576 in
  let? _ := checked_number (PFloat (mb_cpu_percent b)) "manager cpu_percent" (flit 1 (-1)) (float_of_Z 10000) in
  let? _ := checked_integer (PInt (mb_storage_mb b)) "manager storage_mb" 1 1048576 in Ok b.

(** What [ModulePackageManager.__init__] fixes; services are known by name. *)
Record manager_config := mkManagerConfig {
  mc_node_id : string; mc_runtime_version : string; mc_budget : manager_budget; mc_services : list string }.

Definition make_manager_config (node_id runtime_version : string) (budget : manager_budget) (services : list string)
    : outcome manager_config :=
  let? node := checked_id node_id "node_id" in
  let? version := checked_semver runtime_version "runtime_version" in
  let? _ := each (fun name => outcome_map (fun _ => tt) (checked_id name "service name")) services in
  Ok (mkManagerConfig node version budget services).

(** ** Operations of the environment *)

Inductive mop : Type -> Type :=
| MFile {X} (op : fileop X) : mop X
| MIsSymlink (path : string) : mop bool
| MResolve (path : string) : mop string
| MIsDir (path : string) : mop bool
| MTree (root : string) : mop (list tree_entry)
| MReadText (path : string) : mop string
| MParseAst (source : string) : mop (list ast_node)
| MCompile (source : string) : mop unit
| MExec (namespace source : string) : mop unit
| MFactory (namespace factory : string) : mop bool
| MCreate (namespace factory : string) : mop instance_info
| MStart (instance : Z) : mop unit
| MQuiesce (instance : Z) (reason : string) : mop unit
| MSnapshot (instance : Z) : mop pyval
| MRestore (instance : Z) (state : pyval) : mop unit
| MStop (instance : Z) : mop unit
| MHealth (instance : Z) : mop pyval
| MUuid : mop string
| MTime : mop float
| MMonotonic : mop float
| MReceipt (receipt : pyval) : mop unit
| MEvent (record : items) : mop unit
| MTrustReceipt (receipt : pyval) : mop unit
| MTimeNs : mop Z.

#[export] Instance mop_files : HasFiles mop := fun X op => MFile op.

(** An event: the operation with its answer. *)
Inductive mevent : Type := | MEv {X} (op : mop X) (o : outcome X).
Definition mlog (X : Type) (op : mop X) (o : outcome X) : mevent := MEv op o.

Abbreviation mgr := (stprog mop manager).

Definition file {X} (op : fileop X) : mgr X := perform (MFile op).
Abbreviation raising := (finish (E := mop) (S := manager)).

(** [except Exception]-free conversion of an exception: the handler of a [try] that catches
    the exceptions [c] of one operation. *)
Definition converting {A} (c : exn -> bool) (h : exn -> exn) (m : mgr A) : mgr A :=
  then_ m (fun o => match o with
    | Err e => finish (Err (if c e then h e else e))
    | Ok a => finish (Ok a)
    end).

Section Manager.
Context (cfg : manager_config).

(** ** Receipts *)

Definition receipt_dict (uuid : string) (time : float) (m : ModulePackageManifest)
    (receipt_type state_before state_after reason : string) : list (string * pyval) :=
  [("receipt_id", PStr uuid); ("receipt_type", PStr receipt_type); ("timestamp", PFloat time);
   ("node_id", PStr (mc_node_id cfg)); ("package_id", PStr (mf_package_id m));
   ("package_version", PStr (mf_package_version m)); ("module_id", PStr (mf_module_id m));
   ("owning_handmaiden", PStr (mf_owning_handmaiden m)); ("manifest_digest", PStr (mf_digest m));
   ("state_before", PStr state_before); ("state_after", PStr state_after); ("reason", PStr reason);
   ("authority", PStr "none"); ("read_only", PBool true); ("actuation_granted", PBool false);
   ("actuation_performed", PBool false)].

(** [_emit_receipt]; [extra] is empty when no details are given. *)
Definition emit_receipt (m : ModulePackageManifest) (receipt_type state_before state_after reason : string)
    (extra : list (string * pyval)) : mgr unit :=
  let^ uuid := perform MUuid in
  let^ time := perform MTime in
  let^ text := raising (checked_text reason "receipt reason" 512) in
  let receipt := receipt_dict uuid time m receipt_type state_before state_after text in
  let^ receipt := raising (
    match extra with
    | [] => Ok (str_items receipt)
    | _ =>
        let? normalized := json_safe_mapping (PDict (str_items extra)) "receipt extra" in
        let? _ := reject_claims (PDict normalized) "payload" in
        Ok (str_items (receipt ++ [("details", PDict normalized)]))
    end) in
  let^ copy := raising (deep_copy (PDict receipt)) in
  perform (MReceipt copy).

(** ** Verification *)

(** [_verified_package_root] *)
Definition verified_package_root (package_root : string) : mgr string :=
  if negb (path_absolute package_root) then raising (manifest_error "package root must be absolute") else
  let^ symlink := perform (MIsSymlink package_root) in
  if symlink : bool then raising (manifest_error "package root cannot be a symlink") else
  let^ resolved := converting is_OSError
    (fun e => Exn ModuleManifestError ("package root does not exist: " +:+ exn_message e))
    (perform (MResolve package_root)) in
  let^ dir := perform (MIsDir resolved) in
  if dir : bool then finish (Ok resolved) else raising (manifest_error "package root must be a directory").

(** [_regular_file_without_symlink] *)
Definition regular_file (path : string) : mgr bool :=
  then_ (file (OpLstat path)) (fun o => match o with
    | Ok s => finish (Ok (bool_decide (fs_kind s = RegularFile)))
    | Err e => finish (if is_OSError e then Ok false else Err e)
    end).

(** The last loop of [_verify_package_files]: every declared file has its declared digest. *)
Fixpoint verify_digests (root : string) (files : sdict string) : mgr unit :=
  match files with
  | [] => finish (Ok tt)
  | (relative, expected) :: rest =>
      let^ regular := regular_file (path_join root relative) in
      if negb regular then raising (integrity_error ("package file is not regular: " +:+ relative)) else
      let^ data := file (OpReadBytes (path_join root relative)) in
      if bool_decide (sha256_hex data <> expected)
      then raising (integrity_error ("package file hash mismatch: " +:+ relative))
      else verify_digests root rest
  end.

(** [_verify_package_files] *)
Definition verify_package_files (root : string) (m : ModulePackageManifest) : mgr unit :=
  let^ entries := perform (MTree root) in
  let^ _ := raising (check_file_set root entries (mf_files m).*1) in
  verify_digests root (mf_files m).

(** [_verify_entrypoint_policy] *)
Definition verify_entrypoint_policy (path : string) : mgr unit :=
  let^ source := converting (fun e => is_OSError e || bool_decide (exn_class e = UnicodeError))
    (fun e => Exn ModuleIntegrityError ("entrypoint cannot be read as UTF-8: " +:+ exn_message e))
    (perform (MReadText path)) in
  let^ tree := converting (fun e => bool_decide (exn_class e = SyntaxError))
    (fun e => Exn ModuleIntegrityError ("entrypoint syntax is invalid: " +:+ exn_message e))
    (perform (MParseAst source)) in
  raising (entrypoint_policy tree).

(** The manifest of a package root. *)
Definition read_manifest (root : string) : mgr ModulePackageManifest :=
  let manifest_path := path_join root "manifest.json" in
  let^ regular := regular_file manifest_path in
  if negb regular then raising (manifest_error "manifest.json must be a regular non-symlink file") else
  let^ raw := file (OpReadBytes manifest_path) in
  let size := Z.of_nat (length raw) in
  if negb ((2 <=? size)%Z && (size <=? 131072)%Z)
  then raising (manifest_error "manifest.json size is outside supported bounds") else
  let^ text := converting (fun e => bool_decide (exn_class e = UnicodeError))
    (fun _ => Exn ModuleManifestError "manifest.json is not valid UTF-8") (file (OpDecode raw)) in
  let^ document := raising (load_manifest_document text) in
  raising (parse_manifest document).

(** [verify] *)
Definition verify (package_root : string) : mgr ModulePackageManifest :=
  let^ root := verified_package_root package_root in
  let^ m := read_manifest root in
  let^ _ := verify_package_files root m in
  let^ _ := verify_entrypoint_policy (path_join root (mf_entrypoint m)) in
  let^ _ := emit_receipt m "MODULE_PACKAGE_VERIFIED" "UNVERIFIED" "VERIFIED"
    "manifest, integrity, and entrypoint policy verified" [] in
  finish (Ok m).

(** ** Admission *)

Definition is_admitted (r : package_record) : bool := bool_decide (pr_state r ∈ admitted_states).

(** [usage] *)
Definition add_usage (u : ModuleResourceBudget) (r : package_record) : ModuleResourceBudget :=
  let b := mf_resource_budget (pr_manifest r) in
  if is_admitted r
  then mkBudget (rb_memory_mb u + rb_memory_mb b) (fadd (rb_cpu_percent u) (rb_cpu_percent b)) (rb_storage_mb u + rb_storage_mb b)
  else u.
Definition usage (s : manager) : ModuleResourceBudget := fold_left add_usage (mg_records s).*2 (mkBudget 0 f0 0).

Definition check_dependency (s : manager) (p : string) : outcome unit :=
  match d_get (mg_records s) p with
  | Some r => if bool_decide (pr_state r = ACTIVE) then Ok tt else admission_error ("required dependency is not active: " +:+ p)
  | None => admission_error ("required dependency is not active: " +:+ p)
  end.
Definition check_conflict (s : manager) (p : string) : outcome unit :=
  match d_get (mg_records s) p with
  | Some r => if is_admitted r then admission_error ("conflicting package is admitted: " +:+ p) else Ok tt
  | None => Ok tt
  end.
Definition check_service (name : string) : outcome unit :=
  if bool_decide (name ∈ mc_services cfg) then Ok tt
  else admission_error ("required local service is unavailable: " +:+ name).

(** [_check_admission] *)
Definition check_admission (m : ModulePackageManifest) (s : manager) : outcome unit :=
  let? _ := each (check_dependency s) (mf_dependencies m) in
  let? _ := each (check_conflict s) (mf_conflicts m) in
  let? _ := each check_service (mf_hardware_requirements m) in
  let used := usage s in
  let required := mf_resource_budget m in
  let budget := mc_budget cfg in
  if (mb_memory_mb budget <? rb_memory_mb used + rb_memory_mb required)%Z
  then admission_error "module memory budget would be exceeded" else
  if flt (fadd (mb_cpu_percent budget) (flit 1 (-9))) (fadd (rb_cpu_percent used) (rb_cpu_percent required))
  then admission_error "module CPU budget would be exceeded" else
  if (mb_storage_mb budget <? rb_storage_mb used + rb_storage_mb required)%Z
  then admission_error "module storage budget would be exceeded" else Ok tt.

(** ** Loading *)

Definition lifecycle_methods : list string := ["start"; "quiesce"; "snapshot_state"; "restore_state"; "stop"; "health"].

(** [_validate_lifecycle_instance] *)
Definition validate_instance (i : instance_info) : outcome unit :=
  if ii_none i then lifecycle_error "package factory returned None" else
  each (fun name => if bool_decide (name ∈ ii_methods i) then Ok tt
                    else lifecycle_error ("package instance lacks lifecycle method: " +:+ name)) lifecycle_methods.

Definition put_module (namespace : string) (s : manager) : manager :=
  mkManager (mg_records s) (mg_snapshots s) ({[namespace]} ∪ mg_modules s).
Definition pop_module (namespace : string) (s : manager) : manager :=
  mkManager (mg_records s) (mg_snapshots s) (mg_modules s ∖ {[namespace]}).
Definition put_record (p : string) (r : package_record) (s : manager) : manager :=
  mkManager (d_set (mg_records s) p r) (mg_snapshots s) (mg_modules s).
Definition update_record (p : string) (f : package_record -> package_record) (s : manager) : manager :=
  match d_get (mg_records s) p with Some r => put_record p (f r) s | None => s end.
Definition put_snapshot (p : string) (d : items) (s : manager) : manager :=
  mkManager (mg_records s) (<[p := d]> (mg_snapshots s)) (mg_modules s).

Definition namespace_of (package_id hex : string) : string :=
  "_velvet_package_" +:+ str_map (fun c => if code c =? 45 then "_"%char else c) package_id +:+ "_" +:+ hex.

(** The body of the [try] of [load]. *)
Definition import_package (root namespace : string) (m : ModulePackageManifest) : mgr instance_info :=
  let^ source := perform (MReadText (path_join root (mf_entrypoint m))) in
  let^ _ := perform (MCompile source) in
  let^ _ := modify (put_module namespace) in
  let^ _ := perform (MExec namespace source) in
  let^ callable := perform (MFactory namespace (mf_factory m)) in
  if negb callable then raising (lifecycle_error "package factory is missing or not callable") else
  let^ instance := perform (MCreate namespace (mf_factory m)) in
  let^ _ := raising (validate_instance instance) in
  finish (Ok instance).

(** The exception a failed step of a package ends with. *)
Definition package_failure (prefix : string) (e : exn) : exn :=
  if is_ModulePackageError e then e else Exn ModuleLifecycleError (prefix +:+ exn_message e).
Definition lifecycle_failure (prefix : string) (e : exn) : exn := Exn ModuleLifecycleError (prefix +:+ exn_message e).

(** [load] *)
Definition load (package_root : string) : mgr package_record :=
  let^ m := verify package_root in
  let p := mf_package_id m in
  let^ previous := reads (fun s => d_get (mg_records s) p) in
  let^ _ := raising (match previous with
    | Some r => if bool_decide (pr_state r <> UNLOADED)
                then admission_error ("package is already admitted in state " +:+ state_name (pr_state r)) else Ok tt
    | None => Ok tt
    end) in
  let^ _ := embed (fun s => (check_admission m s, s)) in
  let^ root := verified_package_root package_root in
  let^ hex := perform MUuid in
  let namespace := namespace_of p hex in
  let^ instance := catching (import_package root namespace m) (fun e =>
    let^ _ := modify (pop_module namespace) in
    let^ _ := emit_receipt m "MODULE_PACKAGE_FAILED" "VERIFIED" "FAILED" ("load failed: " +:+ bounded_detail e) [] in
    finish (Err (package_failure "package load failed: " e))) in
  let^ last := reads (fun s => mg_snapshots s !! p) in
  let^ now := perform MTime in
  let record := mkRecord m root LOADED (Some (mkCode namespace instance)) last None (Some now) None in
  let^ _ := modify (put_record p record) in
  let^ _ := emit_receipt m "MODULE_PACKAGE_LOADED" "VERIFIED" "LOADED" "package code imported but not started" [] in
  finish (Ok record).

(** ** Lifecycle *)

(** [_require_record] *)
Definition require_record (package_id : string) (states : list package_state) (s : manager) : outcome package_record :=
  let? package := checked_id package_id "package_id" in
  match d_get (mg_records s) package with
  | None => lifecycle_error ("package is not known: " +:+ package)
  | Some r =>
      if bool_decide (pr_state r ∈ states) then Ok r
      else lifecycle_error ("package " +:+ package +:+ " is " +:+ state_name (pr_state r) +:+ "; expected another state")
  end.
Definition required (package_id : string) (states : list package_state) : mgr package_record :=
  embed (fun s => (require_record package_id states s, s)).

Definition instance_of (r : package_record) : Z :=
  match pr_code r with Some c => ii_id (lc_instance c) | None => 0 end.

(** [except Exception as exc: record.state = "FAILED"; ...; raise failure(exc)] *)
Definition failing_package {A} (package_id : string) (before : string) (prefix : string) (failure : exn -> exn)
    (m : ModulePackageManifest) (body : mgr A) : mgr A :=
  catching body (fun e =>
    let^ _ := modify (update_record package_id (with_error (bounded_detail e))) in
    let^ _ := emit_receipt m "MODULE_PACKAGE_FAILED" before "FAILED" (prefix +:+ bounded_detail e) [] in
    finish (Err (failure e))).

Definition current_record (package_id : string) (r : package_record) (s : manager) : package_record :=
  default r (d_get (mg_records s) package_id).

(** [start] *)
Definition start (package_id : string) : mgr package_record :=
  let^ record := required package_id [LOADED] in
  let m := pr_manifest record in
  let^ _ := failing_package package_id "LOADED" "start failed: " (lifecycle_failure "package start failed: ") m (
    let^ _ := match pr_last_snapshot record with
      | None => finish (Ok tt)
      | Some state =>
          let^ copy := raising (deep_copy (PDict state)) in
          let^ _ := perform (MRestore (instance_of record) copy) in
          emit_receipt m "MODULE_PACKAGE_STATE_RESTORED" "LOADED" "LOADED" "bounded prior state restored before start" []
      end in
    let^ _ := perform (MStart (instance_of record)) in
    let^ _ := modify (update_record package_id (with_state ACTIVE)) in
    let^ now := perform MTime in
    modify (update_record package_id (with_started now))) in
  let^ _ := emit_receipt m "MODULE_PACKAGE_STARTED" "LOADED" "ACTIVE" "explicit start completed" [] in
  reads (current_record package_id record).

(** [quiesce] *)
Definition quiesce (package_id reason : string) : mgr package_record :=
  let^ record := required package_id [ACTIVE] in
  let m := pr_manifest record in
  let^ bounded_reason := raising (checked_text reason "quiesce reason" 256) in
  let^ _ := failing_package package_id "ACTIVE" "quiesce failed: " (lifecycle_failure "package quiesce failed: ") m (
    let^ _ := perform (MQuiesce (instance_of record) bounded_reason) in
    modify (update_record package_id (with_state QUIESCED))) in
  let^ _ := emit_receipt m "MODULE_PACKAGE_QUIESCED" "ACTIVE" "QUIESCED" bounded_reason [] in
  reads (current_record package_id record).

(** [snapshot] *)
Definition snapshot (package_id : string) : mgr pyval :=
  let^ record := required package_id [QUIESCED] in
  let m := pr_manifest record in
  let^ normalized := failing_package package_id "QUIESCED" "state snapshot failed: "
    (package_failure "package snapshot failed: ") m (
    let^ state := perform (MSnapshot (instance_of record)) in
    raising (validate_snapshot state (mf_state_policy m))) in
  let^ _ := modify (update_record package_id (with_snapshot normalized)) in
  let^ _ := modify (put_snapshot (mf_package_id m) normalized) in
  let^ text := raising (py_dumps false (PDict normalized)) in
  let^ _ := emit_receipt m "MODULE_PACKAGE_STATE_SNAPSHOTTED" "QUIESCED" "QUIESCED" "bounded JSON state captured"
    [("snapshot_schema", PStr (sp_schema (mf_state_policy m))); ("persistent", PBool (sp_persistent (mf_state_policy m)));
     ("snapshot_bytes", PInt (Z.of_nat (String.length text)))] in
  raising (deep_copy (PDict normalized)).

(** [stop] *)
Definition stop (package_id : string) : mgr package_record :=
  let^ record := required package_id [QUIESCED] in
  let m := pr_manifest record in
  let^ _ := failing_package package_id "QUIESCED" "stop failed: " (lifecycle_failure "package stop failed: ") m (
    let^ _ := perform (MStop (instance_of record)) in
    modify (update_record package_id (with_state STOPPED))) in
  let^ _ := emit_receipt m "MODULE_PACKAGE_STOPPED" "QUIESCED" "STOPPED" "module stopped after quiesce" [] in
  reads (current_record package_id record).

(** [unload] *)
Definition unload (package_id : string) : mgr package_record :=
  let^ record := required package_id [STOPPED] in
  let^ _ := modify (update_record package_id without_code) in
  let^ _ := modify (fun s => match pr_code record with Some c => pop_module (lc_namespace c) s | None => s end) in
  let^ _ := modify (update_record package_id (with_state UNLOADED)) in
  let^ _ := emit_receipt (pr_manifest record) "MODULE_PACKAGE_UNLOADED" "STOPPED" "UNLOADED"
    "logical unload completed and namespace released" [] in
  reads (current_record package_id record).

(** [deactivate] *)
Definition deactivate (package_id reason : string) : mgr pyval :=
  let^ _ := quiesce package_id reason in
  let^ state := snapshot package_id in
  let^ _ := stop package_id in
  let^ _ := unload package_id in
  finish (Ok state).

(** [health] *)
Definition health (package_id : string) : mgr pyval :=
  let^ record := required package_id admitted_states in
  let^ answer := converting is_Exception (lifecycle_failure "package health check failed: ")
    (perform (MHealth (instance_of record))) in
  if negb (is_mapping answer) then raising (lifecycle_error "package health must be a mapping") else
  let^ safe := raising (json_safe_mapping answer "package health") in
  raising (deep_copy (PDict safe)).

(** [state] and [get_instance] *)
Definition state_of (package_id : string) (s : manager) : outcome package_state :=
  let? package := checked_id package_id "package_id" in
  match d_get (mg_records s) package with
  | None => lifecycle_error ("package is not known: " +:+ package_id)
  | Some r => Ok (pr_state r)
  end.
Definition get_instance (package_id : string) (s : manager) : outcome Z :=
  outcome_map instance_of (require_record package_id admitted_states s).

(** ** The context of a package *)

(** [get_service] *)
Definition get_service (m : ModulePackageManifest) (name : string) : outcome string :=
  let? service := checked_id name "service name" in
  if negb (bool_decide (service ∈ mf_hardware_requirements m))
  then admission_error ("package did not declare service requirement: " +:+ service) else
  if negb (bool_decide (service ∈ mc_services cfg))
  then admission_error ("required local service is unavailable: " +:+ service) else Ok service.

(** [_publish_sensor] *)
Definition publish_sensor (package_id sensor_type : string) (payload : pyval) (health_state : string)
    (confidence : pyval) (calibration_version : string) (stale_after_ms : pyval) (source_clock : string)
    (raw_reference degraded_reason : option string) : mgr pyval :=
  let^ record := required package_id [ACTIVE] in
  let m := pr_manifest record in
  let^ sensor := raising (checked_id sensor_type "sensor_type") in
  if negb (bool_decide (sensor ∈ mf_event_outputs m))
  then raising (lifecycle_error ("package did not declare sensor output: " +:+ sensor)) else
  let^ normalized := raising (json_safe_mapping payload "sensor payload") in
  let^ _ := raising (reject_claims (PDict normalized) "payload") in
  let^ health := raising (checked_enum health_state "health_state" ["ONLINE"; "DEGRADED"]) in
  let^ conf := raising (checked_number confidence "confidence" f0 f1) in
  let^ stale := raising (checked_integer stale_after_ms "stale_after_ms" 250 600000) in
  let^ calibration := raising (checked_text calibration_version "calibration_version" 96) in
  let^ source := raising (checked_text source_clock "source_clock" 64) in
  let^ raw := raising (checked_option raw_reference "raw_reference" 256) in
  let^ degraded := raising (checked_option degraded_reason "degraded_reason" 256) in
  if bool_decide (health = "DEGRADED") && bool_decide (degraded = None)
  then raising (lifecycle_error "degraded sensor output requires degraded_reason") else
  if bool_decide (health = "ONLINE") && bool_decide (degraded <> None)
  then raising (lifecycle_error "online sensor output cannot carry degraded_reason") else
  let^ receipt_id := perform MUuid in
  let^ now_wall := perform MTime in
  let^ monotonic := perform MMonotonic in
  let body := PDict (str_items
    [("event_id", PStr receipt_id); ("event_type", PStr "SENSOR_PACKET_OBSERVED"); ("source", PStr (mf_module_id m));
     ("family", PStr "sensor"); ("schema_version", PStr "1.0"); ("timestamp", PFloat now_wall);
     ("node_id", PStr (mc_node_id cfg)); ("organ_name", PStr (mf_owning_handmaiden m));
     ("payload", PDict (str_items
        [("module_id", PStr (mf_module_id m)); ("node_id", PStr (mc_node_id cfg));
         ("owning_handmaiden", PStr (mf_owning_handmaiden m)); ("timestamp", PFloat now_wall);
         ("monotonic_time", PFloat monotonic); ("sensor_type", PStr sensor);
         ("interface_type", PStr "verified-module-package"); ("health_state", PStr health);
         ("confidence", PFloat conf); ("payload", PDict normalized); ("receipt_id", PStr receipt_id);
         ("source_clock", PStr source); ("stale_after_ms", PInt stale); ("calibration_version", PStr calibration);
         ("degraded_reason", opt_str degraded); ("raw_reference", opt_str raw)]))]) in
  let^ normalized_record := raising (validate_body_record body) in
  let^ _ := perform (MEvent normalized_record) in
  raising (deep_copy (PDict normalized_record)).

(** [_publish_health] *)
Definition publish_health (package_id event_type severity state_before state_after detail reason_code : string)
    (diagnostic : option pyval) : mgr pyval :=
  let^ record := required package_id [ACTIVE; QUIESCED] in
  let m := pr_manifest record in
  let^ event := raising (outcome_map upper (checked_id (lower event_type) "event_type")) in
  let^ sev := raising (checked_enum severity "severity" ["INFO"; "WARNING"; "ERROR"]) in
  let^ before := raising (checked_text state_before "state_before" 64) in
  let^ after := raising (checked_text state_after "state_after" 64) in
  let^ detail_text := raising (checked_text detail "detail" 384) in
  let^ reason := raising (outcome_map upper (checked_id (lower reason_code) "reason_code")) in
  let given := match diagnostic with Some v => if truthy v then v else PDict [] | None => PDict [] end in
  let^ diag := raising (json_safe_mapping given "health diagnostic") in
  let^ _ := raising (reject_claims (PDict diag) "payload") in
  let diag := fold_left (fun d kv => dict_set d kv.1 kv.2)
    (str_items [("detail", PStr detail_text); ("reason_code", PStr reason); ("package_id", PStr (mf_package_id m));
      ("package_version", PStr (mf_package_version m)); ("read_only", PBool true); ("authority_granted", PBool false);
      ("actuation_granted", PBool false)]) diag in
  let^ event_id := perform MUuid in
  let^ now_wall := perform MTime in
  let body := PDict (str_items
    [("event_id", PStr event_id); ("event_type", PStr ("HEALTH_" +:+ event)); ("source", PStr (mf_module_id m));
     ("family", PStr "health"); ("schema_version", PStr "1.0"); ("timestamp", PFloat now_wall);
     ("node_id", PStr (mc_node_id cfg)); ("organ_name", PStr (mf_owning_handmaiden m));
     ("payload", PDict (str_items
        [("event_id", PStr event_id); ("event_type", PStr event); ("module_id", PStr (mf_module_id m));
         ("node_id", PStr (mc_node_id cfg)); ("owning_handmaiden", PStr (mf_owning_handmaiden m));
         ("timestamp", PFloat now_wall); ("severity", PStr sev); ("state_before", PStr before);
         ("state_after", PStr after); ("confidence", PFloat f1); ("diagnostic_payload", PDict diag);
         ("receipt_id", PStr event_id); ("recovery_action", PStr "continue bounded module lifecycle");
         ("fallback_owner", PStr "Velvet")]))]) in
  let^ normalized_record := raising (validate_body_record body) in
  let^ _ := perform (MEvent normalized_record) in
  raising (deep_copy (PDict normalized_record)).

End Manager.
