(* ===== verification/ModuleTheorems.v ===== *)
(** What the package manager guarantees: packages follow their lifecycle, their code runs only
    in the state that allows it, admission keeps within the budget, and a verified package is
    the one its manifest describes. *)

From stdpp Require Import base gmap sets list strings sorting.
From Stdlib Require Import ZArith NArith Ascii SpecFloat.
From S2P Require Import Prelude PyText PyVal Json Sha256 PyFloat StrDict Effects StateProg PyJson TextChecks.
From S2P Require Import BodyRecord ModuleTrust ModulePackage ModuleManager.

(** ** Methods that run no package code and change nothing *)

(** Operations that neither run package code nor publish a record of a package. *)
Definition passive_op {X} (op : mop X) : bool :=
  match op with
  | MExec _ _ | MFactory _ _ | MCreate _ _ | MStart _ | MQuiesce _ _ | MSnapshot _ | MRestore _ _ | MStop _ | MHealth _
  | MEvent _ => false
  | _ => true
  end.
Definition passive (ev : mevent) : Prop := match ev with MEv op _ => passive_op op = true end.

Definition steady {A} (m : mgr A) : Prop := forall s, ends mlog m s (fun tr o s' => s' = s /\ Forall passive tr).

Lemma steady_finish {A} (o : outcome A) : steady (finish o).
Proof. intros s. by ends_step. Qed.

Lemma steady_raising {A} (o : outcome A) : steady (raising o).
Proof. apply steady_finish. Qed.

Lemma steady_reads {A} (f : manager -> A) : steady (reads f).
Proof. intros s. by ends_step. Qed.

Lemma steady_check {A} (f : manager -> outcome A) : steady (embed (fun s => (f s, s))).
Proof. intros s. by ends_step. Qed.

Lemma steady_perform {X} (op : mop X) : passive_op op = true -> steady (perform op).
Proof. intros H s. ends_step. split; [done|]. by constructor. Qed.

Lemma steady_seq {A B} (m : mgr A) (f : A -> mgr B) : steady m -> (forall a, steady (f a)) -> steady (seq m f).
Proof.
  intros Hm Hf s. ends_step. eapply ends_mono; [apply Hm|]. intros tr o s' [-> H1]. destruct o as [a|e]; [|done].
  eapply ends_mono; [apply Hf|]. intros tr2 o2 s2 [-> H2]. split; [done|]. by apply Forall_app.
Qed.

Lemma steady_then {A B} (m : mgr A) (f : outcome A -> mgr B) : steady m -> (forall o, steady (f o)) -> steady (then_ m f).
Proof.
  intros Hm Hf s tr o s' (tr1 & tr2 & o1 & s1 & -> & H1 & H2)%runs_then.
  apply Hm in H1 as [-> H1]. apply Hf in H2 as [-> H2]. split; [done|]. by apply Forall_app.
Qed.

Lemma steady_converting {A} c h (m : mgr A) : steady m -> steady (converting c h m).
Proof. intros H. apply steady_then; [done|]. intros [a|e]; apply steady_finish. Qed.

(** Reads a steady method construct by construct. *)
Ltac steady_step :=
  lazymatch goal with
  | |- steady (seq _ _) => apply steady_seq; [|intros ?]
  | |- steady (converting _ _ _) => apply steady_converting
  | |- steady (then_ _ _) => apply steady_then; [|intros ?]
  | |- steady (finish _) => apply steady_finish
  | |- steady (reads _) => apply steady_reads
  | |- steady (perform _) => by apply steady_perform
  | |- steady (file _) => by apply steady_perform
  | |- steady (embed (fun s => (_, s))) => apply steady_check
  | |- steady (if ?b then _ else _) => destruct b
  | |- steady (match ?o with _ => _ end) => destruct o
  end.
Ltac steady_all := repeat steady_step.

Create HintDb steady.

Lemma steady_emit_receipt cfg m t b a r x : steady (emit_receipt cfg m t b a r x).
Proof. unfold emit_receipt. steady_all. Qed.
#[export] Hint Resolve steady_emit_receipt : steady.

Lemma steady_package_root p : steady (verified_package_root p).
Proof. unfold verified_package_root. steady_all. Qed.
#[export] Hint Resolve steady_package_root : steady.

Lemma steady_regular_file p : steady (regular_file p).
Proof. unfold regular_file. steady_all. Qed.
#[export] Hint Resolve steady_regular_file : steady.

Lemma steady_digests root files : steady (verify_digests root files).
Proof. induction files as [|[p d] files IH]; cbn [verify_digests]; steady_all; auto with steady. Qed.
#[export] Hint Resolve steady_digests : steady.

Lemma steady_verify cfg p : steady (verify cfg p).
Proof. unfold verify, read_manifest, verify_package_files, verify_entrypoint_policy. steady_all; auto with steady. Qed.
#[export] Hint Resolve steady_verify : steady.

Lemma steady_required p states : steady (required p states).
Proof. apply steady_check. Qed.
#[export] Hint Resolve steady_required : steady.

(** ** The lifecycle *)

(** The steps a package can make. *)
Inductive lifecycle_step : option package_state -> option package_state -> Prop :=
| step_load : lifecycle_step None (Some LOADED)
| step_reload : lifecycle_step (Some UNLOADED) (Some LOADED)
| step_start : lifecycle_step (Some LOADED) (Some ACTIVE)
| step_quiesce : lifecycle_step (Some ACTIVE) (Some QUIESCED)
| step_stop : lifecycle_step (Some QUIESCED) (Some STOPPED)
| step_unload : lifecycle_step (Some STOPPED) (Some UNLOADED)
| step_fail st : st ∈ [LOADED; ACTIVE; QUIESCED] -> lifecycle_step (Some st) (Some FAILED).

Definition status (s : manager) (p : string) : option package_state := pr_state <$> d_get (mg_records s) p.

(** When package code may run, and when its records may be published. *)
Definition in_state (s : manager) (i : Z) (states : list package_state) : Prop :=
  exists p r, d_get (mg_records s) p = Some r /\ instance_of r = i /\ pr_state r ∈ states.

Section Code.
Context (cfg : manager_config).

(** A package that may be brought in. *)
Definition admissible (s : manager) (m : ModulePackageManifest) : Prop :=
  check_admission cfg m s = Ok tt /\
  (status s (mf_package_id m) = None \/ status s (mf_package_id m) = Some UNLOADED).

Definition code_ok (s : manager) (ev : mevent) : Prop :=
  match ev with
  | MEv op _ =>
      match op with
      | MExec ns _ | MFactory ns _ | MCreate ns _ =>
          exists m hex, ns = namespace_of (mf_package_id m) hex /\ admissible s m
      | MStart i | MRestore i _ => in_state s i [LOADED]
      | MQuiesce i _ => in_state s i [ACTIVE]
      | MSnapshot i | MStop i => in_state s i [QUIESCED]
      | MHealth i => in_state s i admitted_states
      | MEvent r => (exists p, status s p = Some ACTIVE \/ status s p = Some QUIESCED) /\
                    exists v, validate_body_record v = Ok r
      | _ => True
      end
  end.

Lemma passive_code_ok s ev : passive ev -> code_ok s ev.
Proof. by destruct ev as [X op o], op. Qed.

Lemma passive_all_ok s tr : Forall passive tr -> Forall (code_ok s) tr.
Proof. intros H. eapply Forall_impl; [exact H|]. intros ev. apply passive_code_ok. Qed.

(** A method that only checks and reports. *)
Lemma steady_ends {A} (m : mgr A) s (Q : list mevent -> outcome A -> manager -> Prop) :
  steady m -> (forall tr o, Forall (code_ok s) tr -> Forall passive tr -> Q tr o s) -> ends mlog m s Q.
Proof. intros Hm HQ tr o s' [-> Hp]%Hm. apply HQ; [by apply passive_all_ok|done]. Qed.

(** ** Records *)

Lemma d_set_set {A} (d : sdict A) k v w : d_set (d_set d k v) k w = d_set d k w.
Proof.
  induction d as [|[k' v'] d IH]; cbn; [by rewrite bool_decide_true|].
  case_bool_decide as Hk; cbn; [by rewrite bool_decide_true|]. by rewrite bool_decide_false, IH.
Qed.

Lemma d_set_get_same {A} (d : sdict A) k v : d_get d k = Some v -> d_set d k v = d.
Proof.
  induction d as [|[k' v'] d IH]; cbn; [done|]. case_bool_decide as Hk; [by intros [= ->]|]. intros H. by rewrite IH.
Qed.

Lemma update_get p f s r : d_get (mg_records s) p = Some r -> update_record p f s = put_record p (f r) s.
Proof. unfold update_record. by intros ->. Qed.

Lemma get_put p r s : d_get (mg_records (put_record p r s)) p = Some r.
Proof. cbn. by rewrite d_get_set, bool_decide_true. Qed.

Lemma put_put p r1 r2 s : put_record p r2 (put_record p r1 s) = put_record p r2 s.
Proof. unfold put_record. cbn. by rewrite d_set_set. Qed.

Lemma update_put p f r s : update_record p f (put_record p r s) = put_record p (f r) s.
Proof. by rewrite (update_get _ _ _ r), put_put by apply get_put. Qed.

Lemma require_ok p states s r : require_record p states s = Ok r ->
  is_lower_id p = true /\ d_get (mg_records s) p = Some r /\ pr_state r ∈ states.
Proof.
  unfold require_record, checked_id. destruct (is_lower_id p); [|done]. cbn [outcome_bind].
  destruct (d_get (mg_records s) p) as [r'|]; [|done]. case_bool_decide; [|done]. by intros [= ->].
Qed.

(** ** What one method does to one record *)

(** The run raised before it touched anything, or it changed the record of [p], from state
    [from], to state [to] or, raising, to [FAILED]; only steps that can fail do the last. *)
Definition can_fail (to : package_state) : bool := negb (bool_decide (to = UNLOADED)).
Definition transition {A} (p : string) (from to : package_state) (s : manager) (tr : list mevent) (o : outcome A)
    (s' : manager) : Prop :=
  Forall (code_ok s) tr /\
  (s' = s /\ is_ok o = false \/
   exists r r', d_get (mg_records s) p = Some r /\ pr_state r = from /\ pr_manifest r' = pr_manifest r /\
     mg_records s' = d_set (mg_records s) p r' /\ (pr_state r' = to \/ pr_state r' = FAILED /\ is_ok o = false /\ can_fail to = true)).

(** The handler of a failed step. *)
Lemma failing_package_ends {A} p before prefix failure m (body : mgr A) s r Q :
  d_get (mg_records s) p = Some r ->
  ends mlog body s (fun tr o s1 => match o with
    | Ok a => Q tr (Ok a) s1
    | Err e => if is_Exception e
               then exists r1, s1 = put_record p r1 s /\ forall msg tr2 e2, Forall passive tr2 ->
                 Q (tr ++ tr2) (Err e2) (put_record p (with_error msg r1) s)
               else Q tr (Err e) s1
    end) -> ends mlog (failing_package cfg p before prefix failure m body) s Q.
Proof.
  intros Hg Hb. unfold failing_package. ends_step. eapply ends_mono; [exact Hb|]. intros tr o s1 H.
  destruct o as [a|e]; [done|]. destruct (is_Exception e); [|done]. destruct H as (r1 & -> & H).
  ends_step. ends_step. rewrite update_put. ends_step. apply steady_ends; [apply steady_emit_receipt|].
  intros tr2 [u|e2] _ Hp; [|by apply H]. ends_step. rewrite app_nil_r. by apply H.
Qed.

Lemma put_same p r s : d_get (mg_records s) p = Some r -> put_record p r s = s.
Proof. intros H. unfold put_record. rewrite d_set_get_same by done. by destruct s. Qed.

(** A stretch of a method that leaves the state alone and runs only the code it may. *)
Definition calm {A} (m : mgr A) (s : manager) : Prop :=
  ends mlog m s (fun tr o s' => s' = s /\ Forall (code_ok s) tr).

Lemma steady_calm {A} (m : mgr A) s : steady m -> calm m s.
Proof. intros H. by apply steady_ends; [|]. Qed.

Lemma calm_perform {X} (op : mop X) s : (forall o, code_ok s (mlog X op o)) -> calm (perform op) s.
Proof. intros H. unfold calm. ends_step. split; [done|]. by constructor. Qed.

Lemma calm_seq {A B} (m : mgr A) (f : A -> mgr B) s : calm m s -> (forall a, calm (f a) s) -> calm (seq m f) s.
Proof.
  intros Hm Hf. unfold calm. ends_step. eapply ends_mono; [apply Hm|]. intros tr o s' [-> H1]. destruct o as [a|e]; [|done].
  eapply ends_mono; [apply Hf|]. intros tr2 o2 s2 [-> H2]. split; [done|]. by apply Forall_app.
Qed.

Lemma transition_same {A} p from to s tr e : Forall (code_ok s) tr -> transition (A := A) p from to s tr (Err e) s.
Proof. intros H. split; [done|by left]. Qed.

Lemma transition_put {A} p from to s tr (o : outcome A) r r' : d_get (mg_records s) p = Some r -> pr_state r = from ->
  pr_manifest r' = pr_manifest r -> (pr_state r' = to \/ pr_state r' = FAILED /\ is_ok o = false /\ can_fail to = true) ->
  Forall (code_ok s) tr -> transition p from to s tr o (put_record p r' s).
Proof. intros. split; [done|]. right. by exists r, r'. Qed.

Lemma transition_failed {A} p from to s tr e msg r r1 : d_get (mg_records s) p = Some r -> pr_state r = from ->
  pr_manifest r1 = pr_manifest r -> can_fail to = true -> Forall (code_ok s) tr ->
  transition (A := A) p from to s tr (Err e) (put_record p (with_error msg r1) s).
Proof. intros. eapply transition_put; try done. by right. Qed.

Lemma code_app s tr1 tr2 : Forall (code_ok s) tr1 -> Forall (code_ok s) tr2 -> Forall (code_ok s) (tr1 ++ tr2).
Proof. intros. by apply Forall_app. Qed.

Lemma code_passive s tr1 tr2 : Forall (code_ok s) tr1 -> Forall passive tr2 -> Forall (code_ok s) (tr1 ++ tr2).
Proof. intros ? ?%(passive_all_ok s). by apply Forall_app. Qed.

Lemma code_one s X (op : mop X) o : code_ok s (MEv op o) -> Forall (code_ok s) [mlog X op o].
Proof. intros. by constructor. Qed.

(** The events of a run, stretch by stretch. *)
Ltac events := repeat match goal with
  | |- Forall (code_ok _) (_ ++ _) => apply code_app
  | |- Forall (code_ok _) [] => constructor
  | |- Forall (code_ok _) [_] => apply code_one; first [assumption | exact I]
  | |- Forall (code_ok _) _ => first [assumption | apply passive_all_ok; assumption]
  end.

(** Ends a run that failed, with the record [r1] where it failed. *)
Ltac ends_failed r r1 e :=
  destruct (is_Exception e);
  [exists r1; split; [first [done | by rewrite put_same]|];
   intros msg tr' e' Hp; apply (transition_failed _ _ _ _ _ _ _ r); [done..|events]
  |first [by apply transition_same; events
         |eapply (transition_put _ _ _ _ _ _ r); [done..| |events]; by left]].

Lemma start_ends p s : ends mlog (start cfg p) s (transition p LOADED ACTIVE s).
Proof.
  unfold start, required. ends_step. ends_step. cbn [fst snd].
  destruct (require_record p [LOADED] s) as [r|e] eqn:Hr; [|by apply transition_same].
  apply require_ok in Hr as (_ & Hg & Hst%list_elem_of_singleton).
  assert (in_state s (instance_of r) [LOADED]) as Hin.
  { exists p, r. split_and!; [done..|]. rewrite Hst. by left. }
  ends_step. apply (failing_package_ends _ _ _ _ _ _ _ r); [done|].
  ends_step. eapply ends_mono with (P := fun tr o s' => s' = s /\ Forall (code_ok s) tr).
  { destruct (pr_last_snapshot r); [|apply steady_calm, steady_finish].
    apply calm_seq; [apply steady_calm, steady_raising|intros copy]. apply calm_seq; [by apply calm_perform|intros _].
    apply steady_calm, steady_emit_receipt. }
  intros tr o s1 [-> H1]. destruct o as [u|e]; [|ends_failed r r e].
  ends_step. ends_step. destruct o as [[]|e]; [|ends_failed r r e].
  ends_step. ends_step. rewrite (update_get _ _ _ r) by done.
  ends_step. ends_step. destruct o as [now|e]; [|ends_failed r (with_state ACTIVE r) e].
  ends_step. rewrite update_put. ends_step. apply steady_ends; [apply steady_emit_receipt|]. intros tr2 o2 H4 H5.
  destruct o2 as [[]|e]; [ends_step|]; (eapply (transition_put _ _ _ _ _ _ r); [done..|by left|events]).
Qed.

Lemma quiesce_ends p reason s : ends mlog (quiesce cfg p reason) s (transition p ACTIVE QUIESCED s).
Proof.
  unfold quiesce, required. ends_step. ends_step. cbn [fst snd].
  destruct (require_record p [ACTIVE] s) as [r|e] eqn:Hr; [|by apply transition_same].
  apply require_ok in Hr as (_ & Hg & Hst%list_elem_of_singleton).
  assert (in_state s (instance_of r) [ACTIVE]) as Hin.
  { exists p, r. split_and!; [done..|]. rewrite Hst. by left. }
  ends_step. apply steady_ends; [apply steady_raising|]. intros tr [reason'|e] H1 _; [|apply transition_same; events].
  ends_step. apply (failing_package_ends _ _ _ _ _ _ _ r); [done|].
  ends_step. ends_step. destruct o as [[]|e]; [|ends_failed r r e].
  ends_step. rewrite (update_get _ _ _ r) by done.
  ends_step. apply steady_ends; [apply steady_emit_receipt|]. intros tr2 o2 H4 H5.
  destruct o2 as [[]|e]; [ends_step|]; (eapply (transition_put _ _ _ _ _ _ r); [done..|by left|events]).
Qed.

Lemma stop_ends p s : ends mlog (stop cfg p) s (transition p QUIESCED STOPPED s).
Proof.
  unfold stop, required. ends_step. ends_step. cbn [fst snd].
  destruct (require_record p [QUIESCED] s) as [r|e] eqn:Hr; [|by apply transition_same].
  apply require_ok in Hr as (_ & Hg & Hst%list_elem_of_singleton).
  assert (in_state s (instance_of r) [QUIESCED]) as Hin.
  { exists p, r. split_and!; [done..|]. rewrite Hst. by left. }
  ends_step. apply (failing_package_ends _ _ _ _ _ _ _ r); [done|].
  ends_step. ends_step. destruct o as [[]|e]; [|ends_failed r r e].
  ends_step. rewrite (update_get _ _ _ r) by done.
  ends_step. apply steady_ends; [apply steady_emit_receipt|]. intros tr2 o2 H4 H5.
  destruct o2 as [[]|e]; [ends_step|]; (eapply (transition_put _ _ _ _ _ _ r); [done..|by left|events]).
Qed.

Lemma snapshot_ends p s : ends mlog (snapshot cfg p) s (transition p QUIESCED QUIESCED s).
Proof.
  unfold snapshot, required. ends_step. ends_step. cbn [fst snd].
  destruct (require_record p [QUIESCED] s) as [r|e] eqn:Hr; [|by apply transition_same].
  apply require_ok in Hr as (_ & Hg & Hst%list_elem_of_singleton).
  assert (in_state s (instance_of r) [QUIESCED]) as Hin.
  { exists p, r. split_and!; [done..|]. rewrite Hst. by left. }
  ends_step. apply (failing_package_ends _ _ _ _ _ _ _ r); [done|].
  ends_step. ends_step. destruct o as [state|e]; [|ends_failed r r e].
  apply steady_ends; [apply steady_raising|]. intros tr [normalized|e] H1 Hp1; [|ends_failed r r e].
  ends_step. ends_step. rewrite (update_get _ _ _ r) by done. ends_step. ends_step.
  assert (forall tr' (o : outcome pyval), Forall (code_ok s) tr' ->
    transition p QUIESCED QUIESCED s tr' o (put_snapshot (mf_package_id (pr_manifest r)) normalized
      (put_record p (with_snapshot normalized r) s))) as Hdone.
  { intros tr' o' H. split; [done|]. right. exists r, (with_snapshot normalized r). split_and!; try done. by left. }
  ends_step. apply steady_ends; [apply steady_raising|]. intros tr3 [text|e] _ Hp3; [|apply Hdone; events].
  ends_step. apply steady_ends; [apply steady_emit_receipt|]. intros tr4 [[]|e] _ Hp4; [|apply Hdone; events].
  apply steady_ends; [apply steady_raising|]. intros tr5 o5 _ Hp5. apply Hdone. events.
Qed.

Lemma unload_ends p s : ends mlog (unload cfg p) s (transition p STOPPED UNLOADED s).
Proof.
  unfold unload, required. ends_step. ends_step. cbn [fst snd].
  destruct (require_record p [STOPPED] s) as [r|e] eqn:Hr; [|by apply transition_same].
  apply require_ok in Hr as (_ & Hg & Hst%list_elem_of_singleton).
  do 4 ends_step. rewrite (update_get _ _ _ r) by done.
  set (s1 := match pr_code r with Some c => _ | None => _ end).
  assert (mg_records s1 = d_set (mg_records s) p (without_code r)) as Hs1 by (unfold s1; by destruct (pr_code r)).
  do 2 ends_step. rewrite (update_get _ _ _ (without_code r)) by (rewrite Hs1; apply get_put).
  assert (forall tr (o : outcome package_record), Forall (code_ok s) tr ->
    transition p STOPPED UNLOADED s tr o (put_record p (with_state UNLOADED (without_code r)) s1)) as Hdone.
  { intros tr o H. split; [done|]. right. exists r, (with_state UNLOADED (without_code r)).
    split_and!; try done; [|by left]. cbn. by rewrite Hs1, d_set_set. }
  ends_step. apply steady_ends; [apply steady_emit_receipt|]. intros tr [[]|e] _ Hp; [ends_step|]; apply Hdone; events.
Qed.

(** ** Verification *)

Definition seen {X} (tr : list mevent) (op : mop X) (a : X) : Prop := MEv op (Ok a) ∈ tr.

(** What was seen, during [tr], of a package that verifies with the manifest [m]. *)
Record verified (root : string) (m : ModulePackageManifest) (tr : list mevent) : Prop := {
  vf_manifest : exists raw text d, seen tr (MFile (OpReadBytes (path_join root "manifest.json"))) raw /\
    (2 <= Z.of_nat (length raw) <= 131072)%Z /\ seen tr (MFile (OpDecode raw)) text /\
    load_manifest_document text = Ok d /\ parse_manifest d = Ok m;
  vf_set : exists entries, seen tr (MTree root) entries /\ check_file_set root entries (mf_files m).*1 = Ok tt;
  vf_files : forall rel digest, (rel, digest) ∈ mf_files m ->
    exists data, seen tr (MFile (OpReadBytes (path_join root rel))) data /\ sha256_hex data = digest;
  vf_policy : exists source tree, seen tr (MReadText (path_join root (mf_entrypoint m))) source /\
    seen tr (MParseAst source) tree /\ entrypoint_policy tree = Ok tt
}.

Lemma seen_l {X} tr1 tr2 (op : mop X) a : seen tr1 op a -> seen (tr1 ++ tr2) op a.
Proof. intros H. apply elem_of_app. by left. Qed.
Lemma seen_r {X} tr1 tr2 (op : mop X) a : seen tr2 op a -> seen (tr1 ++ tr2) op a.
Proof. intros H. apply elem_of_app. by right. Qed.

Lemma verified_mono root m tr1 tr2 tr3 : verified root m tr2 -> verified root m (tr1 ++ tr2 ++ tr3).
Proof.
  assert (forall X (op : mop X) a, seen tr2 op a -> seen (tr1 ++ tr2 ++ tr3) op a) as Hs.
  { intros X op a H. by apply seen_r, seen_l. }
  intros [(raw & text & d & H1 & H2 & H3 & H4) (entries & H5 & H6) Hf (source & tree & H7 & H8 & H9)]. split.
  - exists raw, text, d. destruct H2, H4. split_and!; auto.
  - exists entries. auto.
  - intros rel digest (data & H & Hd)%Hf. exists data. auto.
  - exists source, tree. auto.
Qed.

(** Reading a successful run apart. *)
Lemma runs_seq_ok {A B} (m : mgr A) (f : A -> mgr B) s tr b s' : runs mlog (seq m f) s tr (Ok b) s' ->
  exists tr1 tr2 a s1, tr = tr1 ++ tr2 /\ runs mlog m s tr1 (Ok a) s1 /\ runs mlog (f a) s1 tr2 (Ok b) s'.
Proof.
  intros (tr1 & tr2 & [a|e] & s1 & -> & H1 & H2)%runs_seq; [by exists tr1, tr2, a, s1|]. by destruct H2 as (_ & ? & _).
Qed.

Lemma runs_converting_ok {A} c h (m : mgr A) s tr a s' : runs mlog (converting c h m) s tr (Ok a) s' -> runs mlog m s tr (Ok a) s'.
Proof.
  intros (tr1 & tr2 & [a'|e] & s1 & -> & H1 & (-> & H2 & ->)%runs_finish)%runs_then; simplify_eq. by rewrite app_nil_r.
Qed.

Lemma runs_perform_ok {X} (op : mop X) (s : manager) tr a s' : runs mlog (perform op) s tr (Ok a) s' -> seen tr op a.
Proof. intros [-> _]%runs_perform. by left. Qed.

Lemma runs_raising_ok {A} (o : outcome A) s tr a s' : runs mlog (raising o) s tr (Ok a) s' -> o = Ok a /\ tr = [].
Proof. by intros (-> & -> & _)%runs_finish. Qed.

Lemma runs_reject {A} (x : exn) s tr (a : A) s' : runs mlog (raising (Err x)) s tr (Ok a) s' -> False.
Proof. by intros (_ & ? & _)%runs_finish. Qed.

Lemma verify_digests_ok root files : forall s tr u s', runs mlog (verify_digests root files) s tr (Ok u) s' ->
  forall rel digest, (rel, digest) ∈ files ->
    exists data, seen tr (MFile (OpReadBytes (path_join root rel))) data /\ sha256_hex data = digest.
Proof.
  induction files as [|[p d] files IH]; intros s tr u s' H rel digest; [by intros ?%elem_of_nil|].
  cbn [verify_digests] in H. apply runs_seq_ok in H as (tr1 & tr2 & regular & s1 & -> & _ & H).
  destruct regular; cbn [negb] in H; [|by apply runs_reject in H].
  apply runs_seq_ok in H as (tr3 & tr4 & data & s2 & -> & H1%runs_perform_ok & H).
  case_bool_decide as Hd; [by apply runs_reject in H|].
  intros [[= -> ->]|Hin]%elem_of_cons; [exists data; split; [by apply seen_r, seen_l|done]|].
  destruct (IH _ _ _ _ H rel digest Hin) as (data' & Hs & Hd'). exists data'. split; [by apply seen_r, seen_r|done].
Qed.

Lemma read_manifest_ok root s tr m s' : runs mlog (read_manifest root) s tr (Ok m) s' ->
  exists raw text d, seen tr (MFile (OpReadBytes (path_join root "manifest.json"))) raw /\
    (2 <= Z.of_nat (length raw) <= 131072)%Z /\ seen tr (MFile (OpDecode raw)) text /\
    load_manifest_document text = Ok d /\ parse_manifest d = Ok m.
Proof.
  unfold read_manifest. intros H. apply runs_seq_ok in H as (tr1 & tr2 & regular & s1 & -> & _ & H).
  destruct regular; cbn [negb] in H; [|by apply runs_reject in H].
  apply runs_seq_ok in H as (tr3 & tr4 & raw & s2 & -> & H1%runs_perform_ok & H).
  destruct (_ && _) eqn:Hb in H; cbn [negb] in H; [|by apply runs_reject in H].
  apply runs_seq_ok in H as (tr5 & tr6 & text & s3 & -> & H2%runs_converting_ok%runs_perform_ok & H).
  apply runs_seq_ok in H as (tr7 & tr8 & d & s4 & -> & [H3 ->]%runs_raising_ok & [H4 ->]%runs_raising_ok).
  exists raw, text, d. apply andb_true_iff in Hb as [?%Z.leb_le ?%Z.leb_le].
  split_and!; [by apply seen_r, seen_l|done..|by apply seen_r, seen_r, seen_l|done|done].
Qed.

Lemma entrypoint_policy_ok path s tr u s' : runs mlog (verify_entrypoint_policy path) s tr (Ok u) s' ->
  exists source tree, seen tr (MReadText path) source /\ seen tr (MParseAst source) tree /\ entrypoint_policy tree = Ok tt.
Proof.
  unfold verify_entrypoint_policy. intros H.
  apply runs_seq_ok in H as (tr1 & tr2 & source & s1 & -> & H1%runs_converting_ok%runs_perform_ok & H).
  apply runs_seq_ok in H as (tr3 & tr4 & tree & s2 & -> & H2%runs_converting_ok%runs_perform_ok & [H3 ->]%runs_raising_ok).
  exists source, tree. destruct u. split_and!; [by apply seen_l|by apply seen_r, seen_l|done].
Qed.

(** The package at a path verifies: its files are those of the directory the path resolves to. *)
Definition verified_at (package_root : string) (m : ModulePackageManifest) (tr : list mevent) : Prop :=
  exists root, seen tr (MResolve package_root) root /\ verified root m tr.

Lemma verified_at_mono p m tr1 tr2 tr3 : verified_at p m tr2 -> verified_at p m (tr1 ++ tr2 ++ tr3).
Proof. intros (root & H & Hv). exists root. split; [by apply seen_r, seen_l|by apply verified_mono]. Qed.

Lemma package_root_ok package_root s tr root s' : runs mlog (verified_package_root package_root) s tr (Ok root) s' ->
  seen tr (MResolve package_root) root.
Proof.
  unfold verified_package_root. destruct (path_absolute package_root); cbn [negb]; [|by intros ?%runs_reject].
  intros H. apply runs_seq_ok in H as (tr1 & tr2 & symlink & s1 & -> & _ & H). destruct symlink; [by apply runs_reject in H|].
  apply runs_seq_ok in H as (tr3 & tr4 & resolved & s2 & -> & H1%runs_converting_ok%runs_perform_ok & H).
  apply runs_seq_ok in H as (tr5 & tr6 & dir & s3 & -> & _ & H). destruct dir; [|by apply runs_reject in H].
  apply runs_finish in H as (-> & [= ->] & _). by apply seen_r, seen_l.
Qed.

Lemma verify_ok package_root s tr m s' : runs mlog (verify cfg package_root) s tr (Ok m) s' -> verified_at package_root m tr.
Proof.
  unfold verify. intros H. apply runs_seq_ok in H as (tr1 & tr2 & root & s1 & -> & H0%package_root_ok & H).
  apply runs_seq_ok in H as (tr3 & tr4 & m' & s2 & -> & H1%read_manifest_ok & H).
  apply runs_seq_ok in H as (tr5 & tr6 & [] & s3 & -> & H2 & H). unfold verify_package_files in H2.
  apply runs_seq_ok in H2 as (tr7 & tr8 & entries & s4 & -> & H2%runs_perform_ok & H3).
  apply runs_seq_ok in H3 as (tr9 & tr10 & [] & s5 & -> & [H3 ->]%runs_raising_ok & H4).
  apply runs_seq_ok in H as (tr11 & tr12 & [] & s6 & -> & H5%entrypoint_policy_ok & H).
  apply runs_seq_ok in H as (tr13 & tr14 & [] & s7 & -> & _ & [[= ->] ->]%runs_raising_ok). exists root.
  split; [by apply seen_l|]. split.
  - destruct H1 as (raw & text & d & A1 & [A2 A2'] & A3 & A4 & A5). exists raw, text, d.
    split_and!; try done; by apply seen_r, seen_l.
  - exists entries. split; [by apply seen_r, seen_r, seen_l, seen_l|done].
  - intros rel digest Hin. destruct (verify_digests_ok _ _ _ _ _ _ H4 rel digest Hin) as (data & A1 & A2). exists data.
    split; [by apply seen_r, seen_r, seen_l, seen_r, seen_r|done].
  - destruct H5 as (source & tree & A1 & A2 & A3). exists source, tree.
    split_and!; [by apply seen_r, seen_r, seen_r, seen_l..|done].
Qed.

(** ** Loading *)

(** What a load may run: the body of the module and its factory, for an admissible package. *)
Definition load_ok (s : manager) (ev : mevent) : Prop :=
  passive ev \/
  match ev with
  | MEv op _ =>
      match op with
      | MExec ns _ | MFactory ns _ | MCreate ns _ =>
          exists m hex, ns = namespace_of (mf_package_id m) hex /\ admissible s m
      | _ => False
      end
  end.

Lemma load_code_ok s tr : Forall (load_ok s) tr -> Forall (code_ok s) tr.
Proof.
  intros H. eapply Forall_impl; [exact H|]. intros ev [Hp|He]; [by apply passive_code_ok|].
  destruct ev as [X op o]. by destruct op.
Qed.

Lemma passive_load s tr : Forall passive tr -> Forall (load_ok s) tr.
Proof. intros H. eapply Forall_impl; [exact H|]. intros ev Hp. by left. Qed.

Ltac load_events := repeat match goal with
  | |- Forall (load_ok _) (_ ++ _) => apply Forall_app_2
  | |- Forall (load_ok _) [] => constructor
  | |- Forall (load_ok _) [_] => apply Forall_cons_2; [first [by left | by right]|]
  | |- Forall (load_ok _) _ => first [assumption | apply passive_load; assumption]
  end.

(** Nothing that matters to the lifecycle differs. *)
Definition same_tables (s s' : manager) : Prop := mg_records s' = mg_records s /\ mg_snapshots s' = mg_snapshots s.

Lemma import_ends root ns m hex s : ns = namespace_of (mf_package_id m) hex -> admissible s m ->
  ends mlog (import_package root ns m) s (fun tr o s' => Forall (load_ok s) tr /\ same_tables s s').
Proof.
  intros Hns Ha. assert (exists m hex, ns = namespace_of (mf_package_id m) hex /\ admissible s m) as Hok by by exists m, hex.
  assert (same_tables s (put_module ns s)) as Hp by done. assert (same_tables s s) as Hs by done.
  unfold import_package. ends_step. ends_step. destruct o as [source|e]; [|split; [load_events|done]].
  ends_step. ends_step. destruct o as [[]|e]; [|split; [load_events|done]]. ends_step. ends_step.
  ends_step. ends_step. destruct o as [[]|e]; [|split; [load_events|done]].
  ends_step. ends_step. destruct o as [callable|e]; [|split; [load_events|done]].
  destruct callable; cbn [negb]; [|ends_step; split; [load_events|done]].
  ends_step. ends_step. destruct o as [i|e]; [|split; [load_events|done]].
  ends_step. ends_step. destruct (validate_instance i) as [[]|e]; [ends_step|]; (split; [load_events|done]).
Qed.

(** A load that raised leaves the records alone, or it has added the package as [LOADED]. *)
Definition load_outcome (package_root : string) (s : manager) (tr : list mevent) (o : outcome package_record) (s' : manager) : Prop :=
  Forall (load_ok s) tr /\ mg_snapshots s' = mg_snapshots s /\
  (mg_records s' = mg_records s /\ is_ok o = false \/
   exists r, admissible s (pr_manifest r) /\ verified_at package_root (pr_manifest r) tr /\ pr_state r = LOADED /\
     pr_last_snapshot r = mg_snapshots s !! mf_package_id (pr_manifest r) /\
     mg_records s' = d_set (mg_records s) (mf_package_id (pr_manifest r)) r /\ forall r2, o = Ok r2 -> r2 = r).

Lemma load_same p s tr e s' : Forall (load_ok s) tr -> same_tables s s' -> load_outcome p s tr (Err e) s'.
Proof. intros H [H1 H2]. split_and!; [done..|]. by left. Qed.

Lemma verify_ends package_root s : ends mlog (verify cfg package_root) s (fun tr o s' =>
  s' = s /\ Forall passive tr /\ forall m, o = Ok m -> verified_at package_root m tr).
Proof.
  intros tr o s' H. pose proof (steady_verify _ _ _ _ _ _ H) as [-> Hp]. split_and!; [done..|].
  intros m ->. by eapply verify_ok.
Qed.

Lemma load_ends package_root s : ends mlog (load cfg package_root) s (load_outcome package_root s).
Proof.
  assert (same_tables s s) as Hs by done.
  unfold load. ends_step. eapply ends_mono; [apply verify_ends|]. intros tr [m|e] s0 (-> & Hp & Hv).
  2: { apply load_same; [load_events|done]. }
  specialize (Hv m eq_refl). ends_step. ends_step. ends_step. ends_step.
  assert (forall u, (match d_get (mg_records s) (mf_package_id m) with
     | Some r => if bool_decide (pr_state r <> UNLOADED)
                 then admission_error ("package is already admitted in state " +:+ state_name (pr_state r)) else Ok tt
     | None => Ok tt end) = Ok u -> status s (mf_package_id m) = None \/ status s (mf_package_id m) = Some UNLOADED) as Hst.
  { intros u. unfold status, admission_error. destruct (d_get _ _) as [r|]; [|by left]. case_bool_decide as H; [done|].
    right. cbn. f_equal. by destruct (pr_state r) eqn:E; try (exfalso; by apply H). }
  destruct (match d_get (mg_records s) (mf_package_id m) with Some _ => _ | None => _ end) as [u|e];
    [specialize (Hst u eq_refl); clear u|apply load_same; [load_events|done]].
  ends_step. ends_step. cbn [fst snd]. destruct (check_admission cfg m s) as [[]|e] eqn:Hadm; [|apply load_same; [load_events|done]].
  assert (admissible s m) as Ha by done.
  ends_step. intros tr1 o1 s1 [-> H1]%steady_package_root. destruct o1 as [root|e]; [|apply load_same; [load_events|done]].
  ends_step. ends_step. destruct o as [hex|e]; [|apply load_same; [load_events|done]].
  ends_step. ends_step. eapply ends_mono; [by eapply import_ends|].
  intros tr2 [i|e] s1 [H2 Ht].
  2: { destruct (is_Exception e); [|apply load_same; [load_events|done]]. ends_step. ends_step.
    assert (same_tables s (pop_module (namespace_of (mf_package_id m) hex) s1)) as Ht' by done.
    ends_step. intros tr3 o s3 [-> H3]%steady_emit_receipt.
    destruct o as [[]|e2]; [ends_step|]; (apply load_same; [load_events|done]). }
  destruct Ht as [Ht1 Ht2]. ends_step. ends_step. ends_step. ends_step.
  destruct o as [now|e]; [|apply load_same; [load_events|done]]. ends_step. ends_step. ends_step.
  intros tr3 o s3 [-> H3]%steady_emit_receipt.
  set (r := mkRecord m root LOADED _ _ _ _ _).
  assert (forall tr4 (o : outcome package_record), Forall (load_ok s) tr4 -> verified_at package_root m tr4 ->
    (forall r2, o = Ok r2 -> r2 = r) -> load_outcome package_root s tr4 o (put_record (mf_package_id m) r s1)) as Hdone.
  { intros tr4 o4 H4 Hv4 Ho. split_and!; [done|done|]. right. exists r. split_and!; try done; cbn; by rewrite ?Ht1, ?Ht2. }
  destruct o as [[]|e]; [ends_step|]; (apply Hdone; [load_events| |naive_solver]);
    by apply (verified_at_mono _ _ [] tr).
Qed.

(** ** Publications and health *)

(** [calm_seq] with what the first part answered. *)
Lemma calm_then {A B} (m : mgr A) (f : A -> mgr B) s :
  calm m s -> (forall a tr, runs mlog m s tr (Ok a) s -> calm (f a) s) -> calm (seq m f) s.
Proof.
  intros Hm Hf tr o s' (tr1 & tr2 & o1 & s1 & -> & H1 & H2)%runs_seq. pose proof (Hm _ _ _ H1) as [-> Hp].
  destruct o1 as [a|e]; [|by destruct H2 as (-> & _ & ->); rewrite app_nil_r].
  apply (Hf a tr1 H1) in H2 as [-> Hp2]. split; [done|]. by apply code_app.
Qed.

Lemma calm_required {B} p states (f : package_record -> mgr B) s :
  (forall r, d_get (mg_records s) p = Some r -> pr_state r ∈ states -> calm (f r) s) ->
  calm (seq (required p states) f) s.
Proof.
  intros Hf. apply calm_then; [apply steady_calm, steady_required|]. intros r tr (_ & H & _)%runs_embed.
  cbn in H. apply eq_sym, require_ok in H as (_ & Hg & Hst). by apply Hf.
Qed.

Lemma calm_checked {A B} (o : outcome A) (f : A -> mgr B) s : (forall a, o = Ok a -> calm (f a) s) -> calm (seq (raising o) f) s.
Proof. intros Hf. apply calm_then; [apply steady_calm, steady_finish|]. intros a tr [H _]%runs_raising_ok. by apply Hf. Qed.

Lemma calm_asked {X B} (op : mop X) (f : X -> mgr B) s : passive_op op = true -> (forall a, calm (f a) s) -> calm (seq (perform op) f) s.
Proof. intros H Hf. apply calm_seq; [by apply steady_calm, steady_perform|done]. Qed.

Lemma calm_error {A} (e : exn) s : calm (raising (Err e) : mgr A) s.
Proof. apply steady_calm, steady_finish. Qed.

Lemma calm_publication {A} v r (o : outcome A) s : (exists p, status s p = Some ACTIVE \/ status s p = Some QUIESCED) ->
  validate_body_record v = Ok r -> calm (seq (perform (MEvent r)) (fun _ => raising o)) s.
Proof.
  intros Hp Hv. apply calm_seq; [|intros _; apply steady_calm, steady_finish]. apply calm_perform. intros x. split; [done|]. by exists v.
Qed.

Lemma publish_sensor_calm p st pl hs cf cv sm sc rr dr s : calm (publish_sensor cfg p st pl hs cf cv sm sc rr dr) s.
Proof.
  unfold publish_sensor. apply calm_required. intros r Hg Hst%list_elem_of_singleton.
  apply calm_checked. intros sensor _. destruct (negb _); [apply calm_error|].
  do 2 (apply calm_checked; intros ? _). do 7 (apply calm_checked; intros ? _).
  destruct (_ && _); [apply calm_error|]. destruct (_ && _); [apply calm_error|].
  do 3 (apply calm_asked; [done|intros ?]). apply calm_checked. intros n Hn. eapply calm_publication; [|exact Hn].
  exists p. left. unfold status. by rewrite Hg, <- Hst.
Qed.

Lemma publish_health_calm p et sv sb sa dt rc dg s : calm (publish_health cfg p et sv sb sa dt rc dg) s.
Proof.
  unfold publish_health. apply calm_required. intros r Hg Hst.
  do 8 (apply calm_checked; intros ? _). do 2 (apply calm_asked; [done|intros ?]).
  apply calm_checked. intros n Hn. eapply calm_publication; [|exact Hn]. exists p. unfold status. rewrite Hg. cbn.
  apply elem_of_cons in Hst as [->|Hst%list_elem_of_singleton]; [by left|rewrite Hst; by right].
Qed.

Lemma health_calm p s : calm (health p) s.
Proof.
  unfold health. apply calm_required. intros r Hg Hst. apply calm_seq.
  - intros tr o s' (tr1 & tr2 & o1 & s1 & -> & [-> ->]%runs_perform & H2)%runs_then.
    assert (tr2 = [] /\ s' = s) as [-> ->] by (destruct o1; by apply runs_finish in H2 as (-> & _ & ->)).
    split; [done|]. rewrite app_nil_r. apply code_one. by exists p, r.
  - intros answer. destruct (negb _); [apply calm_error|]. apply calm_checked. intros safe _. apply steady_calm, steady_finish.
Qed.

(** ** Calls of the manager *)

Inductive mcall : Type :=
| CVerify (root : string)
| CLoad (root : string)
| CStart (p : string)
| CQuiesce (p reason : string)
| CSnapshot (p : string)
| CStop (p : string)
| CUnload (p : string)
| CHealth (p : string)
| CPublishSensor (p sensor : string) (payload : pyval) (health : string) (confidence : pyval) (calibration : string)
    (stale : pyval) (clock : string) (raw degraded : option string)
| CPublishHealth (p event severity before after detail reason : string) (diagnostic : option pyval).

Definition ignoring {A} (m : mgr A) : mgr unit := seq m (fun _ => finish (Ok tt)).

Definition do_call (c : mcall) : mgr unit :=
  match c with
  | CVerify root => ignoring (verify cfg root)
  | CLoad root => ignoring (load cfg root)
  | CStart p => ignoring (start cfg p)
  | CQuiesce p r => ignoring (quiesce cfg p r)
  | CSnapshot p => ignoring (snapshot cfg p)
  | CStop p => ignoring (stop cfg p)
  | CUnload p => ignoring (unload cfg p)
  | CHealth p => ignoring (health p)
  | CPublishSensor p st pl hs cf cv sm sc rr dr => ignoring (publish_sensor cfg p st pl hs cf cv sm sc rr dr)
  | CPublishHealth p et sv sb sa dt rc dg => ignoring (publish_health cfg p et sv sb sa dt rc dg)
  end.

(** How a call can change the records. *)
Inductive record_move (s s' : manager) : Prop :=
| move_none : mg_records s' = mg_records s -> record_move s s'
| move_load r : admissible s (pr_manifest r) -> pr_state r = LOADED ->
    (exists d, parse_manifest d = Ok (pr_manifest r)) ->
    mg_records s' = d_set (mg_records s) (mf_package_id (pr_manifest r)) r -> record_move s s'
| move_step p r r' : d_get (mg_records s) p = Some r -> pr_manifest r' = pr_manifest r ->
    pr_state r' = pr_state r \/ lifecycle_step (Some (pr_state r)) (Some (pr_state r')) /\ pr_state r' <> LOADED ->
    mg_records s' = d_set (mg_records s) p r' -> record_move s s'.

Definition call_outcome (s : manager) (tr : list mevent) (o : outcome unit) (s' : manager) : Prop :=
  Forall (code_ok s) tr /\ record_move s s'.

Lemma ignoring_ends {A} (m : mgr A) s (Q : list mevent -> manager -> Prop) :
  ends mlog m s (fun tr o s' => Q tr s') -> ends mlog (ignoring m) s (fun tr o s' => Q tr s').
Proof.
  intros H. unfold ignoring. ends_step. eapply ends_mono; [exact H|]. intros tr [a|e] s' HQ; [|done].
  ends_step. by rewrite app_nil_r.
Qed.

Lemma transition_move {A} p from to s tr (o : outcome A) s' : transition p from to s tr o s' ->
  from = to \/ lifecycle_step (Some from) (Some to) /\ to <> LOADED ->
  (can_fail to = true -> from ∈ [LOADED; ACTIVE; QUIESCED]) -> record_move s s'.
Proof.
  intros [_ [[-> _]|(r & r' & Hg & Hst & Hm & Hs & Hto)]] Hstep Hfail; [by apply move_none|].
  eapply move_step; [done..| |done]. rewrite Hst. destruct Hto as [->|(-> & _ & Hc)].
  - destruct Hstep as [->|]; [by left|by right].
  - right. split; [|done]. apply step_fail. by apply Hfail.
Qed.

Lemma calm_call {A} (m : mgr A) s : calm m s -> ends mlog (ignoring m) s (fun tr o s' => Forall (code_ok s) tr /\ record_move s s').
Proof.
  intros H. apply ignoring_ends. eapply ends_mono; [exact H|]. intros tr o s' [-> Hp]. split; [done|]. by apply move_none.
Qed.

Lemma do_call_ends c s : ends mlog (do_call c) s (call_outcome s).
Proof.
  destruct c; cbn [do_call].
  - apply calm_call, steady_calm, steady_verify.
  - apply ignoring_ends. eapply ends_mono; [apply load_ends|]. intros tr o s' (Hp & _ & H). split; [by apply load_code_ok|].
    destruct H as [[H _]|(r & Ha & (vroot & _ & [(raw & text & d & _ & _ & _ & _ & Hd) _ _ _]) & Hst & _ & Hs & _)];
      [by apply move_none|]. eapply move_load; try done. by exists d.
  - apply ignoring_ends. eapply ends_mono; [apply start_ends|]. intros tr o s' H. split; [apply H|].
    eapply transition_move; [exact H|right; split; [constructor|done]|intros _; left].
  - apply ignoring_ends. eapply ends_mono; [apply quiesce_ends|]. intros tr o s' H. split; [apply H|].
    eapply transition_move; [exact H|right; split; [constructor|done]|intros _; right; left].
  - apply ignoring_ends. eapply ends_mono; [apply snapshot_ends|]. intros tr o s' H. split; [apply H|].
    eapply transition_move; [exact H|by left|intros _; right; right; left].
  - apply ignoring_ends. eapply ends_mono; [apply stop_ends|]. intros tr o s' H. split; [apply H|].
    eapply transition_move; [exact H|right; split; [constructor|done]|intros _; right; right; left].
  - apply ignoring_ends. eapply ends_mono; [apply unload_ends|]. intros tr o s' H. split; [apply H|].
    eapply transition_move; [exact H|right; split; [constructor|done]|done].
  - apply calm_call, health_calm.
  - apply calm_call, publish_sensor_calm.
  - apply calm_call, publish_health_calm.
Qed.
End Code.
