(* ===== verification/ModuleProperties.v ===== *)
(** The properties of the package manager, with a small package on which they are tried. *)

From stdpp Require Import base gmap sets list strings sorting.
From Stdlib Require Import ZArith NArith Ascii SpecFloat.
From S2P Require Import Prelude PyText PyVal Json Sha256 PyFloat StrDict Effects StateProg PyJson TextChecks.
From S2P Require Import BodyRecord BodyTheorems ModuleTrust ModulePackage ModuleManager ModuleTheorems.

(** ** A small package *)

Definition lamp_source : string := "class Lamp: pass".

Definition lamp_manifest (version : string) : pyval := PDict (str_items
  [("schema", PStr MODULE_PACKAGE_SCHEMA); ("package_id", PStr "lamp"); ("package_version", PStr version);
   ("runtime_api", PStr MODULE_RUNTIME_API); ("lifecycle_api", PStr MODULE_LIFECYCLE_API);
   ("entrypoint", PStr "main.py"); ("factory", PStr "make"); ("module_id", PStr "lamp-module");
   ("owning_handmaiden", PStr "Vesta"); ("authority", PStr "none"); ("read_only", PBool true);
   ("actuation_capable", PBool false); ("network_access", PBool false); ("shell_access", PBool false);
   ("simulation_supported", PBool true); ("dependencies", PList []); ("conflicts", PList []);
   ("event_inputs", PList []); ("event_outputs", strs ["light"]); ("hardware_requirements", PList []);
   ("resource_budget", PDict (str_items [("memory_mb", PInt 16); ("cpu_percent", PFloat (float_of_Z 10)); ("storage_mb", PInt 1)]));
   ("state_policy", PDict (str_items [("persistent", PBool false); ("schema", PStr "lamp.v1"); ("max_snapshot_bytes", PInt 1024)]));
   ("files", PDict (str_items [("main.py", PStr (sha256_hex (utf8 lamp_source)))]))]).

Definition lamp_text (version : string) : string := match py_dumps false (lamp_manifest version) with Ok t => t | Err _ => "" end.

Definition lamp_snapshot : pyval := PDict (str_items [("schema", PStr "lamp.v1"); ("level", PInt 3)]).

(** Its host: the disk holds the package, its code answers as given, everything is accepted.
    The state counts the readings of the entry point as text; [later] is what the second and
    every later reading finds. *)
Record host := mkHost { ho_later : string; ho_start : outcome unit; ho_stop : outcome unit }.

Definition lamp_host (h : host) (X : Type) (op : mop X) (n : nat) : outcome X * nat :=
  match op in mop X return outcome X * nat with
  | MFile f =>
      match f in fileop X return outcome X * nat with
      | OpExpandUser p => (Ok p, n)
      | OpLstat _ => (Ok (mkStat RegularFile 384 100), n)
      | OpReadBytes p => (Ok (utf8 (if bool_decide (p = "/pkg/manifest.json") then lamp_text "1.0.0" else lamp_source)), n)
      | OpDecode _ => (Ok (lamp_text "1.0.0"), n)
      end
  | MIsSymlink _ => (Ok false, n)
  | MResolve p => (Ok p, n)
  | MIsDir _ => (Ok true, n)
  | MTree _ => (Ok [mkTreeEntry "manifest.json" false false true 100; mkTreeEntry "main.py" false false true 16], n)
  | MReadText _ => (Ok (match n with O => lamp_source | S _ => ho_later h end), S n)
  | MParseAst _ => (Ok [], n)
  | MCompile _ | MExec _ _ | MQuiesce _ _ | MRestore _ _ | MReceipt _ | MEvent _ | MTrustReceipt _ => (Ok tt, n)
  | MFactory _ _ => (Ok true, n)
  | MCreate _ _ => (Ok (mkInstance 7 false lifecycle_methods), n)
  | MStart _ => (ho_start h, n)
  | MStop _ => (ho_stop h, n)
  | MSnapshot _ | MHealth _ => (Ok lamp_snapshot, n)
  | MUuid => (Ok "0f", n)
  | MTime | MMonotonic => (Ok f1, n)
  | MTimeNs => (Ok 0%Z, n)
  end.

Definition good_host : host := mkHost lamp_source (Ok tt) (Ok tt).
Definition lamp_config : manager_config := mkManagerConfig "node" "1.0.0" (mkManagerBudget 64 (float_of_Z 100) 64) [].

Abbreviation after h := (StateProg.state_after mlog (lamp_host h) 0).
Abbreviation result h := (StateProg.result_of mlog (lamp_host h) 0).
Abbreviation trace h := (StateProg.events_of mlog (lamp_host h) 0).

Example lamp_loads : is_ok (result good_host (load lamp_config "/pkg") new_manager) = true.
Proof. vm_compute. reflexivity. Qed.

(** A sequence of calls on the lamp's host. *)
Fixpoint calls_after (h : host) (cs : list mcall) (s : manager) : manager :=
  match cs with [] => s | c :: cs' => calls_after h cs' (after h (do_call lamp_config c) s) end.

Lemma call_runs h c s : is_ok (evaluate mlog (lamp_host h) 0 (do_call lamp_config c) s) = true ->
  runs mlog (do_call lamp_config c) s (trace h (do_call lamp_config c) s) (result h (do_call lamp_config c) s)
    (after h (do_call lamp_config c) s).
Proof. apply evaluate_runs. Qed.

(** ** Lifecycle *)

Lemma record_move_status cfg s s' p : record_move cfg s s' ->
  status s' p = status s p \/ lifecycle_step (status s p) (status s' p).
Proof.
  unfold status. intros [Hs|r [_ Ha] Hst _ Hs|q r r' Hg _ Hstep Hs]; rewrite Hs; [by left| |].
  - rewrite d_get_set. case_bool_decide as Hp; [|by left]. subst p. unfold status in Ha. cbn. rewrite Hst. right.
    destruct Ha as [->|Ha]; [constructor|]. rewrite Ha. constructor.
  - rewrite d_get_set. case_bool_decide as Hp; [|by left]. subst q. rewrite Hg. cbn.
    destruct Hstep as [->|[]]; [by left|by right].
Qed.




Definition loaded_lamp : manager := after good_host (do_call lamp_config (CLoad "/pkg")) new_manager.


(** ** Budgets *)

(** The states of a manager: created, then any calls. *)
Inductive managed (cfg : manager_config) : manager -> Prop :=
| managed_new : managed cfg new_manager
| managed_call s c tr o s' : managed cfg s -> runs mlog (do_call cfg c) s tr o s' -> managed cfg s'.

Definition used (f : ModuleResourceBudget -> Z) (r : package_record) : Z :=
  if is_admitted r then f (mf_resource_budget (pr_manifest r)) else 0%Z.
Definition total (f : ModuleResourceBudget -> Z) (d : sdict package_record) : Z := foldr (fun kr a => (used f kr.2 + a)%Z) 0%Z d.

Lemma usage_total (f : ModuleResourceBudget -> Z) d : (f = rb_memory_mb \/ f = rb_storage_mb) -> forall u,
  f (fold_left add_usage d.*2 u) = (f u + total f d)%Z.
Proof.
  intros Hf. induction d as [|[k r] d IH]; intros u; [cbn; lia|]. cbn [fmap list_fmap fold_left snd].
  rewrite IH. unfold total. cbn [foldr snd]. fold (total f d). unfold add_usage, used.
  destruct (is_admitted r); [|lia]. destruct Hf as [-> | ->]; cbn; lia.
Qed.

Lemma total_set f d k r : total f (d_set d k r) =
  (total f d + used f r - match d_get d k with Some r0 => used f r0 | None => 0 end)%Z.
Proof.
  unfold total. induction d as [|[k' r'] d IH]; cbn [d_set foldr d_get snd]; [lia|]. case_bool_decide; cbn [foldr snd]; [lia|].
  rewrite IH. lia.
Qed.

(** The budgets of a parsed manifest are positive. *)
Lemma resource_budget_positive d b : read_resource_budget d = Ok b -> (1 <= rb_memory_mb b)%Z /\ (1 <= rb_storage_mb b)%Z.
Proof.
  unfold read_resource_budget. destruct (get d "resource_budget") as [| | | | | | |res]; try done.
  assert (forall k lo hi z, manifest_integer res k lo hi = Ok z -> (lo <= z)%Z) as Hi.
  { intros k lo hi z. unfold manifest_integer, manifest_error. destruct (get res k); try done.
    destruct (_ && _) eqn:E; [|done]. intros [= <-]. by apply andb_true_iff in E as [?%Z.leb_le _]. }
  destruct (require _ _); [|done]. cbn [outcome_bind].
  destruct (manifest_integer res "memory_mb" _ _) as [z1|] eqn:H1; [|done]. cbn [outcome_bind].
  destruct (manifest_number res "cpu_percent" _ _) as [z2|] eqn:H2; [|done]. cbn [outcome_bind].
  destruct (manifest_integer res "storage_mb" _ _) as [z3|] eqn:H3; [|done]. intros [= <-].
  split; [by apply Hi in H1|by apply Hi in H3].
Qed.

Lemma parse_manifest_budget d m : parse_manifest d = Ok m ->
  (1 <= rb_memory_mb (mf_resource_budget m))%Z /\ (1 <= rb_storage_mb (mf_resource_budget m))%Z.
Proof.
  unfold parse_manifest. intros H.
  repeat match type of H with outcome_bind ?x _ = Ok _ => destruct x eqn:?; cbn [outcome_bind] in H; [|discriminate H] end.
  apply Ok_inj in H as <-. by eapply resource_budget_positive.
Qed.

(** What an admission check that passed says of the sums. *)
Lemma admission_sums cfg m s : check_admission cfg m s = Ok tt ->
  (rb_memory_mb (usage s) + rb_memory_mb (mf_resource_budget m) <= mb_memory_mb (mc_budget cfg))%Z /\
  (rb_storage_mb (usage s) + rb_storage_mb (mf_resource_budget m) <= mb_storage_mb (mc_budget cfg))%Z.
Proof.
  unfold check_admission, admission_error. do 3 (destruct (each _ _); cbn [outcome_bind]; [|done]).
  destruct (Z.ltb_spec (mb_memory_mb (mc_budget cfg)) (rb_memory_mb (usage s) + rb_memory_mb (mf_resource_budget m))); [done|].
  destruct (flt _ _); [done|].
  destruct (Z.ltb_spec (mb_storage_mb (mc_budget cfg)) (rb_storage_mb (usage s) + rb_storage_mb (mf_resource_budget m))); [done|].
  done.
Qed.

Definition budget_inv (cfg : manager_config) (s : manager) : Prop :=
  (forall p r, d_get (mg_records s) p = Some r ->
     (1 <= rb_memory_mb (mf_resource_budget (pr_manifest r)))%Z /\ (1 <= rb_storage_mb (mf_resource_budget (pr_manifest r)))%Z) /\
  (total rb_memory_mb (mg_records s) <= Z.max 0 (mb_memory_mb (mc_budget cfg)))%Z /\
  (total rb_storage_mb (mg_records s) <= Z.max 0 (mb_storage_mb (mc_budget cfg)))%Z.

Lemma usage_memory s : rb_memory_mb (usage s) = total rb_memory_mb (mg_records s).
Proof. unfold usage. rewrite (usage_total rb_memory_mb) by by left. done. Qed.
Lemma usage_storage s : rb_storage_mb (usage s) = total rb_storage_mb (mg_records s).
Proof. unfold usage. rewrite (usage_total rb_storage_mb) by by right. done. Qed.

Lemma used_step f (r r' : package_record) : (0 <= f (mf_resource_budget (pr_manifest r)))%Z -> pr_manifest r' = pr_manifest r ->
  pr_state r' = pr_state r \/ lifecycle_step (Some (pr_state r)) (Some (pr_state r')) /\ pr_state r' <> LOADED ->
  (used f r' <= used f r)%Z.
Proof.
  unfold used, is_admitted. intros Hf -> [-> | [Hs Hn]]; [lia|].
  inversion Hs as [|H1 H2|H1 H2|H1 H2|H1 H2|H1 H2|st Hin H1 H2]; try congruence;
    rewrite <- ?H1, <- ?H2; repeat case_bool_decide; set_solver by lia.
Qed.

Lemma used_admitted f r : pr_state r = LOADED -> used f r = f (mf_resource_budget (pr_manifest r)).
Proof. intros Hst. unfold used, is_admitted. rewrite Hst. by rewrite bool_decide_true by (by left). Qed.

Lemma used_outside f s p : status s p = None \/ status s p = Some UNLOADED ->
  match d_get (mg_records s) p with Some r => used f r | None => 0%Z end = 0%Z.
Proof.
  unfold status. destruct (d_get _ _) as [r|]; [|done]. cbn. intros [|[= Hst]]; [done|].
  unfold used, is_admitted. rewrite Hst. by rewrite bool_decide_false by set_solver.
Qed.

Lemma budget_inv_move cfg s s' : budget_inv cfg s -> record_move cfg s s' -> budget_inv cfg s'.
Proof.
  intros (Hm & Hmem & Hsto) [Hs|r [Hadm Ha] Hst [d Hd] Hs|p r r' Hg Hmf Hstep Hs]; unfold budget_inv; rewrite Hs.
  - done.
  - apply parse_manifest_budget in Hd. apply admission_sums in Hadm as [H1 H2]. rewrite usage_memory in H1.
    rewrite usage_storage in H2. split_and!.
    + intros p r'. rewrite d_get_set. case_bool_decide; [by intros [= <-]|apply Hm].
    + rewrite total_set, (used_admitted _ r), (used_outside _ s) by done. etrans; [|apply Z.le_max_r]. by rewrite Z.sub_0_r.
    + rewrite total_set, (used_admitted _ r), (used_outside _ s) by done. etrans; [|apply Z.le_max_r]. by rewrite Z.sub_0_r.
  - destruct (Hm p r Hg) as [Hb1 Hb2]. split_and!.
    + intros q r0. rewrite d_get_set. case_bool_decide; [|apply Hm]. intros [= <-]. by rewrite Hmf.
    + rewrite total_set, Hg. pose proof (used_step rb_memory_mb r r' ltac:(lia) Hmf Hstep). lia.
    + rewrite total_set, Hg. pose proof (used_step rb_storage_mb r r' ltac:(lia) Hmf Hstep). lia.
Qed.

Lemma managed_budget cfg s : managed cfg s -> budget_inv cfg s.
Proof.
  induction 1 as [|s c tr o s' _ IH [_ Hm]%do_call_ends]; [|by eapply budget_inv_move].
  split_and!; [by intros p r|cbn; lia..].
Qed.



(** ** Loading *)



(** ** Failed packages *)

Inductive calls_run (cfg : manager_config) : manager -> manager -> Prop :=
| calls_nil s : calls_run cfg s s
| calls_cons s c tr o s1 s2 : runs mlog (do_call cfg c) s tr o s1 -> calls_run cfg s1 s2 -> calls_run cfg s s2.

Lemma calls_run_app cfg s1 s2 s3 : calls_run cfg s1 s2 -> calls_run cfg s2 s3 -> calls_run cfg s1 s3.
Proof. induction 1; [done|]. intros. eapply calls_cons; [done|]. auto. Qed.

(** C40: A package whose [start], [quiesce], [snapshot_state] or [stop] raised is lost: no
    sequence of calls takes it out of [FAILED], so it can neither be stopped, unloaded nor
    loaded again, although its resources no longer count. *)
Theorem failed_package_stuck cfg s s' p : calls_run cfg s s' -> status s p = Some FAILED -> status s' p = Some FAILED.
Proof.
  induction 1 as [|s c tr o s1 s2 Hr _ IH]; intros Hf; [done|]. apply IH. apply do_call_ends in Hr as [_ Hm].
  destruct (record_move_status cfg s s1 p Hm) as [->|Hs]; [done|]. rewrite Hf in Hs. inversion Hs as [| | | | | |st Hin]; subst.
  set_solver.
Qed.

Definition broken_host : host := mkHost lamp_source (raise RuntimeError "no light") (Ok tt).
Definition broken_lamp : manager := after broken_host (do_call lamp_config (CStart "lamp")) loaded_lamp.

Lemma failed_package_stuck_witness :
  status (after good_host (do_call lamp_config (CLoad "/pkg")) broken_lamp) "lamp" = Some FAILED /\
  mg_modules broken_lamp = mg_modules loaded_lamp /\ rb_memory_mb (usage broken_lamp) = 0%Z.
Proof.
  split; [|split; vm_compute; reflexivity].
  refine (failed_package_stuck lamp_config broken_lamp _ "lamp" (calls_cons _ _ _ _ _ _ _
    (call_runs good_host (CLoad "/pkg") broken_lamp _) (calls_nil _ _)) _); vm_compute; reflexivity.
Defined.

(** ** Findings *)

(** The documentation says that unloading requires quiesce, a bounded state snapshot, and
    stop.  The code requires no snapshot: a package is loaded, started, quiesced, stopped and
    unloaded without one, and its state is lost. *)
Theorem unload_without_snapshot :
  let s := calls_after good_host [CLoad "/pkg"; CStart "lamp"; CQuiesce "lamp" "bye"; CStop "lamp"; CUnload "lamp"] new_manager in
  status s "lamp" = Some UNLOADED /\ mg_snapshots s !! "lamp" = None.
Proof. vm_compute. split; reflexivity. Qed.

(** What runs need not be what was verified.  [load] reads the entry point again after
    [verify] has hashed and parsed it; if the file changed in between, the new text is
    executed, although its digest is not the one in the manifest. *)
Theorem executed_source_unverified :
  let changed := mkHost "import os" (Ok tt) (Ok tt) in
  let o := result changed (load lamp_config "/pkg") new_manager in
  is_ok o = true /\
  existsb (fun ev => match ev with MEv (MExec _ source) _ => bool_decide (source = "import os") | _ => false end)
    (trace changed (load lamp_config "/pkg") new_manager) = true /\
  existsb (fun kv => bool_decide (kv.2 = sha256_hex (utf8 "import os")))
    (match o with Ok r => mf_files (pr_manifest r) | Err _ => [] end) = false.
Proof. vm_compute. split_and!; reflexivity. Qed.

(** When a package fails with a message that is not printable ASCII, the failure receipt
    is refused by its own validator: the package is [FAILED], no receipt of it is emitted,
    and the caller gets a [ValueError] instead of a [ModuleLifecycleError]. *)
Theorem failure_text_loses_receipt :
  let fails msg := mkHost lamp_source (raise RuntimeError msg) (Ok tt) in
  let receipts msg := length (filter (fun b : bool => b = true)
    ((fun ev => match ev with MEv (MReceipt _) _ => true | _ => false end) <$>
       trace (fails msg) (start lamp_config "lamp") loaded_lamp)) in
  let ends msg := match result (fails msg) (start lamp_config "lamp") loaded_lamp with
    | Err e => Some (exn_class e) | Ok _ => None end in
  let accented := String "233" "teinte" in
  (receipts "off", ends "off") = (1, Some ModuleLifecycleError) /\
  (receipts accented, ends accented) = (0, Some ValueError) /\
  status (after (fails accented) (start lamp_config "lamp") loaded_lamp) "lamp" = Some FAILED.
Proof. vm_compute. split_and!; reflexivity. Qed.
