(* ===== verification/TrustedLibrary.v ===== *)
(** [services/trusted_module_library.py]: the gate above the package manager.  The owner's
    signed ledger is consulted first; only an enabled entry selects a storage root, and the
    package found there must be the one the entry describes.

    The library holds a manager ([ModuleManager.v]) and caches the ledger
    ([ModuleTrust.v]); its methods run those of the manager on the manager they hold. *)

From stdpp Require Import base gmap sets list strings sorting.
From Stdlib Require Import ZArith NArith Ascii SpecFloat.
From S2P Require Import Prelude PyText PyVal Json Sha256 PyFloat StrDict Effects StateProg PyJson TextChecks.
From S2P Require Import BodyRecord ModuleTrust ModulePackage ModuleManager.

(** [TrustedModuleResolution] *)
Record resolution := mkResolution {
  rs_entry : OwnerTrustedModuleEntry;
  rs_package_root : string;
  rs_manifest : ModulePackageManifest
}.

Record library := mkLibrary { lb_manager : manager; lb_registry : option OwnerModuleTrustRegistry }.
Definition put_manager (m : manager) (s : library) : library := mkLibrary m (lb_registry s).
Definition put_registry (r : option OwnerModuleTrustRegistry) (s : library) : library := mkLibrary (lb_manager s) r.

(** What [OwnerTrustedModuleLibrary.__init__] fixes. *)
Record library_config := mkLibraryConfig {
  lc_manager : manager_config; lc_registry_path : string; lc_key_path : string; lc_storage_roots : sdict string }.

Abbreviation lib := (stprog mop library).

(** The checks of [__init__]; a later root replaces an earlier one of the same slot. *)
Fixpoint checked_roots (roots : list (string * string)) (acc : sdict string) : prog mop (sdict string) :=
  match roots with
  | [] => Ret acc
  | (storage_id, root) :: rest =>
      let* slot := of_outcome (validated_id (PStr storage_id) "storage_id") in
      let* path := absolute_path root "storage root" in
      checked_roots rest (d_set acc slot path)
  end.
Definition make_library (manager_cfg : manager_config) (registry_path key_path : string)
    (storage_roots : list (string * string)) : prog mop library_config :=
  let* registry_file := absolute_path registry_path "registry_path" in
  let* key_file := absolute_path key_path "key_path" in
  let* roots := checked_roots storage_roots [] in
  Ret (mkLibraryConfig manager_cfg registry_file key_file roots).

(** A program that does not touch the state. *)
Definition outside {E S A} (p : prog E A) : stprog E S A := fun s => handle p (fun o => Ret (o, s)).

(** A method of the manager the library holds. *)
Definition managed_by {A} (m : mgr A) : lib A := zoom lb_manager put_manager m.

(** [_emit] *)
Definition emit (event_type reason : string) (package_id : option string) (extra : list (string * pyval)) : lib unit :=
  let^ time_ns := perform MTimeNs in
  let seed := event_type +:+ ":" +:+ default "-" package_id +:+ ":" +:+ reason +:+ ":" +:+ str_of_Z time_ns in
  let^ now := perform MTime in
  perform (MTrustReceipt (PDict (str_items (
    [("event_id", PStr (str_take 32 (sha256_hex (utf8 seed)))); ("event_type", PStr event_type);
     ("timestamp", PFloat now); ("package_id", opt_str package_id); ("reason", PStr reason);
     ("source", PStr "owner-trusted-module-library"); ("authority", PStr "none");
     ("actuation_granted", PBool false); ("external_storage_scanned", PBool false)] ++ extra)))).

(** [_verified_storage_root] *)
Definition verified_storage_root (root : string) : lib unit :=
  then_ (perform (MFile (OpLstat root))) (fun o => match o with
    | Err e => finish (if is_OSError e
        then raise ModuleTrustDeniedError ("trusted storage root is unavailable: " +:+ exn_message e) else Err e)
    | Ok st => if bool_decide (fs_kind st = Directory) then finish (Ok tt)
               else failing ModuleTrustDeniedError "trusted storage root must be a non-symlink directory"
    end).

(** [_exact_package_path]; [relative_to] compares path segments. *)
Definition is_relative_to (path root : string) : bool :=
  bool_decide (take (length (path_parts root)) (path_parts path) = path_parts root).
Definition exact_package_path (root relative_path : string) : outcome string :=
  let? relative := validated_relative_path (PStr relative_path) in
  let candidate := path_join root relative in
  if is_relative_to candidate root then Ok candidate
  else raise ModuleTrustDeniedError "trusted package path escapes storage root".

(** Where a manifest and a ledger entry disagree. *)
Definition mismatches (m : ModulePackageManifest) (e : OwnerTrustedModuleEntry) : list string :=
  (if bool_decide (mf_package_id m <> te_package_id e) then ["package_id"] else []) ++
  (if bool_decide (mf_package_version m <> te_package_version e) then ["package_version"] else []) ++
  (if bool_decide (mf_digest m <> te_manifest_digest e) then ["manifest_digest"] else []).

Section Library.
Context (cfg : library_config).

(** [registry] *)
Definition registry : lib OwnerModuleTrustRegistry :=
  let^ cached := reads lb_registry in
  match cached with
  | Some r => finish (Ok r)
  | None =>
      let^ r := outside (load_trust_registry (lc_registry_path cfg) (lc_key_path cfg)) in
      let^ _ := modify (put_registry (Some r)) in
      let^ _ := emit "OWNER_MODULE_TRUST_VERIFIED" "owner-signed direct-memory trust ledger verified" None
        [("owner_key_id", PStr (tr_owner_key_id r)); ("generation", PInt (tr_generation r));
         ("entry_count", PInt (Z.of_nat (length (tr_entries r))))] in
      finish (Ok r)
  end.

(** [reload_registry] *)
Definition reload_registry : lib OwnerModuleTrustRegistry :=
  let^ _ := modify (put_registry None) in registry.

(** [trusted_package_ids] *)
Definition trusted_package_ids : lib (list string) :=
  let^ r := registry in
  finish (Ok (te_package_id <$> filter (fun e => te_enabled e = true) (tr_entries r))).

Definition denied {A} (event_type reason : string) (package : string) (extra : list (string * pyval)) (msg : string) : lib A :=
  let^ _ := emit event_type reason (Some package) extra in failing ModuleTrustDeniedError msg.

(** The part of [resolve] that consults the ledger: the entry and its storage root. *)
Definition trusted_entry (package : string) : lib (OwnerTrustedModuleEntry * string) :=
  let^ r := registry in
  let^ found := finish (entry_for r package) in
  match found with
  | None => denied "MODULE_TRUST_DENIED" "package is absent from the owner-trusted ledger" package []
              ("package is not owner-trusted: " +:+ package)
  | Some e =>
      if negb (te_enabled e)
      then denied "MODULE_TRUST_DENIED" "owner-trusted package entry is disabled" package
             [("storage_id", PStr (te_storage_id e))] ("owner-trusted package is disabled: " +:+ package)
      else match d_get (lc_storage_roots cfg) (te_storage_id e) with
           | None => denied "TRUSTED_MODULE_STORAGE_UNAVAILABLE" "trusted connected-storage slot is unavailable" package
                       [("storage_id", PStr (te_storage_id e))] ("trusted storage slot is unavailable: " +:+ te_storage_id e)
           | Some root => finish (Ok (e, root))
           end
  end.

(** [resolve] *)
Definition resolve (package_id : string) : lib resolution :=
  let^ package := finish (validated_id (PStr package_id) "package_id") in
  let^ (e, storage_root) := trusted_entry package in
  let^ _ := verified_storage_root storage_root in
  let^ package_root := finish (exact_package_path storage_root (te_relative_path e)) in
  let^ m := managed_by (verify (lc_manager cfg) package_root) in
  match mismatches m e with
  | [] =>
      let^ _ := emit "TRUSTED_MODULE_RESOLVED" "direct-memory trust and connected package agree" (Some package)
        [("storage_id", PStr (te_storage_id e)); ("relative_path", PStr (te_relative_path e));
         ("package_version", PStr (te_package_version e)); ("manifest_digest", PStr (te_manifest_digest e))] in
      finish (Ok (mkResolution e package_root m))
  | ms =>
      let^ _ := emit "TRUSTED_MODULE_MISMATCH" "connected package does not match owner-trusted knowledge" (Some package)
        [("storage_id", PStr (te_storage_id e)); ("mismatches", PList (PStr <$> ms))] in
      failing ModuleTrustMismatchError ("trusted package mismatch: " +:+ join ", " ms)
  end.

(** [load] *)
Definition trusted_load (package_id : string) : lib package_record :=
  let^ found := resolve package_id in
  let e := rs_entry found in
  let^ record := managed_by (load (lc_manager cfg) (rs_package_root found)) in
  if bool_decide (mismatches (pr_manifest record) e <> [])
  then failing ModuleTrustMismatchError "package changed between trusted resolution and load" else
  let^ _ := emit "TRUSTED_MODULE_LOADED" "owner-trusted package loaded without automatic start" (Some (te_package_id e))
    [("storage_id", PStr (te_storage_id e)); ("state", PStr (state_name (pr_state record)))] in
  finish (Ok record).

End Library.
