(* ===== verification/TrustedTheorems.v ===== *)
(** What the trusted module library guarantees: connected storage is not touched before the
    owner's ledger allows it, and what is loaded is what the ledger describes. *)

From stdpp Require Import base gmap sets list strings sorting.
From Stdlib Require Import ZArith NArith Ascii SpecFloat.
From S2P Require Import Prelude PyText PyVal Json Sha256 PyFloat StrDict Effects StateProg PyJson TextChecks.
From S2P Require Import BodyRecord ModuleTrust ModuleTrustTheorems ModulePackage ModuleManager ModuleTheorems.
From S2P Require Import ModuleProperties TrustedLibrary.

(** ** Programs outside the state *)

(** Every way a program can end satisfies [Q]. *)
Definition leads {A} (p : prog mop A) (Q : list mevent -> outcome A -> Prop) : Prop :=
  forall tr o, exec mlog p tr o -> Q tr o.

Lemma leads_bind {A B} (p : prog mop A) (f : A -> prog mop B) Q :
  leads p (fun tr1 o1 => match o1 with
    | Ok a => leads (f a) (fun tr2 o => Q (tr1 ++ tr2) o)
    | Err e => Q tr1 (Err e) end) -> leads (bind p f) Q.
Proof.
  unfold leads, bind. intros H tr o Hx. apply exec_handle in Hx as (tr1 & tr2 & o1 & -> & H1 & H2). specialize (H _ _ H1).
  destruct o1 as [a|e]; [by apply H|]. apply (exec_of_outcome mlog (Err e)) in H2 as [-> ->]. by rewrite app_nil_r.
Qed.

Lemma leads_handle {A B} (p : prog mop A) (f : outcome A -> prog mop B) Q :
  leads p (fun tr1 o1 => leads (f o1) (fun tr2 o => Q (tr1 ++ tr2) o)) -> leads (handle p f) Q.
Proof. unfold leads. intros H tr o (tr1 & tr2 & o1 & -> & H1 & H2)%exec_handle. by eapply H. Qed.

Lemma leads_outcome {A} (o : outcome A) Q : Q [] o -> leads (of_outcome o) Q.
Proof. by intros H tr o' [-> ->]%exec_of_outcome. Qed.

Lemma leads_raise {A} e Q : Q [] (Err e) -> leads (Raise e : prog mop A) Q.
Proof. apply (leads_outcome (Err e)). Qed.

Lemma leads_file {X} (op : fileop X) Q : (forall o, Q [MEv (MFile op) o] o) -> leads (fcall op) Q.
Proof.
  unfold leads, fcall, call. intros H tr o Hx. apply exec_vis in Hx as (r & tr' & -> & [-> ->]%exec_of_outcome). apply H.
Qed.

Lemma ends_outside {S A} (p : prog mop A) (s : S) Q : leads p (fun tr o => Q tr o s) -> ends mlog (outside p) s Q.
Proof.
  unfold leads, ends, runs, outside. intros H tr o s' (tr1 & tr2 & o1 & -> & H1 & H2)%exec_handle.
  apply (exec_of_outcome mlog (Ok (o1, s))) in H2 as [-> [= -> ->]]. rewrite app_nil_r. by apply H.
Qed.

Ltac leads_step :=
  lazymatch goal with
  | |- leads (bind _ _) _ => apply leads_bind
  | |- leads (handle _ _) _ => apply leads_handle
  | |- leads (of_outcome _) _ => apply leads_outcome
  | |- leads (Raise _) _ => apply leads_raise
  | |- leads (fcall _) _ => apply leads_file; intros ?
  end; cbn beta iota.

(** ** Direct memory *)

(** What consulting the ledger may do: expand the two configured paths, look at and read the
    files [known], decode, ask for the time, emit receipts. *)
Definition consults (paths known : list string) (ev : mevent) : Prop :=
  match ev with
  | MEv op _ =>
      match op with
      | MTimeNs | MTime | MTrustReceipt _ => True
      | MFile f =>
          match f with
          | OpExpandUser p => p ∈ paths
          | OpLstat q | OpReadBytes q => q ∈ known
          | OpDecode _ => True
          end
      | _ => False
      end
  end.

(** A trace that stays in direct memory: the files it touches are the configured ones. *)
Definition direct (cfg : library_config) (tr : list mevent) : Prop :=
  let paths := [lc_registry_path cfg; lc_key_path cfg] in
  exists known, Forall (consults paths known) tr /\
    forall q, q ∈ known -> exists p, p ∈ paths /\ seen tr (MFile (OpExpandUser p)) q.

Lemma consults_mono paths k1 k2 ev : k1 ⊆ k2 -> consults paths k1 ev -> consults paths k2 ev.
Proof. intros Hk. destruct ev as [X op o]. destruct op as [X f| | | | | | | | | | | | | | | | | | | | | | |]; try done. destruct f; cbn; auto. Qed.

Lemma direct_app cfg tr1 tr2 : direct cfg tr1 -> direct cfg tr2 -> direct cfg (tr1 ++ tr2).
Proof.
  intros (k1 & H1 & H1') (k2 & H2 & H2'). exists (k1 ++ k2). split.
  - apply Forall_app. split; eapply Forall_impl; eauto; intros ev; apply consults_mono; set_solver.
  - intros q [(p & Hp & Hs)%H1'|(p & Hp & Hs)%H2']%elem_of_app; exists p; (split; [done|]); [by apply seen_l|by apply seen_r].
Qed.

Lemma direct_clock cfg tr : Forall (consults [] []) tr -> direct cfg tr.
Proof.
  intros H. exists []. split; [|by intros q ?%elem_of_nil]. eapply Forall_impl; [exact H|]. intros ev.
  destruct ev as [X op o]. destruct op as [X f| | | | | | | | | | | | | | | | | | | | | | |]; try done.
  destruct f; try done; cbn; by intros ?%elem_of_nil.
Qed.

Lemma emit_ends t r p x s : ends mlog (emit t r p x) s (fun tr o s' => s' = s /\ Forall (consults [] []) tr).
Proof.
  unfold emit. ends_step. ends_step. destruct o; [|split; [done|by repeat constructor]]. ends_step. ends_step.
  destruct o; [|split; [done|by repeat constructor]]. ends_step. split; [done|by repeat constructor].
Qed.

Lemma emit_direct cfg t r p x s : ends mlog (emit t r p x) s (fun tr o s' => s' = s /\ direct cfg tr).
Proof. eapply ends_mono; [apply emit_ends|]. intros tr o s' [-> H]. split; [done|by apply direct_clock]. Qed.

(** ** Loading the ledger *)

Section Ledger.
Context (rpath kpath : string).
Let paths := [rpath; kpath].
Let from_paths (known : list string) (tr : list mevent) : Prop :=
  Forall (consults paths known) tr /\ forall q, q ∈ known -> exists p, p ∈ paths /\ seen tr (MFile (OpExpandUser p)) q.

Lemma absolute_leads value label : value ∈ paths -> leads (absolute_path value label) (fun tr o =>
  Forall (consults paths []) tr /\ forall q, o = Ok q -> seen tr (MFile (OpExpandUser value)) q).
Proof.
  intros Hv. unfold absolute_path. leads_step. leads_step. destruct o as [q|e].
  - leads_step. split; [by constructor|]. destruct (path_absolute q); [|done]. intros q' [= <-]. by left.
  - split; [by constructor|done].
Qed.

Lemma verified_file_leads q label n k : leads (verified_direct_file q label n k) (fun tr o => Forall (consults paths [q]) tr).
Proof.
  unfold verified_direct_file. leads_step. leads_step.
  assert (Forall (consults paths [q]) [MEv (MFile (OpLstat q)) o]) as H by (constructor; [by left|constructor]).
  destruct o as [s|e]; [by leads_step|]. destruct (is_OSError e); by leads_step.
Qed.

Lemma consults_seen k known tr : k ⊆ known -> Forall (consults paths k) tr -> Forall (consults paths known) tr.
Proof. intros Hk H. eapply Forall_impl; [exact H|]. intros ev. by apply consults_mono. Qed.

Lemma load_key_leads : leads (load_trust_key kpath) (fun tr o => exists known, Forall (consults paths known) tr /\
  forall q, q ∈ known -> seen tr (MFile (OpExpandUser kpath)) q).
Proof.
  unfold load_trust_key. leads_step. intros tr o Hx. apply absolute_leads in Hx as [H1 Hs]; [|right; by left].
  destruct o as [q|e]; [|by exists []; split; [|intros q ?%elem_of_nil]]. specialize (Hs q eq_refl).
  assert (forall tr2, Forall (consults paths [q]) tr2 -> exists known, Forall (consults paths known) (tr ++ tr2) /\
    forall q0, q0 ∈ known -> seen (tr ++ tr2) (MFile (OpExpandUser kpath)) q0) as Hdone.
  { intros tr2 H2. exists [q]. split; [apply Forall_app; split; [|done]; eapply consults_seen; [|done]; set_solver|].
    intros q0 ->%list_elem_of_singleton. by apply seen_l. }
  leads_step. intros tr2 o2 H2%verified_file_leads. destruct o2 as [u|e]; [|by apply Hdone].
  leads_step. leads_step. assert (consults paths [q] (MEv (MFile (OpReadBytes q)) o)) as Hr by by left.
  destruct o as [key|e]; [leads_step; rewrite app_nil_r|]; apply Hdone; apply Forall_app; (split; [done|]); by constructor.
Qed.

Lemma load_ledger_leads : leads (load_trust_registry rpath kpath) (fun tr o => exists known, from_paths known tr).
Proof.
  unfold load_trust_registry. leads_step. intros tr o Hx. apply absolute_leads in Hx as [H1 Hs]; [|by left].
  destruct o as [q|e]; [|by exists []; split; [|intros q ?%elem_of_nil]]. specialize (Hs q eq_refl).
  leads_step. intros tr1 o1 (known & Hk & Hks)%load_key_leads.
  assert (forall tr2, Forall (consults paths [q]) tr2 -> exists known', from_paths known' (tr ++ tr1 ++ tr2)) as Hdone.
  { intros tr2 H2. exists (q :: known). split.
    - apply Forall_app; split; [eapply consults_seen; [|done]; set_solver|].
      apply Forall_app; split; (eapply consults_seen; [|done]; set_solver).
    - intros q0 [->|Hq]%elem_of_cons; [exists rpath; split; [by left|by apply seen_l]|].
      exists kpath. split; [right; by left|by apply seen_r, seen_l, Hks]. }
  destruct o1 as [key|e]; [|rewrite <- (app_nil_r tr1); by apply Hdone].
  leads_step. intros tr2 o2 H2%verified_file_leads. destruct o2 as [u|e]; [|by apply Hdone].
  leads_step. leads_step. assert (consults paths [q] (MEv (MFile (OpReadBytes q)) o)) as Hr by by left.
  destruct o as [data|e]; [|apply Hdone, Forall_app; split; [done|by constructor]].
  leads_step. leads_step. assert (consults paths [q] (MEv (MFile (OpDecode data)) o)) as Hd by done.
  destruct o as [text|e]; [|case_bool_decide]; leads_step; rewrite ?app_nil_r; apply Hdone, Forall_app;
    (split; [done|by repeat constructor]).
Qed.
End Ledger.

(** ** Consulting the ledger *)

Section Gate.
Context (cfg : library_config).

(** Where the ledger a call relies on comes from: the cache, or the configured files, read
    during [tr] and signed with the key that was read. *)
Definition believed (s : library) (r : OwnerModuleTrustRegistry) (tr : list mevent) : Prop :=
  lb_registry s = Some r \/
  exists kfile key, seen tr (MFile (OpExpandUser (lc_key_path cfg))) kfile /\
    seen tr (MFile (OpReadBytes kfile)) key /\ trusted_ledger key r.

Lemma believed_mono s r tr1 tr2 : believed s r tr1 -> believed s r (tr1 ++ tr2).
Proof. intros [H|(kf & key & H1 & H2 & H3)]; [by left|]. right. exists kf, key. split_and!; [by apply seen_l..|done]. Qed.

Lemma load_ledger_direct : leads (load_trust_registry (lc_registry_path cfg) (lc_key_path cfg)) (fun tr o =>
  direct cfg tr /\ forall s r, o = Ok r -> believed s r tr).
Proof.
  intros tr o Hx. split; [by apply load_ledger_leads in Hx|]. intros s r ->. right.
  apply load_trust_registry_ok in Hx as (rfile & kfile & ks & rs & key & data & text & -> & _ & _ & Hk & _ & _ & Hr).
  exists kfile, key. split_and!; [right; by left|do 3 right; by left|by eapply read_registry_ok].
Qed.

Lemma registry_ends s : ends mlog (registry cfg) s (fun tr o s' => direct cfg tr /\ lb_manager s' = lb_manager s /\
  forall r, o = Ok r -> lb_registry s' = Some r /\ believed s r tr).
Proof.
  assert (direct cfg []) as Hnil by by apply direct_clock.
  unfold registry. ends_step. ends_step. destruct (lb_registry s) as [r|] eqn:Hr.
  { ends_step. split_and!; [done..|]. intros ? [= <-]. split; [done|]. by left. }
  ends_step. apply ends_outside. intros tr o [Hd Hb]%load_ledger_direct. destruct o as [r|e]; [|done].
  ends_step. ends_step. ends_step. intros tr2 o s2 [-> H2]%(emit_direct cfg).
  destruct o as [[]|e]; [ends_step; rewrite app_nil_r|]; cbn [app]; (split_and!; [by apply direct_app|done|]); [|done].
  intros ? [= <-]. split; [done|]. by apply believed_mono, Hb.
Qed.

Lemma denied_ends {A} t why p x msg s : ends mlog (denied (A := A) t why p x msg) s (fun tr o s' =>
  s' = s /\ direct cfg tr /\ is_ok o = false).
Proof.
  unfold denied. ends_step. intros tr o s' [-> H]%(emit_direct cfg). destruct o as [[]|e]; [ends_step|done].
  by rewrite app_nil_r.
Qed.

Lemma trusted_entry_ends p s : is_lower_id p = true -> ends mlog (trusted_entry cfg p) s (fun tr o s' =>
  direct cfg tr /\ lb_manager s' = lb_manager s /\ forall e root, o = Ok (e, root) ->
    exists r, believed s r tr /\ lb_registry s' = Some r /\ find_entry (tr_entries r) p = Some e /\
      te_enabled e = true /\ d_get (lc_storage_roots cfg) (te_storage_id e) = Some root).
Proof.
  intros Hp. unfold trusted_entry. ends_step. intros tr o s1 (Hd & Hm & Hr)%registry_ends.
  destruct o as [r|e]; [|done]. destruct (Hr r eq_refl) as [Hs1 Hb]. ends_step. ends_step. unfold entry_for, validated_id.
  rewrite Hp. cbn [outcome_bind].
  assert (forall A t why x msg, ends mlog (denied (A := A) t why p x msg) s1 (fun tr2 o s' =>
    direct cfg (tr ++ [] ++ tr2) /\ lb_manager s' = lb_manager s /\ is_ok o = false)) as Hden.
  { intros. eapply ends_mono; [apply denied_ends|]. intros tr2 o s' (-> & H & Ho). split_and!; [by apply direct_app|done..]. }
  destruct (find_entry (tr_entries r) p) as [e|] eqn:He.
  2: { eapply ends_mono; [apply Hden|]. intros tr2 o s' (H1 & H2 & H3). split_and!; [done..|]. by intros e root ->. }
  destruct (te_enabled e) eqn:Hen; cbn [negb].
  2: { eapply ends_mono; [apply Hden|]. intros tr2 o s' (H1 & H2 & H3). split_and!; [done..|]. by intros ? ? ->. }
  destruct (d_get _ _) as [root|] eqn:Hroot.
  2: { eapply ends_mono; [apply Hden|]. intros tr2 o s' (H1 & H2 & H3). split_and!; [done..|]. by intros ? ? ->. }
  ends_step. cbn [app]. rewrite !app_nil_r. split_and!; [done..|]. intros ? ? [= <- <-]. by exists r.
Qed.

(** The order of a call on the library: it stays in direct memory, unless and until the ledger
    has an enabled entry for the package, whose storage root is then the first thing outside
    direct memory that it looks at. *)
Definition gated {A} (p : string) (s : library) (tr : list mevent) (o : outcome A) (s' : library)
    (after : OwnerTrustedModuleEntry -> string -> list mevent -> Prop) : Prop :=
  direct cfg tr /\ lb_manager s' = lb_manager s /\ is_ok o = false \/
  exists tr1 r e root st tr2, tr = tr1 ++ MEv (MFile (OpLstat root)) st :: tr2 /\ direct cfg tr1 /\
    believed s r tr1 /\ lb_registry s' = Some r /\ find_entry (tr_entries r) p = Some e /\ te_enabled e = true /\
    d_get (lc_storage_roots cfg) (te_storage_id e) = Some root /\ after e root tr2.

Lemma mismatches_nil m e : mismatches m e = [] <->
  mf_package_id m = te_package_id e /\ mf_package_version m = te_package_version e /\ mf_digest m = te_manifest_digest e.
Proof. unfold mismatches. repeat case_bool_decide; cbn; naive_solver. Qed.

(** What resolving establishes of the package of an entry. *)
Definition resolved (e : OwnerTrustedModuleEntry) (root : string) (res : resolution) (tr : list mevent) : Prop :=
  rs_entry res = e /\ mismatches (rs_manifest res) e = [] /\
  exact_package_path root (te_relative_path e) = Ok (rs_package_root res) /\
  verified_at (rs_package_root res) (rs_manifest res) tr.

Lemma passive_clock tr : Forall (consults [] []) tr -> Forall passive tr.
Proof.
  intros H. eapply Forall_impl; [exact H|]. intros ev. destruct ev as [X op o]. destruct op; try done.
Qed.

Lemma resolve_ends p s : ends mlog (resolve cfg p) s (fun tr o s' =>
  lb_manager s' = lb_manager s /\
  gated p s tr o s' (fun e root tr2 => Forall passive tr2 /\ forall res, o = Ok res -> resolved e root res tr2)).
Proof.
  assert (direct cfg []) as Hnil by by apply direct_clock.
  unfold resolve. ends_step. ends_step. unfold validated_id. destruct (is_lower_id p) eqn:Hp; [|by split; [|left]].
  ends_step. intros tr o s1 (Hd & Hm & Ht)%trusted_entry_ends; [|done].
  destruct o as [[e root]|e]; [|by split; [|left]]. destruct (Ht e root eq_refl) as (r & Hb & Hr & Hf & He & Hroot). clear Ht.
  unfold verified_storage_root. ends_step. intros tr1 o1 s2 (tr2 & tr3 & o2 & s3 & -> & [-> ->]%runs_perform & H)%runs_then.
  assert (tr3 = [] /\ s2 = s1) as [-> ->].
  { destruct o2 as [st|x]; [case_bool_decide|]; by apply runs_finish in H as (-> & _ & ->). }
  clear H. cbn [app].
  assert (forall tr2 (o : outcome resolution) s', s' = s1 -> Forall passive tr2 ->
    (forall res, o = Ok res -> resolved e root res tr2) ->
    lb_manager s' = lb_manager s /\ gated p s (tr ++ mlog file_stat (MFile (OpLstat root)) o2 :: tr2) o s'
      (fun e root tr2 => Forall passive tr2 /\ forall res, o = Ok res -> resolved e root res tr2)) as Hdone.
  { intros t o s' -> Hpas Hres. split; [done|]. right. exists tr, r, e, root, o2, t. split_and!; done. }
  destruct o1 as [[]|x]; [|by apply Hdone]. ends_step. ends_step.
  destruct (exact_package_path root (te_relative_path e)) as [path|x] eqn:Hpath; [|by apply Hdone].
  ends_step. unfold managed_by. apply ends_zoom. intros tr4 o4 s4 (-> & Hp4 & Hv)%verify_ends.
  assert (put_manager (lb_manager s1) s1 = s1) as -> by by destruct s1.
  destruct o4 as [m|x]; [|by apply Hdone]. specialize (Hv m eq_refl).
  destruct (mismatches m e) as [|mm ms] eqn:Hmm.
  - ends_step. intros tr5 o5 s5 [-> H5%passive_clock]%emit_ends.
    assert (Forall passive (tr4 ++ tr5)) as Hp45 by by apply Forall_app.
    destruct o5 as [[]|x]; [ends_step; cbn [app]; rewrite app_nil_r|]; apply Hdone; try done.
    intros res [= <-]. split_and!; try done. by apply (verified_at_mono _ _ [] tr4 tr5).
  - ends_step. intros tr5 o5 s5 [-> H5%passive_clock]%emit_ends.
    assert (Forall passive (tr4 ++ tr5)) as Hp45 by by apply Forall_app.
    destruct o5 as [[]|x]; [ends_step; cbn [app]; rewrite app_nil_r|]; by apply Hdone.
Qed.
End Gate.

(** ** Loading *)

Lemma exact_path_root root rel path : exact_package_path root rel = Ok path -> is_relative_to path root = true.
Proof.
  unfold exact_package_path. destruct (validated_relative_path _) as [t|x]; [|done]. cbn [outcome_bind].
  destruct (is_relative_to _ root) eqn:H; [|done]. by intros [= <-].
Qed.

Section Load.
Context (cfg : library_config).

(** How a load that got past the ledger ends: nothing brought in, or a verified package, which
    is the one of the entry if the load succeeds. *)
Definition load_end (s : library) (e : OwnerTrustedModuleEntry) (root : string) (tr2 : list mevent)
    (o : outcome package_record) (s' : library) : Prop :=
  Forall (load_ok (lc_manager cfg) (lb_manager s)) tr2 /\
  (mg_records (lb_manager s') = mg_records (lb_manager s) /\ is_ok o = false \/
   exists r path, exact_package_path root (te_relative_path e) = Ok path /\ verified_at path (pr_manifest r) tr2 /\
     pr_state r = LOADED /\ mg_records (lb_manager s') = d_set (mg_records (lb_manager s)) (mf_package_id (pr_manifest r)) r /\
     forall r2, o = Ok r2 -> r2 = r /\ mismatches (pr_manifest r) e = []).

Lemma trusted_load_ends p s : ends mlog (trusted_load cfg p) s (fun tr o s' =>
  gated cfg p s tr o s' (fun e root tr2 => load_end s e root tr2 o s')).
Proof.
  unfold trusted_load. ends_step. intros tr o s1 [Hm Hg]%resolve_ends.
  destruct Hg as [(Hd & Hm' & Ho)|(tr1 & r & e & root & st & tr2 & -> & Hd & Hb & Hr & Hf & He & Hroot & Hpas & Hres)].
  { destruct o as [res|x]; [done|]. by left. }
  assert (forall tr3 (o : outcome package_record) s', lb_registry s' = lb_registry s1 -> load_end s e root (tr2 ++ tr3) o s' ->
    gated cfg p s ((tr1 ++ MEv (MFile (OpLstat root)) st :: tr2) ++ tr3) o s' (fun e root tr2 => load_end s e root tr2 o s')) as Hdone.
  { intros tr3 o3 s' Hs' Hl. right. exists tr1, r, e, root, st, (tr2 ++ tr3). rewrite <- app_assoc. cbn [app].
    split_and!; try done. by rewrite Hs'. }
  destruct o as [res|x].
  2: { rewrite <- (app_nil_r (tr1 ++ _)). apply Hdone; [done|]. rewrite app_nil_r. split; [by apply passive_load|]. left. by rewrite Hm. }
  destruct (Hres res eq_refl) as (He' & _ & Hpath & _). clear Hres.
  ends_step. unfold managed_by. apply ends_zoom. rewrite Hm. intros tr4 o4 s4 (Hl4 & _ & H4)%load_ends.
  assert (Forall (load_ok (lc_manager cfg) (lb_manager s)) (tr2 ++ tr4)) as Hl24 by (apply Forall_app; split; [by apply passive_load|done]).
  assert (forall tr5 (o : outcome package_record), Forall (consults [] []) tr5 ->
    (forall r4 r5, o4 = Ok r4 -> o = Ok r5 -> r5 = r4 /\ mismatches (pr_manifest r4) e = []) -> (is_ok o4 = false -> is_ok o = false) ->
    gated cfg p s ((tr1 ++ MEv (MFile (OpLstat root)) st :: tr2) ++ tr4 ++ tr5) o (put_manager s4 s1)
      (fun e root tr2 => load_end s e root tr2 o (put_manager s4 s1))) as Hend.
  { intros tr5 o H5%passive_clock Ho Hno. apply Hdone; [done|]. rewrite app_assoc. split; [apply Forall_app; split; [done|by apply passive_load]|].
    destruct H4 as [[Hsame Hfail]|(r4 & _ & Hv & Hst & _ & Hrec & Heq)]; [left; split; [done|by apply Hno]|].
    right. exists r4, (rs_package_root res). split_and!; try done; [by rewrite <- app_assoc; apply verified_at_mono|].
    intros r5 ->. destruct o4 as [r4'|x]; [|by specialize (Hno eq_refl)]. rewrite (Heq r4' eq_refl) in Ho. by apply (Ho r4). }
  destruct o4 as [r4|x]; [|rewrite <- (app_nil_r tr4); by apply Hend].
  case_bool_decide as Hmm.
  { unfold failing. ends_step. apply Hend; [by constructor| |done]. by intros. }
  ends_step. intros tr5 o5 s5 [-> H5]%emit_ends. rewrite He' in Hmm.
  destruct o5 as [[]|x]; [ends_step; rewrite app_nil_r|]; apply Hend; try done. intros ? ? [= <-] [= <-]. split; [done|].
  by destruct (mismatches (pr_manifest r4) e).
Qed.
End Load.

(** ** The gate *)


(** C10: A package that loads through the library is the one its owner trusted: the ledger has
    an enabled entry for it, and its manifest, read from the path of the entry inside the
    configured storage root and verified there, has the identity, version and digest of that
    entry.  It is loaded and not started, and no other package is affected. *)
Theorem trusted_load_agrees cfg p s tr r s' :
  runs mlog (trusted_load cfg p) s tr (Ok r) s' ->
  exists ledger e root path, lb_registry s' = Some ledger /\ believed cfg s ledger tr /\
    find_entry (tr_entries ledger) p = Some e /\ te_enabled e = true /\
    d_get (lc_storage_roots cfg) (te_storage_id e) = Some root /\ is_relative_to path root = true /\
    verified_at path (pr_manifest r) tr /\
    mf_package_id (pr_manifest r) = te_package_id e /\ mf_package_version (pr_manifest r) = te_package_version e /\
    mf_digest (pr_manifest r) = te_manifest_digest e /\
    pr_state r = LOADED /\ mg_records (lb_manager s') = d_set (mg_records (lb_manager s)) (mf_package_id (pr_manifest r)) r.
Proof.
  intros [(_ & _ & ?)|(tr1 & ledger & e & root & st & tr2 & -> & _ & Hb & Hr & Hf & He & Hroot & _ & H)]%trusted_load_ends; [done|].
  destruct H as [[_ ?]|(r4 & path & Hpath & Hv & Hst & Hrec & Heq)]; [done|].
  destruct (Heq r eq_refl) as [-> (H1 & H2 & H3)%mismatches_nil]. exists ledger, e, root, path.
  split_and!; try done; [by apply believed_mono|by eapply exact_path_root|].
  rewrite (cons_middle _ tr1 tr2), app_assoc, <- (app_nil_r tr2). by apply (verified_at_mono _ _ (tr1 ++ _) tr2 []).
Qed.

(** ** On a trusted lamp *)

Definition ascii_text (data : byte_string) : string := foldr (fun b s => String (ascii_of_N b) s) "" data.

Definition digest_of (version : string) : string :=
  match load_manifest_document (lamp_text version) with
  | Ok d => match parse_manifest d with Ok m => mf_digest m | Err _ => "" end
  | Err _ => ""
  end.

Definition lamp_entry (enabled : bool) : OwnerTrustedModuleEntry :=
  mkTrusted "lamp" "1.0.0" "slot" "lamp" (digest_of "1.0.0") "now" enabled.
Definition lamp_ledger (enabled : bool) : OwnerModuleTrustRegistry :=
  made (create_registry "owner" 1 "now" [lamp_entry enabled] sample_key).

(** The ledger, its key and the storage slot; the manifest of the package is at version
    [fst v] when it is first read and at version [snd v] afterwards. *)
Definition store_host (enabled : bool) (v : string * string) (X : Type) (op : mop X) (n : nat) : outcome X * nat :=
  match op in mop X return outcome X * nat with
  | MFile f =>
      match f in fileop X return outcome X * nat with
      | OpExpandUser p => (Ok p, n)
      | OpLstat p => (Ok (mkStat (if bool_decide (p = "/store") then Directory else RegularFile) 384 100), n)
      | OpReadBytes p =>
          if bool_decide (p = "/key") then (Ok sample_key, n) else
          if bool_decide (p = "/ledger") then (Ok (utf8 (dumps (registry_document (lamp_ledger enabled)) +:+ newline)), n) else
          if bool_decide (p = "/store/lamp/manifest.json")
          then (Ok (utf8 (lamp_text (match n with O => v.1 | S _ => v.2 end))), S n)
          else (Ok (utf8 lamp_source), n)
      | OpDecode data => (Ok (ascii_text data), n)
      end
  | op => ((lamp_host good_host _ op 0%nat).1, n)
  end.

Definition lamp_library : library_config := mkLibraryConfig lamp_config "/ledger" "/key" [("slot", "/store")].
Definition new_library : library := mkLibrary new_manager None.

Abbreviation kept := ("1.0.0", "1.0.0").
Abbreviation swapped := ("1.0.0", "2.0.0").
Definition loading (enabled : bool) (v : string * string) := evaluate_runs mlog (store_host enabled v) 0 (trusted_load lamp_library "lamp") new_library.


Lemma trusted_load_agrees_witness : exists r, pr_state r = LOADED /\ mf_package_version (pr_manifest r) = "1.0.0" /\
  result_of mlog (store_host true kept) 0 (trusted_load lamp_library "lamp") new_library = Ok r.
Proof.
  pose proof (loading true kept ltac:(vm_compute; reflexivity)) as H.
  destruct (result_of mlog (store_host true kept) 0 (trusted_load lamp_library "lamp") new_library) as [r|x] eqn:Hr;
    [|apply (f_equal is_ok) in Hr; vm_compute in Hr; discriminate Hr].
  exists r. destruct (trusted_load_agrees _ _ _ _ _ _ H) as (l & e & root & path & _ & _ & _ & _ & _ & _ & _ & _ & Hv & _ & Hst & _).
  split; [exact Hst|]. split; [|reflexivity].
  apply (f_equal (fun o => match o with Ok r => mf_package_version (pr_manifest r) | Err _ => "" end)) in Hr.
  vm_compute in Hr. exact (eq_sym Hr).
Defined.

(** The last comparison of a load comes too late.  If the package at the trusted path
    changes between resolution and load, the library answers that it did, but the code of
    the changed package has run by then, and the package stays loaded, with its resources
    counted: [start] would start it. *)
Theorem changed_package_stays_loaded :
  let s := state_after mlog (store_host true swapped) 0 (trusted_load lamp_library "lamp") new_library in
  (exn_class <$> match result_of mlog (store_host true swapped) 0 (trusted_load lamp_library "lamp") new_library with
    | Err e => Some e | Ok _ => None end) = Some ModuleTrustMismatchError /\
  existsb (fun ev => match ev with MEv (MExec _ _) _ => true | _ => false end)
    (events_of mlog (store_host true swapped) 0 (trusted_load lamp_library "lamp") new_library) = true /\
  (fun r => (pr_state r, mf_package_version (pr_manifest r))) <$> d_get (mg_records (lb_manager s)) "lamp"
    = Some (LOADED, "2.0.0") /\
  status (state_after mlog (lamp_host good_host) 0 (start lamp_config "lamp") (lb_manager s)) "lamp" = Some ACTIVE.
Proof. vm_compute. split_and!; reflexivity. Qed.
