(* ===== verification/SensorFabric.v ===== *)
(** [services/sensor_fabric.py] and [services/sensor_fabric_event_bridge.py]: the registry of
    sensors, the index from capabilities to sensors, the routing of observations to
    subscribers, and the bounded queue in which an event bridge keeps the deliveries.

    Every method of the fabric checks before it writes, so a method is a function from a
    fabric to an exception or to a result and a new fabric. *)

From stdpp Require Import base gmap sets list strings sorting.
From Stdlib Require Import ZArith Ascii SpecFloat.
From S2P Require Import Prelude PyText PyVal Json PyFloat StrDict PyJson.

Definition commissioning_rank (maturity : string) : option nat :=
  if bool_decide (maturity = "observe") then Some 0 else
  if bool_decide (maturity = "trust") then Some 1 else
  if bool_decide (maturity = "advise") then Some 2 else
  if bool_decide (maturity = "authorize") then Some 3 else None.

Definition lifecycle_states : list string :=
  ["discovered"; "online"; "calibration_loaded"; "ready"; "degraded"; "blocked"; "offline"; "recovered";
   "calibration_invalid"].

(** ** Validators *)

(** [_require_text], with the stripped text the callers go on with. *)
Definition stripped_text (name : string) (value : pyval) : outcome string :=
  let bad := raise ValueError (name +:+ " must be a non-empty string") in
  match value with PStr s => if is_blank s then bad else Ok (strip s) | _ => bad end.

(** [_required_text] *)
Definition sensor_text (values : items) (key : string) : outcome string := stripped_text key (get values key).

(** [_optional_text] *)
Definition optional_text (value : pyval) (name : string) : outcome (option string) :=
  match value with PNone => Ok None | _ => let? t := stripped_text name value in Ok (Some t) end.

(** [_require_mapping] *)
Definition as_mapping (name : string) (value : pyval) : outcome items :=
  match value with PDict d => Ok d | _ => raise ValueError (name +:+ " must be a mapping") end.

(** [_require_maturity]: membership in a dictionary raises for a value that has no hash. *)
Definition maturity_of (value : pyval) : outcome string :=
  let bad := raise ValueError "invalid commissioning maturity" in
  if negb (hashable value) then raise TypeError "unhashable type" else
  match value with PStr s => match commissioning_rank s with Some _ => Ok s | None => bad end | _ => bad end.

(** [_string_tuple] *)
Definition string_tuple (value : pyval) (name : string) : outcome (list string) :=
  match value with
  | PList l | PTuple l => mapM_outcome (stripped_text name) l
  | _ => raise ValueError (name +:+ " must be a list or tuple")
  end.

(** The loop of [_bool_map]. *)
Fixpoint bool_items (d : items) (name : string) (result : sdict bool) : outcome (sdict bool) :=
  match d with
  | [] => Ok result
  | (key, item) :: rest =>
      let? k := stripped_text (name +:+ " key") key in
      match item with
      | PBool b => bool_items rest name (d_set result k b)
      | _ => raise ValueError (name +:+ " values must be boolean")
      end
  end.

(** [_bool_map] *)
Definition bool_map (value : pyval) (name : string) : outcome (sdict bool) :=
  let? d := as_mapping name value in bool_items d name [].

(** [_nonnegative_number] *)
Definition nonnegative_number (value : pyval) (name : string) : outcome float :=
  if negb (is_real value) then raise ValueError (name +:+ " must be numeric") else
  let? numeric := py_float value in
  if flt numeric f0 then raise ValueError (name +:+ " cannot be negative") else Ok numeric.

(** [_require_contract_flags] *)
Definition contract_flags (payload : items) (status : string) : outcome unit :=
  if negb (eq_str (get payload "status") status) then raise ValueError "unexpected sensor contract status" else
  if negb (is_true_obj (get payload "read_only")) then raise ValueError "sensor contract payload must be read-only"
  else Ok tt.

(** ** Data *)

Record SensorSubscription : Set := mkSubscription {
  ss_consumer_id : string; ss_capability : string; ss_use_profile : string; ss_minimum_maturity : string }.

#[export] Instance subscription_eq_dec : EqDecision SensorSubscription.
Proof. solve_decision. Defined.
#[export] Instance subscription_countable : Countable SensorSubscription.
Proof.
  apply (inj_countable' (fun s => (ss_consumer_id s, ss_capability s, ss_use_profile s, ss_minimum_maturity s))
    (fun '(a, b, c, d) => mkSubscription a b c d)). by intros [].
Defined.

(** [SensorSubscription.__post_init__]: the texts are checked, not stripped. *)
Definition make_subscription (s : SensorSubscription) : outcome SensorSubscription :=
  let? _ := stripped_text "consumer_id" (PStr (ss_consumer_id s)) in
  let? _ := stripped_text "capability" (PStr (ss_capability s)) in
  let? _ := stripped_text "use_profile" (PStr (ss_use_profile s)) in
  let? _ := maturity_of (PStr (ss_minimum_maturity s)) in Ok s.

Record SensorRecord := mkSensor {
  sr_sensor_id : string;
  sr_sensor_family : string;
  sr_measurements : list string;
  sr_outputs : list string;
  sr_diagnostics : sdict bool;
  sr_timing : sdict bool;
  sr_lifecycle_state : string;
  sr_health_state : string;
  sr_quality_state : string;
  sr_calibration_id : option string;
  sr_latest_measured_at : option float;
  sr_latest_received_at : option float;
  sr_lifecycle_reasons : list string
}.

(** [SensorRecord.capabilities] *)
Definition capabilities (r : SensorRecord) : list string := sorted_set (sr_measurements r ++ sr_outputs r).

Record SensorDelivery := mkDelivery {
  sd_consumer_id : string; sd_sensor_id : string; sd_capability : string; sd_use_profile : string;
  sd_maturity : string; sd_envelope : items }.

Record fabric := mkFabric {
  fb_sensors : gmap string SensorRecord;
  fb_capability_sources : gmap string (gset string);
  fb_subscriptions : gset SensorSubscription
}.
Definition new_fabric : fabric := mkFabric ∅ ∅ ∅.

Definition put_sensor (r : SensorRecord) (f : fabric) : fabric :=
  mkFabric (<[sr_sensor_id r := r]> (fb_sensors f)) (fb_capability_sources f) (fb_subscriptions f).

(** ** The capability index *)

Definition drop_source (id : string) (index : gmap string (gset string)) (capability : string) : gmap string (gset string) :=
  match index !! capability with
  | None => index
  | Some sources =>
      let left := sources ∖ {[id]} in
      if bool_decide (left = ∅) then delete capability index else <[capability := left]> index
  end.

(** [_remove_from_capability_index] *)
Definition remove_from_index (r : SensorRecord) (index : gmap string (gset string)) : gmap string (gset string) :=
  fold_left (drop_source (sr_sensor_id r)) (capabilities r) index.

Definition add_source (id : string) (index : gmap string (gset string)) (capability : string) : gmap string (gset string) :=
  <[capability := {[id]} ∪ default ∅ (index !! capability)]> index.

(** [_add_to_capability_index] *)
Definition add_to_index (r : SensorRecord) (index : gmap string (gset string)) : gmap string (gset string) :=
  fold_left (add_source (sr_sensor_id r)) (capabilities r) index.

(** ** Registration and lifecycle *)

Definition declared_sensor (id family : string) (measurements outputs : list string) (diagnostics timing : sdict bool)
    (previous : option SensorRecord) : SensorRecord :=
  match previous with
  | None => mkSensor id family measurements outputs diagnostics timing "discovered" "unknown" "unknown" None None None []
  | Some p => mkSensor (sr_sensor_id p) (sr_sensor_family p) measurements outputs diagnostics timing
                (sr_lifecycle_state p) (sr_health_state p) (sr_quality_state p) (sr_calibration_id p)
                (sr_latest_measured_at p) (sr_latest_received_at p) (sr_lifecycle_reasons p)
  end.

(** [register_capabilities] *)
Definition register_capabilities (payload : pyval) (f : fabric) : outcome (SensorRecord * fabric) :=
  let? d := as_mapping "payload" payload in
  let? _ := contract_flags d "declaration-only" in
  let? sensor_id := sensor_text d "sensor_id" in
  let? sensor_family := sensor_text d "sensor_family" in
  let? measurements := string_tuple (get d "measurements") "measurements" in
  let? outputs := string_tuple (get d "outputs") "outputs" in
  if bool_decide (measurements = []) && bool_decide (outputs = [])
  then raise ValueError "at least one measurement or output capability is required" else
  if bool_decide (~ NoDup measurements) then raise ValueError "measurements must not contain duplicates" else
  if bool_decide (~ NoDup outputs) then raise ValueError "outputs must not contain duplicates" else
  let? diagnostics := bool_map (dict_get_default d (PStr "diagnostics") (PDict [])) "diagnostics" in
  let? timing := bool_map (dict_get_default d (PStr "timing") (PDict [])) "timing" in
  let previous := fb_sensors f !! sensor_id in
  if match previous with Some p => bool_decide (sr_sensor_family p <> sensor_family) | None => false end
  then raise ValueError "sensor_family cannot change for a registered sensor" else
  let record := declared_sensor sensor_id sensor_family measurements outputs diagnostics timing previous in
  let index := match previous with Some p => remove_from_index p (fb_capability_sources f) | None => fb_capability_sources f end in
  Ok (record, mkFabric (<[sensor_id := record]> (fb_sensors f)) (add_to_index record index) (fb_subscriptions f)).

(** [apply_lifecycle] *)
Definition apply_lifecycle (payload : pyval) (f : fabric) : outcome (SensorRecord * fabric) :=
  let? d := as_mapping "payload" payload in
  let? _ := contract_flags d "evidence-only" in
  let? sensor_id := sensor_text d "sensor_id" in
  let? sensor_family := sensor_text d "sensor_family" in
  let? state := sensor_text d "state" in
  if bool_decide (state ∉ lifecycle_states) then raise ValueError "invalid lifecycle state" else
  let? _ := nonnegative_number (get d "occurred_at") "occurred_at" in
  let? reasons := string_tuple (dict_get_default d (PStr "reasons") (PTuple [])) "reasons" in
  let? calibration_id := optional_text (get d "calibration_id") "calibration_id" in
  let? record := match fb_sensors f !! sensor_id with
    | None => Ok (mkSensor sensor_id sensor_family [] [] [] [] state "unknown" "unknown" calibration_id None None reasons)
    | Some p =>
        if bool_decide (sr_sensor_family p <> sensor_family)
        then raise ValueError "sensor_family does not match registered sensor"
        else Ok (mkSensor (sr_sensor_id p) (sr_sensor_family p) (sr_measurements p) (sr_outputs p) (sr_diagnostics p)
               (sr_timing p) state (sr_health_state p) (sr_quality_state p)
               (match calibration_id with None => sr_calibration_id p | Some c => Some c end)
               (sr_latest_measured_at p) (sr_latest_received_at p) reasons)
    end in
  Ok (record, mkFabric (<[sensor_id := record]> (fb_sensors f)) (fb_capability_sources f) (fb_subscriptions f)).

(** ** Subscriptions and queries *)

(** [subscribe] *)
Definition subscribe (s : SensorSubscription) (f : fabric) : outcome (unit * fabric) :=
  if bool_decide (s ∈ fb_subscriptions f) then raise ValueError "subscription is already registered"
  else Ok (tt, mkFabric (fb_sensors f) (fb_capability_sources f) ({[s]} ∪ fb_subscriptions f)).

(** [require_sensor] *)
Definition require_sensor (sensor_id : string) (f : fabric) : outcome SensorRecord :=
  let? id := stripped_text "sensor_id" (PStr sensor_id) in
  match fb_sensors f !! id with
  | Some r => Ok r
  | None => raise KeyError ("sensor is not registered: " +:+ id)
  end.

(** [providers_for] *)
Definition providers_for (capability : string) (f : fabric) : outcome (list SensorRecord) :=
  let? c := stripped_text "capability" (PStr capability) in
  mapM_outcome (fun id => match fb_sensors f !! id with Some r => Ok r | None => raise KeyError id end)
    (sorted_strings (elements (default ∅ (fb_capability_sources f !! c)))).

(** Comparison of tuples of strings. *)
Fixpoint tuple_lt (a b : list string) : bool :=
  match a, b with
  | x :: a', y :: b' => str_lt x y || (bool_decide (x = y) && tuple_lt a' b')
  | [], _ :: _ => true
  | _, _ => false
  end.
Definition subscription_key (s : SensorSubscription) : list string :=
  [ss_consumer_id s; ss_capability s; ss_use_profile s; ss_minimum_maturity s].

(** [subscriptions()], the order in which [route_observation] meets them. *)
Definition sorted_subscriptions (f : fabric) : list SensorSubscription :=
  py_sorted (fun a b => tuple_lt (subscription_key a) (subscription_key b)) (elements (fb_subscriptions f)).

(** [sensor_ids()] *)
Definition sensor_ids (f : fabric) : list string := sorted_strings (elements (dom (fb_sensors f))).

(** ** Observations *)

(** The loop over [commissioning.items()]. *)
Fixpoint check_commissioning (d : items) : outcome unit :=
  match d with
  | [] => Ok tt
  | (profile, maturity) :: rest =>
      let? _ := stripped_text "commissioning use_profile" profile in
      let? _ := maturity_of maturity in check_commissioning rest
  end.

(** [COMMISSIONING_RANK[a] < COMMISSIONING_RANK[b]] *)
Definition below (a b : string) : bool :=
  match commissioning_rank a, commissioning_rank b with Some x, Some y => x <? y | _, _ => false end.

(** What one subscription gets of an observation. *)
Definition delivery_for (sensor_id : string) (available : list string) (commissioning envelope : items)
    (s : SensorSubscription) : option SensorDelivery :=
  if bool_decide (ss_capability s ∉ available) then None else
  match dict_get commissioning (PStr (ss_use_profile s)) with
  | Some (PStr maturity) =>
      if below maturity (ss_minimum_maturity s) then None
      else Some (mkDelivery (ss_consumer_id s) sensor_id (ss_capability s) (ss_use_profile s) maturity envelope)
  | _ => None
  end.

(** The live state is refreshed unless the evidence was received before it. *)
Definition refresh (health quality : string) (calibration : option string) (measured received : float) (r : SensorRecord)
    : SensorRecord :=
  if match sr_latest_received_at r with None => true | Some t => fle t received end
  then mkSensor (sr_sensor_id r) (sr_sensor_family r) (sr_measurements r) (sr_outputs r) (sr_diagnostics r) (sr_timing r)
         (sr_lifecycle_state r) health quality (match calibration with None => sr_calibration_id r | Some c => Some c end)
         (Some measured) (Some received) (sr_lifecycle_reasons r)
  else r.

(** What [route_observation] reads from an envelope. *)
Record observation := mkObservation {
  ob_sensor_id : string; ob_family : string; ob_measured : float; ob_received : float;
  ob_health : string; ob_quality : string; ob_calibration : option string; ob_commissioning : items }.

Definition read_time_and_state (envelope : items) (sensor_id family : string) : outcome observation :=
  let? time_block := as_mapping "time" (get envelope "time") in
  let? measured := nonnegative_number (get time_block "measurement") "measurement" in
  let? received := nonnegative_number (get time_block "received") "received" in
  let? health := as_mapping "health" (get envelope "health") in
  let? quality := as_mapping "quality" (get envelope "quality") in
  let? commissioning := as_mapping "commissioning" (get envelope "commissioning") in
  let? frame := as_mapping "frame" (get envelope "frame") in
  let? health_state := sensor_text health "state" in
  let? quality_state := sensor_text quality "state" in
  let? calibration_id := optional_text (get frame "calibration_id") "calibration_id" in
  let? _ := check_commissioning commissioning in
  Ok (mkObservation sensor_id family measured received health_state quality_state calibration_id commissioning).

(** [route_observation] *)
Definition route_observation (payload : pyval) (f : fabric) : outcome (list SensorDelivery * fabric) :=
  let? envelope := as_mapping "envelope" payload in
  if negb (eq_str (get envelope "schema") "velvet.sensor-envelope")
  then raise ValueError "unsupported sensor envelope schema" else
  let? _ := contract_flags envelope "observation-only" in
  let? sensor := as_mapping "sensor" (get envelope "sensor") in
  let? sensor_id := sensor_text sensor "id" in
  let? sensor_family := sensor_text sensor "family" in
  let? record := require_sensor sensor_id f in
  if bool_decide (sr_sensor_family record <> sensor_family)
  then raise ValueError "sensor_family does not match registered sensor" else
  if bool_decide (capabilities record = []) then raise ValueError "sensor has no registered capabilities" else
  let? ob := read_time_and_state envelope sensor_id sensor_family in
  let record' := refresh (ob_health ob) (ob_quality ob) (ob_calibration ob) (ob_measured ob) (ob_received ob) record in
  let f' := mkFabric (<[sensor_id := record']> (fb_sensors f)) (fb_capability_sources f) (fb_subscriptions f) in
  Ok (omap (delivery_for sensor_id (capabilities record') (ob_commissioning ob) envelope) (sorted_subscriptions f'), f').

(** ** The event bridge *)

(** An event as the bridge looks at it; an absent attribute is [None]. *)
Record sensor_event := mkSensorEvent { se_event_type : pyval; se_payload : pyval }.

Record event_bridge := mkEventBridge {
  eb_fabric : fabric; eb_pending : list SensorDelivery; eb_dropped_delivery_count : Z }.

(** [SensorFabricEventBridge.__init__] *)
Definition make_event_bridge (f : fabric) (max_pending : Z) : outcome event_bridge :=
  if (max_pending <=? 0)%Z then raise ValueError "max_pending must be positive" else Ok (mkEventBridge f [] 0).

Section EventBridge.
Context (max_pending : Z).

Definition retain_one (b : event_bridge) (d : SensorDelivery) : event_bridge :=
  if (max_pending <=? Z.of_nat (length (eb_pending b)))%Z
  then mkEventBridge (eb_fabric b) (tail (eb_pending b) ++ [d]) (eb_dropped_delivery_count b + 1)
  else mkEventBridge (eb_fabric b) (eb_pending b ++ [d]) (eb_dropped_delivery_count b).

(** [_retain] *)
Definition retain (b : event_bridge) (deliveries : list SensorDelivery) : event_bridge :=
  fold_left retain_one deliveries b.

Definition put_fabric (f : fabric) (b : event_bridge) : event_bridge :=
  mkEventBridge f (eb_pending b) (eb_dropped_delivery_count b).

(** [handle] *)
Definition bridge_handle (e : sensor_event) (b : event_bridge) : outcome (list SensorDelivery * event_bridge) :=
  if negb (hashable (se_event_type e)) then raise TypeError "unhashable type" else
  let kinds := ["SENSOR_CAPABILITIES_REPORTED"; "SENSOR_LIFECYCLE_REPORTED"; "SENSOR_OBSERVATION_REPORTED"] in
  match se_event_type e with
  | PStr kind =>
      if bool_decide (kind ∉ kinds) then Ok ([], b) else
      if negb (is_mapping (se_payload e)) then raise ValueError "sensor event payload must be a mapping" else
      if bool_decide (kind = "SENSOR_CAPABILITIES_REPORTED")
      then let? rf := register_capabilities (se_payload e) (eb_fabric b) in Ok ([], put_fabric rf.2 b) else
      if bool_decide (kind = "SENSOR_LIFECYCLE_REPORTED")
      then let? rf := apply_lifecycle (se_payload e) (eb_fabric b) in Ok ([], put_fabric rf.2 b)
      else let? df := route_observation (se_payload e) (eb_fabric b) in Ok (df.1, retain (put_fabric df.2 b) df.1)
  | _ => Ok ([], b)
  end.

(** [drain_deliveries] *)
Definition drain_deliveries (limit : option Z) (b : event_bridge) : outcome (list SensorDelivery * event_bridge) :=
  match limit with
  | Some l =>
      if (l <=? 0)%Z then raise ValueError "limit must be positive" else
      let count := Z.to_nat (Z.min l (Z.of_nat (length (eb_pending b)))) in
      Ok (take count (eb_pending b), mkEventBridge (eb_fabric b) (drop count (eb_pending b)) (eb_dropped_delivery_count b))
  | None => Ok (eb_pending b, mkEventBridge (eb_fabric b) [] (eb_dropped_delivery_count b))
  end.
End EventBridge.
