(* ===== verification/SensorTheorems.v ===== *)
(** What the sensor fabric guarantees: its index agrees with the sensors, observations reach
    exactly the eligible subscriptions, live state does not go backwards, and the event
    bridge loses deliveries only from the front of a full queue, and counts them. *)

From stdpp Require Import base gmap sets list strings sorting.
From Stdlib Require Import ZArith Ascii SpecFloat.
From S2P Require Import Prelude PyText PyVal Json PyFloat StrDict PyJson TextChecks SensorFabric.

(** ** Histories of a fabric *)

Inductive fabric_step (f f' : fabric) : Prop :=
| step_register p r : register_capabilities p f = Ok (r, f') -> fabric_step f f'
| step_lifecycle p r : apply_lifecycle p f = Ok (r, f') -> fabric_step f f'
| step_subscribe s : subscribe s f = Ok (tt, f') -> fabric_step f f'
| step_route e ds : route_observation e f = Ok (ds, f') -> fabric_step f f'.

(** The states of a fabric: created, then any methods that returned; one that raised left the
    fabric as it was. *)
Inductive fabric_reachable : fabric -> Prop :=
| fabric_new : fabric_reachable new_fabric
| fabric_next f f' : fabric_reachable f -> fabric_step f f' -> fabric_reachable f'.

(** How a step changes the sensors. *)
Inductive sensor_change (f f' : fabric) : Prop :=
| change_none : fb_sensors f' = fb_sensors f -> fb_capability_sources f' = fb_capability_sources f -> sensor_change f f'
| change_declared r : sr_sensor_id r <> "" ->
    (forall p, fb_sensors f !! sr_sensor_id r = Some p -> sr_sensor_family r = sr_sensor_family p /\
       sr_latest_received_at r = sr_latest_received_at p /\ sr_health_state r = sr_health_state p) ->
    fb_sensors f' = <[sr_sensor_id r := r]> (fb_sensors f) ->
    fb_capability_sources f' = add_to_index r (match fb_sensors f !! sr_sensor_id r with
      | Some p => remove_from_index p (fb_capability_sources f) | None => fb_capability_sources f end) -> sensor_change f f'
| change_state r r' : (fb_sensors f !! sr_sensor_id r = Some r \/
      fb_sensors f !! sr_sensor_id r = None /\ capabilities r = [] /\ sr_sensor_id r <> "") ->
    sr_sensor_id r' = sr_sensor_id r -> sr_sensor_family r' = sr_sensor_family r -> capabilities r' = capabilities r ->
    (sr_latest_received_at r' = sr_latest_received_at r /\ sr_health_state r' = sr_health_state r \/
     exists t, sr_latest_received_at r' = Some t /\ forall t0, sr_latest_received_at r = Some t0 -> fle t0 t = true) ->
    fb_sensors f' = <[sr_sensor_id r := r']> (fb_sensors f) -> fb_capability_sources f' = fb_capability_sources f ->
    sensor_change f f'.

Definition keyed (f : fabric) : Prop := forall k r, fb_sensors f !! k = Some r -> sr_sensor_id r = k.

Lemma stripped_text_ok name v t : stripped_text name v = Ok t -> t <> "" /\ exists s, v = PStr s /\ t = strip s.
Proof.
  unfold stripped_text. destruct v; try done. destruct (is_blank s) eqn:H; [done|]. intros [= <-].
  split; [|by exists s]. intros H'. unfold is_blank in H. by rewrite H' in H.
Qed.

Lemma capabilities_same r r' : sr_measurements r' = sr_measurements r -> sr_outputs r' = sr_outputs r ->
  capabilities r' = capabilities r.
Proof. unfold capabilities. by intros -> ->. Qed.

Lemma register_change p r f f' : keyed f -> register_capabilities p f = Ok (r, f') -> sensor_change f f'.
Proof.
  intros Hk H. unfold register_capabilities in H. passed. injection H as Hr Hf.
  match goal with E : sensor_text _ "sensor_id" = Ok ?id |- _ => apply stripped_text_ok in E as [Hne _]; rename id into k end.
  assert (sr_sensor_id r = k) as Hid.
  { subst r. destruct (fb_sensors f !! k) as [q|] eqn:Hq; [by apply Hk in Hq|done]. }
  eapply (change_declared _ _ r); rewrite ?Hid; try done; [|by subst f' r..].
  intros q Hq. subst r. by rewrite Hq.
Qed.

Lemma lifecycle_change p r f f' : keyed f -> apply_lifecycle p f = Ok (r, f') -> sensor_change f f'.
Proof.
  intros Hk H. unfold apply_lifecycle in H. passed. injection H as Hr Hf.
  match goal with E : sensor_text _ "sensor_id" = Ok ?id |- _ => apply stripped_text_ok in E as [Hne _]; rename id into k end.
  match goal with E : match fb_sensors f !! k with _ => _ end = Ok ?x |- _ => rename E into Hrec; subst x end.
  destruct (fb_sensors f !! k) as [q|] eqn:Hq.
  - passed. injection Hrec as Hrec. pose proof (Hk _ _ Hq) as Hid.
    apply (change_state _ _ q r); subst r f'; cbn; rewrite ?Hid, ?Hq; try done; by left.
  - injection Hrec as Hrec.
    apply (change_state _ _ r r); subst r f'; cbn; try done; [by right|by left].
Qed.

(** ** Routing *)

Lemma require_sensor_ok k f r : require_sensor k f = Ok r -> fb_sensors f !! strip k = Some r.
Proof.
  unfold require_sensor. intros H. passed.
  match goal with E : stripped_text _ _ = Ok _ |- _ => apply stripped_text_ok in E as (_ & ? & [= <-] & ->) end.
  destruct (fb_sensors f !! strip k); [by injection H as ->|done].
Qed.

Lemma capabilities_refresh h q c m t r : capabilities (refresh h q c m t r) = capabilities r.
Proof. unfold refresh. destruct (sr_latest_received_at r) as [t0|]; [by destruct (fle t0 t)|done]. Qed.

(** The refreshed record of an observation. *)
Definition refreshed (ob : observation) (r : SensorRecord) : SensorRecord :=
  refresh (ob_health ob) (ob_quality ob) (ob_calibration ob) (ob_measured ob) (ob_received ob) r.

(** What a routed observation established: the envelope, its readings and the sensor. *)
Record routed (payload : pyval) (f : fabric) (ds : list SensorDelivery) (f' : fabric) (e : items) (ob : observation)
    (r : SensorRecord) : Prop := {
  rt_payload : payload = PDict e;
  rt_schema : get e "schema" = PStr "velvet.sensor-envelope";
  rt_flags : contract_flags e "observation-only" = Ok tt;
  rt_read : read_time_and_state e (ob_sensor_id ob) (ob_family ob) = Ok ob;
  rt_sensor : fb_sensors f !! ob_sensor_id ob = Some r;
  rt_family : sr_sensor_family r = ob_family ob;
  rt_declared : capabilities r <> [];
  rt_fabric : f' = mkFabric (<[ob_sensor_id ob := refreshed ob r]> (fb_sensors f)) (fb_capability_sources f) (fb_subscriptions f);
  rt_deliveries : ds = omap (delivery_for (ob_sensor_id ob) (capabilities r) (ob_commissioning ob) e) (sorted_subscriptions f)
}.

Lemma read_ids e k fam ob : read_time_and_state e k fam = Ok ob -> ob_sensor_id ob = k /\ ob_family ob = fam.
Proof. unfold read_time_and_state. intros H. passed. by injection H as <-. Qed.

Lemma route_ok payload f ds f' : route_observation payload f = Ok (ds, f') -> exists e ob r, routed payload f ds f' e ob r.
Proof.
  unfold route_observation. intros H. passed. injection H as Hds Hf.
  match goal with E : sensor_text _ "id" = Ok ?x |- _ => apply stripped_text_ok in E as (_ & y & _ & Hy); rename x into k end.
  match goal with E : require_sensor k f = Ok ?x |- _ => apply require_sensor_ok in E; rename E into Hr; rename x into r end.
  rewrite Hy, strip_strip, <- Hy in Hr.
  match goal with E : read_time_and_state ?e k ?fam = Ok ?o |- _ => rename E into Hread; rename o into ob; rename e into env end.
  pose proof (read_ids _ _ _ _ Hread) as [Hk Hfam]. exists env, ob, r.
  split; rewrite ?Hk, ?Hfam; try done.
  - destruct payload; by simplify_eq/=.
  - apply eq_str_spec. by apply negb_false_iff.
  - match goal with E : bool_decide (sr_sensor_family r <> _) = false |- _ => apply bool_decide_eq_false in E; by apply dec_stable end.
  - match goal with E : bool_decide (capabilities r = []) = false |- _ => by apply bool_decide_eq_false in E end.
  - subst ds. by rewrite capabilities_refresh.
Qed.

Lemma route_change e ds f f' : keyed f -> route_observation e f = Ok (ds, f') -> sensor_change f f'.
Proof.
  intros Hk (env & ob & r & [_ _ _ _ Hr _ _ -> _])%route_ok. pose proof (Hk _ _ Hr) as Hid.
  apply (change_state _ _ r (refreshed ob r)); rewrite ?Hid; try done.
  - by left.
  - unfold refreshed, refresh. destruct (sr_latest_received_at r) as [t|]; [by destruct (fle t _)|done].
  - unfold refreshed, refresh. destruct (sr_latest_received_at r) as [t|]; [by destruct (fle t _)|done].
  - apply capabilities_refresh.
  - unfold refreshed, refresh. destruct (sr_latest_received_at r) as [t|] eqn:Ht.
    + destruct (fle t (ob_received ob)) eqn:Hle; [right|left; by rewrite Ht]. exists (ob_received ob). split; [done|].
      by intros ? [= <-].
    + right. exists (ob_received ob). by split.
Qed.

Lemma fabric_step_change f f' : keyed f -> fabric_step f f' -> sensor_change f f'.
Proof.
  intros Hk [p r H|p r H|s H|e ds H]; [by eapply register_change|by eapply lifecycle_change| |by eapply route_change].
  unfold subscribe in H. case_bool_decide; [done|]. injection H as <-. by apply change_none.
Qed.

(** ** The index *)

Lemma elem_of_drop_sources id cs : forall index c x,
  x ∈ default ∅ (fold_left (drop_source id) cs index !! c) <-> x ∈ default ∅ (index !! c) /\ ~ (x = id /\ c ∈ cs).
Proof.
  induction cs as [|c0 cs IH]; intros index c x; cbn [fold_left]; [set_solver|]. rewrite IH. clear IH.
  assert (x ∈ default ∅ (drop_source id index c0 !! c) <-> x ∈ default ∅ (index !! c) /\ ~ (x = id /\ c = c0)) as ->; [|set_solver].
  unfold drop_source. destruct (index !! c0) as [s|] eqn:Hs; cycle 1.
  { destruct (decide (c = c0)) as [->|Hne]; rewrite ?Hs; set_solver. }
  cbv zeta. destruct (decide (c = c0)) as [->|Hne].
  - rewrite Hs. case_bool_decide as He; [rewrite lookup_delete_eq|rewrite lookup_insert_eq]; set_solver.
  - case_bool_decide as He; [rewrite lookup_delete_ne by done|rewrite lookup_insert_ne by done]; set_solver.
Qed.

Lemma elem_of_add_sources id cs : forall index c x,
  x ∈ default ∅ (fold_left (add_source id) cs index !! c) <-> x ∈ default ∅ (index !! c) \/ (x = id /\ c ∈ cs).
Proof.
  induction cs as [|c0 cs IH]; intros index c x; cbn [fold_left]; [set_solver|]. rewrite IH. clear IH. unfold add_source.
  destruct (decide (c = c0)) as [->|Hne]; rewrite ?lookup_insert_eq, ?lookup_insert_ne by done; set_solver.
Qed.

Lemma drop_sources_nonempty id cs : forall index, (forall c : string, index !! c <> Some ∅) ->
  forall c : string, fold_left (drop_source id) cs index !! c <> Some ∅.
Proof.
  induction cs as [|c0 cs IH]; intros index H; cbn [fold_left]; [done|]. apply IH. intros c. unfold drop_source.
  destruct (index !! c0) as [s|]; [|done]. cbv zeta. destruct (decide (c = c0)) as [->|Hne].
  - case_bool_decide as He; [by rewrite lookup_delete_eq|rewrite lookup_insert_eq]. intros [= H']. by apply He.
  - case_bool_decide as He; [rewrite lookup_delete_ne by done|rewrite lookup_insert_ne by done]; apply H.
Qed.

Lemma add_sources_nonempty id cs : forall index, (forall c : string, index !! c <> Some ∅) ->
  forall c : string, fold_left (add_source id) cs index !! c <> Some ∅.
Proof.
  induction cs as [|c0 cs IH]; intros index H; cbn [fold_left]; [done|]. apply IH. intros c. unfold add_source.
  destruct (decide (c = c0)) as [->|Hne]; rewrite ?lookup_insert_eq, ?lookup_insert_ne by done; [|done].
  intros [= H']. set_solver.
Qed.

(** The well-formed fabrics: sensors are filed under their identity, and the index names,
    for each capability, exactly the sensors that have it. *)
Record fabric_wf (f : fabric) : Prop := {
  fw_keyed : keyed f;
  fw_index : forall c id, id ∈ default ∅ (fb_capability_sources f !! c) <->
    exists r, fb_sensors f !! id = Some r /\ c ∈ capabilities r;
  fw_nonempty : forall c, fb_capability_sources f !! c <> Some ∅
}.

Lemma sensor_change_wf f f' : fabric_wf f -> sensor_change f f' -> fabric_wf f'.
Proof.
  intros [Hk Hi Hn] [Hs Hc|r Hne Hp Hs Hc|r r' Hr Hid Hfam Hcap _ Hs Hc].
  - split; [unfold keyed; by rewrite Hs|by rewrite Hs, Hc|by rewrite Hc].
  - split.
    + intros k q. rewrite Hs. destruct (decide (k = sr_sensor_id r)) as [->|Hkr]; rewrite ?lookup_insert_eq, ?lookup_insert_ne by done;
        [by intros [= <-]|apply Hk].
    + intros c id. rewrite Hc, Hs. unfold add_to_index. rewrite elem_of_add_sources.
      assert (id ∈ default ∅ (match fb_sensors f !! sr_sensor_id r with
          | Some p => remove_from_index p (fb_capability_sources f) | None => fb_capability_sources f end !! c) <->
        id <> sr_sensor_id r /\ exists q, fb_sensors f !! id = Some q /\ c ∈ capabilities q) as ->.
      { destruct (fb_sensors f !! sr_sensor_id r) as [p|] eqn:Hpr.
        - unfold remove_from_index. rewrite elem_of_drop_sources, Hi, (Hk _ _ Hpr). split.
          + intros [(q & Hq & Hcq) Hno]. split; [|by exists q]. intros ->. rewrite Hpr in Hq. injection Hq as <-. by apply Hno.
          + intros [Hne' Hq]. split; [done|]. by intros [-> _].
        - rewrite Hi. split; [|by intros [_ ?]]. intros (q & Hq & Hcq). split; [|by exists q]. intros ->. by rewrite Hpr in Hq. }
      destruct (decide (id = sr_sensor_id r)) as [->|Hir].
      * rewrite lookup_insert_eq. naive_solver.
      * rewrite lookup_insert_ne by done. naive_solver.
    + rewrite Hc. intros c. apply add_sources_nonempty. destruct (fb_sensors f !! sr_sensor_id r); [|done].
      by apply drop_sources_nonempty.
  - split.
    + intros k q. rewrite Hs. destruct (decide (k = sr_sensor_id r)) as [->|Hkr]; rewrite ?lookup_insert_eq, ?lookup_insert_ne by done;
        [by intros [= <-]|apply Hk].
    + intros c id. rewrite Hc, Hs, Hi. destruct (decide (id = sr_sensor_id r)) as [->|Hir].
      * rewrite lookup_insert_eq. destruct Hr as [Hr|(Hr & Hnil & _)]; rewrite Hr; split.
        -- intros (q & [= <-] & Hq). exists r'. by rewrite Hcap.
        -- intros (q & [= <-] & Hq). exists r. by rewrite <- Hcap.
        -- by intros (q & ? & _).
        -- intros (q & [= <-] & Hq). rewrite Hcap, Hnil in Hq. by apply elem_of_nil in Hq.
      * by rewrite lookup_insert_ne.
    + by rewrite Hc.
Qed.

Lemma reachable_wf f : fabric_reachable f -> fabric_wf f.
Proof.
  induction 1 as [|f f' _ IH Hs].
  - split; [done| |done]. intros c id. cbn. rewrite !lookup_empty. set_solver.
  - eapply sensor_change_wf; [done|]. apply fabric_step_change; [apply IH|done].
Qed.

(** ** Providers *)

Lemma StronglySorted_filter {A} (R : relation A) (P : A -> Prop) `{!forall x, Decision (P x)} l :
  StronglySorted R l -> StronglySorted R (filter P l).
Proof.
  induction 1 as [|x l _ IH Hx]; [constructor|]. rewrite filter_cons. case_decide; [|done]. constructor; [done|].
  rewrite Forall_forall in *. intros y [_ Hy]%list_elem_of_filter. by apply Hx.
Qed.

(** [capability in record.capabilities], of the sensor with an identity. *)
Definition has_capability (f : fabric) (c id : string) : Prop :=
  match fb_sensors f !! id with Some r => c ∈ capabilities r | None => False end.
#[export] Instance has_capability_dec f c id : Decision (has_capability f c id).
Proof. unfold has_capability. destruct (fb_sensors f !! id); apply _. Defined.

Lemma mapM_sensors (f : fabric) (l : list string) : Forall (fun id => is_Some (fb_sensors f !! id)) l ->
  mapM_outcome (fun id => match fb_sensors f !! id with Some r => Ok r | None => raise KeyError id end) l
  = Ok (omap (fun id => fb_sensors f !! id) l).
Proof.
  induction 1 as [|id l [r Hr] _ IH]; [done|]. cbn [mapM_outcome]. rewrite Hr, IH. cbn. by rewrite Hr.
Qed.

Lemma omap_filter_sensors (f : fabric) c (l : list string) :
  omap (fun id => fb_sensors f !! id) (filter (has_capability f c) l)
  = filter (fun r => c ∈ capabilities r) (omap (fun id => fb_sensors f !! id) l).
Proof.
  induction l as [|id l IH]; [done|]. rewrite filter_cons. cbn [omap list_omap].
  assert (has_capability f c id <-> exists r, fb_sensors f !! id = Some r /\ c ∈ capabilities r) as Hc.
  { unfold has_capability. destruct (fb_sensors f !! id); naive_solver. }
  destruct (fb_sensors f !! id) as [r|] eqn:Hr.
  - rewrite filter_cons. case_decide as H1; case_decide as H2; try naive_solver. cbn [omap list_omap]. by rewrite Hr, IH.
  - case_decide as H1; [naive_solver|done].
Qed.

Lemma sorted_index f c : fabric_wf f ->
  sorted_strings (elements (default ∅ (fb_capability_sources f !! c))) = filter (has_capability f c) (sensor_ids f).
Proof.
  intros Hw. apply sorted_nodup_unique.
  - apply sorted_strings_sorted.
  - apply StronglySorted_Sorted, StronglySorted_filter, Sorted_StronglySorted; [apply _|apply sorted_strings_sorted].
  - rewrite sorted_strings_perm. apply NoDup_elements.
  - apply NoDup_filter. unfold sensor_ids. rewrite sorted_strings_perm. apply NoDup_elements.
  - intros id. rewrite elem_of_sorted_strings, elem_of_elements, (fw_index f Hw), list_elem_of_filter.
    unfold sensor_ids, has_capability. rewrite elem_of_sorted_strings, elem_of_elements, elem_of_dom.
    destruct (fb_sensors f !! id) as [r|] eqn:Hr; split.
    + intros (q & [= <-] & Hq). by split.
    + intros [Hq _]. by exists r.
    + by intros (q & ? & _).
    + by intros [? _].
Qed.

(** C23: The index of the fabric is only an index.  In every reachable fabric [providers_for]
    returns what a scan of all sensors would: the sensors whose declared measurements or
    outputs contain the stripped capability, in the order of their identities; it never
    fails on a non-blank capability. *)
Theorem providers_are_declared f c : fabric_reachable f -> is_blank c = false ->
  providers_for c f
  = Ok (filter (fun r => strip c ∈ capabilities r) (omap (fun id => fb_sensors f !! id) (sensor_ids f))).
Proof.
  intros Hw%reachable_wf Hc. unfold providers_for, stripped_text. rewrite Hc. cbn [outcome_bind].
  rewrite sorted_index by done. rewrite mapM_sensors; [by rewrite omap_filter_sensors|].
  apply Forall_forall. intros id [Hid _]%list_elem_of_filter. unfold has_capability in Hid.
  by destruct (fb_sensors f !! id).
Qed.

(** ** Deliveries *)

Lemma elem_of_sorted_subscriptions f s : s ∈ sorted_subscriptions f <-> s ∈ fb_subscriptions f.
Proof. unfold sorted_subscriptions. by rewrite py_sorted_perm, elem_of_elements. Qed.

Lemma below_false a b : below a b = false <->
  forall x y, commissioning_rank a = Some x -> commissioning_rank b = Some y -> y <= x.
Proof.
  unfold below. destruct (commissioning_rank a) as [x|], (commissioning_rank b) as [y|]; try (split; [intros _|]; done).
  rewrite Nat.ltb_ge. naive_solver.
Qed.

(** A subscription that an observation of a sensor with these capabilities must reach: the
    maturity of its use profile ranks at least as high as it asks for. *)
Definition eligible (s : SensorSubscription) (available : list string) (commissioning : items) (maturity : string) : Prop :=
  ss_capability s ∈ available /\ dict_get commissioning (PStr (ss_use_profile s)) = Some (PStr maturity) /\
  forall x y, commissioning_rank maturity = Some x -> commissioning_rank (ss_minimum_maturity s) = Some y -> y <= x.

Lemma delivery_for_some k available com e s d : delivery_for k available com e s = Some d <->
  exists m, eligible s available com m /\ d = mkDelivery (ss_consumer_id s) k (ss_capability s) (ss_use_profile s) m e.
Proof.
  unfold delivery_for, eligible. setoid_rewrite <- below_false. case_bool_decide as Hc; [naive_solver|].
  destruct (dict_get com _) as [[| | | |m| | |]|]; try (split; [done|by intros (? & (_ & ? & _) & _)]).
  destruct (below m _) eqn:Hb; split; [done|intros (m' & (_ & [= <-] & Hb') & _); congruence| |].
  - intros [= <-]. by exists m.
  - intros (m' & (_ & [= <-] & _) & ->). done.
Qed.

Lemma omap_length {A B} (g : A -> option B) l : length (omap g l) <= length l.
Proof. induction l as [|a l IH]; cbn; [lia|]. destruct (g a); cbn; lia. Qed.


(** ** Live state *)

Definition latest (f : fabric) (id : string) : option float := fb_sensors f !! id ≫= sr_latest_received_at.

Lemma sensor_change_latest f f' id t : keyed f -> sensor_change f f' -> latest f id = Some t ->
  exists t', latest f' id = Some t' /\ (t' = t \/ fle t t' = true).
Proof.
  unfold latest. intros Hk Hch Ht. destruct (fb_sensors f !! id) as [q|] eqn:Hq; [|done]. cbn in Ht. pose proof (Hk _ _ Hq) as Hid.
  destruct Hch as [Hs Hc|r Hne Hp Hs Hc|r r' Hr Hrid Hfam Hcap Hl Hs Hc]; rewrite Hs.
  - exists t. rewrite Hq. by split; [|left].
  - destruct (decide (id = sr_sensor_id r)) as [->|Hne']; [rewrite lookup_insert_eq|rewrite lookup_insert_ne, Hq by done].
    + destruct (Hp q Hq) as (_ & Hlr & _). cbn. rewrite Hlr. exists t. by split; [|left].
    + exists t. by split; [|left].
  - destruct (decide (id = sr_sensor_id r)) as [->|Hne']; [rewrite lookup_insert_eq|rewrite lookup_insert_ne, Hq by done].
    + destruct Hr as [Hr|(Hr & _)]; rewrite Hr in Hq; [|done]. injection Hq as ->. cbn.
      destruct Hl as [[Hlr _]|(t' & Hlr & Hle)]; rewrite Hlr; [exists t; by split; [|left]|]. exists t'. split; [done|]. right. by apply Hle.
    + exists t. by split; [|left].
Qed.

(** Live state never goes backwards.  Whatever happens to a reachable fabric afterwards, a
    sensor that has received evidence keeps a time of last receipt that is not before it. *)
Theorem live_state_never_earlier f f' id t : fabric_reachable f -> rtc fabric_step f f' -> latest f id = Some t ->
  exists t', latest f' id = Some t' /\ flt t' t = false.
Proof.
  intros Hf Hs Ht. assert (exists t', latest f' id = Some t' /\ (t' = t \/ fle t t' = true)) as (t' & Ht' & Hle).
  { revert t Ht. induction Hs as [f|f f1 f2 Hs _ IH]; intros t Ht; [exists t; by split; [|left]|].
    destruct (sensor_change_latest f f1 id t) as (t1 & Ht1 & H1); [apply reachable_wf, Hf| |done|].
    { apply fabric_step_change; [apply reachable_wf, Hf|done]. }
    destruct (IH (fabric_next _ _ Hf Hs) t1 Ht1) as (t2 & Ht2 & H2). exists t2. split; [done|].
    destruct H1 as [->|H1]; [done|]. destruct H2 as [->|H2]; right; [done|by eapply fle_trans]. }
  exists t'. split; [done|]. destruct Hle as [->|Hle]; [apply flt_irrefl|].
  destruct (fle_not_nan _ _ Hle). rewrite flt_negb by done. by rewrite Hle.
Qed.

(** A sensor whose first evidence was received at a time that is not a number, or infinite, is
    deaf from then on: evidence with any other time is routed but refreshes nothing. *)
Theorem undated_evidence_freezes_sensor f id t ob r : fnan t = true \/ t = S754_infinity false ->
  latest f id = Some t -> fb_sensors f !! id = Some r -> ob_received ob <> S754_infinity false ->
  refreshed ob r = r.
Proof.
  unfold latest, refreshed, refresh. intros Ht Hl Hr Hob. rewrite Hr in Hl. cbn in Hl. rewrite Hl.
  assert (fle t (ob_received ob) = false) as ->; [|done].
  destruct Ht as [Hn| ->]; [by destruct t|]. by destruct (ob_received ob) as [| [] | |].
Qed.

(** ** The event bridge *)

(** A history of a bridge: what was routed, and what was drained, in order; a call that
    raised changes nothing. *)
Inductive bridge_history (max_pending : Z) (f0 : fabric) : list SensorDelivery -> list SensorDelivery -> event_bridge -> Prop :=
| history_new : bridge_history max_pending f0 [] [] (mkEventBridge f0 [] 0)
| history_handle routed drained b e ds b' : bridge_history max_pending f0 routed drained b ->
    bridge_handle max_pending e b = Ok (ds, b') -> bridge_history max_pending f0 (routed ++ ds) drained b'
| history_drain routed drained b limit ds b' : bridge_history max_pending f0 routed drained b ->
    drain_deliveries limit b = Ok (ds, b') -> bridge_history max_pending f0 routed (drained ++ ds) b'.

(** What left the queue, in order, of which the drained deliveries are a part. *)
Definition accounted (max_pending : Z) (routed drained : list SensorDelivery) (b : event_bridge) : Prop :=
  exists gone, routed = gone ++ eb_pending b /\ drained `sublist_of` gone /\
    Z.of_nat (length gone) = (Z.of_nat (length drained) + eb_dropped_delivery_count b)%Z /\
    (Z.of_nat (length (eb_pending b)) <= max_pending)%Z.

Lemma retain_accounted n ds : (1 <= n)%Z -> forall routed drained b, accounted n routed drained b ->
  accounted n (routed ++ ds) drained (retain n b ds).
Proof.
  intros Hn. induction ds as [|d ds IH]; intros routed drained b Hb; [by rewrite app_nil_r|].
  rewrite cons_middle, app_assoc. apply IH. destruct Hb as (gone & -> & Hsub & Hlen & Hmax). unfold retain_one.
  destruct (Z.leb_spec n (Z.of_nat (length (eb_pending b)))) as [Hfull|Hroom].
  - destruct (eb_pending b) as [|p ps] eqn:Hp; [cbn in *; lia|]. exists (gone ++ [p]). cbn in *.
    rewrite !length_app. cbn in *. split_and!; [by rewrite <- !app_assoc|by apply sublist_inserts_r|lia|lia].
  - exists gone. cbn. rewrite length_app. cbn. split_and!; [by rewrite app_assoc|done..|lia].
Qed.

(** C24: The bridge accounts for every delivery.  In any history the deliveries that were routed
    are, in order, those that left the queue followed by those still pending; those that left
    and were not drained are counted as dropped, exactly; drained deliveries come out in the
    order they were routed, and the queue stays within its bound. *)
Theorem bridge_accounts_for_deliveries n f0 routed drained b : (1 <= n)%Z -> bridge_history n f0 routed drained b ->
  accounted n routed drained b.
Proof.
  intros Hn. induction 1 as [|routed drained b e ds b' _ IH H|routed drained b limit ds b' _ IH H].
  - exists []. cbn. split_and!; [done|done|done|lia].
  - unfold bridge_handle in H. destruct (negb (hashable _)); [done|].
    destruct (se_event_type e) as [| | | |kind| | |]; try (injection H as <- <-; by rewrite app_nil_r).
    case_bool_decide; [injection H as <- <-; by rewrite app_nil_r|]. destruct (negb _); [done|].
    case_bool_decide; [|case_bool_decide].
    + destruct (register_capabilities _ _) as [[r f1]|]; [|done]. injection H as <- <-. by rewrite app_nil_r.
    + destruct (apply_lifecycle _ _) as [[r f1]|]; [|done]. injection H as <- <-. by rewrite app_nil_r.
    + destruct (route_observation _ _) as [[ds' f1]|]; [|done]. injection H as <- <-. by apply retain_accounted.
  - destruct IH as (gone & -> & Hsub & Hlen & Hmax).
    assert (exists k, ds = take k (eb_pending b) /\
      b' = mkEventBridge (eb_fabric b) (drop k (eb_pending b)) (eb_dropped_delivery_count b)) as (k & -> & ->).
    { unfold drain_deliveries in H. destruct limit as [l|].
      - destruct (l <=? 0)%Z; [done|]. injection H as <- <-. by eexists.
      - injection H as <- <-. exists (length (eb_pending b)). by rewrite take_ge, drop_ge. }
    exists (gone ++ take k (eb_pending b)). cbn. rewrite !length_app.
    split_and!; [by rewrite <- app_assoc, take_drop|by apply sublist_app|lia|rewrite length_drop; lia].
Qed.

(** ** An example *)

Module Example.
Definition declared : pyval := PDict [(PStr "status", PStr "declaration-only"); (PStr "read_only", PBool true);
  (PStr "sensor_id", PStr "imu-1"); (PStr "sensor_family", PStr "imu");
  (PStr "measurements", PList [PStr "tilt"; PStr "accel"]); (PStr "outputs", PTuple [])].
Definition envelope (received : Z) : pyval := PDict [(PStr "schema", PStr "velvet.sensor-envelope");
  (PStr "status", PStr "observation-only"); (PStr "read_only", PBool true);
  (PStr "sensor", PDict [(PStr "id", PStr "imu-1"); (PStr "family", PStr "imu")]);
  (PStr "time", PDict [(PStr "measurement", PInt received); (PStr "received", PInt received)]);
  (PStr "health", PDict [(PStr "state", PStr "ok")]); (PStr "quality", PDict [(PStr "state", PStr "good")]);
  (PStr "commissioning", PDict [(PStr "driving", PStr "trust")]); (PStr "frame", PDict [])].
Definition wants (minimum : string) : SensorSubscription := mkSubscription "planner" "tilt" "driving" minimum.
Definition f1 : fabric := match register_capabilities declared new_fabric with Ok (_, f) => f | _ => new_fabric end.
Definition f2 : fabric := match subscribe (wants "trust") f1 with Ok (_, f) => f | _ => new_fabric end.
Definition f3 : fabric := match subscribe (wants "advise") f2 with Ok (_, f) => f | _ => new_fabric end.
Definition routed_at (t : Z) (f : fabric) : list SensorDelivery * fabric :=
  match route_observation (envelope t) f with Ok r => r | _ => ([], new_fabric) end.

Lemma f1_step : exists r, register_capabilities declared new_fabric = Ok (r, f1).
Proof. eexists. vm_compute. reflexivity. Qed.
Lemma f3_reachable : fabric_reachable f3.
Proof.
  destruct f1_step as [r Hr]. eapply (fabric_next f2); [eapply (fabric_next f1); [eapply (fabric_next new_fabric)|]|].
  - constructor.
  - by eapply step_register.
  - apply (step_subscribe _ _ (wants "trust")). vm_compute. reflexivity.
  - apply (step_subscribe _ _ (wants "advise")). vm_compute. reflexivity.
Qed.
Lemma route_step t f r : route_observation (envelope t) f = Ok r -> routed_at t f = r.
Proof. unfold routed_at. by intros ->. Qed.
Definition told (t : Z) (name : string) : sensor_event := mkSensorEvent (PStr name) (envelope t).
End Example.

Lemma providers_are_declared_witness :
  providers_for " tilt " Example.f3
  = Ok (filter (fun r => strip " tilt " ∈ capabilities r)
      (omap (fun id => fb_sensors Example.f3 !! id) (sensor_ids Example.f3))) /\
  match providers_for " tilt " Example.f3 with Ok l => length l = 1 | _ => False end.
Proof. split; [apply (providers_are_declared Example.f3 " tilt "); [apply Example.f3_reachable|reflexivity]|vm_compute; reflexivity]. Defined.


Lemma live_state_never_earlier_witness : let f := (Example.routed_at 7 Example.f3).2 in
  exists t', latest (Example.routed_at 5 f).2 "imu-1" = Some t' /\ flt t' (float_of_Z 7) = false.
Proof.
  apply (live_state_never_earlier (Example.routed_at 7 Example.f3).2).
  - apply (fabric_next Example.f3); [apply Example.f3_reachable|].
    apply (step_route _ _ (Example.envelope 7) (Example.routed_at 7 Example.f3).1). vm_compute. reflexivity.
  - apply rtc_once. apply (step_route _ _ (Example.envelope 5) (Example.routed_at 5 (Example.routed_at 7 Example.f3).2).1).
    vm_compute. reflexivity.
  - vm_compute. reflexivity.
Defined.

(** A queue of one keeps the second delivery and counts the first. *)
Lemma bridge_accounts_for_deliveries_witness :
  let b0 := mkEventBridge Example.f3 [] 0 in
  let handled t b := match bridge_handle 1 (Example.told t "SENSOR_OBSERVATION_REPORTED") b with Ok r => r | _ => ([], b0) end in
  let b1 := (handled 7%Z b0).2 in let b2 := (handled 8%Z b1).2 in
  accounted 1 ([] ++ (handled 7%Z b0).1 ++ (handled 8%Z b1).1) [] b2 /\ eb_dropped_delivery_count b2 = 1%Z.
Proof.
  intros b0 handled b1 b2. split; [|vm_compute; reflexivity].
  apply (bridge_accounts_for_deliveries 1 Example.f3); [lia|]. rewrite app_assoc.
  eapply (history_handle _ _ _ _ b1 (Example.told 8 "SENSOR_OBSERVATION_REPORTED")).
  - eapply (history_handle _ _ _ _ b0 (Example.told 7 "SENSOR_OBSERVATION_REPORTED")); [constructor|].
    vm_compute. reflexivity.
  - vm_compute. reflexivity.
Defined.
