(* ===== verification/BodyAdapter.v ===== *)
(** What the body adapters of [services/] share: the checks they make on a line of a
    specialist node (seat_presence_node.py, seat_pressure_pad.py, seat_heartbeat_signal.py and
    seat_person_sense_body_map.py repeat them, each with its own exception), the clock
    readings, and the two records of the Event Protocol every adapter emits.

    What an adapter reads from outside (the clocks, the identities of [uuid4]) is its
    [ambient]; a record is the list of its items. *)

From stdpp Require Import base gmap sets list strings sorting.
From Stdlib Require Import ZArith NArith Ascii SpecFloat.
From S2P Require Import Prelude PyText PyVal Json Sha256 PyFloat PyJson TextChecks.

(** ** Fields of a document *)

(** [_ID_PATTERN]: [^[A-Za-z0-9_.:-]{1,64}$]; [_TEXT_PATTERN]: [^[ -~]{1,96}$] *)
Definition is_wire_id (s : string) : bool := is_name s && (String.length s <=? 64).
Definition is_wire_text (s : string) : bool := is_nonempty s && all_printable s && (String.length s <=? 96).

Section Fields.
(** The protocol error of the file. *)
Context (error : exn_kind).

(** [_required_id] *)
Definition required_id (payload : items) (key : string) : outcome string :=
  let bad := raise error (key +:+ " must be a bounded identifier") in
  match get payload key with PStr s => if is_wire_id s then Ok s else bad | _ => bad end.

(** [_required_text] *)
Definition wire_text (payload : items) (key : string) : outcome string :=
  let bad := raise error (key +:+ " must be bounded printable ASCII text") in
  match get payload key with PStr s => if is_wire_text s then Ok s else bad | _ => bad end.

(** [_optional_text] *)
Definition optional_wire_text (payload : items) (key : string) : outcome (option string) :=
  let bad := raise error (key +:+ " must be null or bounded printable text") in
  match get payload key with
  | PNone => Ok None
  | PStr s => if is_wire_text s then Ok (Some s) else bad
  | _ => bad
  end.

(** [_required_bool] *)
Definition required_bool (payload : items) (key : string) : outcome bool :=
  match get payload key with PBool b => Ok b | _ => raise error (key +:+ " must be boolean") end.

Definition within_bounds (z minimum maximum : Z) : bool := (minimum <=? z)%Z && (z <=? maximum)%Z.

(** [_required_integer] *)
Definition wire_integer (payload : items) (key : string) (minimum maximum : Z) : outcome Z :=
  match get payload key with
  | PInt z => if within_bounds z minimum maximum then Ok z else raise error (key +:+ " is outside supported bounds")
  | _ => raise error (key +:+ " must be an integer")
  end.

(** [_optional_integer], [_optional_bounded_integer] *)
Definition optional_integer (payload : items) (key : string) (minimum maximum : Z) : outcome (option Z) :=
  match get payload key with
  | PNone => Ok None
  | PInt z =>
      if within_bounds z minimum maximum then Ok (Some z) else raise error (key +:+ " is outside supported bounds")
  | _ => raise error (key +:+ " must be null or integer")
  end.

(** A number within bounds; [float] raises [OverflowError] on an integer beyond the floats. *)
Definition bounded_float (value : pyval) (key : string) (minimum maximum : float) : outcome float :=
  let? result := py_float value in
  if negb (ffinite result) || negb (fle minimum result && fle result maximum)
  then raise error (key +:+ " is outside supported bounds") else Ok result.

(** [_required_finite_number] *)
Definition required_finite_number (payload : items) (key : string) (minimum maximum : float) : outcome float :=
  if negb (is_real (get payload key)) then raise error (key +:+ " must be numeric")
  else bounded_float (get payload key) key minimum maximum.

(** [_optional_finite_number] *)
Definition optional_finite_number (payload : items) (key : string) (minimum maximum : float) : outcome (option float) :=
  match get payload key with
  | PNone => Ok None
  | v =>
      if negb (is_real v) then raise error (key +:+ " must be null or numeric")
      else let? f := bounded_float v key minimum maximum in Ok (Some f)
  end.

(** The tests for unsupported and missing fields. *)
Definition check_fields (what : string) (document : items) (allowed : list string) : outcome unit :=
  let present := text_key <$> document.*1 in
  let unknown := filter (fun k => k ∉ allowed) present in
  let missing := filter (fun k => k ∉ present) allowed in
  if bool_decide (unknown <> [])
  then raise error (what +:+ " has unsupported fields: " +:+ py_repr (strs (sorted_strings unknown)))
  else if bool_decide (missing <> [])
  then raise error (what +:+ " is missing fields: " +:+ py_repr (strs (sorted_strings missing)))
  else Ok tt.

(** [_decode_unique_document] *)
Definition decode_unique_document (tag : string) (line : byte_string) (max_line_bytes : Z) : outcome items :=
  let size := Z.of_nat (length line) in
  if negb ((2 <=? size)%Z && (size <=? max_line_bytes)%Z) then raise error (tag +:+ " line size is outside bounds") else
  if bool_decide (0%N ∈ line) then raise error (tag +:+ " line contains NUL") else
  match utf8_decode line with
  | None => raise error (tag +:+ " line is not valid UTF-8")
  | Some decoded =>
      let t := strip decoded in
      if negb (is_nonempty t) then raise error (tag +:+ " line is empty") else
      match loads_unique t with
      | Ok (PDict document) => Ok document
      | Ok _ => raise error (tag +:+ " root must be an object")
      | Err e => raise error (tag +:+ " line is not valid unique-key JSON: " +:+ exn_message e)
      end
  end.
End Fields.

(** ** Configuration and arguments *)

(** [_validated_expected_id], [_validated_id] *)
Definition validated_expected_id (value label : string) : outcome string :=
  if is_wire_id value then Ok value else raise ValueError (label +:+ " must be a bounded identifier").

(** [_required_expected_text] *)
Definition required_expected_text (value label : string) : outcome string :=
  if is_blank value || negb (is_wire_text value)
  then raise ValueError (label +:+ " must be bounded printable ASCII text") else Ok (strip value).

(** [_bounded_config_integer], [_bounded_integer] *)
Definition bounded_config_integer (value : Z) (label : string) (minimum maximum : Z) : outcome Z :=
  if within_bounds value minimum maximum then Ok value else raise ValueError (label +:+ " is outside supported bounds").

(** A text of a configuration. *)
Definition non_empty_text (name value : string) : outcome unit :=
  if is_blank value then raise ValueError (name +:+ " must be a non-empty string") else Ok tt.

(** [_finite_non_negative] *)
Definition finite_non_negative (value : float) (label : string) : outcome float :=
  if negb (ffinite value) || flt value f0 then raise ValueError (label +:+ " must be finite and non-negative") else Ok value.

(** A clock reading that a caller may supply. *)
Definition reading (now : option float) (clock : float) (label : string) : outcome float :=
  match now with None => Ok clock | Some value => finite_non_negative value label end.

(** What one call of an adapter reads from outside. *)
Record ambient := mkAmbient {
  am_time : float; am_monotonic : float; am_health_id : string; am_receipt_id : string }.

(** ** Events *)

Definition opt_int (o : option Z) : pyval := match o with Some z => PInt z | None => PNone end.
Definition opt_float (o : option float) : pyval := match o with Some f => PFloat f | None => PNone end.

Record adapter_cycle := mkCycle { cy_sensor_event : option items; cy_health_event : option items }.
Definition no_cycle : adapter_cycle := mkCycle None None.
Definition health_cycle (event : items) : adapter_cycle := mkCycle None (Some event).

(** [records()] *)
Definition records (c : adapter_cycle) : list pyval :=
  (PDict <$> option_list (cy_sensor_event c)) ++ (PDict <$> option_list (cy_health_event c)).

(** Who emits an event. *)
Record emitter := mkEmitter { em_module_id : string; em_node_id : string; em_owning_handmaiden : string }.

(** [dict.update] of a dictionary with text keys. *)
Definition dict_update (d extra : items) : items := fold_left (fun d kv => dict_set d kv.1 kv.2) extra d.

(** The envelope of an event. *)
Definition envelope (who : emitter) (event_id event_type family : string) (wall : float) (payload : items) : items :=
  str_items
    [("event_id", PStr event_id); ("event_type", PStr event_type); ("source", PStr (em_module_id who));
     ("family", PStr family); ("schema_version", PStr "1.0"); ("timestamp", PFloat wall);
     ("node_id", PStr (em_node_id who)); ("organ_name", PStr (em_owning_handmaiden who)); ("payload", PDict payload)].

(** A change of health to report. *)
Record health_report := mkReport {
  hr_event_type : string; hr_severity : string; hr_before : string; hr_after : string }.

(** [_health_event]; the diagnostic payload differs between adapters. *)
Definition health_event (who : emitter) (wall : float) (r : health_report) (diagnostic : items) (recovery event_id : string)
    : items :=
  envelope who event_id ("HEALTH_" +:+ hr_event_type r) "health" wall (str_items
    [("event_id", PStr event_id); ("event_type", PStr (hr_event_type r)); ("module_id", PStr (em_module_id who));
     ("node_id", PStr (em_node_id who)); ("owning_handmaiden", PStr (em_owning_handmaiden who));
     ("timestamp", PFloat wall); ("severity", PStr (hr_severity r)); ("state_before", PStr (hr_before r));
     ("state_after", PStr (hr_after r)); ("confidence", PFloat (flit 10 (-1))); ("diagnostic_payload", PDict diagnostic);
     ("receipt_id", PStr event_id); ("recovery_action", PStr recovery); ("fallback_owner", PStr "Velvet")]).

(** What a sensor event says besides its payload. *)
Record sensor_reading := mkReading {
  rd_sensor_type : string; rd_interface_type : string; rd_health_state : string; rd_confidence : float;
  rd_source_clock : string; rd_stale_after_ms : Z; rd_calibration_version : string;
  rd_degraded_reason : list (string * pyval); rd_raw_reference : string }.

(** [_sensor_event]; an adapter whose events have no [degraded_reason] gives none. *)
Definition sensor_event (who : emitter) (wall monotonic : float) (r : sensor_reading) (payload : items) (receipt_id : string)
    : items :=
  envelope who receipt_id "SENSOR_PACKET_OBSERVED" "sensor" wall (str_items (
    [("module_id", PStr (em_module_id who)); ("node_id", PStr (em_node_id who));
     ("owning_handmaiden", PStr (em_owning_handmaiden who)); ("timestamp", PFloat wall); ("monotonic_time", PFloat monotonic);
     ("sensor_type", PStr (rd_sensor_type r)); ("interface_type", PStr (rd_interface_type r));
     ("health_state", PStr (rd_health_state r)); ("confidence", PFloat (rd_confidence r)); ("payload", PDict payload);
     ("receipt_id", PStr receipt_id); ("source_clock", PStr (rd_source_clock r));
     ("stale_after_ms", PInt (rd_stale_after_ms r)); ("calibration_version", PStr (rd_calibration_version r))]
    ++ rd_degraded_reason r ++ [("raw_reference", PStr (rd_raw_reference r))])).

(** The age in milliseconds, [max(0.0, (monotonic - last) * 1000.0)], and the test against an
    integer bound. *)
Definition age_ms (monotonic last : float) : float := fmul (fsub monotonic last) (float_of_Z 1000).
Definition within_ms (age : float) (bound : Z) : bool := fle age (float_of_Z bound).
