(* ===== verification/SeatAdapter.v ===== *)
(** What the radar, pressure and heartbeat adapters of a seat share: the head of a line from
    the seat's node, and the state machine that orders the readings, reports changes of health
    and notices silence.

    The three files repeat this code with other words; the words are a [wire_format] and a
    [seat_kind], and each file's model gives its own. *)

From stdpp Require Import base gmap sets list strings sorting.
From Stdlib Require Import ZArith Ascii SpecFloat.
From S2P Require Import Prelude PyText PyVal Json Sha256 PyFloat PyJson TextChecks BodyAdapter.

(** ** The head of a line *)

Record wire_format := mkFormat {
  wf_error : exn_kind;
  wf_tag : string;              (** "seat-node": begins the messages about a line *)
  wf_seat_tag : string;         (** begins the message about the wrong seat *)
  wf_health_field : string;     (** how messages call [sensor_health] *)
  wf_kind : string;             (** "pressure ": before "sensor health" *)
  wf_schema : string;
  wf_fields : list string       (** [_ALLOWED_FIELDS] *)
}.

Record seat_header := mkHeader {
  sh_node_id : string; sh_seat_id : string; sh_sensor_model : string; sh_sensor_health : string;
  sh_degraded_reason : option string; sh_boot_id : string; sh_sequence : Z; sh_uptime_ms : Z;
  sh_firmware_version : string; sh_calibration_version : string }.

Section Head.
Context (wf : wire_format).

(** The tests for the schema, the configured source and the sensor's health. *)
Definition parse_source (document : items) (expected_node_id expected_seat_id expected_sensor_model : string)
    : outcome (string * string * string * string * option string) :=
  let error {A} (msg : string) : outcome A := raise (wf_error wf) msg in
  let? _ := check_fields (wf_error wf) (wf_tag wf +:+ " line") document (wf_fields wf) in
  if negb (eq_str (get document "schema") (wf_schema wf)) then error ("unsupported " +:+ wf_tag wf +:+ " schema") else
  let? node_id := required_id (wf_error wf) document "node_id" in
  let? seat_id := required_id (wf_error wf) document "seat_id" in
  let? expected_node := validated_expected_id expected_node_id "expected_node_id" in
  if bool_decide (node_id <> expected_node) then error (wf_tag wf +:+ " identity does not match configured node") else
  let? expected_seat := validated_expected_id expected_seat_id "expected_seat_id" in
  if bool_decide (seat_id <> expected_seat) then error (wf_seat_tag wf +:+ " identity does not match configured seat") else
  let? sensor_model := wire_text (wf_error wf) document "sensor_model" in
  let? expected_model := required_expected_text expected_sensor_model "expected_sensor_model" in
  if bool_decide (sensor_model <> expected_model)
  then error (wf_tag wf +:+ " sensor model does not match configuration") else
  let? health := wire_text (wf_error wf) document "sensor_health" in
  let sensor_health := upper health in
  if bool_decide (sensor_health ∉ ["ONLINE"; "DEGRADED"])
  then error (wf_health_field wf +:+ " must be ONLINE or DEGRADED") else
  let? degraded_reason := optional_wire_text (wf_error wf) document "degraded_reason" in
  if bool_decide (sensor_health = "DEGRADED" /\ degraded_reason = None)
  then error ("degraded " +:+ wf_kind wf +:+ "sensor health requires degraded_reason") else
  if bool_decide (sensor_health = "ONLINE" /\ degraded_reason <> None)
  then error ("online " +:+ wf_kind wf +:+ "sensor health cannot carry degraded_reason") else
  Ok (node_id, seat_id, sensor_model, sensor_health, degraded_reason).

(** The fields read when the observation is built. *)
Definition parse_position (document : items) (source : string * string * string * string * option string)
    : outcome seat_header :=
  let '(node_id, seat_id, sensor_model, sensor_health, degraded_reason) := source in
  let? boot_id := required_id (wf_error wf) document "boot_id" in
  let? sequence := wire_integer (wf_error wf) document "sequence" 0 2147483647 in
  let? uptime_ms := wire_integer (wf_error wf) document "uptime_ms" 0 9007199254740991 in
  let? firmware := wire_text (wf_error wf) document "firmware_version" in
  let? calibration := wire_text (wf_error wf) document "calibration_version" in
  Ok (mkHeader node_id seat_id sensor_model sensor_health degraded_reason boot_id sequence uptime_ms firmware calibration).
End Head.

(** ** Configuration *)

Record adapter_config := mkAdapterConfig {
  ac_emitter : emitter; ac_seat_id : string; ac_interface_type : string; ac_stale_after_ms : Z;
  ac_failure_threshold : Z; ac_expected_sensor_model : string }.

(** [__post_init__]: the values are checked, not replaced. *)
Definition check_adapter_config (c : adapter_config) : outcome unit :=
  let? _ := validated_expected_id (em_module_id (ac_emitter c)) "module_id" in
  let? _ := validated_expected_id (em_node_id (ac_emitter c)) "node_id" in
  let? _ := validated_expected_id (ac_seat_id c) "seat_id" in
  let? _ := validated_expected_id (em_owning_handmaiden (ac_emitter c)) "owning_handmaiden" in
  let? _ := required_expected_text (ac_interface_type c) "interface_type" in
  let? _ := required_expected_text (ac_expected_sensor_model c) "expected_sensor_model" in
  let? _ := bounded_config_integer (ac_stale_after_ms c) "stale_after_ms" 250 600000 in
  let? _ := bounded_config_integer (ac_failure_threshold c) "failure_threshold" 1 100 in Ok tt.

(** ** The adapter *)

Record adapter := mkAdapter {
  ad_state : string; ad_last_boot_id : option string; ad_last_sequence : option Z; ad_last_uptime_ms : option Z;
  ad_last_seen : option float; ad_stale_reported : bool; ad_failures : Z; ad_last_rejection : option string }.
Definition new_adapter : adapter := mkAdapter "UNKNOWN" None None None None false 0 None.

(** The words of one adapter. *)
Record seat_kind := mkKind {
  sk_protocol_error : exn_kind; sk_replay_error : exn_kind;
  sk_wrong_node : string; sk_wrong_seat : string; sk_wrong_model : string;
  sk_sequence_regressed : string; sk_uptime_regressed : string;
  sk_restarted : string;
  sk_changed : string -> string -> string;   (** the detail of an event type and a state *)
  sk_code : string;                          (** begins the reason code of a state *)
  sk_failure_code : string; sk_stale : string; sk_stale_code : string;
  sk_diagnostic : string -> items;           (** what follows detail and reason code, for a seat *)
  sk_recovery : string }.

Section Adapter.
Context (k : seat_kind) (cfg : adapter_config).

Definition diagnostic (detail reason_code : string) (extra : items) : items :=
  dict_update (str_items [("detail", PStr detail); ("reason_code", PStr reason_code)] ++ sk_diagnostic k (ac_seat_id cfg)) extra.

(** [_health_event] *)
Definition seat_health_event (wall : float) (event_type severity before after detail reason_code : string) (extra : items)
    (event_id : string) : items :=
  health_event (ac_emitter cfg) wall (mkReport event_type severity before after)
    (diagnostic detail reason_code extra) (sk_recovery k) event_id.

Definition is_same_boot (h : seat_header) (st : adapter) : bool := bool_decide (ad_last_boot_id st = Some (sh_boot_id h)).

(** The guards of [observe] on the order of the readings. *)
Definition check_order (h : seat_header) (st : adapter) : outcome unit :=
  if is_same_boot h st && match ad_last_sequence st with Some s => (sh_sequence h <=? s)%Z | None => false end
  then raise (sk_replay_error k) (sk_sequence_regressed k) else
  if is_same_boot h st && match ad_last_uptime_ms st with Some u => (sh_uptime_ms h <? u)%Z | None => false end
  then raise (sk_replay_error k) (sk_uptime_regressed k) else Ok tt.

Definition check_identity (h : seat_header) : outcome unit :=
  if bool_decide (sh_node_id h <> em_node_id (ac_emitter cfg)) then raise (sk_protocol_error k) (sk_wrong_node k) else
  if bool_decide (sh_seat_id h <> ac_seat_id cfg) then raise (sk_protocol_error k) (sk_wrong_seat k) else
  if bool_decide (sh_sensor_model h <> ac_expected_sensor_model cfg)
  then raise (sk_protocol_error k) (sk_wrong_model k) else Ok tt.

(** The event type of a change to [new_state]. *)
Definition change_type (previous new_state : string) : string :=
  if bool_decide (new_state = "ONLINE" /\ previous ∈ ["DEGRADED"; "FAILED"]) then "RECOVERED" else new_state.

(** The health event of an accepted reading. *)
Definition observed_health (h : seat_header) (wall : float) (st : adapter) (event_id : string) : option items :=
  let previous := ad_state st in
  let new_state := sh_sensor_health h in
  if match ad_last_boot_id st with Some b => bool_decide (sh_boot_id h <> b) | None => false end
  then Some (seat_health_event wall "RESTARTED" "INFO" previous new_state (sk_restarted k) "NODE_BOOT_CHANGED"
               (str_items [("boot_id", PStr (sh_boot_id h))]) event_id)
  else if bool_decide (previous <> new_state)
  then Some (seat_health_event wall (change_type previous new_state)
               (if bool_decide (new_state = "ONLINE") then "INFO" else "WARNING") previous new_state
               (sk_changed k (change_type previous new_state) new_state)
               (default (sk_code k +:+ new_state) (sh_degraded_reason h)) [] event_id)
  else None.

(** [observe]; [event] builds the sensor event of the reading. *)
Definition observe (h : seat_header) (event : float -> float -> string -> string -> items) (now_wall now_monotonic : option float)
    (source_reference : string) (am : ambient) (st : adapter) : outcome (adapter_cycle * adapter) :=
  let? _ := check_identity h in
  let? wall := reading now_wall (am_time am) "now_wall" in
  let? monotonic := reading now_monotonic (am_monotonic am) "now_monotonic" in
  if is_blank source_reference then raise ValueError "source_reference must be non-empty" else
  let? _ := check_order h st in
  Ok (mkCycle (Some (event wall monotonic (strip source_reference) (am_receipt_id am)))
        (observed_health h wall st (am_health_id am)),
      mkAdapter (sh_sensor_health h) (Some (sh_boot_id h)) (Some (sh_sequence h)) (Some (sh_uptime_ms h)) (Some monotonic)
        false 0 None).

Definition set_ad_state (state : string) (rejection : option string) (st : adapter) : adapter :=
  mkAdapter state (ad_last_boot_id st) (ad_last_sequence st) (ad_last_uptime_ms st) (ad_last_seen st)
    (ad_stale_reported st) (ad_failures st) rejection.

(** [reject_observation] *)
Definition reject_observation (reason_code detail : string) (now_wall : option float) (am : ambient) (st : adapter)
    : outcome (adapter_cycle * adapter) :=
  let? code := required_expected_text reason_code "reason_code" in
  let reason := upper code in
  let? message := required_expected_text detail "detail" in
  if bool_decide (ad_last_rejection st = Some reason) then Ok (no_cycle, st) else
  let? wall := reading now_wall (am_time am) "now_wall" in
  Ok (health_cycle (seat_health_event wall "REJECTED" "WARNING" (ad_state st) "DEGRADED" message reason [] (am_health_id am)),
      set_ad_state "DEGRADED" (Some reason) st).

Definition count_failure (st : adapter) : adapter :=
  mkAdapter (ad_state st) (ad_last_boot_id st) (ad_last_sequence st) (ad_last_uptime_ms st) (ad_last_seen st)
    (ad_stale_reported st) (ad_failures st + 1) (ad_last_rejection st).

(** [mark_failure] *)
Definition mark_failure (reason : string) (now_wall : option float) (am : ambient) (st : adapter)
    : outcome (adapter_cycle * adapter) :=
  let? detail := required_expected_text reason "failure reason" in
  let? wall := reading now_wall (am_time am) "now_wall" in
  let st1 := count_failure st in
  let failed := (ac_failure_threshold cfg <=? ad_failures st1)%Z in
  let new_state := if failed then "FAILED" else "DEGRADED" in
  if bool_decide (ad_state st = new_state /\ ad_last_rejection st = Some detail) then Ok (no_cycle, st1) else
  Ok (health_cycle (seat_health_event wall new_state (if failed then "ERROR" else "WARNING") (ad_state st) new_state detail
        (sk_failure_code k) (str_items [("consecutive_failures", PInt (ad_failures st1))]) (am_health_id am)),
      set_ad_state new_state (Some detail) st1).

(** [check_stale] *)
Definition check_stale (now_wall now_monotonic : option float) (am : ambient) (st : adapter)
    : outcome (adapter_cycle * adapter) :=
  match ad_last_seen st with
  | Some seen =>
      if ad_stale_reported st then Ok (no_cycle, st) else
      let? wall := reading now_wall (am_time am) "now_wall" in
      let? monotonic := reading now_monotonic (am_monotonic am) "now_monotonic" in
      let age := fmax f0 (age_ms monotonic seen) in
      if within_ms age (ac_stale_after_ms cfg) then Ok (no_cycle, st) else
      Ok (health_cycle (seat_health_event wall "STALE" "WARNING" (ad_state st) "DEGRADED" (sk_stale k) (sk_stale_code k)
            (str_items [("age_ms", PFloat (py_round 3 age))]) (am_health_id am)),
          mkAdapter "DEGRADED" (ad_last_boot_id st) (ad_last_sequence st) (ad_last_uptime_ms st) (ad_last_seen st) true
            (ad_failures st) (ad_last_rejection st))
  | None => Ok (no_cycle, st)
  end.
End Adapter.
