(* ===== verification/SeatRadar.v ===== *)
(** [services/seat_presence_node.py]: presence evidence from a radar at a seat. *)

From stdpp Require Import base gmap sets list strings sorting.
From Stdlib Require Import ZArith Ascii SpecFloat.
From S2P Require Import Prelude PyText PyVal Json Sha256 PyFloat PyJson TextChecks BodyAdapter SeatAdapter.

(** [SEAT_NODE_SCHEMA], [_ALLOWED_FIELDS] and the words of the messages. *)
Definition seat_node_format : wire_format := mkFormat SeatNodeProtocolError "seat-node" "seat" "sensor_health" ""
  "velvet.seat_presence_node.v1"
  ["schema"; "node_id"; "seat_id"; "boot_id"; "sequence"; "uptime_ms"; "sensor_model"; "firmware_version";
   "calibration_version"; "sensor_health"; "degraded_reason"; "presence_detected"; "moving_target_detected";
   "stationary_target_detected"; "detection_distance_cm"; "moving_distance_cm"; "stationary_distance_cm";
   "moving_energy"; "stationary_energy"].

Record SeatNodeObservation := mkSeatNode {
  sn_header : seat_header;
  sn_presence_detected : bool; sn_moving_target_detected : bool; sn_stationary_target_detected : bool;
  sn_detection_distance_cm : option Z; sn_moving_distance_cm : option Z; sn_stationary_distance_cm : option Z;
  sn_moving_energy : Z; sn_stationary_energy : Z }.

(** [movement_state] *)
Definition movement_state (o : SeatNodeObservation) : string :=
  match sn_moving_target_detected o, sn_stationary_target_detected o with
  | true, true => "MOVING_AND_STATIONARY"
  | true, false => "MOVING"
  | false, true => "STATIONARY"
  | false, false => "NO_RADAR_PRESENCE"
  end.

(** [parse_seat_node_line] *)
Definition parse_seat_node_line (line : byte_string) (expected_node_id expected_seat_id expected_sensor_model : string)
    (max_line_bytes : Z) : outcome SeatNodeObservation :=
  let error {A} (msg : string) : outcome A := raise SeatNodeProtocolError msg in
  let flag := required_bool SeatNodeProtocolError in
  let distance document key := optional_integer SeatNodeProtocolError document key 0 600 in
  let? document := decode_unique_document SeatNodeProtocolError "seat-node" line max_line_bytes in
  let? source := parse_source seat_node_format document expected_node_id expected_seat_id expected_sensor_model in
  let? presence := flag document "presence_detected" in
  let? moving := flag document "moving_target_detected" in
  let? stationary := flag document "stationary_target_detected" in
  if negb (Bool.eqb presence (moving || stationary))
  then error "presence_detected must equal moving or stationary target detection" else
  let? detection_distance := distance document "detection_distance_cm" in
  let? moving_distance := distance document "moving_distance_cm" in
  let? stationary_distance := distance document "stationary_distance_cm" in
  let there (d : option Z) := bool_decide (is_Some d) in
  if presence && negb (there detection_distance) then error "detected presence requires detection_distance_cm" else
  if negb presence && there detection_distance then error "no detection must not carry detection_distance_cm" else
  if negb (Bool.eqb moving (there moving_distance))
  then error "moving_distance_cm must exist exactly when moving target is detected" else
  if negb (Bool.eqb stationary (there stationary_distance))
  then error "stationary_distance_cm must exist exactly when stationary target is detected" else
  let? header := parse_position seat_node_format document source in
  let? moving_energy := wire_integer SeatNodeProtocolError document "moving_energy" 0 100 in
  let? stationary_energy := wire_integer SeatNodeProtocolError document "stationary_energy" 0 100 in
  Ok (mkSeatNode header presence moving stationary detection_distance moving_distance stationary_distance
        moving_energy stationary_energy).

(** The words of the adapter. *)
Definition radar_kind : seat_kind := {|
  sk_protocol_error := SeatNodeProtocolError; sk_replay_error := SeatNodeReplayError;
  sk_wrong_node := "observation identity does not match adapter";
  sk_wrong_seat := "observation identity does not match adapter";
  sk_wrong_model := "observation sensor model does not match adapter";
  sk_sequence_regressed := "seat-node sequence repeated or regressed";
  sk_uptime_regressed := "seat-node uptime regressed within one boot";
  sk_restarted := "Seat presence node boot identity changed; ordered sequence restarted";
  sk_changed := fun event_type new_state =>
    if bool_decide (event_type = "RECOVERED") then "Seat presence node recovered" else
    if bool_decide (new_state = "ONLINE") then "Seat presence node online" else
    "Seat presence node reports degraded sensor health";
  sk_code := "SEAT_NODE_"; sk_failure_code := "SEAT_NODE_SOURCE_FAILURE";
  sk_stale := "Seat presence observation is stale"; sk_stale_code := "STALE_SEAT_NODE";
  sk_diagnostic := fun seat_id => str_items
    [("seat_id", PStr seat_id); ("read_only", PBool true); ("seat_occupancy_inferred", PBool false);
     ("medical_state_inferred", PBool false); ("authority_granted", PBool false)];
  sk_recovery := "continue observation-only seat-node monitoring" |}.

(** The confidence [_sensor_event] gives a reading. *)
Definition radar_confidence (o : SeatNodeObservation) : float :=
  let confidence := if sn_presence_detected o then flit 90 (-2) else flit 65 (-2) in
  if bool_decide (sh_sensor_health (sn_header o) = "DEGRADED") then fmin confidence (flit 45 (-2)) else confidence.

(** The payload of [_sensor_event]. *)
Definition radar_payload (o : SeatNodeObservation) : items :=
  let h := sn_header o in
  str_items
    [("seat_id", PStr (sh_seat_id h)); ("source_id", PStr ("seat.radar." +:+ sh_seat_id h));
     ("sensor_model", PStr (sh_sensor_model h)); ("firmware_version", PStr (sh_firmware_version h));
     ("node_boot_id", PStr (sh_boot_id h)); ("sequence", PInt (sh_sequence h)); ("node_uptime_ms", PInt (sh_uptime_ms h));
     ("radar_presence_detected", PBool (sn_presence_detected o));
     ("moving_target_detected", PBool (sn_moving_target_detected o));
     ("stationary_target_detected", PBool (sn_stationary_target_detected o));
     ("movement_state", PStr (movement_state o));
     ("detection_distance_cm", opt_int (sn_detection_distance_cm o));
     ("moving_distance_cm", opt_int (sn_moving_distance_cm o));
     ("stationary_distance_cm", opt_int (sn_stationary_distance_cm o));
     ("moving_energy", PInt (sn_moving_energy o)); ("stationary_energy", PInt (sn_stationary_energy o));
     ("no_detection_means_empty", PBool false); ("seat_occupancy_inferred", PBool false);
     ("occupant_identity_inferred", PBool false); ("heartbeat_measured", PBool false);
     ("medical_state_inferred", PBool false); ("emergency_condition_inferred", PBool false);
     ("grants_authority", PBool false); ("read_only", PBool true)].

(** [_sensor_event] *)
Definition radar_sensor_event (cfg : adapter_config) (o : SeatNodeObservation) (wall monotonic : float)
    (source_reference receipt_id : string) : items :=
  let h := sn_header o in
  sensor_event (ac_emitter cfg) wall monotonic
    (mkReading "seat_presence_radar" (ac_interface_type cfg) (sh_sensor_health h) (radar_confidence o) "runtime-receive"
       (ac_stale_after_ms cfg) (sh_calibration_version h) [("degraded_reason", opt_str (sh_degraded_reason h))] source_reference)
    (radar_payload o) receipt_id.

(** The methods of [SeatPresenceBodyAdapter]. *)
Definition radar_observe (cfg : adapter_config) (o : SeatNodeObservation) : option float -> option float -> string ->
    ambient -> adapter -> outcome (adapter_cycle * adapter) :=
  observe radar_kind cfg (sn_header o) (radar_sensor_event cfg o).
Definition radar_reject : adapter_config -> string -> string -> option float -> ambient -> adapter ->
  outcome (adapter_cycle * adapter) := reject_observation radar_kind.
Definition radar_failure : adapter_config -> string -> option float -> ambient -> adapter ->
  outcome (adapter_cycle * adapter) := mark_failure radar_kind.
Definition radar_stale : adapter_config -> option float -> option float -> ambient -> adapter ->
  outcome (adapter_cycle * adapter) := check_stale radar_kind.
