(* ===== verification/SeatPressure.v ===== *)
(** [services/seat_pressure_pad.py]: pressure evidence from the pads of a seat. *)

From stdpp Require Import base gmap sets list strings sorting.
From Stdlib Require Import ZArith Ascii SpecFloat.
From S2P Require Import Prelude PyText PyVal Json Sha256 PyFloat PyJson TextChecks BodyAdapter SeatAdapter.

(** [SEAT_PRESSURE_NODE_SCHEMA], [_ALLOWED_FIELDS] and the words of the messages. *)
Definition seat_pressure_format : wire_format :=
  mkFormat SeatPressureProtocolError "seat-pressure" "seat-pressure" "seat-pressure sensor_health" "pressure "
  "velvet.seat_pressure_node.v1"
  ["schema"; "node_id"; "seat_id"; "boot_id"; "sequence"; "uptime_ms"; "sensor_model"; "firmware_version";
   "calibration_version"; "sensor_health"; "degraded_reason"; "pressure_mode"; "pads"; "contact_detected";
   "contact_stable_ms"; "lateral_state"; "lateral_shift_detected"; "lateral_shift_direction"; "total_load_kg_equivalent"].
Definition allowed_pad_fields : list string := ["pad_id"; "zone"; "active"; "raw_value"; "normalized_load"].
Definition lateral_states : list string := ["LEFT"; "CENTER"; "RIGHT"; "BALANCED"; "MIXED"; "NO_CONTACT"; "UNKNOWN"].

Record PressurePadSample := mkPad {
  pp_pad_id : string; pp_zone : string; pp_active : bool; pp_raw_value : option Z; pp_normalized_load : option float }.

Record SeatPressureObservation := mkSeatPressure {
  sp_header : seat_header;
  sp_pressure_mode : string; sp_pads : list PressurePadSample; sp_contact_detected : bool; sp_contact_stable_ms : Z;
  sp_lateral_state : string; sp_lateral_shift_detected : bool; sp_lateral_shift_direction : string;
  sp_total_load_kg_equivalent : option float }.

(** [active_pad_count] *)
Definition active_pad_count (o : SeatPressureObservation) : Z := Z.of_nat (length (filter (fun p => pp_active p = true) (sp_pads o))).

Definition pressure_error {A} (msg : string) : outcome A := raise SeatPressureProtocolError msg.

(** [peek_seat_node_schema] *)
Definition peek_seat_node_schema (line : byte_string) (max_line_bytes : Z) : outcome string :=
  let? document := decode_unique_document SeatPressureProtocolError "seat-pressure" line max_line_bytes in
  let bad := pressure_error "seat-node schema must be bounded text" in
  match get document "schema" with PStr s => if is_wire_text s then Ok s else bad | _ => bad end.

(** [_parse_pad] *)
Definition parse_pad (index : Z) (pressure_mode : string) (value : pyval) : outcome PressurePadSample :=
  let name := "pressure pad " +:+ str_of_Z index in
  match value with
  | PDict pad =>
      let? _ := check_fields SeatPressureProtocolError name pad allowed_pad_fields in
      let? normalized := optional_finite_number SeatPressureProtocolError pad "normalized_load" f0 f1 in
      if bool_decide (pressure_mode = "BINARY_CONTACT" /\ normalized <> None)
      then pressure_error "binary pressure pad cannot carry normalized_load" else
      let? pad_id := required_id SeatPressureProtocolError pad "pad_id" in
      let? zone := required_id SeatPressureProtocolError pad "zone" in
      let? active := required_bool SeatPressureProtocolError pad "active" in
      let? raw_value := optional_integer SeatPressureProtocolError pad "raw_value" 0 1000000000 in
      Ok (mkPad pad_id zone active raw_value normalized)
  | _ => pressure_error (name +:+ " must be an object")
  end.

(** The loop over the pads. *)
Fixpoint parse_pads (index : Z) (seen : list string) (pressure_mode : string) (pads : list pyval)
    : outcome (list PressurePadSample) :=
  match pads with
  | [] => Ok []
  | raw_pad :: rest =>
      let? pad := parse_pad index pressure_mode raw_pad in
      if bool_decide (pp_pad_id pad ∈ seen) then pressure_error ("duplicate pressure pad_id: " +:+ pp_pad_id pad) else
      let? pads := parse_pads (index + 1) (pp_pad_id pad :: seen) pressure_mode rest in Ok (pad :: pads)
  end.

(** The tests on contact, lateral state and lateral shift. *)
Definition check_contact (contact : bool) (lateral_state : string) : outcome unit :=
  if bool_decide (lateral_state ∉ lateral_states) then pressure_error "unsupported lateral_state" else
  if negb contact && bool_decide (lateral_state <> "NO_CONTACT")
  then pressure_error "no pressure contact must use lateral_state NO_CONTACT" else
  if contact && bool_decide (lateral_state = "NO_CONTACT")
  then pressure_error "pressure contact cannot use lateral_state NO_CONTACT" else Ok tt.

Definition check_shift (contact shift : bool) (direction : string) : outcome unit :=
  if bool_decide (direction ∉ ["LEFT"; "RIGHT"; "NONE"; "UNKNOWN"]) then pressure_error "unsupported lateral_shift_direction" else
  if shift && bool_decide (direction ∉ ["LEFT"; "RIGHT"])
  then pressure_error "detected lateral shift requires LEFT or RIGHT direction" else
  if negb shift && bool_decide (direction ∉ ["NONE"; "UNKNOWN"])
  then pressure_error "no lateral shift must use NONE or UNKNOWN direction" else
  if negb contact && shift then pressure_error "lateral shift cannot be detected without pressure contact" else Ok tt.

(** The tests on the load claims of the mode. *)
Definition check_load (pressure_mode : string) (total_load : option float) (pads : list PressurePadSample) : outcome unit :=
  if bool_decide (pressure_mode = "BINARY_CONTACT") then
    if bool_decide (is_Some total_load) then pressure_error "binary pressure pads cannot claim a kilogram-equivalent load" else
    if existsb (fun p => bool_decide (is_Some (pp_normalized_load p))) pads
    then pressure_error "binary pressure pads cannot claim normalized load" else Ok tt
  else
    if bool_decide (total_load = None) then pressure_error "calibrated load mode requires total_load_kg_equivalent" else
    if existsb (fun p => bool_decide (pp_normalized_load p = None)) pads
    then pressure_error "calibrated load mode requires normalized_load for every pad" else Ok tt.

(** [parse_seat_pressure_line] *)
Definition parse_seat_pressure_line (line : byte_string) (expected_node_id expected_seat_id expected_sensor_model : string)
    (max_line_bytes : Z) : outcome SeatPressureObservation :=
  let upper_text document key := outcome_map upper (wire_text SeatPressureProtocolError document key) in
  let? document := decode_unique_document SeatPressureProtocolError "seat-pressure" line max_line_bytes in
  let? source := parse_source seat_pressure_format document expected_node_id expected_seat_id expected_sensor_model in
  let? pressure_mode := upper_text document "pressure_mode" in
  if bool_decide (pressure_mode ∉ ["BINARY_CONTACT"; "CALIBRATED_LOAD"]) then pressure_error "unsupported pressure_mode" else
  let between := pressure_error "pads must contain between one and eight pads" in
  let? pads_raw := match get document "pads" with
    | PList l => if within_bounds (Z.of_nat (length l)) 1 8 then Ok l else between
    | _ => between
    end in
  let? pads := parse_pads 0 [] pressure_mode pads_raw in
  let? contact := required_bool SeatPressureProtocolError document "contact_detected" in
  if negb (Bool.eqb contact (existsb pp_active pads))
  then pressure_error "contact_detected must equal whether any pressure pad is active" else
  let? lateral_state := upper_text document "lateral_state" in
  let? _ := check_contact contact lateral_state in
  let? shift := required_bool SeatPressureProtocolError document "lateral_shift_detected" in
  let? direction := upper_text document "lateral_shift_direction" in
  let? _ := check_shift contact shift direction in
  let? total_load := optional_finite_number SeatPressureProtocolError document "total_load_kg_equivalent" f0 (float_of_Z 300) in
  let? _ := check_load pressure_mode total_load pads in
  let? header := parse_position seat_pressure_format document source in
  let? stable := wire_integer SeatPressureProtocolError document "contact_stable_ms" 0 2147483647 in
  Ok (mkSeatPressure header pressure_mode pads contact stable lateral_state shift direction total_load).

(** ** The adapter *)

(** [SeatPressureAdapterConfig]: the common fields and the two assertion times. *)
Record pressure_config := mkPressureConfig {
  pc_common : adapter_config; pc_contact_assert_ms : Z; pc_release_assert_ms : Z }.

(** [SeatPressureAdapterConfig.__post_init__] *)
Definition check_pressure_config (c : pressure_config) : outcome unit :=
  let? _ := check_adapter_config (pc_common c) in
  let? _ := bounded_config_integer (pc_contact_assert_ms c) "contact_assert_ms" 0 60000 in
  let? _ := bounded_config_integer (pc_release_assert_ms c) "release_assert_ms" 0 600000 in
  if (pc_release_assert_ms c <? pc_contact_assert_ms c)%Z
  then raise ValueError "release_assert_ms must not be shorter than contact_assert_ms" else Ok tt.

Definition pressure_kind : seat_kind := {|
  sk_protocol_error := SeatPressureProtocolError; sk_replay_error := SeatPressureReplayError;
  sk_wrong_node := "pressure observation identity does not match adapter";
  sk_wrong_seat := "pressure observation identity does not match adapter";
  sk_wrong_model := "pressure observation model does not match adapter";
  sk_sequence_regressed := "seat-pressure sequence repeated or regressed";
  sk_uptime_regressed := "seat-pressure uptime regressed within one boot";
  sk_restarted := "Seat pressure node boot identity changed; ordered sequence restarted";
  sk_changed := fun event_type new_state =>
    if bool_decide (event_type = "RECOVERED") then "Seat pressure node recovered" else
    if bool_decide (new_state = "ONLINE") then "Seat pressure node online" else
    "Seat pressure node reports degraded sensor health";
  sk_code := "SEAT_PRESSURE_"; sk_failure_code := "SEAT_PRESSURE_SOURCE_FAILURE";
  sk_stale := "Seat pressure observation is stale"; sk_stale_code := "STALE_SEAT_PRESSURE";
  sk_diagnostic := fun seat_id => str_items
    [("seat_id", PStr seat_id); ("sensor_kind", PStr "seat_pressure_array"); ("read_only", PBool true);
     ("seat_occupancy_inferred", PBool false); ("medical_state_inferred", PBool false); ("authority_granted", PBool false)];
  sk_recovery := "continue observation-only seat pressure monitoring" |}.

(** [_contact_state] *)
Definition contact_state (contact : bool) (stable_ms contact_assert_ms release_assert_ms : Z) : string :=
  if contact && (contact_assert_ms <=? stable_ms)%Z then "CONTACT_CONFIRMED" else
  if negb contact && (release_assert_ms <=? stable_ms)%Z then "NO_CONTACT_CONFIRMED" else "TRANSITION".

Definition pressure_state (c : pressure_config) (o : SeatPressureObservation) : string :=
  contact_state (sp_contact_detected o) (sp_contact_stable_ms o) (pc_contact_assert_ms c) (pc_release_assert_ms c).

(** The confidence [_sensor_event] gives a reading. *)
Definition pressure_confidence (state : string) (o : SeatPressureObservation) : float :=
  let calibrated := bool_decide (sp_pressure_mode o = "CALIBRATED_LOAD") in
  let confidence :=
    if bool_decide (state = "CONTACT_CONFIRMED") then if calibrated then flit 92 (-2) else flit 88 (-2) else
    if bool_decide (state = "NO_CONTACT_CONFIRMED") then if calibrated then flit 70 (-2) else flit 60 (-2) else
    flit 35 (-2) in
  if bool_decide (sh_sensor_health (sp_header o) = "DEGRADED") then fmin confidence (flit 40 (-2)) else confidence.

Definition pad_document (p : PressurePadSample) : pyval := PDict (str_items
  [("pad_id", PStr (pp_pad_id p)); ("zone", PStr (pp_zone p)); ("active", PBool (pp_active p));
   ("raw_value", opt_int (pp_raw_value p)); ("normalized_load", opt_float (pp_normalized_load p))]).

(** The payload of [_sensor_event]. *)
Definition pressure_payload (c : pressure_config) (o : SeatPressureObservation) : items :=
  let h := sp_header o in
  let state := pressure_state c o in
  let estimated := bool_decide (is_Some (sp_total_load_kg_equivalent o)) in
  str_items
    [("seat_id", PStr (sh_seat_id h)); ("source_id", PStr ("seat.pressure." +:+ sh_seat_id h));
     ("sensor_model", PStr (sh_sensor_model h)); ("firmware_version", PStr (sh_firmware_version h));
     ("node_boot_id", PStr (sh_boot_id h)); ("sequence", PInt (sh_sequence h)); ("node_uptime_ms", PInt (sh_uptime_ms h));
     ("pressure_mode", PStr (sp_pressure_mode o)); ("pads", PList (pad_document <$> sp_pads o));
     ("pad_count", PInt (Z.of_nat (length (sp_pads o)))); ("active_pad_count", PInt (active_pad_count o));
     ("pressure_contact_detected_raw", PBool (sp_contact_detected o));
     ("pressure_contact_stable_ms", PInt (sp_contact_stable_ms o)); ("pressure_contact_state", PStr state);
     ("pressure_contact_confirmed", PBool (bool_decide (state = "CONTACT_CONFIRMED")));
     ("pressure_release_confirmed", PBool (bool_decide (state = "NO_CONTACT_CONFIRMED")));
     ("contact_assert_ms", PInt (pc_contact_assert_ms c)); ("release_assert_ms", PInt (pc_release_assert_ms c));
     ("lateral_state", PStr (sp_lateral_state o)); ("lateral_shift_detected", PBool (sp_lateral_shift_detected o));
     ("lateral_shift_direction", PStr (sp_lateral_shift_direction o));
     ("total_load_kg_equivalent", opt_float (sp_total_load_kg_equivalent o));
     ("load_estimate_available", PBool estimated); ("load_is_estimate", PBool estimated);
     ("binary_contact_converted_to_load", PBool false); ("pressure_contact_means_occupied", PBool false);
     ("no_pressure_contact_means_empty", PBool false); ("seat_occupancy_inferred", PBool false);
     ("occupant_identity_inferred", PBool false); ("heartbeat_measured", PBool false);
     ("medical_state_inferred", PBool false); ("emergency_condition_inferred", PBool false);
     ("grants_authority", PBool false); ("read_only", PBool true)].

(** [_sensor_event] *)
Definition pressure_sensor_event (c : pressure_config) (o : SeatPressureObservation) (wall monotonic : float)
    (source_reference receipt_id : string) : items :=
  let h := sp_header o in
  let cfg := pc_common c in
  sensor_event (ac_emitter cfg) wall monotonic
    (mkReading "seat_pressure_array" (ac_interface_type cfg) (sh_sensor_health h) (pressure_confidence (pressure_state c o) o)
       "runtime-receive" (ac_stale_after_ms cfg) (sh_calibration_version h) [("degraded_reason", opt_str (sh_degraded_reason h))]
       source_reference)
    (pressure_payload c o) receipt_id.

(** The methods of [SeatPressureBodyAdapter]. *)
Definition pressure_observe (c : pressure_config) (o : SeatPressureObservation) : option float -> option float -> string ->
    ambient -> adapter -> outcome (adapter_cycle * adapter) :=
  observe pressure_kind (pc_common c) (sp_header o) (pressure_sensor_event c o).
Definition pressure_reject : adapter_config -> string -> string -> option float -> ambient -> adapter ->
  outcome (adapter_cycle * adapter) := reject_observation pressure_kind.
Definition pressure_failure : adapter_config -> string -> option float -> ambient -> adapter ->
  outcome (adapter_cycle * adapter) := mark_failure pressure_kind.
Definition pressure_stale : adapter_config -> option float -> option float -> ambient -> adapter ->
  outcome (adapter_cycle * adapter) := check_stale pressure_kind.
