(* ===== verification/SeatHeartbeat.v ===== *)
(** [services/seat_heartbeat_signal.py]: heartbeat-signal evidence from a seat. *)

From stdpp Require Import base gmap sets list strings sorting.
From Stdlib Require Import ZArith Ascii SpecFloat.
From S2P Require Import Prelude PyText PyVal Json Sha256 PyFloat PyJson TextChecks BodyAdapter SeatAdapter.

(** [SEAT_HEARTBEAT_NODE_SCHEMA], [_ALLOWED_FIELDS] and the words of the messages. *)
Definition seat_heartbeat_format : wire_format :=
  mkFormat SeatHeartbeatProtocolError "seat-heartbeat" "seat-heartbeat" "seat-heartbeat sensor_health" "heartbeat "
  "velvet.seat_heartbeat_node.v1"
  ["schema"; "node_id"; "seat_id"; "boot_id"; "sequence"; "uptime_ms"; "sensor_model"; "firmware_version";
   "calibration_version"; "sensor_health"; "degraded_reason"; "signal_detected"; "heartbeat_bpm"; "heartbeat_confidence";
   "signal_quality"; "measurement_window_ms"].

Record SeatHeartbeatObservation := mkSeatHeartbeat {
  hb_header : seat_header;
  hb_signal_detected : bool; hb_heartbeat_bpm : option float; hb_heartbeat_confidence : float;
  hb_signal_quality : float; hb_measurement_window_ms : Z }.

(** The tests on a detected and on a missing signal. *)
Definition check_signal (detected : bool) (bpm : option float) (confidence quality : float) : outcome unit :=
  let error {A} (msg : string) : outcome A := raise SeatHeartbeatProtocolError msg in
  if detected then
    if bool_decide (bpm = None) then error "detected heartbeat signal requires heartbeat_bpm" else
    if fle confidence f0 || fle quality f0
    then error "detected heartbeat signal requires positive confidence and quality" else Ok tt
  else
    if bool_decide (is_Some bpm) then error "no heartbeat signal must not carry heartbeat_bpm" else
    if negb (feq confidence f0) then error "no heartbeat signal must use zero heartbeat_confidence" else Ok tt.

(** [parse_seat_heartbeat_line] *)
Definition parse_seat_heartbeat_line (line : byte_string) (expected_node_id expected_seat_id expected_sensor_model : string)
    (max_line_bytes : Z) : outcome SeatHeartbeatObservation :=
  let? document := decode_unique_document SeatHeartbeatProtocolError "seat-heartbeat" line max_line_bytes in
  let? source := parse_source seat_heartbeat_format document expected_node_id expected_seat_id expected_sensor_model in
  let? detected := required_bool SeatHeartbeatProtocolError document "signal_detected" in
  let? bpm := optional_finite_number SeatHeartbeatProtocolError document "heartbeat_bpm" f1 (float_of_Z 300) in
  let? confidence := required_finite_number SeatHeartbeatProtocolError document "heartbeat_confidence" f0 f1 in
  let? quality := required_finite_number SeatHeartbeatProtocolError document "signal_quality" f0 f1 in
  let? _ := check_signal detected bpm confidence quality in
  let? header := parse_position seat_heartbeat_format document source in
  let? window := wire_integer SeatHeartbeatProtocolError document "measurement_window_ms" 100 60000 in
  Ok (mkSeatHeartbeat header detected bpm confidence quality window).

(** The words of the adapter. *)
Definition heartbeat_kind : seat_kind := {|
  sk_protocol_error := SeatHeartbeatProtocolError; sk_replay_error := SeatHeartbeatReplayError;
  sk_wrong_node := "heartbeat observation node does not match adapter";
  sk_wrong_seat := "heartbeat observation seat does not match adapter";
  sk_wrong_model := "heartbeat observation model does not match adapter";
  sk_sequence_regressed := "seat-heartbeat sequence repeated or regressed";
  sk_uptime_regressed := "seat-heartbeat uptime regressed within one boot";
  sk_restarted := "Seat heartbeat node boot identity changed; ordered sequence restarted";
  sk_changed := fun _ new_state => "Seat heartbeat signal source " +:+ lower new_state;
  sk_code := "SEAT_HEARTBEAT_"; sk_failure_code := "SEAT_HEARTBEAT_SOURCE_FAILURE";
  sk_stale := "Seat heartbeat observation is stale"; sk_stale_code := "STALE_SEAT_HEARTBEAT";
  sk_diagnostic := fun seat_id => str_items
    [("seat_id", PStr seat_id); ("sensor_kind", PStr "seat_heartbeat_signal"); ("read_only", PBool true);
     ("missing_heartbeat_means_absent", PBool false); ("medical_state_inferred", PBool false);
     ("authority_granted", PBool false)];
  sk_recovery := "continue observation-only heartbeat monitoring" |}.

(** The confidence [_sensor_event] gives a reading. *)
Definition heartbeat_confidence (o : SeatHeartbeatObservation) : float :=
  if bool_decide (sh_sensor_health (hb_header o) = "DEGRADED")
  then fmin (hb_heartbeat_confidence o) (flit 40 (-2)) else hb_heartbeat_confidence o.

(** The payload of [_sensor_event]. *)
Definition heartbeat_payload (o : SeatHeartbeatObservation) : items :=
  let h := hb_header o in
  str_items
    [("seat_id", PStr (sh_seat_id h)); ("source_id", PStr ("seat.heartbeat." +:+ sh_seat_id h));
     ("person_sense_family", PStr "seat_person_sense"); ("fusion_role", PStr "heartbeat_signal");
     ("sensor_model", PStr (sh_sensor_model h)); ("firmware_version", PStr (sh_firmware_version h));
     ("node_boot_id", PStr (sh_boot_id h)); ("sequence", PInt (sh_sequence h)); ("node_uptime_ms", PInt (sh_uptime_ms h));
     ("signal_detected", PBool (hb_signal_detected o));
     ("heartbeat_bpm", opt_float (hb_heartbeat_bpm o));
     ("heartbeat_confidence", PFloat (hb_heartbeat_confidence o)); ("signal_quality", PFloat (hb_signal_quality o));
     ("measurement_window_ms", PInt (hb_measurement_window_ms o));
     ("missing_heartbeat_means_absent", PBool false); ("heartbeat_signal_is_medical_diagnosis", PBool false);
     ("person_presence_inferred", PBool false); ("seat_occupancy_inferred", PBool false);
     ("occupant_identity_inferred", PBool false); ("medical_state_inferred", PBool false);
     ("emergency_condition_inferred", PBool false); ("grants_authority", PBool false); ("read_only", PBool true)].

(** [_sensor_event] *)
Definition heartbeat_sensor_event (cfg : adapter_config) (o : SeatHeartbeatObservation) (wall monotonic : float)
    (source_reference receipt_id : string) : items :=
  let h := hb_header o in
  sensor_event (ac_emitter cfg) wall monotonic
    (mkReading "seat_heartbeat_signal" (ac_interface_type cfg) (sh_sensor_health h) (heartbeat_confidence o) "runtime-receive"
       (ac_stale_after_ms cfg) (sh_calibration_version h) [("degraded_reason", opt_str (sh_degraded_reason h))] source_reference)
    (heartbeat_payload o) receipt_id.

(** The methods of [SeatHeartbeatBodyAdapter]. *)
Definition heartbeat_observe (cfg : adapter_config) (o : SeatHeartbeatObservation) : option float -> option float -> string ->
    ambient -> adapter -> outcome (adapter_cycle * adapter) :=
  observe heartbeat_kind cfg (hb_header o) (heartbeat_sensor_event cfg o).
Definition heartbeat_reject : adapter_config -> string -> string -> option float -> ambient -> adapter ->
  outcome (adapter_cycle * adapter) := reject_observation heartbeat_kind.
Definition heartbeat_failure : adapter_config -> string -> option float -> ambient -> adapter ->
  outcome (adapter_cycle * adapter) := mark_failure heartbeat_kind.
Definition heartbeat_stale : adapter_config -> option float -> option float -> ambient -> adapter ->
  outcome (adapter_cycle * adapter) := check_stale heartbeat_kind.
