(* ===== verification/SeatBodyMap.v ===== *)
(** [services/seat_person_sense_body_map.py]: the topology of a seat's pads, and the adapter that
    turns pressure readings into contact and movement evidence. *)

From stdpp Require Import base gmap sets list strings sorting.
From Stdlib Require Import ZArith Ascii SpecFloat.
From S2P Require Import Prelude PyText PyVal Json Sha256 PyFloat StrDict PyJson TextChecks BodyAdapter SeatAdapter SeatPressure.

Definition topology_error {A} (msg : string) : outcome A := raise SeatPersonSenseTopologyError msg.

(** ** The topology *)

Record SeatPadBinding := mkBinding {
  pb_pad_id : string; pb_role : string; pb_surface : string; pb_side : string; pb_movement_weight : float }.

Record SeatPersonSenseTopology := mkTopology {
  tp_topology_id : string; tp_seat_id : string; tp_vehicle_profile : string; tp_calibration_version : string;
  tp_pads : list SeatPadBinding }.

(** [movement_topology_complete] *)
Definition movement_topology_complete (t : SeatPersonSenseTopology) : bool :=
  bool_decide (Forall (fun role => role ∈ pb_role <$> tp_pads t) ["MAIN_LOAD"; "SIDE_BOLSTER"; "EDGE_MOTION"]).

(** [binding_for] *)
Definition binding_for (t : SeatPersonSenseTopology) (pad_id : string) : outcome SeatPadBinding :=
  match list_find (fun b => pb_pad_id b = pad_id) (tp_pads t) with
  | Some (_, b) => Ok b
  | None => topology_error "pressure pad is not bound in topology"
  end.

(** [_parse_binding] *)
Definition parse_binding (index : Z) (value : pyval) : outcome SeatPadBinding :=
  let name := "topology pad " +:+ str_of_Z index in
  let error := SeatPersonSenseTopologyError in
  match value with
  | PDict pad =>
      let? _ := check_fields error name pad ["pad_id"; "role"; "surface"; "side"; "movement_weight"] in
      let? role := outcome_map upper (wire_text error pad "role") in
      if bool_decide (role ∉ ["MAIN_LOAD"; "SIDE_BOLSTER"; "EDGE_MOTION"])
      then topology_error "unsupported person-sense pad role" else
      let? side := outcome_map upper (wire_text error pad "side") in
      if bool_decide (side ∉ ["LEFT"; "RIGHT"; "CENTER"; "BOTH"; "NA"])
      then topology_error "unsupported person-sense pad side" else
      let? pad_id := required_id error pad "pad_id" in
      let? surface := required_id error pad "surface" in
      let? weight := required_finite_number error pad "movement_weight" f0 (float_of_Z 100) in
      Ok (mkBinding pad_id role surface side weight)
  | _ => topology_error (name +:+ " must be an object")
  end.

(** The loop over the pads. *)
Fixpoint parse_bindings (index : Z) (seen : list string) (pads : list pyval) : outcome (list SeatPadBinding) :=
  match pads with
  | [] => Ok []
  | raw :: rest =>
      let? binding := parse_binding index raw in
      if bool_decide (pb_pad_id binding ∈ seen)
      then topology_error ("duplicate topology pad_id: " +:+ pb_pad_id binding) else
      let? bindings := parse_bindings (index + 1) (pb_pad_id binding :: seen) rest in Ok (binding :: bindings)
  end.

(** [sum(binding.movement_weight for ...)], from the left. *)
Definition total_weight (pads : list SeatPadBinding) : float :=
  fold_left (fun acc b => fadd acc (pb_movement_weight b)) pads f0.

(** [parse_seat_person_sense_topology] *)
Definition parse_seat_person_sense_topology (text : string) (expected_seat_id : option string)
    : outcome SeatPersonSenseTopology :=
  let error := SeatPersonSenseTopologyError in
  if is_blank text then topology_error "topology document must be non-empty text" else
  if (32768 <? Z.of_nat (length (utf8 text)))%Z then topology_error "topology document exceeds size bound" else
  let? document := match loads_unique text with
    | Ok (PDict d) => Ok d
    | Ok _ => topology_error "topology root must be an object"
    | Err e => topology_error ("topology document is not valid unique-key JSON: " +:+ exn_message e)
    end in
  let? _ := check_fields error "topology" document
    ["schema"; "topology_id"; "seat_id"; "vehicle_profile"; "calibration_version"; "pads"] in
  if negb (eq_str (get document "schema") "velvet.seat_person_sense_topology.v1")
  then topology_error "unsupported person-sense topology schema" else
  let? seat_id := required_id error document "seat_id" in
  let? _ := match expected_seat_id with
    | None => Ok tt
    | Some s =>
        let? expected := validated_expected_id s "expected_seat_id" in
        if bool_decide (seat_id <> expected) then topology_error "topology seat does not match configured seat" else Ok tt
    end in
  let between := topology_error "topology pads must contain between one and thirty-two entries" in
  let? raw_pads := match get document "pads" with
    | PList l => if within_bounds (Z.of_nat (length l)) 1 32 then Ok l else between
    | _ => between
    end in
  let? bindings := parse_bindings 0 [] raw_pads in
  if negb (existsb (fun b => bool_decide (pb_role b = "MAIN_LOAD")) bindings)
  then topology_error "person-sense topology requires at least one MAIN_LOAD pad" else
  if fle (total_weight bindings) f0 then topology_error "person-sense topology requires positive movement weight" else
  let? topology_id := required_id error document "topology_id" in
  let? vehicle_profile := wire_text error document "vehicle_profile" in
  let? calibration_version := wire_text error document "calibration_version" in
  Ok (mkTopology topology_id seat_id vehicle_profile calibration_version bindings).

(** [load_seat_person_sense_topology], given what reading the file answers. *)
Definition load_seat_person_sense_topology (content : outcome string) (expected_seat_id : option string)
    : outcome SeatPersonSenseTopology :=
  match content with
  | Ok text => parse_seat_person_sense_topology text expected_seat_id
  | Err e => if is_OSError e then topology_error ("unable to read seat person-sense topology: " +:+ exn_message e) else Err e
  end.

(** ** The adapter *)

(** [SeatPersonSenseBodyMapConfig] is an [adapter_config] without a sensor model. *)
Definition check_body_map_config (c : adapter_config) : outcome unit :=
  let? _ := validated_expected_id (em_module_id (ac_emitter c)) "module_id" in
  let? _ := validated_expected_id (em_node_id (ac_emitter c)) "node_id" in
  let? _ := validated_expected_id (ac_seat_id c) "seat_id" in
  let? _ := validated_expected_id (em_owning_handmaiden (ac_emitter c)) "owning_handmaiden" in
  let? _ := required_expected_text (ac_interface_type c) "interface_type" in
  let? _ := bounded_config_integer (ac_stale_after_ms c) "stale_after_ms" 250 600000 in
  let? _ := bounded_config_integer (ac_failure_threshold c) "failure_threshold" 1 100 in Ok tt.

Record body_map := mkBodyMap {
  bm_state : string; bm_last_active : option (sdict bool); bm_last_seen : option float; bm_stale_reported : bool;
  bm_failures : Z; bm_last_failure : option string }.
Definition new_body_map : body_map := mkBodyMap "UNKNOWN" None None false 0 None.

(** [SeatPersonSenseBodyMapAdapter.__init__] *)
Definition make_body_map (c : adapter_config) (t : SeatPersonSenseTopology) : outcome body_map :=
  if bool_decide (ac_seat_id c <> tp_seat_id t)
  then topology_error "body-map configuration and topology seat do not match" else Ok new_body_map.

(** A dictionary by pad identity: a later pad of the same identity replaces an earlier one. *)
Definition by_pad {A} (value : PressurePadSample -> A) (pads : list PressurePadSample) : sdict A :=
  fold_left (fun d p => d_set d (pp_pad_id p) (value p)) pads [].

Section BodyMap.
Context (cfg : adapter_config) (topology : SeatPersonSenseTopology).

Definition pad_item {A} (d : sdict A) (pad_id : string) : outcome A :=
  match d_get d pad_id with Some x => Ok x | None => raise KeyError (repr pad_id) end.

(** The pads whose contact changed, in the order of the topology. *)
Fixpoint changed_pads (last active : sdict bool) (pads : list SeatPadBinding) : outcome (list SeatPadBinding) :=
  match pads with
  | [] => Ok []
  | binding :: rest =>
      let? before := pad_item last (pb_pad_id binding) in
      let? after := pad_item active (pb_pad_id binding) in
      let? changed := changed_pads last active rest in
      Ok (if Bool.eqb before after then changed else binding :: changed)
  end.

(** What [observe] finds out about movement. *)
Record movement := mkMovement {
  mv_baseline : bool; mv_pad_ids : list string; mv_roles : list string; mv_surfaces : list string; mv_intensity : float }.

(** [a / b] of two floats. *)
Definition float_div (a b : float) : outcome float :=
  if feq b f0 then raise OtherError "float division by zero" else Ok (SFdiv 53 1024 a b).

Definition find_movement (last : option (sdict bool)) (active : sdict bool) : outcome movement :=
  match last with
  | None => Ok (mkMovement false [] [] [] f0)
  | Some before =>
      let? changed := changed_pads before active (tp_pads topology) in
      let? share := float_div (total_weight changed) (total_weight (tp_pads topology)) in
      let? bound := mapM_outcome (fun b => binding_for topology (pb_pad_id b)) changed in
      Ok (mkMovement true (pb_pad_id <$> changed) (sorted_set (pb_role <$> bound)) (sorted_set (pb_surface <$> bound))
            (fmin f1 share))
  end.

Definition same_ids (observed expected : list string) : bool :=
  bool_decide (observed ⊆ expected) && bool_decide (expected ⊆ observed).

(** The guards of [observe]. *)
Definition check_observation (o : SeatPressureObservation) : outcome unit :=
  let h := sp_header o in
  if bool_decide (sh_node_id h <> em_node_id (ac_emitter cfg))
  then topology_error "pressure observation node does not match body-map adapter" else
  if bool_decide (sh_seat_id h <> ac_seat_id cfg)
  then topology_error "pressure observation seat does not match body-map adapter" else
  let observed := pp_pad_id <$> sp_pads o in
  let expected := pb_pad_id <$> tp_pads topology in
  if negb (same_ids observed expected)
  then topology_error ("pressure pads do not match topology; missing="
         +:+ py_repr (strs (sorted_set (filter (fun i => i ∉ observed) expected))) +:+ " extra="
         +:+ py_repr (strs (sorted_set (filter (fun i => i ∉ expected) observed))))
  else Ok tt.

Definition count_in (d : sdict Z) (key : string) : sdict Z := d_set d key (default 0%Z (d_get d key) + 1)%Z.
Definition counts (keys : list string) : sdict Z := fold_left count_in keys [].
Definition counts_document (d : sdict Z) : pyval := PDict (str_items ((fun kv => (kv.1, PInt kv.2)) <$> d)).

Definition mapped_pad (b : SeatPadBinding) (p : PressurePadSample) : pyval := PDict (str_items
  [("pad_id", PStr (pb_pad_id b)); ("role", PStr (pb_role b)); ("surface", PStr (pb_surface b)); ("side", PStr (pb_side b));
   ("movement_weight", PFloat (pb_movement_weight b)); ("active", PBool (pp_active p));
   ("raw_value", opt_int (pp_raw_value p)); ("normalized_load", opt_float (pp_normalized_load p))]).

(** The bindings with the pads bound to them, in the order of the topology. *)
Definition bound_pads (o : SeatPressureObservation) : outcome (list (SeatPadBinding * PressurePadSample)) :=
  mapM_outcome (fun b => let? p := pad_item (by_pad id (sp_pads o)) (pb_pad_id b) in Ok (b, p)) (tp_pads topology).

(** The payload of [_sensor_event]. *)
Definition body_map_payload (o : SeatPressureObservation) (m : movement) (pads : list (SeatPadBinding * PressurePadSample))
    : items :=
  let active := filter (fun bp => pp_active bp.2 = true) pads in
  let active_roles := counts (pb_role <$> active.*1) in
  let contact role := PBool (0 <? default 0%Z (d_get active_roles role))%Z in
  str_items
    [("seat_id", PStr (sh_seat_id (sp_header o)));
     ("source_id", PStr ("seat.person_sense.body_map." +:+ sh_seat_id (sp_header o)));
     ("person_sense_family", PStr "seat_person_sense"); ("fusion_role", PStr "body_contact_and_movement_map");
     ("topology_id", PStr (tp_topology_id topology)); ("vehicle_profile", PStr (tp_vehicle_profile topology));
     ("topology_calibration_version", PStr (tp_calibration_version topology));
     ("pressure_calibration_version", PStr (sh_calibration_version (sp_header o)));
     ("movement_topology_complete", PBool (movement_topology_complete topology));
     ("mapped_pads", PList ((fun bp => mapped_pad bp.1 bp.2) <$> pads)); ("pad_count", PInt (Z.of_nat (length pads)));
     ("role_counts", counts_document (counts (pb_role <$> pads.*1))); ("active_role_counts", counts_document active_roles);
     ("side_counts", counts_document (counts (pb_side <$> pads.*1)));
     ("active_side_counts", counts_document (counts (pb_side <$> active.*1)));
     ("main_load_contact_detected", contact "MAIN_LOAD"); ("side_bolster_contact_detected", contact "SIDE_BOLSTER");
     ("edge_motion_contact_detected", contact "EDGE_MOTION"); ("baseline_established", PBool (mv_baseline m));
     ("movement_detected", PBool (bool_decide (mv_pad_ids m <> []))); ("movement_intensity", PFloat (py_round 6 (mv_intensity m)));
     ("changed_pad_ids", strs (mv_pad_ids m)); ("changed_roles", strs (mv_roles m)); ("changed_surfaces", strs (mv_surfaces m));
     ("pressure_lateral_state", PStr (sp_lateral_state o));
     ("pressure_lateral_shift_detected", PBool (sp_lateral_shift_detected o));
     ("pressure_lateral_shift_direction", PStr (sp_lateral_shift_direction o));
     ("companion_evidence_expected", strs ["seat_presence_radar"; "seat_heartbeat_signal"; "camera_posture_evidence"]);
     ("heartbeat_observed_by_this_adapter", PBool false); ("missing_heartbeat_means_absent", PBool false);
     ("person_presence_inferred", PBool false); ("seat_occupancy_inferred", PBool false);
     ("occupant_posture_inferred", PBool false); ("occupant_identity_inferred", PBool false);
     ("heartbeat_measured_by_pressure", PBool false); ("medical_state_inferred", PBool false);
     ("emergency_condition_inferred", PBool false); ("grants_authority", PBool false); ("read_only", PBool true)].

Definition body_map_confidence (o : SeatPressureObservation) : float :=
  let confidence := if movement_topology_complete topology then flit 85 (-2) else flit 65 (-2) in
  if bool_decide (sh_sensor_health (sp_header o) = "DEGRADED") then fmin confidence (flit 40 (-2)) else confidence.

(** [_sensor_event] *)
Definition body_map_sensor_event (o : SeatPressureObservation) (wall monotonic : float) (state source_reference : string)
    (m : movement) (receipt_id : string) : outcome items :=
  let? pads := bound_pads o in
  Ok (sensor_event (ac_emitter cfg) wall monotonic
    (mkReading "seat_person_sense_body_map" (ac_interface_type cfg) state (body_map_confidence o) "runtime-derived"
       (ac_stale_after_ms cfg) (tp_calibration_version topology)
       [("degraded_reason", if movement_topology_complete topology then PNone else PStr "PARTIAL_PERSON_SENSE_TOPOLOGY")]
       source_reference)
    (body_map_payload o m pads) receipt_id).

(** [_health_event] *)
Definition body_map_health_event (wall : float) (event_type severity before after detail reason_code : string) (extra : items)
    (event_id : string) : items :=
  health_event (ac_emitter cfg) wall (mkReport event_type severity before after)
    (dict_update (str_items
       [("detail", PStr detail); ("reason_code", PStr reason_code); ("seat_id", PStr (ac_seat_id cfg));
        ("sensor_kind", PStr "seat_person_sense_body_map"); ("topology_id", PStr (tp_topology_id topology));
        ("read_only", PBool true); ("person_presence_inferred", PBool false); ("medical_state_inferred", PBool false);
        ("authority_granted", PBool false)]) extra)
    "continue observation-only seat person-sense monitoring" event_id.

(** [observe] of the body map. *)
Definition body_map_observe (o : SeatPressureObservation) (now_wall now_monotonic : option float) (source_reference : string)
    (am : ambient) (st : body_map) : outcome (adapter_cycle * body_map) :=
  let? _ := check_observation o in
  let? wall := reading now_wall (am_time am) "now_wall" in
  let? monotonic := reading now_monotonic (am_monotonic am) "now_monotonic" in
  if is_blank source_reference then raise ValueError "source_reference must be non-empty" else
  let active := by_pad pp_active (sp_pads o) in
  let? m := find_movement (bm_last_active st) active in
  let previous := bm_state st in
  let new_state := if bool_decide (sh_sensor_health (sp_header o) = "DEGRADED") then "DEGRADED" else "ONLINE" in
  let health :=
    if bool_decide (previous <> new_state)
    then Some (body_map_health_event wall (change_type previous new_state)
                 (if bool_decide (new_state = "ONLINE") then "INFO" else "WARNING") previous new_state
                 ("Seat person-sense body map " +:+ lower new_state)
                 (default ("BODY_MAP_" +:+ new_state) (sh_degraded_reason (sp_header o))) [] (am_health_id am))
    else None in
  let? sensor := body_map_sensor_event o wall monotonic new_state (strip source_reference) m (am_receipt_id am) in
  Ok (mkCycle (Some sensor) health, mkBodyMap new_state (Some active) (Some monotonic) false 0 None).

(** [mark_failure] of the body map. *)
Definition body_map_failure (reason : string) (now_wall : option float) (am : ambient) (st : body_map)
    : outcome (adapter_cycle * body_map) :=
  let? detail := required_expected_text reason "failure reason" in
  let? wall := reading now_wall (am_time am) "now_wall" in
  let count := (bm_failures st + 1)%Z in
  let failed := (ac_failure_threshold cfg <=? count)%Z in
  let new_state := if failed then "FAILED" else "DEGRADED" in
  if bool_decide (bm_state st = new_state /\ bm_last_failure st = Some detail)
  then Ok (no_cycle, mkBodyMap (bm_state st) (bm_last_active st) (bm_last_seen st) (bm_stale_reported st) count (bm_last_failure st))
  else Ok (health_cycle (body_map_health_event wall new_state (if failed then "ERROR" else "WARNING") (bm_state st) new_state
             detail "SEAT_PERSON_SENSE_BODY_MAP_FAILURE" (str_items [("consecutive_failures", PInt count)]) (am_health_id am)),
           mkBodyMap new_state (bm_last_active st) (bm_last_seen st) (bm_stale_reported st) count (Some detail)).

(** [check_stale] of the body map. *)
Definition body_map_stale (now_wall now_monotonic : option float) (am : ambient) (st : body_map)
    : outcome (adapter_cycle * body_map) :=
  match bm_last_seen st with
  | Some seen =>
      if bm_stale_reported st then Ok (no_cycle, st) else
      let? wall := reading now_wall (am_time am) "now_wall" in
      let? monotonic := reading now_monotonic (am_monotonic am) "now_monotonic" in
      let age := fmax f0 (age_ms monotonic seen) in
      if within_ms age (ac_stale_after_ms cfg) then Ok (no_cycle, st) else
      Ok (health_cycle (body_map_health_event wall "STALE" "WARNING" (bm_state st) "DEGRADED"
             "Seat person-sense body map is stale" "STALE_SEAT_PERSON_SENSE_BODY_MAP"
             (str_items [("age_ms", PFloat (py_round 3 age))]) (am_health_id am)),
          mkBodyMap "DEGRADED" (bm_last_active st) (bm_last_seen st) true (bm_failures st) (bm_last_failure st))
  | None => Ok (no_cycle, st)
  end.
End BodyMap.
