(* ===== verification/SeatTheorems.v ===== *)
(** The state machine of the seat adapters: readings of one boot are accepted in order, health
    events tell every change of state, and a state says what the last calls said. *)

From stdpp Require Import base gmap sets list strings sorting.
From Stdlib Require Import ZArith Ascii SpecFloat.
From S2P Require Import Prelude PyText PyVal Json Sha256 PyFloat PyJson TextChecks BodyRecord BodyAdapter SeatAdapter SeatRadar.

(** ** Histories *)

(** A head the parser can return. *)
Definition sound_header (h : seat_header) : Prop :=
  sh_sensor_health h ∈ ["ONLINE"; "DEGRADED"] /\ is_wire_id (sh_boot_id h) = true /\
  is_wire_text (sh_calibration_version h) = true.

Lemma parse_source_health wf d n s m src : parse_source wf d n s m = Ok src -> src.1.2 ∈ ["ONLINE"; "DEGRADED"].
Proof.
  unfold parse_source. intros H. passed. injection H as <-. cbn [fst snd].
  match goal with E : bool_decide (upper _ ∉ _) = false |- _ => apply bool_decide_eq_false in E; by apply dec_stable end.
Qed.

Lemma required_id_ok e d key s : required_id e d key = Ok s <-> get d key = PStr s /\ is_wire_id s = true.
Proof.
  unfold required_id. destruct (get d key); try by (split; [done|intros [? _]]).
  destruct (is_wire_id s0) eqn:Hs; split; [by intros [= <-]|by intros [[= <-] _]|done|by intros [[= <-] ?]; congruence].
Qed.

Lemma wire_text_ok e d key s : wire_text e d key = Ok s <-> get d key = PStr s /\ is_wire_text s = true.
Proof.
  unfold wire_text. destruct (get d key); try by (split; [done|intros [? _]]).
  destruct (is_wire_text s0) eqn:Hs; split; [by intros [= <-]|by intros [[= <-] _]|done|by intros [[= <-] ?]; congruence].
Qed.

Lemma parse_position_sound wf d n s m src h : parse_source wf d n s m = Ok src -> parse_position wf d src = Ok h ->
  sound_header h /\ (sh_node_id h, sh_seat_id h, sh_sensor_model h, sh_sensor_health h, sh_degraded_reason h) = src.
Proof.
  intros Hs H. pose proof (parse_source_health _ _ _ _ _ _ Hs) as Hh. unfold parse_position in H.
  destruct src as [[[[node seat] model] health] reason]. passed. injection H as <-. cbn in *.
  repeat match goal with
  | E : required_id _ _ _ = Ok _ |- _ => apply required_id_ok in E as [_ ?]
  | E : wire_text _ _ _ = Ok _ |- _ => apply wire_text_ok in E as [_ ?]
  end. by split_and!.
Qed.

Section Histories.
Context (k : seat_kind) (cfg : adapter_config).

(** One call that returned: the head it accepted, if any, its cycle and the new state. *)
Inductive seat_step (st : adapter) : option seat_header -> adapter_cycle -> adapter -> Prop :=
| seat_observed h event w m src am c st' : sound_header h -> observe k cfg h event w m src am st = Ok (c, st') ->
    seat_step st (Some h) c st'
| seat_rejected code detail w am c st' : reject_observation k cfg code detail w am st = Ok (c, st') -> seat_step st None c st'
| seat_failed reason w am c st' : mark_failure k cfg reason w am st = Ok (c, st') -> seat_step st None c st'
| seat_checked w m am c st' : check_stale k cfg w m am st = Ok (c, st') -> seat_step st None c st'.

(** A history: the accepted heads and the health events, in order, and the state. *)
Inductive seat_history : list seat_header -> list items -> adapter -> Prop :=
| seat_new : seat_history [] [] new_adapter
| seat_next hs es st accepted c st' : seat_history hs es st -> seat_step st accepted c st' ->
    seat_history (hs ++ option_list accepted) (es ++ option_list (cy_health_event c)) st'.

(** What a step does to the state, its health event apart. *)
Inductive seat_change (st st' : adapter) : option seat_header -> Prop :=
| change_observed h seen : sound_header h -> check_order k h st = Ok tt ->
    st' = mkAdapter (sh_sensor_health h) (Some (sh_boot_id h)) (Some (sh_sequence h)) (Some (sh_uptime_ms h)) (Some seen)
            false 0 None -> seat_change st st' (Some h)
| change_none : st' = st -> seat_change st st' None
| change_rejected reason : st' = set_ad_state "DEGRADED" (Some reason) st -> seat_change st st' None
| change_counted : (ad_state st = "DEGRADED" \/ ad_state st = "FAILED") -> st' = count_failure st -> seat_change st st' None
| change_failed reason : st' = set_ad_state
    (if (ac_failure_threshold cfg <=? ad_failures st + 1)%Z then "FAILED" else "DEGRADED") (Some reason) (count_failure st) ->
    seat_change st st' None
| change_stale : st' = mkAdapter "DEGRADED" (ad_last_boot_id st) (ad_last_sequence st) (ad_last_uptime_ms st)
    (ad_last_seen st) true (ad_failures st) (ad_last_rejection st) -> seat_change st st' None.

Lemma seat_step_change st accepted c st' : seat_step st accepted c st' -> seat_change st st' accepted.
Proof.
  destruct 1 as [h event w m src am c st' Hh H|code detail w am c st' H|reason w am c st' H|w m am c st' H].
  - unfold observe in H. passed. injection H as _ <-. by eapply change_observed.
  - unfold reject_observation in H. passed. case_bool_decide; [injection H as _ <-; by apply change_none|].
    passed. injection H as _ <-. by eapply change_rejected.
  - unfold mark_failure in H. passed. case_bool_decide as Hs.
    + injection H as _ <-. destruct Hs as [Hs _]. apply change_counted; [|done]. rewrite Hs. destruct (ac_failure_threshold cfg <=? _)%Z; auto.
    + injection H as _ <-. by eapply change_failed.
  - unfold check_stale in H. destruct (ad_last_seen st) eqn:Hseen; [|injection H as _ <-; by apply change_none].
    destruct (ad_stale_reported st); [injection H as _ <-; by apply change_none|]. passed.
    destruct (within_ms _ _); injection H as _ <-; [by apply change_none|apply change_stale; by rewrite Hseen].
Qed.

(** ** Order *)

(** A later reading of the same boot has a greater sequence number and no smaller uptime. *)
Definition follows (h h' : seat_header) : Prop :=
  sh_boot_id h = sh_boot_id h' -> (sh_sequence h < sh_sequence h')%Z /\ (sh_uptime_ms h <= sh_uptime_ms h')%Z.

Lemma history_last hs es st : seat_history hs es st ->
  ad_last_boot_id st = sh_boot_id <$> last hs /\ ad_last_sequence st = sh_sequence <$> last hs /\
  ad_last_uptime_ms st = sh_uptime_ms <$> last hs /\ (ad_last_seen st = None <-> hs = []).
Proof.
  induction 1 as [|hs es st accepted c st' _ (IHb & IHs & IHu & IHl) Hs]; [done|].
  apply seat_step_change in Hs; destruct Hs as [h seen _ _ ->| ->|reason ->|_ ->|reason ->| ->]; cbn [option_list option_rect]; rewrite ?app_nil_r; try done.
  rewrite last_snoc. cbn. split_and!; try done. split; [done|]. by intros [_ ?]%app_eq_nil.
Qed.

Lemma Sorted_snoc {A} (R : relation A) l x : Sorted R l -> (forall y, last l = Some y -> R y x) -> Sorted R (l ++ [x]).
Proof.
  induction 1 as [|a l Hl IH Ha]; intros H; cbn; [by repeat constructor|].
  constructor; [apply IH; intros y Hy; apply H; destruct l; [done|by rewrite last_cons, Hy]|].
  destruct l; cbn; [by constructor; apply H|]. by inversion Ha; constructor.
Qed.

(** C27: Readings of a seat node are accepted in order.  In every history of an adapter, of two
    consecutive accepted readings of one boot the later has the greater sequence number and
    no smaller uptime; nothing is accepted twice in a row. *)
Theorem readings_ordered hs es st : seat_history hs es st -> Sorted follows hs.
Proof.
  induction 1 as [|hs es st accepted c st' Hh IH Hs]; [constructor|].
  pose proof (history_last _ _ _ Hh) as (Hb & Hq & Hu & _).
  apply seat_step_change in Hs; destruct Hs as [h seen _ Ho _| | | | |]; cbn [option_list option_rect]; rewrite ?app_nil_r; try done.
  apply Sorted_snoc; [done|]. intros y Hy Hsame. rewrite Hy in Hb, Hq, Hu. unfold check_order in Ho. passed.
  unfold is_same_boot in *. rewrite Hb, Hq, Hu in *. cbn in *. rewrite bool_decide_true in * by (by rewrite Hsame).
  cbn in *. apply Z.leb_gt in Heqb. apply Z.ltb_ge in Heqb0. lia.
Qed.

(** ** States *)

Definition seat_states : list string := ["UNKNOWN"; "ONLINE"; "DEGRADED"; "FAILED"].

(** What a state says. *)
Record truthful (hs : list seat_header) (st : adapter) : Prop := {
  tf_states : ad_state st ∈ seat_states;
  tf_online : ad_state st = "ONLINE" -> sh_sensor_health <$> last hs = Some "ONLINE" /\ ad_failures st = 0%Z /\
    ad_stale_reported st = false /\ ad_last_rejection st = None;
  tf_failed : ad_state st = "FAILED" -> (ac_failure_threshold cfg <= ad_failures st)%Z;
  tf_failures : (0 <= ad_failures st)%Z
}.

Lemma history_truthful hs es st : seat_history hs es st -> truthful hs st.
Proof.
  induction 1 as [|hs es st accepted c st' _ IH Hs]; [split; try done; by left|].
  apply seat_step_change in Hs; destruct Hs as [h seen Hh _ ->| ->|reason ->|Hw ->|reason ->| ->];
    cbn [option_list option_rect]; rewrite ?app_nil_r; [|done|..]; destruct IH as [Hst Hon Hfl Hn]; split; cbn in *; try done; try lia.
  - destruct Hh as [Hh _]. unfold seat_states. set_solver.
  - intros Heq. rewrite last_snoc. cbn. by rewrite Heq.
  - intros Hf. destruct Hh as [Hh _]. rewrite Hf in Hh. set_solver.
  - unfold seat_states. set_solver.
  - destruct Hw as [Hw|Hw]; congruence.
  - intros ?. specialize (Hfl ltac:(done)). lia.
  - case_match; unfold seat_states; set_solver.
  - by case_match.
  - destruct (Z.leb_spec (ac_failure_threshold cfg) (ad_failures st + 1)); [done|]. done.
  - unfold seat_states. set_solver.
Qed.


(** ** Health events *)

Definition state_before (event : items) : pyval := get (payload_of event) "state_before".
Definition state_after (event : items) : pyval := get (payload_of event) "state_after".

(** The events lead from one state to another, none skipped. *)
Inductive tells (from : string) : list items -> string -> Prop :=
| tells_nothing : tells from [] from
| tells_more es event s s' : tells from es s -> state_before event = PStr s -> state_after event = PStr s' ->
    tells from (es ++ [event]) s'.

Lemma step_tells st accepted c st' : seat_step st accepted c st' ->
  match cy_health_event c with
  | Some event => state_before event = PStr (ad_state st) /\ state_after event = PStr (ad_state st')
  | None => ad_state st' = ad_state st
  end.
Proof.
  destruct 1 as [h event w m src am c st' Hh H|code detail w am c st' H|reason w am c st' H|w m am c st' H].
  - unfold observe in H. passed. injection H as <- <-. cbn. unfold observed_health.
    destruct (match ad_last_boot_id st with Some b => bool_decide (sh_boot_id h <> b) | None => false end);
      [by split|]. case_bool_decide; [by split|]. cbn. by symmetry.
  - unfold reject_observation in H. passed. case_bool_decide.
    { by injection H as <- <-. }
    passed. injection H as <- <-. by split.
  - unfold mark_failure in H. passed. case_bool_decide; injection H as <- <-; [done|]. by split.
  - unfold check_stale in H. destruct (ad_last_seen st); [|by injection H as <- <-].
    destruct (ad_stale_reported st); [by injection H as <- <-|]. passed.
    destruct (within_ms _ _); injection H as <- <-; [done|]. by split.
Qed.

(** The health events of an adapter tell its state.  In every history they form a chain
    from UNKNOWN to the current state: each starts in the state in which the last one ended,
    so no change of health goes unreported. *)
Theorem health_events_tell_state hs es st : seat_history hs es st -> tells "UNKNOWN" es (ad_state st).
Proof.
  induction 1 as [|hs es st accepted c st' _ IH Hs]; [constructor|]. apply step_tells in Hs.
  destruct (cy_health_event c) as [event|]; cbn [option_list option_rect]; [|by rewrite app_nil_r, Hs].
  destruct Hs as [Hb Ha]. by eapply tells_more.
Qed.

(** A reading of an earlier boot is accepted again once another boot was seen. *)
Theorem earlier_boot_replays h h2 seen seen2 ev w m src am st : sh_boot_id h2 <> sh_boot_id h ->
  check_identity k cfg h = Ok tt -> is_blank src = false ->
  reading w (am_time am) "now_wall" = Ok seen -> reading m (am_monotonic am) "now_monotonic" = Ok seen2 ->
  ad_last_boot_id st = Some (sh_boot_id h2) ->
  exists c st', observe k cfg h ev w m src am st = Ok (c, st').
Proof.
  intros Hne Hi Hs Hw Hm Hb. unfold observe. rewrite Hi, Hw, Hm, Hs. cbn [outcome_bind]. unfold check_order, is_same_boot.
  rewrite Hb, bool_decide_false by congruence. cbn. by do 2 eexists.
Qed.

(** A message over 96 characters cannot be reported: neither a rejection nor a failure takes it. *)
Theorem long_detail_not_reported code detail w am st : 96 < String.length detail ->
  is_ok (reject_observation k cfg code detail w am st) = false /\ is_ok (mark_failure k cfg detail w am st) = false.
Proof.
  intros Hl. assert (forall label, exists e, required_expected_text detail label = Err e) as Hd.
  { intros label. unfold required_expected_text, is_wire_text. replace (String.length detail <=? 96) with false;
      [rewrite andb_false_r, orb_true_r; by eexists|]. symmetry. by apply Nat.leb_gt. }
  split.
  - unfold reject_observation. destruct (required_expected_text code _); [|done]. cbn. by destruct (Hd "detail") as [? ->].
  - unfold mark_failure. by destruct (Hd "failure reason") as [? ->].
Qed.
End Histories.

(** ** An example: two readings of a radar and a silence *)

Module Radar.
Definition config : adapter_config :=
  mkAdapterConfig (mkEmitter "seat-radar" "esp-1" "Temperance") "driver" "read-only-serial-json" 3500 3 "HLK-LD2410C".
Definition reading_of (sequence : Z) : SeatNodeObservation :=
  mkSeatNode (mkHeader "esp-1" "driver" "HLK-LD2410C" "ONLINE" None "boot-1" sequence (sequence * 100) "1.0" "cal-1")
    true true false (Some 50%Z) (Some 50%Z) None 40 0.
Definition at_time (t : Z) : ambient := mkAmbient (float_of_Z t) (float_of_Z t) "health-id" "receipt-id".
Definition observed (sequence t : Z) (st : adapter) : adapter_cycle * adapter :=
  match radar_observe config (reading_of sequence) None None "serial:/dev/ttyUSB0" (at_time t) st with
  | Ok r => r | Err _ => (no_cycle, st) end.
Definition st1 : adapter := (observed 1 10 new_adapter).2.
Definition st2 : adapter := (observed 2 11 st1).2.
Definition silence : adapter_cycle * adapter :=
  match radar_stale config None None (at_time 20) st2 with Ok r => r | Err _ => (no_cycle, st2) end.

Lemma radar_example : seat_history radar_kind config [sn_header (reading_of 1); sn_header (reading_of 2)]
  (option_list (cy_health_event (observed 1 10 new_adapter).1)) st2.
Proof.
  assert (forall n, sound_header (sn_header (reading_of n))) as Hs.
  { intros n. split_and!; [apply (bool_decide_eq_true_1 _)| |]; vm_compute; reflexivity. }
  apply (seat_next _ _ [sn_header (reading_of 1)] (option_list (cy_health_event (observed 1 10 new_adapter).1)) st1
    (Some (sn_header (reading_of 2))) (mkCycle (cy_sensor_event (observed 2 11 st1).1) None)).
  - apply (seat_next _ _ [] [] new_adapter (Some (sn_header (reading_of 1))) (observed 1 10 new_adapter).1); [constructor|].
    eapply (seat_observed _ _ _ _ (radar_sensor_event config (reading_of 1)) None None "serial:/dev/ttyUSB0" (at_time 10)); [apply Hs|].
    vm_compute. reflexivity.
  - eapply (seat_observed _ _ _ _ (radar_sensor_event config (reading_of 2)) None None "serial:/dev/ttyUSB0" (at_time 11)); [apply Hs|].
    vm_compute. reflexivity.
Qed.
End Radar.

Lemma readings_ordered_witness :
  Sorted follows [sn_header (Radar.reading_of 1); sn_header (Radar.reading_of 2)] /\
  is_ok (radar_observe Radar.config (Radar.reading_of 2) None None "serial:/dev/ttyUSB0" (Radar.at_time 12) Radar.st2) = false.
Proof. split; [exact (readings_ordered _ _ _ _ _ Radar.radar_example)|vm_compute; reflexivity]. Defined.


Lemma health_events_tell_state_witness :
  tells "UNKNOWN" (option_list (cy_health_event (Radar.observed 1 10 new_adapter).1)) "ONLINE".
Proof. exact (health_events_tell_state _ _ _ _ _ Radar.radar_example). Defined.
