(* ===== verification/AdapterTheorems.v ===== *)
(** The body-state bridge takes what the body adapters emit: sufficient conditions for a sensor
    and a health event to pass [validate_body_record], and their use for the seat adapters. *)

From stdpp Require Import base gmap sets list strings sorting.
From Stdlib Require Import ZArith Ascii SpecFloat.
From S2P Require Import Prelude PyText PyVal Json Sha256 PyFloat PyJson TextChecks BodyRecord BodyTheorems BodyAdapter SeatAdapter.
From S2P Require Import SeatRadar SeatPressure SeatHeartbeat SeatTheorems.

(** Membership of a concrete list. *)
Ltac listed := apply (bool_decide_eq_true_1 _); vm_compute; reflexivity.

Definition bridge_takes (record : items) : Prop := exists copied, validate_body_record (PDict record) = Ok copied.

Definition present (s : string) : Prop := is_blank s = false.

(** ** Claims in assembled dictionaries *)

Definition fair (kv : pyval * pyval) : bool := innocent (py_str kv.1) kv.2 && claim_free kv.2.

Lemma claim_free_dict d : claim_free (PDict d) = forallb fair d.
Proof. done. Qed.

Lemma fair_dict_set d (k : string) v : forallb fair d = true -> fair (PStr k, v) = true ->
  forallb fair (dict_set d k v) = true.
Proof.
  intros Hd Hk. induction d as [|[k' v'] d IH]; cbn [dict_set forallb] in *; [by rewrite Hk|].
  apply andb_true_iff in Hd as [Hk' Hd]. destruct (atom_eqb k' k) eqn:E; cbn [forallb].
  - destruct k'; try done. cbn in E. apply bool_decide_eq_true in E as ->. by rewrite Hk, Hd.
  - by rewrite Hk', IH.
Qed.

(** Additions with text keys. *)
Definition fair_text (kv : pyval * pyval) : bool := is_str kv.1 && fair kv.

Lemma fair_dict_update d extra : forallb fair d = true -> forallb fair_text extra = true ->
  forallb fair (dict_update d extra) = true.
Proof.
  unfold dict_update. revert d. induction extra as [|[k v] extra IH]; intros d Hd He; [done|].
  cbn [forallb fold_left fst snd] in *. unfold fair_text at 1 in He. rewrite !andb_true_iff in He.
  destruct He as [[Hs Hk] He]. destruct k; try done. apply IH; [|done]. by apply fair_dict_set.
Qed.

Lemma fair_plain (k : string) v : k ∉ forbidden_fields -> k ∉ false_only_claims -> claim_free v = true -> fair (PStr k, v) = true.
Proof. intros H1 H2 Hv. unfold fair, innocent. cbn [fst snd py_str]. rewrite !bool_decide_false by done. by rewrite Hv. Qed.

(** ** Records the bridge takes *)

Lemma record_text_ok p k s : get p k = PStr s -> present s -> exists t, record_text p k = Ok t.
Proof. unfold record_text, present. intros -> ->. by eexists. Qed.

Definition has_texts (p : items) (keys : list string) : Prop := Forall (fun k => exists s, get p k = PStr s /\ present s) keys.

Lemma has_texts_ok p keys : has_texts p keys -> record_texts p keys = Ok tt.
Proof.
  intros H. apply record_texts_ok. intros k Hk. unfold has_texts in H. rewrite Forall_forall in H.
  destruct (H k Hk) as (s & Hs & Hp). by eapply record_text_ok.
Qed.

Lemma timestamp_ok p f : get p "timestamp" = PFloat f -> flt f f0 = false -> check_timestamp p = Ok tt.
Proof. unfold check_timestamp. intros -> Hf. cbn. by rewrite Hf. Qed.

Lemma validate_copies kvs : exists copied, match copy_value (PDict kvs) with PDict copied => Ok copied | _ => Ok [] end = Ok copied.
Proof. cbn. by eexists. Qed.

Lemma sensor_record_taken kvs p f : claim_free (PDict kvs) = true ->
  dict_get_default kvs "family" "" = PStr "sensor" -> dict_get_default kvs "event_type" "" = PStr "SENSOR_PACKET_OBSERVED" ->
  get kvs "payload" = PDict p ->
  has_texts p ["module_id"; "node_id"; "owning_handmaiden"; "receipt_id"] ->
  has_texts p ["sensor_type"; "interface_type"; "health_state"; "calibration_version"] ->
  get p "timestamp" = PFloat f -> flt f f0 = false -> is_mapping (get p "payload") = true -> bridge_takes kvs.
Proof.
  intros Hc Hf He Hp H1 H2 Ht Hf0 Hm. unfold bridge_takes, validate_body_record.
  rewrite (proj2 (reject_authority_ok (PDict kvs) "record" tt) Hc). cbn [outcome_bind]. rewrite Hf, He.
  change (lower (strip (py_str (PStr "sensor")))) with "sensor".
  change (upper (strip (py_str (PStr "SENSOR_PACKET_OBSERVED")))) with "SENSOR_PACKET_OBSERVED".
  rewrite !(bool_decide_true ("sensor" = "sensor")) by done.
  rewrite (bool_decide_false ("SENSOR_PACKET_OBSERVED" <> "SENSOR_PACKET_OBSERVED")) by (intros H; by apply H).
  cbn [outcome_bind]. rewrite Hp, !has_texts_ok, (timestamp_ok p f) by done. cbn [outcome_bind]. rewrite Hm. cbn [negb outcome_bind].
  apply validate_copies.
Qed.

(** The event types of health events. *)
Definition health_types : list string :=
  ["ONLINE"; "READY"; "DEGRADED"; "RECOVERED"; "RESTARTED"; "REJECTED"; "STALE"; "FAILED"].

Lemma health_record_taken kvs p f t : claim_free (PDict kvs) = true ->
  dict_get_default kvs "family" "" = PStr "health" -> dict_get_default kvs "event_type" "" = PStr ("HEALTH_" +:+ t) ->
  t ∈ health_types -> get kvs "payload" = PDict p ->
  has_texts p ["module_id"; "node_id"; "owning_handmaiden"; "receipt_id"] ->
  has_texts p ["event_id"; "event_type"; "severity"; "state_before"; "state_after"] ->
  get p "timestamp" = PFloat f -> flt f f0 = false -> is_mapping (get p "diagnostic_payload") = true -> bridge_takes kvs.
Proof.
  intros Hc Hf He Htype Hp H1 H2 Ht Hf0 Hm. unfold bridge_takes, validate_body_record.
  rewrite (proj2 (reject_authority_ok (PDict kvs) "record" tt) Hc). cbn [outcome_bind]. rewrite Hf, He.
  assert (startswith "HEALTH_" (upper (strip (py_str (PStr ("HEALTH_" +:+ t))))) = true) as ->.
  { unfold health_types in Htype. repeat (apply elem_of_cons in Htype as [->|Htype]; [reflexivity|]). by apply elem_of_nil in Htype. }
  change (lower (strip (py_str (PStr "health")))) with "health".
  rewrite !(bool_decide_false ("health" = "sensor")) by done. rewrite (bool_decide_true ("health" = "health")) by done.
  cbn [negb outcome_bind]. rewrite Hp, !has_texts_ok, (timestamp_ok p f) by done. cbn [outcome_bind]. rewrite Hm. cbn [negb outcome_bind].
  apply validate_copies.
Qed.

(** ** Events of an adapter *)

Record named (who : emitter) : Prop := {
  nm_module : present (em_module_id who); nm_node : present (em_node_id who); nm_organ : present (em_owning_handmaiden who) }.

Lemma sensor_event_taken who wall monotonic r payload receipt_id : named who -> present receipt_id ->
  present (rd_sensor_type r) -> present (rd_interface_type r) -> present (rd_health_state r) ->
  present (rd_calibration_version r) -> flt wall f0 = false -> claim_free (PDict payload) = true ->
  (rd_degraded_reason r = [] \/ exists v, rd_degraded_reason r = [("degraded_reason", v)] /\ claim_free v = true) ->
  bridge_takes (sensor_event who wall monotonic r payload receipt_id).
Proof.
  intros [Hm Hn Ho] Hid Ht Hi Hh Hc Hw Hp Hr. destruct r as [t i h conf clock stale cal reason raw]. cbn in *.
  assert (reason = [] \/ exists v, reason = [("degraded_reason", v)] /\ claim_free v = true) as Hr' by done. clear Hr.
  eapply (sensor_record_taken _ _ wall); try reflexivity; try done.
  - unfold sensor_event, envelope. rewrite claim_free_dict. cbn [str_items fmap list_fmap forallb fst snd].
    repeat (apply andb_true_iff; split; [reflexivity|]). rewrite andb_true_r. apply fair_plain; [set_solver..|].
    destruct Hr' as [->|(v & -> & Hv)]; cbn [app]; rewrite claim_free_dict; cbn [str_items fmap list_fmap forallb fst snd];
      repeat (apply andb_true_iff; split; [first [reflexivity|apply fair_plain; [set_solver..|done]]|]); done.
  - destruct Hr' as [->|(v & -> & _)]; repeat (constructor; [eexists; by split|]); constructor.
  - destruct Hr' as [->|(v & -> & _)]; repeat (constructor; [eexists; by split|]); constructor.
Qed.

Lemma health_event_taken who wall r diagnostic recovery event_id : named who -> present event_id ->
  hr_event_type r ∈ health_types -> present (hr_severity r) -> present (hr_before r) -> present (hr_after r) ->
  flt wall f0 = false -> claim_free (PDict diagnostic) = true ->
  bridge_takes (health_event who wall r diagnostic recovery event_id).
Proof.
  intros [Hm Hn Ho] Hid Ht Hs Hb Ha Hw Hd. destruct r as [t s b a]. cbn in *.
  eapply (health_record_taken _ _ wall t); try reflexivity; try done.
  - unfold health_event, envelope. rewrite claim_free_dict. cbn [str_items fmap list_fmap forallb fst snd].
    repeat (apply andb_true_iff; split; [reflexivity|]). rewrite andb_true_r. apply fair_plain; [set_solver..|].
    rewrite claim_free_dict; cbn [str_items fmap list_fmap forallb fst snd hr_event_type hr_severity hr_before hr_after];
      repeat (apply andb_true_iff; split; [first [reflexivity|apply fair_plain; [set_solver..|done]]|]); done.
  - repeat (constructor; [eexists; by split|]); constructor.
  - assert (present t) as Htp.
    { unfold health_types in Ht. repeat (apply elem_of_cons in Ht as [->|Ht]; [reflexivity|]). by apply elem_of_nil in Ht. }
    repeat (constructor; [eexists; by split|]); constructor.
Qed.

(** ** The seat adapters *)

(** The sensor events of the three adapters, for any observation with a head the parser
    returns. *)
Inductive seat_emission : seat_kind -> adapter_config -> seat_header -> (float -> float -> string -> string -> items) -> Prop :=
| radar_emission cfg o : seat_emission radar_kind cfg (sn_header o) (radar_sensor_event cfg o)
| pressure_emission c o : seat_emission pressure_kind (pc_common c) (sp_header o) (pressure_sensor_event c o)
| heartbeat_emission cfg o : seat_emission heartbeat_kind cfg (hb_header o) (heartbeat_sensor_event cfg o).

(** A call of an adapter that returned; an accepted reading names a calibration. *)
Inductive seat_call (k : seat_kind) (cfg : adapter_config) (am : ambient) (st : adapter) : adapter_cycle -> adapter -> Prop :=
| call_observe h event w m src c st' : seat_emission k cfg h event -> sound_header h ->
    present (sh_calibration_version h) -> observe k cfg h event w m src am st = Ok (c, st') -> seat_call k cfg am st c st'
| call_reject code detail w c st' : reject_observation k cfg code detail w am st = Ok (c, st') -> seat_call k cfg am st c st'
| call_failure reason w c st' : mark_failure k cfg reason w am st = Ok (c, st') -> seat_call k cfg am st c st'
| call_stale w m c st' : check_stale k cfg w m am st = Ok (c, st') -> seat_call k cfg am st c st'.

(** Clocks that are not negative and identities that are not blank. *)
Record sound_ambient (am : ambient) : Prop := {
  sa_time : flt (am_time am) f0 = false; sa_health : present (am_health_id am); sa_receipt : present (am_receipt_id am) }.

Definition seat_kinds : list seat_kind := [radar_kind; pressure_kind; heartbeat_kind].

Lemma present_plain s : s <> "" -> str_forallb (fun c => negb (is_space c)) s = true -> present s.
Proof. intros Hne Hs. unfold present. apply not_true_iff_false. rewrite is_blank_spaces. destruct s as [|c s]; [done|]. cbn in *. by destruct (is_space c). Qed.

Lemma wire_id_present s : is_wire_id s = true -> present s.
Proof.
  unfold is_wire_id, is_name. rewrite !andb_true_iff. intros [[Hne Hs] _]. apply present_plain; [by destruct s|].
  eapply str_forallb_impl; [|exact Hs]. intros [[] [] [] [] [] [] [] []]; vm_compute; done.
Qed.

Lemma expected_text_present value label t : required_expected_text value label = Ok t -> present value /\ present t.
Proof.
  unfold required_expected_text. destruct (is_blank value) eqn:Hb; [done|]. destruct (is_wire_text value); [|done].
  intros [= <-]. unfold present. by rewrite is_blank_strip.
Qed.

Lemma config_named cfg : check_adapter_config cfg = Ok tt ->
  named (ac_emitter cfg) /\ present (ac_interface_type cfg).
Proof.
  unfold check_adapter_config, validated_expected_id. intros H. passed.
  repeat match goal with E : (if is_wire_id ?x then _ else _) = Ok _ |- _ =>
    destruct (is_wire_id x) eqn:?; [|discriminate E]; clear E end.
  repeat match goal with E : is_wire_id _ = true |- _ => apply wire_id_present in E end.
  match goal with E : required_expected_text (ac_interface_type cfg) _ = Ok _ |- _ => apply expected_text_present in E as [? _] end.
  done.
Qed.

Lemma reading_sound now clock label f : flt clock f0 = false -> reading now clock label = Ok f -> flt f f0 = false.
Proof.
  unfold reading, finite_non_negative. intros Hc. destruct now as [v|]; [|by intros [= <-]].
  destruct (negb (ffinite v)); [done|]. cbn. destruct (flt v f0) eqn:E; [done|]. by intros [= <-].
Qed.

Lemma seat_state_present s : s ∈ seat_states -> present s.
Proof. unfold seat_states. intros H. repeat (apply elem_of_cons in H as [->|H]; [reflexivity|]). by apply elem_of_nil in H. Qed.

Lemma diagnostic_free k seat : k ∈ seat_kinds -> forallb fair (sk_diagnostic k seat) = true.
Proof. unfold seat_kinds. intros H. repeat (apply elem_of_cons in H as [->|H]; [reflexivity|]). by apply elem_of_nil in H. Qed.

Lemma seat_health_taken k cfg wall t sev a b detail code extra id : k ∈ seat_kinds -> check_adapter_config cfg = Ok tt ->
  flt wall f0 = false -> present id -> t ∈ health_types -> present sev -> present a -> present b ->
  forallb fair_text extra = true -> bridge_takes (seat_health_event k cfg wall t sev a b detail code extra id).
Proof.
  intros Hk [Hn _]%config_named Hw Hid Ht Hs Ha Hb He. apply health_event_taken; try done.
  rewrite claim_free_dict. unfold diagnostic. apply fair_dict_update; [|done].
  rewrite forallb_app. rewrite diagnostic_free by done. reflexivity.
Qed.

Lemma pads_free pads : forallb claim_free (pad_document <$> pads) = true.
Proof. induction pads as [|p pads IH]; [done|]. cbn [fmap list_fmap forallb]. rewrite IH, andb_true_r. destruct p as [id zone active [raw|] [load|]]; reflexivity. Qed.

Lemma emission_taken k cfg h event wall monotonic src id : seat_emission k cfg h event -> sound_header h ->
  present (sh_calibration_version h) -> check_adapter_config cfg = Ok tt -> flt wall f0 = false -> present id ->
  bridge_takes (event wall monotonic src id).
Proof.
  intros He (Hh & _ & _) Hc [Hn Hi]%config_named Hw Hid.
  assert (present (sh_sensor_health h)) as Hhp by (apply seat_state_present; unfold seat_states; set_solver).
  assert (forall o : option string, claim_free (opt_str o) = true) as Ho by (by intros []).
  destruct He as [cfg o|c o|cfg o]; apply sensor_event_taken; try done; try (right; eexists; by split).
  - rewrite claim_free_dict. destruct o as [? ? ? ? [] [] [] ? ?]; reflexivity.
  - rewrite claim_free_dict. unfold pressure_payload. cbn [str_items fmap list_fmap forallb fst snd].
    repeat (apply andb_true_iff; split; [first [reflexivity|
      apply fair_plain; [set_solver..|first [apply pads_free|by destruct (sp_total_load_kg_equivalent o)]]]|]); done.
  - rewrite claim_free_dict. destruct o as [? ? [] ? ? ?]; reflexivity.
Qed.

Lemma emission_kind k cfg h event : seat_emission k cfg h event -> k ∈ seat_kinds.
Proof. unfold seat_kinds. destruct 1; set_solver. Qed.

Lemma change_type_known previous new_state : new_state ∈ ["ONLINE"; "DEGRADED"] -> change_type previous new_state ∈ health_types.
Proof. unfold change_type, health_types. intros H. case_bool_decide; set_solver. Qed.

Lemma records_taken (c : adapter_cycle) : (forall e, cy_sensor_event c = Some e -> bridge_takes e) ->
  (forall e, cy_health_event c = Some e -> bridge_takes e) ->
  Forall (fun r => exists copied, validate_body_record r = Ok copied) (records c).
Proof.
  destruct c as [[s|] [h|]]; cbn; intros Hs Hh; repeat constructor; first [by apply Hs|by apply Hh].
Qed.

Lemma observe_taken k cfg h event w m src am st c st' : seat_emission k cfg h event -> sound_header h ->
  present (sh_calibration_version h) -> check_adapter_config cfg = Ok tt -> sound_ambient am -> ad_state st ∈ seat_states ->
  observe k cfg h event w m src am st = Ok (c, st') ->
  Forall (fun r => exists copied, validate_body_record r = Ok copied) (records c).
Proof.
  intros He Hh Hc Hcfg [Ht Hi Hr] Hst H. unfold observe in H. passed. injection H as <- <-.
  match goal with E : reading w _ _ = Ok _ |- _ => apply reading_sound in E; [|done] end.
  pose proof (emission_kind _ _ _ _ He) as Hk. pose proof Hh as [Hhealth _].
  assert (present (sh_sensor_health h)) as Hp by (apply seat_state_present; unfold seat_states; set_solver).
  apply records_taken; cbn [cy_sensor_event cy_health_event]; intros e; [intros [= <-]; by eapply emission_taken|]. unfold observed_health.
  destruct (match ad_last_boot_id st with Some b => bool_decide (sh_boot_id h <> b) | None => false end);
    [|case_bool_decide; [|done]]; intros [= <-].
  - apply seat_health_taken; try done; [listed|by apply seat_state_present].
  - apply seat_health_taken; try done; [by apply change_type_known|by case_bool_decide|by apply seat_state_present].
Qed.



(** A node may name a blank calibration: its readings are accepted, and the bridge refuses
    their records. *)
Theorem blank_calibration_refused cfg o wall monotonic src id : sh_calibration_version (sn_header o) = " " ->
  ~ bridge_takes (radar_sensor_event cfg o wall monotonic src id).
Proof.
  intros Hc [copied H]. set (kvs := radar_sensor_event cfg o wall monotonic src id) in H.
  assert (get kvs "payload" = PDict (payload_of kvs)) as Hp by done.
  assert (get (payload_of kvs) "calibration_version" = PStr " ") as Hv by (cbn; by rewrite Hc).
  unfold validate_body_record in H. destruct (reject_authority _ _) as [[]|]; [|done]. cbn [outcome_bind] in H.
  change (lower (strip (py_str (dict_get_default kvs "family" "")))) with "sensor" in H.
  change (upper (strip (py_str (dict_get_default kvs "event_type" "")))) with "SENSOR_PACKET_OBSERVED" in H.
  rewrite !(bool_decide_true ("sensor" = "sensor")) in H by done.
  rewrite (bool_decide_false ("SENSOR_PACKET_OBSERVED" <> "SENSOR_PACKET_OBSERVED")) in H by (intros H'; by apply H').
  cbn [outcome_bind] in H. rewrite Hp in H. destruct (record_texts _ ["module_id"; _; _; _]); [|done].
  destruct (check_timestamp _); [|done]. cbn [outcome_bind] in H.
  destruct (record_texts (payload_of kvs) ["sensor_type"; _; _; _]) as [u|] eqn:Hr; [|done].
  destruct (proj1 (record_texts_ok _ _ _) Hr "calibration_version") as [s Hs]; [listed|].
  unfold record_text in Hs. by rewrite Hv in Hs.
Qed.

