(* ===== verification/SeatLineTheorems.v ===== *)
(** What the parsers of a seat node's lines accept: consistent readings of the configured source,
    and for the radar exactly those. *)

From stdpp Require Import base gmap sets list strings sorting.
From Stdlib Require Import ZArith NArith Ascii SpecFloat.
From S2P Require Import Prelude PyText PyVal Json Sha256 PyFloat PyJson TextChecks BodyRecord BodyAdapter SeatAdapter SeatRadar.
From S2P Require Import SeatPressure SeatHeartbeat SeatTheorems.

(** ** Fields *)

Lemma required_bool_ok e d key b : required_bool e d key = Ok b <-> get d key = PBool b.
Proof. unfold required_bool. destruct (get d key); split; by intros [= <-]. Qed.

Lemma wire_integer_ok e d key lo hi z : wire_integer e d key lo hi = Ok z <->
  get d key = PInt z /\ (lo <= z <= hi)%Z.
Proof.
  unfold wire_integer, within_bounds. destruct (get d key); try by (split; [done|intros [? _]]).
  rewrite <- Z.leb_le, <- (Z.leb_le _ hi).
  destruct ((lo <=? z0)%Z && (z0 <=? hi)%Z) eqn:E; [apply andb_true_iff in E|apply andb_false_iff in E]; split.
  - by intros [= <-].
  - by intros [[= <-] _].
  - done.
  - intros [[= <-] [? ?]]. destruct E; congruence.
Qed.

Lemma optional_integer_ok e d key lo hi o : optional_integer e d key lo hi = Ok o <->
  get d key = opt_int o /\ from_option (fun z => lo <= z <= hi)%Z True o.
Proof.
  unfold optional_integer, within_bounds. destruct (get d key) eqn:Hg; try by (split; [done|destruct o; intros [? _]]).
  - split; [by intros [= <-]|by destruct o as [z|]; intros [? _]].
  - destruct (Z.leb_spec lo z), (Z.leb_spec z hi); cbn; split; try done; try by intros [= <-]; cbn.
    all: destruct o as [z'|]; intros [[= <-] Ho]; cbn in Ho; try done; lia.
Qed.

Lemma optional_wire_text_ok e d key o : optional_wire_text e d key = Ok o <->
  get d key = opt_str o /\ from_option (fun s => is_wire_text s = true) True o.
Proof.
  unfold optional_wire_text. destruct (get d key) eqn:Hg; try by (split; [done|destruct o; intros [? _]]).
  - split; [by intros [= <-]|by destruct o as [z|]; intros [? _]].
  - destruct (is_wire_text s) eqn:Hs; split; try done; try by intros [= <-].
    + by destruct o as [t|]; intros [[= <-] _].
    + destruct o as [t|]; intros [[= <-] ?]; cbn in *; congruence.
Qed.

Lemma check_fields_ok e what d allowed u : check_fields e what d allowed = Ok u <->
  (forall k, k ∈ text_key <$> d.*1 <-> k ∈ allowed).
Proof.
  unfold check_fields. destruct u. case_bool_decide as H1.
  - split; [done|]. intros H. destruct H1. apply elem_of_nil_inv. intros k [Hk ?%H]%list_elem_of_filter. done.
  - case_bool_decide as H2.
    + split; [done|]. intros H. destruct H2. apply elem_of_nil_inv. intros k [Hk ?%H]%list_elem_of_filter. done.
    + split; [|done]. intros _ k. split; intros Hk; apply dec_stable; intros Hn.
      * assert (k ∈ filter (fun k => k ∉ allowed) (text_key <$> d.*1)) as Hf by by apply list_elem_of_filter. rewrite H1 in Hf. by apply elem_of_nil in Hf.
      * assert (k ∈ filter (fun k => k ∉ text_key <$> d.*1) allowed) as Hf by by apply list_elem_of_filter. rewrite H2 in Hf. by apply elem_of_nil in Hf.
Qed.

(** ** The head *)

(** A head from the configured source that the parsers accept. *)
Record wf_header (node seat model : string) (h : seat_header) : Prop := {
  wh_node : sh_node_id h = node; wh_node_id : is_wire_id node = true;
  wh_seat : sh_seat_id h = seat; wh_seat_id : is_wire_id seat = true;
  wh_model : required_expected_text model "expected_sensor_model" = Ok (sh_sensor_model h);
  wh_model_text : is_wire_text (sh_sensor_model h) = true;
  wh_health : sh_sensor_health h = "ONLINE" /\ sh_degraded_reason h = None \/
    sh_sensor_health h = "DEGRADED" /\ exists r, sh_degraded_reason h = Some r /\ is_wire_text r = true;
  wh_boot : is_wire_id (sh_boot_id h) = true;
  wh_sequence : (0 <= sh_sequence h <= 2147483647)%Z;
  wh_uptime : (0 <= sh_uptime_ms h <= 9007199254740991)%Z;
  wh_firmware : is_wire_text (sh_firmware_version h) = true;
  wh_calibration : is_wire_text (sh_calibration_version h) = true
}.

Lemma validated_expected_ok v label s : validated_expected_id v label = Ok s <-> s = v /\ is_wire_id v = true.
Proof. unfold validated_expected_id. destruct (is_wire_id v); split; try done; [by intros [= ->]|by intros [-> _]|by intros [_ ?]]. Qed.

Lemma parse_head_wf wf d node seat model src h : parse_source wf d node seat model = Ok src -> parse_position wf d src = Ok h ->
  wf_header node seat model h.
Proof.
  intros Hs Hp. pose proof (parse_position_sound _ _ _ _ _ _ _ Hs Hp) as [(_ & Hb & Hc) _].
  unfold parse_source in Hs. passed. injection Hs as Hs. 
  unfold parse_position in Hp. rewrite <- Hs in Hp. passed. injection Hp as <-. cbn in *.
  repeat match goal with
  | E : validated_expected_id _ _ = Ok _ |- _ => apply validated_expected_ok in E as [-> E]
  | E : wire_text _ _ _ = Ok _ |- _ => apply wire_text_ok in E as [_ E]
  | E : wire_integer _ _ _ _ _ = Ok _ |- _ => apply wire_integer_ok in E as [_ E]
  | E : optional_wire_text _ _ _ = Ok _ |- _ => apply optional_wire_text_ok in E as [_ E]
  | E : bool_decide (_ <> _) = false |- _ => apply bool_decide_eq_false, dec_stable in E
  | E : bool_decide (_ ∉ _) = false |- _ => apply bool_decide_eq_false, dec_stable in E
  | E : bool_decide (_ /\ _) = false |- _ => apply bool_decide_eq_false in E
  end. simplify_eq. split; cbn; try done.
  apply elem_of_cons in Heqb3 as [Hu|Hu%list_elem_of_singleton]; [left|right]; rewrite Hu in *.
  - split; [done|]. destruct a7; [|done]. destruct Heqb5. by split.
  - split; [done|]. destruct a7 as [r|]; [by exists r|]. destruct Heqb4. by split.
Qed.

(** The members of a document that give a head. *)
Record heads (wf : wire_format) (d : items) (h : seat_header) : Prop := {
  hd_fields : forall k, k ∈ text_key <$> d.*1 <-> k ∈ wf_fields wf;
  hd_schema : get d "schema" = PStr (wf_schema wf);
  hd_node : get d "node_id" = PStr (sh_node_id h); hd_seat : get d "seat_id" = PStr (sh_seat_id h);
  hd_model : get d "sensor_model" = PStr (sh_sensor_model h);
  hd_health : get d "sensor_health" = PStr (sh_sensor_health h);
  hd_reason : get d "degraded_reason" = opt_str (sh_degraded_reason h);
  hd_boot : get d "boot_id" = PStr (sh_boot_id h); hd_sequence : get d "sequence" = PInt (sh_sequence h);
  hd_uptime : get d "uptime_ms" = PInt (sh_uptime_ms h); hd_firmware : get d "firmware_version" = PStr (sh_firmware_version h);
  hd_calibration : get d "calibration_version" = PStr (sh_calibration_version h)
}.

Lemma parse_head_complete wf d node seat model h : heads wf d h -> wf_header node seat model h ->
  exists src, parse_source wf d node seat model = Ok src /\ parse_position wf d src = Ok h.
Proof.
  intros [Hf Hs Hn Hse Hm Hh Hr Hb Hq Hu Hfw Hc] [W1 W2 W3 W4 W5 W6 W7 W8 W9 W10 W11 W12].
  exists (sh_node_id h, sh_seat_id h, sh_sensor_model h, sh_sensor_health h, sh_degraded_reason h).
  unfold parse_source, parse_position.
  rewrite (proj2 (check_fields_ok (wf_error wf) (wf_tag wf +:+ " line") d (wf_fields wf) tt) Hf), Hs. cbn [outcome_bind eq_str].
  rewrite bool_decide_true by done. cbn [negb].
  rewrite (proj2 (required_id_ok (wf_error wf) d "node_id" (sh_node_id h))) by (by rewrite W1 in *).
  rewrite (proj2 (required_id_ok (wf_error wf) d "seat_id" (sh_seat_id h))) by (by rewrite W3 in *).
  rewrite (proj2 (validated_expected_ok node "expected_node_id" node)), (proj2 (validated_expected_ok seat "expected_seat_id" seat)) by done.
  rewrite (proj2 (wire_text_ok (wf_error wf) d "sensor_model" (sh_sensor_model h))), W5 by done. cbn [outcome_bind].
  rewrite (proj2 (wire_text_ok (wf_error wf) d "sensor_health" (sh_sensor_health h))).
  2: { split; [done|]. destruct W7 as [[-> _]|[-> _]]; reflexivity. }
  assert (upper (sh_sensor_health h) = sh_sensor_health h) as Hup by (by destruct W7 as [[-> _]|[-> _]]). cbn [outcome_bind].
  rewrite Hup, (proj2 (optional_wire_text_ok (wf_error wf) d "degraded_reason" (sh_degraded_reason h))).
  2: { split; [done|]. destruct W7 as [[_ ->]|[_ (r & -> & ?)]]; done. }
  rewrite (bool_decide_false (sh_node_id h <> node)), (bool_decide_false (sh_seat_id h <> seat)),
    (bool_decide_false (sh_sensor_model h <> sh_sensor_model h)) by naive_solver. cbn [outcome_bind].
  assert (sh_sensor_health h ∈ ["ONLINE"; "DEGRADED"]) by (destruct W7 as [[-> _]|[-> _]]; [left|right; left]).
  rewrite (bool_decide_false (_ ∉ ["ONLINE"; "DEGRADED"])) by (intros H'; by apply H').
  rewrite !bool_decide_false by (destruct W7 as [[E1 E2]|[E1 (r & E2 & _)]]; rewrite E1, E2; naive_solver).
  split; [done|].
  rewrite (proj2 (required_id_ok (wf_error wf) d "boot_id" (sh_boot_id h))), (proj2 (wire_integer_ok (wf_error wf) d "sequence" 0 2147483647 (sh_sequence h))),
    (proj2 (wire_integer_ok (wf_error wf) d "uptime_ms" 0 9007199254740991 (sh_uptime_ms h))),
    (proj2 (wire_text_ok (wf_error wf) d "firmware_version" (sh_firmware_version h))),
    (proj2 (wire_text_ok (wf_error wf) d "calibration_version" (sh_calibration_version h))) by done.
  cbn [outcome_bind]. by destruct h.
Qed.

(** ** A line that holds a document *)

Lemma rstrip_snoc s c : is_space c = false -> rstrip (s +:+ String c "") = s +:+ String c "".
Proof.
  intros Hc. induction s as [|d s IH]; [cbn; by rewrite Hc|]. rewrite app_cons_str. cbn [rstrip]. rewrite IH.
  by destruct s.
Qed.

Lemma strip_object kvs : strip (dumps (JObj kvs)) = dumps (JObj kvs).
Proof.
  assert (exists body, dumps (JObj kvs) = "{" +:+ (body +:+ "}")) as [body ->] by (eexists; reflexivity).
  unfold strip. rewrite (lstrip_id ("{" +:+ _)) by done. rewrite <- app_assoc_str. by apply rstrip_snoc.
Qed.

Lemma utf8_no_nul s : printable_str s -> 0%N ∉ utf8 s.
Proof.
  unfold printable_str. induction s as [|c s IH]; cbn; [intros _; apply not_elem_of_nil|]. rewrite andb_true_iff. intros [Hc Hs].
  assert (32 <= N_of_ascii c < 127)%N as Hn.
  { unfold printable, code in Hc. apply andb_true_iff in Hc as [H1%Nat.leb_le H2%Nat.leb_le]. unfold nat_of_ascii in *. lia. }
  destruct (N.ltb_spec (N_of_ascii c) 128); [|lia]. rewrite not_elem_of_cons. split; [lia|by apply IH].
Qed.

(** A canonical document is decoded from its text. *)
Lemma decode_document e tag kvs max : canonical (JObj kvs) ->
  (2 <= Z.of_nat (length (utf8 (dumps (JObj kvs)))) <= max)%Z ->
  decode_unique_document e tag (utf8 (dumps (JObj kvs))) max = Ok (str_items ((fun kv => (kv.1, of_json kv.2)) <$> kvs)).
Proof.
  intros Hc [H1 H2]. unfold decode_unique_document.
  rewrite (proj2 (Z.leb_le 2 _) H1), (proj2 (Z.leb_le _ max) H2). cbn [andb negb].
  rewrite bool_decide_false by (apply utf8_no_nul, dumps_printable). rewrite utf8_decode_utf8, strip_object.
  assert (is_nonempty (dumps (JObj kvs)) = true) as -> by done. cbn [negb].
  unfold loads_unique. rewrite loads_with_dumps by (done || apply _). cbn [of_json]. do 2 f_equal.
  unfold str_items. by rewrite <- list_fmap_compose.
Qed.

(** ** The radar *)

(** The readings the radar's parser may return. *)
Record wf_seat_node (node seat model : string) (o : SeatNodeObservation) : Prop := {
  ws_header : wf_header node seat model (sn_header o);
  ws_presence : sn_presence_detected o = sn_moving_target_detected o || sn_stationary_target_detected o;
  ws_detection : is_Some (sn_detection_distance_cm o) <-> sn_presence_detected o = true;
  ws_moving : is_Some (sn_moving_distance_cm o) <-> sn_moving_target_detected o = true;
  ws_stationary : is_Some (sn_stationary_distance_cm o) <-> sn_stationary_target_detected o = true;
  ws_distances : Forall (from_option (fun z => 0 <= z <= 600)%Z True)
    [sn_detection_distance_cm o; sn_moving_distance_cm o; sn_stationary_distance_cm o];
  ws_energies : (0 <= sn_moving_energy o <= 100)%Z /\ (0 <= sn_stationary_energy o <= 100)%Z
}.

Definition json_opt (o : option Z) : json := match o with Some z => JInt z | None => JNull end.
Definition json_text (o : option string) : json := match o with Some s => JStr s | None => JNull end.

(** The document of a reading, with sorted keys. *)
Definition seat_node_document (o : SeatNodeObservation) : list (string * json) :=
  let h := sn_header o in
  [("boot_id", JStr (sh_boot_id h)); ("calibration_version", JStr (sh_calibration_version h));
   ("degraded_reason", json_text (sh_degraded_reason h)); ("detection_distance_cm", json_opt (sn_detection_distance_cm o));
   ("firmware_version", JStr (sh_firmware_version h)); ("moving_distance_cm", json_opt (sn_moving_distance_cm o));
   ("moving_energy", JInt (sn_moving_energy o)); ("moving_target_detected", JBool (sn_moving_target_detected o));
   ("node_id", JStr (sh_node_id h)); ("presence_detected", JBool (sn_presence_detected o));
   ("schema", JStr "velvet.seat_presence_node.v1"); ("seat_id", JStr (sh_seat_id h));
   ("sensor_health", JStr (sh_sensor_health h)); ("sensor_model", JStr (sh_sensor_model h)); ("sequence", JInt (sh_sequence h));
   ("stationary_distance_cm", json_opt (sn_stationary_distance_cm o)); ("stationary_energy", JInt (sn_stationary_energy o));
   ("stationary_target_detected", JBool (sn_stationary_target_detected o)); ("uptime_ms", JInt (sh_uptime_ms h))].
Definition seat_node_line (o : SeatNodeObservation) : byte_string := utf8 (dumps (JObj (seat_node_document o))).

Lemma seat_node_canonical o : canonical (JObj (seat_node_document o)).
Proof.
  apply canonical_obj.
  - apply (bool_decide_eq_true_1 _). vm_compute. reflexivity.
  - apply (bool_decide_eq_true_1 _). vm_compute. reflexivity.
  - unfold seat_node_document. repeat constructor; cbn.
    all: try (by destruct (sh_degraded_reason (sn_header o)); constructor).
    all: by match goal with |- canonical (json_opt ?x) => destruct x; constructor end.
Qed.

Definition seat_node_members (o : SeatNodeObservation) : items :=
  str_items ((fun kv => (kv.1, of_json kv.2)) <$> seat_node_document o).

Lemma seat_node_heads o : heads seat_node_format (seat_node_members o) (sn_header o).
Proof.
  split; try reflexivity.
  - intros k. change (text_key <$> (seat_node_members o).*1) with (seat_node_document o).*1. cbn [seat_node_document fmap list_fmap fst wf_fields seat_node_format].
    rewrite <- (elem_of_sorted_strings k [_; _; _; _; _; _; _; _; _; _; _; _; _; _; _; _; _; _; _]).
    rewrite <- (elem_of_sorted_strings k ["schema"; _; _; _; _; _; _; _; _; _; _; _; _; _; _; _; _; _; _]). done.
  - change (get (seat_node_members o) "degraded_reason") with (of_json (json_text (sh_degraded_reason (sn_header o)))).
    by destruct (sh_degraded_reason (sn_header o)).
Qed.

Lemma of_json_opt o : of_json (json_opt o) = opt_int o.
Proof. by destruct o. Qed.

Lemma seat_node_line_wf line node seat model max o : parse_seat_node_line line node seat model max = Ok o ->
  wf_seat_node node seat model o.
Proof.
  intros H. unfold parse_seat_node_line in H. passed. injection H as <-.
  match goal with Hs : parse_source _ _ _ _ _ = Ok _, Hp : parse_position _ _ _ = Ok _ |- _ =>
    pose proof (parse_head_wf _ _ _ _ _ _ _ Hs Hp) as Hw end.
  repeat match goal with
  | E : wire_integer _ _ _ _ _ = Ok _ |- _ => apply wire_integer_ok in E as [_ E]
  | E : optional_integer _ _ _ _ _ = Ok _ |- _ => apply optional_integer_ok in E as [_ E]
  | E : negb (Bool.eqb _ _) = false |- _ => apply negb_false_iff, eqb_prop in E
  end.
  split; cbn; try done; [| | |by repeat constructor].
  - rewrite <- (bool_decide_eq_true (is_Some a4)). by destruct a1, (bool_decide (is_Some a4)).
  - by rewrite Heqb2, bool_decide_eq_true.
  - by rewrite Heqb3, bool_decide_eq_true.
Qed.

(** C30: The radar's parser accepts exactly the consistent readings of the configured source.
    Whatever line it accepts, the reading is consistent: presence is movement or stillness,
    each distance is there exactly when its target is, and everything is within bounds; and
    every consistent reading has a line, its JSON text, from which it is read back. *)
Theorem seat_node_lines_read_back node seat model max :
  (forall line o, parse_seat_node_line line node seat model max = Ok o -> wf_seat_node node seat model o) /\
  (forall o, wf_seat_node node seat model o -> (2 <= Z.of_nat (length (seat_node_line o)) <= max)%Z ->
     parse_seat_node_line (seat_node_line o) node seat model max = Ok o).
Proof.
  split; [intros line o; apply seat_node_line_wf|].
  intros o [Wh Wp Wd Wm Wst Wdist [We1 We2]] Hsize.
    destruct (parse_head_complete _ _ _ _ _ _ (seat_node_heads o) Wh) as (src & Hsrc & Hpos).
    unfold parse_seat_node_line, seat_node_line.
    rewrite decode_document by (done || apply seat_node_canonical). fold (seat_node_members o). cbn [outcome_bind].
    rewrite Hsrc. cbn [outcome_bind].
    rewrite !Forall_cons in Wdist. destruct Wdist as (D1 & D2 & D3 & _).
    rewrite (proj2 (required_bool_ok _ _ "presence_detected" (sn_presence_detected o))),
      (proj2 (required_bool_ok _ _ "moving_target_detected" (sn_moving_target_detected o))),
      (proj2 (required_bool_ok _ _ "stationary_target_detected" (sn_stationary_target_detected o))) by done.
    cbn [outcome_bind]. rewrite <- Wp, eqb_reflx. cbn [negb].
    rewrite (proj2 (optional_integer_ok _ _ "detection_distance_cm" 0 600 (sn_detection_distance_cm o))),
      (proj2 (optional_integer_ok _ _ "moving_distance_cm" 0 600 (sn_moving_distance_cm o))),
      (proj2 (optional_integer_ok _ _ "stationary_distance_cm" 0 600 (sn_stationary_distance_cm o)))
      by (split; [apply of_json_opt|done]).
    cbn [outcome_bind].
    assert (forall (d : option Z) b, (is_Some d <-> b = true) -> bool_decide (is_Some d) = b) as Hb.
    { intros d b Hdb. apply eq_true_iff_eq. by rewrite bool_decide_eq_true. }
    rewrite (Hb _ _ Wd), (Hb _ _ Wm), (Hb _ _ Wst), andb_negb_r, andb_negb_l, !eqb_reflx. cbn [negb]. rewrite Hpos. cbn [outcome_bind].
    rewrite (proj2 (wire_integer_ok _ _ "moving_energy" 0 100 (sn_moving_energy o))),
      (proj2 (wire_integer_ok _ _ "stationary_energy" 0 100 (sn_stationary_energy o))) by done.
    by destruct o.
Qed.

(** ** Pressure pads *)

Definition in_range (lo hi : float) (f : float) : Prop := fle lo f = true /\ fle f hi = true /\ ffinite f = true.

Lemma bounded_float_ok e v key lo hi f : bounded_float e v key lo hi = Ok f -> in_range lo hi f.
Proof.
  unfold bounded_float, in_range. intros H. passed. injection H as <-.
  match goal with E : negb _ || negb _ = false |- _ => apply orb_false_iff in E as [E1%negb_false_iff E2%negb_false_iff] end.
  by apply andb_true_iff in E2 as [? ?].
Qed.

Lemma optional_finite_number_ok e d key lo hi o : optional_finite_number e d key lo hi = Ok o ->
  from_option (in_range lo hi) True o.
Proof.
  unfold optional_finite_number. destruct (get d key) eqn:Hg; [by intros [= <-]|..]; intros H; try discriminate H;
    passed; injection H as <-; cbn; by eapply bounded_float_ok.
Qed.

Lemma required_finite_number_ok e d key lo hi f : required_finite_number e d key lo hi = Ok f -> in_range lo hi f.
Proof. unfold required_finite_number. intros H. passed. by eapply bounded_float_ok. Qed.

(** A pad the parser may return. *)
Record wf_pad (p : PressurePadSample) : Prop := {
  wp_pad_id : is_wire_id (pp_pad_id p) = true; wp_zone : is_wire_id (pp_zone p) = true;
  wp_raw : from_option (fun z => 0 <= z <= 1000000000)%Z True (pp_raw_value p);
  wp_load : from_option (in_range f0 f1) True (pp_normalized_load p)
}.

Lemma parse_pad_wf i mode v p : parse_pad i mode v = Ok p -> wf_pad p.
Proof.
  unfold parse_pad, pressure_error. destruct v; try done. intros H. passed. injection H as <-. split; cbn.
  - by match goal with E : required_id _ _ "pad_id" = Ok _ |- _ => apply required_id_ok in E as [_ ?] end.
  - by match goal with E : required_id _ _ "zone" = Ok _ |- _ => apply required_id_ok in E as [_ ?] end.
  - by match goal with E : optional_integer _ _ _ _ _ = Ok _ |- _ => apply optional_integer_ok in E as [_ ?] end.
  - by match goal with E : optional_finite_number _ _ _ _ _ = Ok _ |- _ => apply optional_finite_number_ok in E end.
Qed.

Lemma parse_pads_wf mode vs : forall i seen ps, parse_pads i seen mode vs = Ok ps ->
  length ps = length vs /\ Forall wf_pad ps /\ NoDup (pp_pad_id <$> ps) /\ Forall (fun p => pp_pad_id p ∉ seen) ps.
Proof.
  induction vs as [|v vs IH]; intros i seen ps H; cbn in H; unfold pressure_error in H;
    [injection H as <-; by repeat constructor|]. passed. injection H as <-. 
  match goal with E : parse_pads _ _ _ _ = Ok _ |- _ => apply IH in E as (Hlen & Hw & Hnd & Hs) end.
  match goal with E : parse_pad _ _ _ = Ok _ |- _ => apply parse_pad_wf in E end.
  match goal with E : bool_decide (_ ∈ _) = false |- _ => apply bool_decide_eq_false in E end.
  rewrite Forall_forall in Hs. split_and!; cbn; [by rewrite Hlen|by constructor| |].
  - apply NoDup_cons. split; [|done]. intros (p & Hp & Hin)%list_elem_of_fmap. apply (Hs p Hin). rewrite <- Hp. by left.
  - constructor; [done|]. apply Forall_forall. intros p Hp Hin. apply (Hs p Hp). by right.
Qed.

(** A consistent pressure reading. *)
Record wf_pressure (node seat model : string) (o : SeatPressureObservation) : Prop := {
  wq_header : wf_header node seat model (sp_header o);
  wq_pads : 1 <= length (sp_pads o) <= 8 /\ Forall wf_pad (sp_pads o) /\ NoDup (pp_pad_id <$> sp_pads o);
  wq_contact : sp_contact_detected o = existsb pp_active (sp_pads o);
  wq_lateral : sp_lateral_state o ∈ lateral_states /\ (sp_lateral_state o = "NO_CONTACT" <-> sp_contact_detected o = false);
  wq_shift : (sp_lateral_shift_detected o = true -> sp_contact_detected o = true) /\
    sp_lateral_shift_direction o ∈ (if sp_lateral_shift_detected o then ["LEFT"; "RIGHT"] else ["NONE"; "UNKNOWN"]);
  wq_binary : sp_pressure_mode o = "BINARY_CONTACT" ->
    sp_total_load_kg_equivalent o = None /\ Forall (fun p => pp_normalized_load p = None) (sp_pads o);
  wq_calibrated : sp_pressure_mode o <> "BINARY_CONTACT" -> sp_pressure_mode o = "CALIBRATED_LOAD" /\
    (exists load, sp_total_load_kg_equivalent o = Some load /\ in_range f0 (float_of_Z 300) load) /\
    Forall (fun p => is_Some (pp_normalized_load p)) (sp_pads o);
  wq_stable : (0 <= sp_contact_stable_ms o <= 2147483647)%Z
}.

Lemma check_contact_ok contact s u : check_contact contact s = Ok u ->
  s ∈ lateral_states /\ (s = "NO_CONTACT" <-> contact = false).
Proof.
  unfold check_contact, pressure_error. case_bool_decide as H1; [done|]. intros H. split; [done|].
  destruct contact; cbn in H; case_bool_decide; naive_solver.
Qed.

Lemma check_shift_ok contact shift dir u : check_shift contact shift dir = Ok u ->
  (shift = true -> contact = true) /\ dir ∈ (if shift then ["LEFT"; "RIGHT"] else ["NONE"; "UNKNOWN"]).
Proof.
  unfold check_shift, pressure_error. intros H. case_bool_decide; [done|]. destruct shift; cbn in H.
  - case_bool_decide as Hd; [done|]. by destruct contact.
  - by case_bool_decide.
Qed.

Lemma check_load_ok mode load pads u : check_load mode load pads = Ok u ->
  (mode = "BINARY_CONTACT" -> load = None /\ Forall (fun p => pp_normalized_load p = None) pads) /\
  (mode <> "BINARY_CONTACT" -> is_Some load /\ Forall (fun p => is_Some (pp_normalized_load p)) pads).
Proof.
  unfold check_load, pressure_error. intros H. case_bool_decide as Hm; case_bool_decide as Hl; try done.
  - destruct (existsb _ pads) eqn:He; [done|]. split; [intros _|done]. split; [by apply eq_None_not_Some|].
    apply Forall_forall. intros p Hp. apply eq_None_not_Some. intros Hs. apply not_true_iff_false in He. apply He.
    apply existsb_exists. exists p. split; [by apply list_elem_of_In|]. by apply bool_decide_eq_true.
  - destruct (existsb _ pads) eqn:He; [done|]. split; [done|intros _]. split; [by apply not_eq_None_Some|].
    apply Forall_forall. intros p Hp. apply not_eq_None_Some. intros Hs. apply not_true_iff_false in He. apply He.
    apply existsb_exists. exists p. split; [by apply list_elem_of_In|]. by apply bool_decide_eq_true.
Qed.

(** C31: Accepted pressure evidence is consistent.  A line the parser accepts gives a reading of
    the configured source with one to eight distinct pads within bounds, whose contact flag
    says whether a pad is active, whose lateral state and shift agree with it, and which claims
    a load, in kilograms or per pad, exactly in calibrated mode. *)
Theorem pressure_lines_consistent line node seat model max o :
  parse_seat_pressure_line line node seat model max = Ok o -> wf_pressure node seat model o.
Proof.
  intros H. unfold parse_seat_pressure_line, pressure_error in H. passed. injection H as <-.
  match goal with Hs : parse_source _ _ _ _ _ = Ok _, Hp : parse_position _ _ _ = Ok _ |- _ =>
    pose proof (parse_head_wf _ _ _ _ _ _ _ Hs Hp) as Hw end.
  match goal with E : parse_pads _ _ _ _ = Ok _ |- _ => apply parse_pads_wf in E as (Hlen & Hpads & Hnd & _) end.
  match goal with E : check_contact _ _ = Ok _ |- _ => apply check_contact_ok in E as Hcontact end.
  match goal with E : check_shift _ _ _ = Ok _ |- _ => apply check_shift_ok in E as Hshift end.
  match goal with E : check_load _ _ _ = Ok _ |- _ => apply check_load_ok in E as [Hbin Hcal] end.
  match goal with E : optional_finite_number _ _ _ _ _ = Ok _ |- _ => apply optional_finite_number_ok in E as Hload end.
  match goal with E : wire_integer _ _ "contact_stable_ms" _ _ = Ok _ |- _ => apply wire_integer_ok in E as [_ Hst] end.
  match goal with E : negb (Bool.eqb _ _) = false |- _ => apply negb_false_iff, eqb_prop in E as Hactive end.
  match goal with E : bool_decide (?m ∉ ["BINARY_CONTACT"; _]) = false |- _ => apply bool_decide_eq_false, dec_stable in E as Hmode end.
  split; cbn; try done.
  - split_and!; try done; rewrite Hlen; match goal with E : match get ?d "pads" with _ => _ end = Ok _ |- _ =>
      destruct (get d "pads"); try discriminate E; unfold within_bounds in E;
      destruct ((1 <=? _)%Z && (_ <=? 8)%Z) eqn:Hb; [|discriminate E]; injection E as <- end; apply andb_true_iff in Hb as [? ?]; lia.
  - intros Hne. destruct (Hcal Hne) as [[load ->] Hall]. split_and!; [set_solver|by exists load|done].
Qed.

(** ** Heartbeat signals *)

(** A heartbeat reading claims a rate exactly when it has a signal. *)
Theorem heartbeat_lines_consistent line node seat model max o :
  parse_seat_heartbeat_line line node seat model max = Ok o ->
  wf_header node seat model (hb_header o) /\ (is_Some (hb_heartbeat_bpm o) <-> hb_signal_detected o = true) /\
  from_option (in_range f1 (float_of_Z 300)) True (hb_heartbeat_bpm o) /\
  in_range f0 f1 (hb_heartbeat_confidence o) /\ in_range f0 f1 (hb_signal_quality o).
Proof.
  intros H. unfold parse_seat_heartbeat_line in H. passed. injection H as <-.
  match goal with Hs : parse_source _ _ _ _ _ = Ok _, Hp : parse_position _ _ _ = Ok _ |- _ =>
    pose proof (parse_head_wf _ _ _ _ _ _ _ Hs Hp) as Hw end.
  match goal with E : optional_finite_number _ _ _ _ _ = Ok _ |- _ => apply optional_finite_number_ok in E as Hbpm end.
  match goal with E : required_finite_number _ _ "heartbeat_confidence" _ _ = Ok _ |- _ => apply required_finite_number_ok in E as Hc end.
  match goal with E : required_finite_number _ _ "signal_quality" _ _ = Ok _ |- _ => apply required_finite_number_ok in E as Hq end.
  match goal with E : check_signal ?d ?b _ _ = Ok _ |- _ => assert (is_Some b <-> d = true) as Hs end.
  { match goal with E : check_signal _ _ _ _ = Ok _ |- _ => unfold check_signal in E end.
    match goal with E : (if ?d then _ else _) = Ok _ |- _ => destruct d; case_bool_decide as Hb; try discriminate E end.
    - split; [done|intros _]. by apply not_eq_None_Some.
    - by split. }
  done.
Qed.

(** ** An example *)

Module Pads.
Definition pad (id : string) (active : bool) : json := JObj
  [("active", JBool active); ("normalized_load", JNull); ("pad_id", JStr id); ("raw_value", JNull); ("zone", JStr "cushion")].
Definition document (active : bool) (load : json) : json := JObj
  [("boot_id", JStr "boot-1"); ("calibration_version", JStr "cal-1"); ("contact_detected", JBool active);
   ("contact_stable_ms", JInt 500); ("degraded_reason", JNull); ("firmware_version", JStr "1.0");
   ("lateral_shift_detected", JBool false); ("lateral_shift_direction", JStr "none");
   ("lateral_state", JStr (if active then "center" else "no_contact")); ("node_id", JStr "esp-1");
   ("pads", JArr [pad "left" active; pad "right" false]); ("pressure_mode", JStr "binary_contact");
   ("schema", JStr "velvet.seat_pressure_node.v1"); ("seat_id", JStr "driver"); ("sensor_health", JStr "online");
   ("sensor_model", JStr "pads-2"); ("sequence", JInt 1); ("total_load_kg_equivalent", load); ("uptime_ms", JInt 100)].
Definition parsed (active : bool) (load : json) : outcome SeatPressureObservation :=
  parse_seat_pressure_line (utf8 (dumps (document active load))) "esp-1" "driver" "pads-2" 4096.
Definition sample : SeatPressureObservation :=
  match parsed true JNull with Ok o => o | Err _ => mkSeatPressure (mkHeader "" "" "" "" None "" 0 0 "" "") "" [] false 0 "" false "" None end.
End Pads.

Lemma pressure_lines_consistent_witness :
  wf_pressure "esp-1" "driver" "pads-2" Pads.sample /\ map pp_active (sp_pads Pads.sample) = [true; false].
Proof.
  split; [|vm_compute; reflexivity].
  apply (pressure_lines_consistent (utf8 (dumps (Pads.document true JNull))) "esp-1" "driver" "pads-2" 4096). vm_compute. reflexivity.
Defined.

(** A load beyond the floats is not a protocol error: the parser raises [OverflowError], which
    is no [ValueError]. *)
Theorem huge_load_escapes : match Pads.parsed true (JInt (10 ^ 400)) with
  | Ok _ => False | Err e => is_ValueError e = false /\ is_OSError e = false end.
Proof. vm_compute. by split. Qed.

(** A configured model with a blank at its end is compared stripped by the parser and as it
    stands by the adapter: no reading passes both. *)
Theorem padded_model_never_observed node seat model max line o k cfg event w m src am st :
  strip model <> model -> ac_expected_sensor_model cfg = model ->
  parse_seat_node_line line node seat model max = Ok o ->
  is_ok (observe k cfg (sn_header o) event w m src am st) = false.
Proof.
  intros Hne Hcfg Hp. apply seat_node_line_wf in Hp as [[_ _ _ _ Hm _ _ _ _ _ _ _] _ _ _ _ _ _].
  unfold required_expected_text in Hm. destruct (is_blank model || _); [done|]. injection Hm as Hm.
  unfold observe, check_identity. case_bool_decide; [done|]. case_bool_decide; [done|].
  by rewrite bool_decide_true by congruence.
Qed.
