(* ===== verification/BodyMapTheorems.v ===== *)
(** What the body map of a seat says about movement: it compares consecutive pressure readings
    pad by pad, and its intensity is a share. *)

From stdpp Require Import base gmap sets list strings sorting.
From Stdlib Require Import ZArith Ascii SpecFloat.
From S2P Require Import Prelude PyText PyVal Json Sha256 PyFloat StrDict PyJson TextChecks BodyRecord BodyAdapter SeatAdapter.
From S2P Require Import SeatPressure SeatBodyMap SeatTheorems SeatLineTheorems.

(** ** The topology *)

Record wf_topology (t : SeatPersonSenseTopology) : Prop := {
  wt_pads : 1 <= length (tp_pads t) <= 32; wt_ids : NoDup (pb_pad_id <$> tp_pads t);
  wt_main : "MAIN_LOAD" ∈ pb_role <$> tp_pads t;
  wt_weights : Forall (fun b => in_range f0 (float_of_Z 100) (pb_movement_weight b)) (tp_pads t);
  wt_total : fle (total_weight (tp_pads t)) f0 = false;
  wt_roles : Forall (fun b => pb_role b ∈ ["MAIN_LOAD"; "SIDE_BOLSTER"; "EDGE_MOTION"]) (tp_pads t)
}.

Definition wf_binding (b : SeatPadBinding) : Prop :=
  in_range f0 (float_of_Z 100) (pb_movement_weight b) /\ pb_role b ∈ ["MAIN_LOAD"; "SIDE_BOLSTER"; "EDGE_MOTION"].

Lemma parse_binding_wf i v b : parse_binding i v = Ok b -> wf_binding b.
Proof.
  unfold parse_binding, topology_error. destruct v; try done. intros H. passed. injection H as <-. split; cbn.
  - by match goal with E : required_finite_number _ _ _ _ _ = Ok _ |- _ => apply required_finite_number_ok in E end.
  - by match goal with E : bool_decide (_ ∉ ["MAIN_LOAD"; _; _]) = false |- _ => apply bool_decide_eq_false, dec_stable in E end.
Qed.

Lemma parse_bindings_wf vs : forall i seen bs, parse_bindings i seen vs = Ok bs ->
  length bs = length vs /\ Forall wf_binding bs /\ NoDup (pb_pad_id <$> bs) /\ Forall (fun b => pb_pad_id b ∉ seen) bs.
Proof.
  induction vs as [|v vs IH]; intros i seen bs H; cbn in H; unfold topology_error in H;
    [injection H as <-; by repeat constructor|]. passed. injection H as <-.
  match goal with E : parse_bindings _ _ _ = Ok _ |- _ => apply IH in E as (Hlen & Hw & Hnd & Hs) end.
  match goal with E : parse_binding _ _ = Ok _ |- _ => apply parse_binding_wf in E end.
  match goal with E : bool_decide (_ ∈ _) = false |- _ => apply bool_decide_eq_false in E end.
  rewrite Forall_forall in Hs. split_and!; cbn; [by rewrite Hlen|by constructor| |].
  - apply NoDup_cons. split; [|done]. intros (p & Hp & Hin)%list_elem_of_fmap. apply (Hs p Hin). rewrite <- Hp. by left.
  - constructor; [done|]. apply Forall_forall. intros p Hp Hin. apply (Hs p Hp). by right.
Qed.

(** A topology that is loaded is well-formed. *)
Lemma parse_topology_wf text expected t : parse_seat_person_sense_topology text expected = Ok t -> wf_topology t.
Proof.
  intros H. unfold parse_seat_person_sense_topology, topology_error in H. passed. injection H as <-.
  match goal with E : parse_bindings _ _ _ = Ok _ |- _ => apply parse_bindings_wf in E as (Hlen & Hb & Hnd & _) end.
  match goal with E : negb (existsb _ _) = false |- _ => apply negb_false_iff, existsb_exists in E as (m & Hm & Hrole) end.
  apply list_elem_of_In in Hm. apply bool_decide_eq_true in Hrole.
  split; cbn; try done.
  - rewrite Hlen. match goal with E : match get ?d "pads" with _ => _ end = Ok _ |- _ =>
      destruct (get d "pads"); try discriminate E; unfold within_bounds in E;
      destruct ((1 <=? _)%Z && (_ <=? 32)%Z) eqn:Hbo; [|discriminate E]; injection E as <- end. apply andb_true_iff in Hbo as [? ?]; lia.
  - rewrite <- Hrole. by apply list_elem_of_fmap_2.
  - eapply Forall_impl; [exact Hb|]. by intros b [? _].
  - eapply Forall_impl; [exact Hb|]. by intros b [_ ?].
Qed.

Lemma binary_round_aux_not_nan m e l : (0 <= m)%Z -> fnan (binary_round_aux 53 1024 false m e l) = false.
Proof.
  intros Hm. unfold binary_round_aux. pose proof (shr_fexp_bound m e l Hm) as H1.
  destruct (shr_fexp 53 1024 m e l) as [r1 e1]. cbn [fst] in H1.
  assert (0 <= round_nearest_even (shr_m r1) (loc_of_shr_record r1))%Z as Hr.
  { unfold round_nearest_even. destruct (loc_of_shr_record r1) as [|[]]; try destruct (Z.even _); lia. }
  pose proof (shr_fexp_bound _ e1 loc_Exact Hr) as H2.
  destruct (shr_fexp 53 1024 (round_nearest_even _ _) e1 loc_Exact) as [r2 e2]. cbn [fst] in H2.
  destruct (shr_m r2); [done|by case_match|lia].
Qed.

Lemma fadd_not_nan f g : unsigned f -> fnan f = false -> fle f0 g = true -> fnan (fadd f g) = false.
Proof.
  destruct f as [s|s| |s m e], g as [[]|[]| |[] n d]; cbn [unsigned]; intros Hf Hn Hg; subst; try done.
  unfold fadd, SFadd. cbn [cond_Zopp].
  match goal with |- context [binary_normalize _ _ ?x _ _] => assert (0 < x)%Z by lia; destruct x; [done| |done] end.
  cbn [binary_normalize]. unfold binary_round. case_match. by apply binary_round_aux_not_nan.
Qed.

Lemma total_weight_number pads : Forall (fun b => in_range f0 (float_of_Z 100) (pb_movement_weight b)) pads ->
  unsigned (total_weight pads) /\ fnan (total_weight pads) = false.
Proof.
  unfold total_weight. assert (forall acc, unsigned acc -> fnan acc = false ->
    Forall (fun b => in_range f0 (float_of_Z 100) (pb_movement_weight b)) pads ->
    unsigned (fold_left (fun acc b => fadd acc (pb_movement_weight b)) pads acc) /\
    fnan (fold_left (fun acc b => fadd acc (pb_movement_weight b)) pads acc) = false) as H; [|by apply H].
  induction pads as [|b pads IH]; intros acc Hacc Hn Hp; [done|].
  inversion Hp as [|? ? (Hb & _) Hrest]; subst. cbn. apply IH; [by apply fadd_unsigned|by apply fadd_not_nan|done].
Qed.

(** ** Pads by identity *)

Lemma by_pad_some {A} (value : PressurePadSample -> A) pads id :
  is_Some (d_get (by_pad value pads) id) <-> id ∈ pp_pad_id <$> pads.
Proof.
  unfold by_pad. induction pads as [|p pads IH] using rev_ind; [cbn; split; [by intros [? ?]|by intros ?%elem_of_nil]|].
  rewrite fold_left_app, fmap_app, elem_of_app, <- IH. cbn [fold_left fmap list_fmap]. rewrite d_get_set, list_elem_of_singleton.
  case_bool_decide; split; try (by eauto); intros [?|?]; try done; congruence.
Qed.

Lemma changed_pads_ok (last active : sdict bool) pads :
  Forall (fun b => is_Some (d_get last (pb_pad_id b)) /\ is_Some (d_get active (pb_pad_id b))) pads ->
  changed_pads last active pads = Ok (filter (fun b => d_get last (pb_pad_id b) <> d_get active (pb_pad_id b)) pads).
Proof.
  induction 1 as [|b pads [[x Hx] [y Hy]] _ IH]; [done|]. cbn [changed_pads]. unfold pad_item. rewrite Hx, Hy. cbn [outcome_bind].
  rewrite IH. cbn [outcome_bind]. rewrite filter_cons, Hx, Hy. case_decide as Hd; f_equal.
  - destruct x, y; try done; by destruct Hd.
  - assert (x = y) as ->; [|by rewrite eqb_reflx]. destruct x, y; try done; destruct Hd; congruence.
Qed.

Lemma binding_for_ok t b : b ∈ tp_pads t -> exists b', binding_for t (pb_pad_id b) = Ok b'.
Proof.
  intros Hb. unfold binding_for. destruct (list_find _ (tp_pads t)) as [[i b']|] eqn:Hf; [by exists b'|].
  rewrite list_find_None, Forall_forall in Hf. by destruct (Hf b Hb).
Qed.

Lemma filter_fmap {A B} (f : A -> B) (P : B -> Prop) `{forall b, Decision (P b), forall a, Decision (P (f a))} (l : list A) :
  filter P (f <$> l) = f <$> filter (fun a => P (f a)) l.
Proof. induction l as [|a l IH]; [done|]. cbn [fmap list_fmap]. rewrite !filter_cons, IH. by repeat case_decide. Qed.

(** ** Movement *)

Section Movement.
Context (cfg : adapter_config) (t : SeatPersonSenseTopology) (Hwf : wf_topology t).

(** The contact of a pad in a reading; [None] for an unknown pad. *)
Definition contact_of (o : SeatPressureObservation) (id : string) : option bool := d_get (by_pad pp_active (sp_pads o)) id.

Definition covers (o : SeatPressureObservation) : Prop := forall id, id ∈ pp_pad_id <$> sp_pads o <-> id ∈ pb_pad_id <$> tp_pads t.

Lemma check_observation_covers o u : check_observation cfg t o = Ok u -> covers o.
Proof.
  unfold check_observation, topology_error. intros H. passed. match goal with E : negb (same_ids _ _) = false |- _ =>
    apply negb_false_iff, andb_true_iff in E as [E1%bool_decide_eq_true E2%bool_decide_eq_true] end.
  intros id. split; [apply E1|apply E2].
Qed.

(** The pads whose contact changed since the previous reading, in the order of the topology. *)
Definition changed_since (before : option SeatPressureObservation) (o : SeatPressureObservation) : list string :=
  match before with
  | Some b => filter (fun id => contact_of b id <> contact_of o id) (pb_pad_id <$> tp_pads t)
  | None => []
  end.

(** The movement between the previous reading, if any, and this one. *)
Definition movement_between (before : option SeatPressureObservation) (o : SeatPressureObservation) (m : movement) : Prop :=
  mv_baseline m = bool_decide (is_Some before) /\ mv_pad_ids m = changed_since before o /\
  in_unit (mv_intensity m) = true /\ fits (mv_intensity m) /\ (mv_pad_ids m = [] -> feq (mv_intensity m) f0 = true).

Lemma find_movement_ok before o : covers o -> (forall b, before = Some b -> covers b) ->
  exists m, find_movement t ((fun b => by_pad pp_active (sp_pads b)) <$> before) (by_pad pp_active (sp_pads o)) = Ok m /\
    movement_between before o m.
Proof using Hwf.
  intros Ho Hb. destruct before as [b|]; cbn [fmap option_fmap option_map].
  2: { eexists. split; [reflexivity|]. by split_and!. }
  specialize (Hb b eq_refl). unfold find_movement. rewrite changed_pads_ok.
  2: { apply Forall_forall. intros c Hc. rewrite !by_pad_some. split; [apply Hb|apply Ho]; by apply list_elem_of_fmap_2. }
  cbn [outcome_bind]. set (changed := filter _ (tp_pads t)).
  unfold float_div. rewrite feq_fle by apply (wt_total t Hwf). cbn [outcome_bind].
  destruct (mapM_outcome_total (fun b => binding_for t (pb_pad_id b)) changed) as [bound ->].
  { intros c [_ Hc]%list_elem_of_filter. by apply binding_for_ok. }
  cbn [outcome_bind]. eexists. split; [reflexivity|].
  assert (unsigned (total_weight changed)) as Hs 
    by (apply total_weight_number, Forall_forall; intros c [_ Hc]%list_elem_of_filter; revert c Hc;
        apply Forall_forall, (wt_weights t Hwf)).
  destruct (total_weight_number (tp_pads t) (wt_weights t Hwf)) as [Hs' Hn].
  split_and!; cbn [mv_baseline mv_pad_ids mv_intensity]; [done| | | |].
  - symmetry. rapply (filter_fmap pb_pad_id (fun id => contact_of b id <> contact_of o id)).
  - by apply in_unit_fmin, SFdiv_unsigned.
  - unfold fmin. case_match; [apply SFdiv_fits|done].
  - intros ->%fmap_nil_inv. pose proof (wt_total t Hwf) as Hp. change (total_weight []) with f0.
    by destruct (total_weight (tp_pads t)) as [s|[]| |s p e].
Qed.
(** ** Histories *)

(** A history of the adapter: the accepted pressure readings, and the state. *)
Inductive map_history : list SeatPressureObservation -> body_map -> Prop :=
| map_new : map_history [] new_body_map
| map_observed os st o w m src am c st' : map_history os st -> body_map_observe cfg t o w m src am st = Ok (c, st') ->
    map_history (os ++ [o]) st'
| map_failed os st reason w am c st' : map_history os st -> body_map_failure cfg t reason w am st = Ok (c, st') -> map_history os st'
| map_checked os st w m am c st' : map_history os st -> body_map_stale cfg t w m am st = Ok (c, st') -> map_history os st'.

(** The contacts remembered are those of the last accepted reading, which covers the topology. *)
Lemma history_remembers os st : map_history os st ->
  bm_last_active st = (fun o => by_pad pp_active (sp_pads o)) <$> last os /\ (forall o, last os = Some o -> covers o).
Proof.
  induction 1 as [|os st o w m src am c st' _ _ H|os st reason w am c st' _ IH H|os st w m am c st' _ IH H]; [done|..].
  - unfold body_map_observe in H. destruct (check_observation _ _ _) eqn:Hc; [|done]. cbn [outcome_bind] in H. passed.
    injection H as _ <-. rewrite last_snoc. split; [done|]. intros ? [= <-]. by eapply check_observation_covers.
  - unfold body_map_failure in H. passed. case_bool_decide; by injection H as _ <-.
  - unfold body_map_stale in H. destruct (bm_last_seen st); [|by injection H as _ <-].
    destruct (bm_stale_reported st); [by injection H as _ <-|]. passed. by destruct (within_ms _ _); injection H as _ <-.
Qed.

Lemma bound_pads_ok o : covers o -> exists pads, bound_pads t o = Ok pads.
Proof.
  intros Ho. apply mapM_outcome_total. intros b Hb. unfold pad_item.
  destruct (proj2 (by_pad_some id (sp_pads o) (pb_pad_id b))) as [p ->]; [by apply Ho, list_elem_of_fmap_2|]. by eexists.
Qed.

(** What a sensor event says about movement. *)
Record says_movement (payload : items) (baseline : bool) (changed : list string) (intensity : float) : Prop := {
  sm_baseline : get payload "baseline_established" = PBool baseline;
  sm_changed : get payload "changed_pad_ids" = strs changed;
  sm_detected : get payload "movement_detected" = PBool (bool_decide (changed <> []));
  sm_intensity : get payload "movement_intensity" = PFloat (py_round 6 intensity)
}.

Lemma six_places : in_unit (float_of_decimal false (10 ^ 6) (-6)) = true.
Proof. vm_compute. reflexivity. Qed.

(** C32: The body map reports exactly the contacts that changed.  After any calls, a pressure
    reading of the topology's pads is always accepted - no pad is missing from the remembered
    contacts and the weights never sum to zero - and its event names, in the order of the
    topology, the pads whose contact differs from the previous accepted reading, none at the
    first reading; movement is detected when there is one, and its intensity is a share of
    the weight between 0 and 1, zero when nothing changed. *)
Theorem body_map_reports_changes os st o now_wall now_monotonic src am wall monotonic : map_history os st ->
  check_observation cfg t o = Ok tt -> is_blank src = false ->
  reading now_wall (am_time am) "now_wall" = Ok wall -> reading now_monotonic (am_monotonic am) "now_monotonic" = Ok monotonic ->
  exists event health st', body_map_observe cfg t o now_wall now_monotonic src am st = Ok (mkCycle (Some event) health, st') /\
  exists intensity, says_movement (match get (payload_of event) "payload" with PDict p => p | _ => [] end)
    (bool_decide (is_Some (last os))) (changed_since (last os) o) intensity /\
  in_unit intensity = true /\ in_unit (py_round 6 intensity) = true /\
  (changed_since (last os) o = [] -> feq intensity f0 = true).
Proof using Hwf.
  intros Hh Hc Hs Hw Hm. pose proof (check_observation_covers _ _ Hc) as Ho.
  destruct (history_remembers _ _ Hh) as [Hl Hcov].
  destruct (find_movement_ok (last os) o Ho Hcov) as (m & Hf & Hb & Hids & Hu & Hfit & Hz).
  destruct (bound_pads_ok o Ho) as [pads Hp].
  unfold body_map_observe. rewrite Hc, Hw, Hm, Hs, Hl, Hf. cbn [outcome_bind]. unfold body_map_sensor_event. rewrite Hp.
  cbn [outcome_bind]. do 3 eexists. split; [reflexivity|]. exists (mv_intensity m).
  split; [split; rewrite <- ?Hb, <- ?Hids; reflexivity|]. split; [done|].
  split; [by apply in_unit_round_at; [done|exact six_places|..]|]. by rewrite <- Hids.
Qed.
End Movement.

(** ** An example: somebody leaves the left pad *)

Module Seat.
Definition pads : list SeatPadBinding :=
  [mkBinding "left" "MAIN_LOAD" "cushion" "LEFT" (float_of_Z 3); mkBinding "right" "SIDE_BOLSTER" "cushion" "RIGHT" f1].
Definition topology : SeatPersonSenseTopology := mkTopology "topology-1" "driver" "van" "cal-1" pads.
Definition config : adapter_config :=
  mkAdapterConfig (mkEmitter "seat-map" "esp-1" "Temperance") "driver" "read-only-serial-json" 3500 3 "".
Definition reading_of (left : bool) : SeatPressureObservation :=
  mkSeatPressure (mkHeader "esp-1" "driver" "pads-2" "ONLINE" None "boot-1" 1 100 "1.0" "cal-1") "BINARY_CONTACT"
    [mkPad "left" "CUSHION" left None None; mkPad "right" "CUSHION" false None None] left 500 (if left then "LEFT" else "NO_CONTACT")
    false "NONE" None.
Definition at_time (n : Z) : ambient := mkAmbient (float_of_Z n) (float_of_Z n) "health-id" "receipt-id".
Definition seen : adapter_cycle * body_map :=
  match body_map_observe config topology (reading_of true) None None "serial" (at_time 10) new_body_map with
  | Ok r => r | Err _ => (no_cycle, new_body_map) end.

Lemma wf : wf_topology topology.
Proof.
  split; [cbn; lia| | | |reflexivity|]; try (apply (bool_decide_eq_true_1 _); vm_compute; reflexivity).
Qed.

Lemma map_example : map_history config topology [reading_of true] seen.2.
Proof. apply (map_observed _ _ [] new_body_map _ None None "serial" (at_time 10) seen.1); [constructor|vm_compute; reflexivity]. Qed.
End Seat.

(** The pad that lost contact carries three quarters of the weight. *)
Lemma body_map_reports_changes_witness :
  (exists event health st', body_map_observe Seat.config Seat.topology (Seat.reading_of false) None None "serial" (Seat.at_time 11) Seat.seen.2
     = Ok (mkCycle (Some event) health, st') /\
   exists intensity, says_movement (match get (payload_of event) "payload" with PDict p => p | _ => [] end) true ["left"] intensity /\
   in_unit intensity = true /\ in_unit (py_round 6 intensity) = true /\ (["left"] = [] -> feq intensity f0 = true)) /\
  (match body_map_observe Seat.config Seat.topology (Seat.reading_of false) None None "serial" (Seat.at_time 11) Seat.seen.2 with
   | Ok (mkCycle (Some event) _, _) =>
       get (match get (payload_of event) "payload" with PDict p => p | _ => [] end) "movement_intensity"
   | _ => PNone end) = PFloat (flit 75 (-2)).
Proof.
  split; [|vm_compute; reflexivity].
  exact (body_map_reports_changes Seat.config Seat.topology Seat.wf [Seat.reading_of true] Seat.seen.2 (Seat.reading_of false) None None
    "serial" (Seat.at_time 11) (float_of_Z 11) (float_of_Z 11) Seat.map_example eq_refl eq_refl eq_refl eq_refl).
Defined.
