(* ===== verification/VehiclePower.v ===== *)
(** [services/vehicle_power_adapter.py]: ignition and supply voltage as body evidence. *)

From stdpp Require Import base gmap sets list strings sorting.
From Stdlib Require Import ZArith Ascii SpecFloat.
From S2P Require Import Prelude PyText PyVal Json Sha256 PyFloat PyJson TextChecks BodyAdapter.

Record VehiclePowerAdapterConfig := mkPowerConfig {
  vp_emitter : emitter;
  vp_interface_type : string;
  vp_stale_after_ms : Z;
  vp_calibration_version : string;
  vp_nominal_voltage_v : float;
  vp_critical_low_voltage_v : float;
  vp_low_voltage_v : float;
  vp_charging_voltage_v : float;
  vp_high_voltage_v : float;
  vp_maximum_voltage_v : float
}.

(** The thresholds in the order in which they are checked. *)
Definition thresholds (c : VehiclePowerAdapterConfig) : list (string * float) :=
  [("critical_low_voltage_v", vp_critical_low_voltage_v c); ("low_voltage_v", vp_low_voltage_v c);
   ("nominal_voltage_v", vp_nominal_voltage_v c); ("charging_voltage_v", vp_charging_voltage_v c);
   ("high_voltage_v", vp_high_voltage_v c); ("maximum_voltage_v", vp_maximum_voltage_v c)].

Definition positive_threshold (nv : string * float) : outcome float :=
  if negb (ffinite nv.2) || fle nv.2 f0 then raise ValueError (nv.1 +:+ " must be finite and positive") else Ok nv.2.

(** [values == sorted(values) and len(set(values)) == len(values)], for finite values. *)
Fixpoint strictly_increasing (values : list float) : bool :=
  match values with
  | x :: (y :: _) as rest => flt x y && strictly_increasing rest
  | _ => true
  end.

(** [VehiclePowerAdapterConfig.__post_init__] *)
Definition check_power_config (c : VehiclePowerAdapterConfig) : outcome unit :=
  let? _ := non_empty_text "module_id" (em_module_id (vp_emitter c)) in
  let? _ := non_empty_text "node_id" (em_node_id (vp_emitter c)) in
  let? _ := non_empty_text "owning_handmaiden" (em_owning_handmaiden (vp_emitter c)) in
  let? _ := non_empty_text "interface_type" (vp_interface_type c) in
  let? _ := non_empty_text "calibration_version" (vp_calibration_version c) in
  if negb (within_bounds (vp_stale_after_ms c) 250 600000)
  then raise ValueError "stale_after_ms must be between 250 and 600000" else
  let? values := mapM_outcome positive_threshold (thresholds c) in
  if negb (strictly_increasing values) then raise ValueError "vehicle voltage thresholds must be strictly increasing"
  else Ok tt.

Record power_adapter := mkPowerAdapter {
  va_state : string; va_last_band : option string; va_last_observation : option float; va_stale_reported : bool }.

(** [VehiclePowerBodyAdapter.__init__] *)
Definition new_power_adapter : power_adapter := mkPowerAdapter "UNKNOWN" None None false.

Section Power.
Context (cfg : VehiclePowerAdapterConfig).

(** [classify_voltage] *)
Definition classify_voltage (voltage_v : float) : outcome string :=
  let? voltage := finite_non_negative voltage_v "voltage_v" in
  Ok (if flt voltage (vp_critical_low_voltage_v cfg) then "CRITICAL_LOW" else
      if flt voltage (vp_low_voltage_v cfg) then "LOW" else
      if flt voltage (vp_charging_voltage_v cfg) then "NORMAL" else
      if flt voltage (vp_high_voltage_v cfg) then "CHARGING" else "HIGH").

Definition healthy_band (band : string) : bool := bool_decide (band ∈ ["NORMAL"; "CHARGING"]).

(** [_health_event] *)
Definition power_health_event (wall : float) (event_type severity before after detail reason_code : string) (extra : items)
    (event_id : string) : items :=
  health_event (vp_emitter cfg) wall (mkReport event_type severity before after)
    (dict_update (str_items [("detail", PStr detail); ("reason_code", PStr reason_code); ("read_only", PBool true)]) extra)
    "continue read-only vehicle power observation" event_id.

Definition band_details (band : string) (voltage_v : float) : items :=
  str_items [("voltage_v", PFloat (py_round 4 voltage_v)); ("voltage_band", PStr band)].

(** [_transition_health] *)
Definition transition_health (wall : float) (previous new_state band : string) (voltage_v : float) (event_id : string) : items :=
  if bool_decide (new_state = "ONLINE") then
    let event_type := if bool_decide (previous ∈ ["DEGRADED"; "FAILED"; "RECOVERING"]) then "RECOVERED" else "ONLINE" in
    power_health_event wall event_type "INFO" previous "ONLINE"
      (if bool_decide (event_type = "RECOVERED") then "Vehicle power observation recovered"
       else "Vehicle power observation online")
      ("POWER_" +:+ band) (band_details band voltage_v) event_id
  else power_health_event wall "DEGRADED" (if bool_decide (band ∈ ["CRITICAL_LOW"; "HIGH"]) then "ERROR" else "WARNING")
      previous "DEGRADED" "Vehicle supply voltage is outside the configured healthy band" ("VOLTAGE_" +:+ band)
      (band_details band voltage_v) event_id.

Definition power_payload (voltage_v : float) (ignition_on : bool) (band : string) : items :=
  str_items
    [("voltage_v", PFloat (py_round 4 voltage_v)); ("ignition_on", PBool ignition_on);
     ("ignition_state", PStr (if ignition_on then "ON" else "OFF")); ("voltage_band", PStr band);
     ("nominal_voltage_v", PFloat (vp_nominal_voltage_v cfg)); ("engine_running_inferred", PBool false);
     ("read_only", PBool true)].

(** [_sensor_event] *)
Definition power_sensor_event (wall monotonic voltage_v : float) (ignition_on : bool) (band source_reference receipt_id : string)
    : items :=
  let reason := if healthy_band band then PNone else PStr ("VOLTAGE_" +:+ band) in
  sensor_event (vp_emitter cfg) wall monotonic
    (mkReading "vehicle_power_state" (vp_interface_type cfg) (if healthy_band band then "ONLINE" else "DEGRADED") (flit 98 (-2))
       "device" (vp_stale_after_ms cfg) (vp_calibration_version cfg) [("degraded_reason", reason)] source_reference)
    (power_payload voltage_v ignition_on band) receipt_id.

(** [observe] *)
Definition power_observe (voltage_v : float) (ignition_on : bool) (now_wall now_monotonic : option float) (source_reference : string)
    (am : ambient) (st : power_adapter) : outcome (adapter_cycle * power_adapter) :=
  let? wall := reading now_wall (am_time am) "now_wall" in
  let? monotonic := reading now_monotonic (am_monotonic am) "now_monotonic" in
  let? voltage := finite_non_negative voltage_v "voltage_v" in
  if flt (vp_maximum_voltage_v cfg) voltage then raise ValueError "vehicle voltage exceeds configured maximum" else
  if is_blank source_reference then raise ValueError "source_reference must be non-empty" else
  let? band := classify_voltage voltage in
  let new_state := if healthy_band band then "ONLINE" else "DEGRADED" in
  Ok (mkCycle (Some (power_sensor_event wall monotonic voltage ignition_on band (strip source_reference) (am_receipt_id am)))
        (if bool_decide (va_state st <> new_state \/ va_last_band st <> Some band)
         then Some (transition_health wall (va_state st) new_state band voltage (am_health_id am)) else None),
      mkPowerAdapter new_state (Some band) (Some monotonic) false).

(** [check_stale] *)
Definition power_stale (now_wall now_monotonic : option float) (am : ambient) (st : power_adapter)
    : outcome (adapter_cycle * power_adapter) :=
  let? wall := reading now_wall (am_time am) "now_wall" in
  let? monotonic := reading now_monotonic (am_monotonic am) "now_monotonic" in
  match va_last_observation st with
  | Some seen =>
      let age := age_ms monotonic seen in
      if within_ms age (vp_stale_after_ms cfg) || va_stale_reported st then Ok (no_cycle, st) else
      Ok (health_cycle (power_health_event wall "STALE" "WARNING" (va_state st) "DEGRADED" "Vehicle power observations are stale"
            "STALE_POWER_INPUT" (str_items [("age_ms", PFloat (py_round 3 (fmax f0 age)))]) (am_health_id am)),
          mkPowerAdapter "DEGRADED" (va_last_band st) (va_last_observation st) true)
  | None => Ok (no_cycle, st)
  end.

(** [mark_failed] *)
Definition power_failed (reason : string) (now_wall : option float) (am : ambient) (st : power_adapter)
    : outcome (adapter_cycle * power_adapter) :=
  if is_blank reason then raise ValueError "failure reason must be a non-empty string" else
  if bool_decide (va_state st = "FAILED") then Ok (no_cycle, st) else
  let? wall := reading now_wall (am_time am) "now_wall" in
  Ok (health_cycle (power_health_event wall "FAILED" "ERROR" (va_state st) "FAILED" (strip reason) "POWER_SOURCE_FAILURE" []
        (am_health_id am)),
      mkPowerAdapter "FAILED" None (va_last_observation st) (va_stale_reported st)).
End Power.
