(* ===== verification/PowerTheorems.v ===== *)
(** The supply adapter of the vehicle: its bands partition the voltages, ONLINE means a healthy
    voltage, and its health events tell every change. *)

From stdpp Require Import base gmap sets list strings sorting.
From Stdlib Require Import ZArith Ascii SpecFloat.
From S2P Require Import Prelude PyText PyVal Json Sha256 PyFloat PyJson TextChecks BodyRecord BodyAdapter SeatAdapter SeatTheorems.
From S2P Require Import VehiclePower.

(** ** Bands *)

Record increasing (c : VehiclePowerAdapterConfig) : Prop := {
  in_low : flt (vp_critical_low_voltage_v c) (vp_low_voltage_v c) = true;
  in_charging : flt (vp_low_voltage_v c) (vp_charging_voltage_v c) = true;
  in_high : flt (vp_charging_voltage_v c) (vp_high_voltage_v c) = true;
  in_maximum : flt (vp_high_voltage_v c) (vp_maximum_voltage_v c) = true
}.

Lemma positive_thresholds_ok l vs : mapM_outcome positive_threshold l = Ok vs -> vs = l.*2.
Proof.
  intros H%mapM_outcome_ok. induction H as [|[n v] w l vs Hv _ IH]; [done|]. cbn. rewrite IH. f_equal.
  unfold positive_threshold in Hv. passed. by injection Hv.
Qed.

Lemma check_power_config_ok c u : check_power_config c = Ok u -> increasing c.
Proof.
  unfold check_power_config. intros H. passed.
  match goal with E : mapM_outcome positive_threshold _ = Ok ?vs |- _ => apply positive_thresholds_ok in E as -> end.
  match goal with E : negb (strictly_increasing _) = false |- _ => apply negb_false_iff in E; cbn in E; rewrite !andb_true_iff in E;
    destruct E as (H1 & H2 & H3 & H4 & H5 & _) end.
  split; try done. by eapply flt_trans.
Qed.

(** The voltages of each band. *)
Definition in_band (c : VehiclePowerAdapterConfig) (v : float) (band : string) : Prop :=
  (band = "CRITICAL_LOW" /\ flt v (vp_critical_low_voltage_v c) = true) \/
  (band = "LOW" /\ fle (vp_critical_low_voltage_v c) v = true /\ flt v (vp_low_voltage_v c) = true) \/
  (band = "NORMAL" /\ fle (vp_low_voltage_v c) v = true /\ flt v (vp_charging_voltage_v c) = true) \/
  (band = "CHARGING" /\ fle (vp_charging_voltage_v c) v = true /\ flt v (vp_high_voltage_v c) = true) \/
  (band = "HIGH" /\ fle (vp_high_voltage_v c) v = true).

Lemma finite_not_nan f : ffinite f = true -> fnan f = false.
Proof. by destruct f. Qed.

Lemma flt_or_fle v t : fnan v = false -> fnan t = false -> flt v t = true /\ fle t v = false \/ flt v t = false /\ fle t v = true.
Proof. intros Hv Ht. rewrite (flt_negb v t Hv Ht). destruct (fle t v); [right|left]; done. Qed.

(** Every voltage is in exactly the band it is classified as. *)
Lemma classify_band c v : increasing c -> finite_non_negative v "voltage_v" = Ok v ->
  exists band, classify_voltage c v = Ok band /\ forall b, in_band c v b <-> b = band.
Proof.
  intros [Hl Hc Hh Hm] Hv. unfold classify_voltage. rewrite Hv. cbn [outcome_bind]. eexists. split; [reflexivity|]. intros b.
  assert (fnan v = false) as Hn.
  { unfold finite_non_negative in Hv. destruct (ffinite v) eqn:Hf; [by apply finite_not_nan|done]. }
  pose proof (flt_fle _ _ Hl) as [N1 N2]%fle_not_nan. pose proof (flt_fle _ _ Hh) as [N3 N4]%fle_not_nan. unfold in_band.
  assert (forall s t, flt s t = true -> flt v s = true -> flt v t = true) as Hup by (intros; by eapply flt_trans).
  pose proof (Hup _ _ Hl) as U1. pose proof (Hup _ _ Hc) as U2. pose proof (Hup _ _ Hh) as U3.
  destruct (flt_or_fle v _ Hn N1) as [[A A']|[A A']], (flt_or_fle v _ Hn N2) as [[B B']|[B B']],
    (flt_or_fle v _ Hn N3) as [[C C']|[C C']], (flt_or_fle v _ Hn N4) as [[D D']|[D D']];
    rewrite A, B, C, D in *; try (specialize (U1 eq_refl)); try (specialize (U2 eq_refl)); try (specialize (U3 eq_refl)); try done;
    rewrite A', B', C', D'; clear; (split; [intuition congruence|intros ->; auto 10]).
Qed.

Lemma healthy_in_band c v band : increasing c -> finite_non_negative v "voltage_v" = Ok v -> classify_voltage c v = Ok band ->
  healthy_band band = true -> fle (vp_low_voltage_v c) v = true /\ flt v (vp_high_voltage_v c) = true.
Proof.
  intros Hi Hv Hb. destruct (classify_band c v Hi Hv) as (b & Hb' & Hband). rewrite Hb in Hb'. injection Hb' as <-.
  intros Hh%bool_decide_eq_true. assert (in_band c v band) as Hin by (by apply Hband). destruct Hi as [Hl Hc Hhi _].
  destruct Hin as [[-> _]|[[-> _]|[(-> & ? & ?)|[(-> & ? & ?)|[-> _]]]]]; try (by apply (bool_decide_eq_true_2 _) in Hh).
  - split; [done|]. by eapply flt_trans.
  - split; [|done]. eapply fle_trans; [by apply flt_fle|done].
Qed.

(** ** Histories *)

Section Power.
Context (cfg : VehiclePowerAdapterConfig).

(** The observed voltages, the health events in order, and the state. *)
Inductive power_history : list float -> list items -> power_adapter -> Prop :=
| power_new : power_history [] [] new_power_adapter
| power_observed vs es st v ign w m src am c st' : power_history vs es st -> power_observe cfg v ign w m src am st = Ok (c, st') ->
    power_history (vs ++ [v]) (es ++ option_list (cy_health_event c)) st'
| power_checked vs es st w m am c st' : power_history vs es st -> power_stale cfg w m am st = Ok (c, st') ->
    power_history vs (es ++ option_list (cy_health_event c)) st'
| power_lost vs es st reason w am c st' : power_history vs es st -> power_failed cfg reason w am st = Ok (c, st') ->
    power_history vs (es ++ option_list (cy_health_event c)) st'.

Lemma transition_tells wall previous new_state band v id : new_state ∈ ["ONLINE"; "DEGRADED"] ->
  let e := transition_health cfg wall previous new_state band v id in
  state_before e = PStr previous /\ state_after e = PStr new_state.
Proof.
  intros Hn. cbn zeta. unfold transition_health. case_bool_decide as Ho; [by rewrite Ho|].
  assert (new_state = "DEGRADED") as -> by (clear -Hn Ho; set_solver). done.
Qed.

Lemma finite_non_negative_ok v label w : finite_non_negative v label = Ok w -> w = v.
Proof. unfold finite_non_negative. intros H. passed. by injection H. Qed.

Definition power_sound (vs : list float) (es : list items) (st : power_adapter) : Prop :=
  tells "UNKNOWN" es (va_state st) /\ va_state st ∈ seat_states /\
  (va_state st = "ONLINE" -> va_stale_reported st = false /\
     exists v, last vs = Some v /\ fle (vp_low_voltage_v cfg) v = true /\ flt v (vp_high_voltage_v cfg) = true).

Lemma observed_sound vs es st v ign w m src am c st' : increasing cfg -> power_sound vs es st ->
  power_observe cfg v ign w m src am st = Ok (c, st') ->
  power_sound (vs ++ [v]) (es ++ option_list (cy_health_event c)) st'.
Proof.
  intros Hi (Ht & _ & _) H. unfold power_observe in H. passed. injection H as <- <-. cbn [cy_health_event va_state].
  match goal with E : finite_non_negative v _ = Ok ?x |- _ => pose proof (finite_non_negative_ok _ _ _ E) as ->; rename E into Hv end.
  match goal with E : classify_voltage cfg v = Ok ?b |- _ => rename E into Hb; rename b into band end.
  set (new_state := if healthy_band band then "ONLINE" else "DEGRADED").
  assert (new_state ∈ ["ONLINE"; "DEGRADED"]) as Hn by (unfold new_state; destruct (healthy_band band); [left|right; left]).
  split_and!.
  - case_bool_decide as Hc; cbn [option_list option_rect].
    + eapply tells_more; [exact Ht|by apply transition_tells..].
    + rewrite app_nil_r. destruct (decide (va_state st = new_state)) as [<-|]; [done|]. exfalso. apply Hc. by left.
  - unfold new_state, seat_states. destruct (healthy_band band); [right; left|right; right; left].
  - intros Hon. cbn. split; [done|]. exists v. rewrite last_snoc. split; [done|]. apply (healthy_in_band cfg v band Hi Hv Hb).
    unfold new_state in Hon. by destruct (healthy_band band).
Qed.

End Power.

(** ** An example *)

Module Supply.
Definition config : VehiclePowerAdapterConfig :=
  mkPowerConfig (mkEmitter "vehicle-power-main" "founder-up2" "Ruby") "read-only-value-files" 3000 "vehicle-power-v1"
    (float_of_Z 12) (flit 105 (-1)) (flit 118 (-1)) (flit 132 (-1)) (float_of_Z 15) (float_of_Z 18).
Definition at_time (t : Z) : ambient := mkAmbient (float_of_Z t) (float_of_Z t) "health-id" "receipt-id".
Definition observed (v : float) (t : Z) (st : power_adapter) : adapter_cycle * power_adapter :=
  match power_observe config v true None None "local" (at_time t) st with Ok r => r | Err _ => (no_cycle, st) end.
Definition normal := observed (flit 125 (-1)) 10 new_power_adapter.
Definition charging := observed (float_of_Z 14) 11 normal.2.

Lemma power_example : power_history config [flit 125 (-1); float_of_Z 14]
  (option_list (cy_health_event normal.1) ++ option_list (cy_health_event charging.1)) charging.2.
Proof.
  apply (power_observed config [flit 125 (-1)] (option_list (cy_health_event normal.1)) normal.2 (float_of_Z 14) true None None
    "local" (at_time 11) charging.1); [|vm_compute; reflexivity].
  apply (power_observed config [] [] new_power_adapter (flit 125 (-1)) true None None "local" (at_time 10) normal.1);
    [constructor|vm_compute; reflexivity].
Qed.
End Supply.


(** A failure is forgotten by a silence: the check for staleness turns FAILED into DEGRADED. *)
Theorem silence_demotes_failure : exists c st', power_stale Supply.config None None (Supply.at_time 20)
    (mkPowerAdapter "FAILED" None (Some (float_of_Z 10)) false) = Ok (c, st') /\ va_state st' = "DEGRADED".
Proof. by do 2 eexists. Qed.
