(* ===== verification/Contactless.v ===== *)
(** The contactless token reader: frames of the reader (rdm6300_reader.py), the private
    registry of pseudonymous tokens (contactless_token_registry.py), and the adapter that
    turns presentations into evidence (contactless_token_adapter.py), all in [services/].

    What the serial line answers to the polls of one call is a list of [poll]s; a private file
    is what opening it answers. *)

From stdpp Require Import base gmap sets list strings sorting.
From Stdlib Require Import ZArith NArith Ascii SpecFloat.
From S2P Require Import Prelude PyText PyVal Json Sha256 PyFloat StrDict PyJson TextChecks BodyAdapter.

(** ** Hexadecimal text *)

(** [Py_ISSPACE] *)
Definition ascii_space (c : ascii) : bool := ((9 <=? code c) && (code c <=? 13)) || (code c =? 32).

(** [bytes.fromhex], which skips white space between the bytes. *)
Fixpoint bytes_from_hex (s : string) : option byte_string :=
  match s with
  | "" => Some []
  | String a s' =>
      if ascii_space a then bytes_from_hex s' else
      match s' with
      | String b s'' =>
          match hex_value a, hex_value b with
          | Some x, Some y => cons (N.of_nat (16 * x + y)) <$> bytes_from_hex s''
          | _, _ => None
          end
      | "" => None
      end
  end.

(** The digits of [int(text, 16)]: single underscores between digits, white space at the end. *)
Fixpoint hex_digits (after_digit : bool) (s : string) : bool :=
  match s with
  | "" => after_digit
  | String c s' =>
      if bool_decide (is_Some (hex_value c)) then hex_digits true s' else
      if code c =? 95 then after_digit && hex_digits false s' else
      after_digit && str_forallb ascii_space s
  end.

Fixpoint skip_ascii_space (s : string) : string :=
  match s with String c s' => if ascii_space c then skip_ascii_space s' else s | "" => "" end.

Definition hex_number (s : string) : bool :=
  match s with
  | String "0" (String x (String "_" s')) => if bool_decide (x = "x" \/ x = "X")%char then hex_digits false s' else hex_digits false s
  | String "0" (String x s') => if bool_decide (x = "x" \/ x = "X")%char then hex_digits false s' else hex_digits false s
  | _ => hex_digits false s
  end.

(** Does [int(text, 16)] accept the text?  Only a text beyond ASCII has its other white space
    turned into spaces. *)
Definition int16_accepts (s : string) : bool :=
  let t := if str_forallb is_ascii_char s then s else str_map (fun c => if is_space c then " "%char else c) s in
  match skip_ascii_space t with
  | String c s' => if (code c =? 43) || (code c =? 45) then hex_number s' else hex_number (String c s')
  | "" => false
  end.

(** ** [rdm6300_reader.py] *)

Record Rdm6300Frame := mkFrame { fr_data_hex : string; fr_version_hex : string; fr_tag_hex : string; fr_checksum_hex : string }.

Definition frame_error {A} (msg : string) : outcome A := raise Rdm6300Error msg.

(** [data.decode("ascii")] *)
Definition ascii_decode (data : byte_string) : option string :=
  if forallb (fun b => (b <? 128)%N) data then Some (foldr (fun b s => String (ascii_of_N b) s) "" data) else None.

Definition hex_text (n : nat) (s : string) : bool :=
  (String.length s =? n) && str_forallb (fun c => bool_decide (is_Some (hex_value c))) s.

(** [parse_rdm6300_frame] *)
Definition parse_rdm6300_frame (frame : byte_string) : outcome Rdm6300Frame :=
  if bool_decide (length frame <> 14) then frame_error "RDM6300 frame must be exactly 14 bytes" else
  if bool_decide (frame !! 0 <> Some 2%N \/ last frame <> Some 3%N) then frame_error "RDM6300 frame markers are invalid" else
  match ascii_decode (take 10 (drop 1 frame)), ascii_decode (take 2 (drop 11 frame)) with
  | Some data, Some checksum =>
      let data_hex := upper data in
      let checksum_hex := upper checksum in
      if negb (hex_text 10 data_hex) then frame_error "RDM6300 data must contain ten hexadecimal characters" else
      if negb (hex_text 2 checksum_hex) then frame_error "RDM6300 checksum must contain two hexadecimal characters" else
      let calculated := foldr N.lxor 0%N (default [] (bytes_from_hex data_hex)) in
      if bool_decide (bytes_from_hex checksum_hex <> Some [calculated]) then frame_error "RDM6300 checksum mismatch" else
      Ok (mkFrame data_hex (String.substring 0 2 data_hex) (String.substring 2 8 data_hex) checksum_hex)
  | _, _ => frame_error "RDM6300 frame is not ASCII"
  end.

(** Drops what precedes the next start marker. *)
Fixpoint to_marker (buffer : byte_string) : byte_string :=
  match buffer with b :: rest => if bool_decide (b = 2%N) then buffer else to_marker rest | [] => [] end.

(** [_extract_candidate], with the buffer it leaves. *)
Definition extract_candidate (buffer : byte_string) : outcome (option byte_string) * byte_string :=
  let aligned := to_marker buffer in
  if length aligned <? 14 then (Ok None, aligned) else
  let candidate := take 14 aligned in
  (if bool_decide (last candidate <> Some 3%N) then frame_error "contactless reader frame tail is invalid" else Ok (Some candidate),
   drop 14 aligned).

(** One round of waiting: the deadline has passed; [select] fails or finds nothing; the read
    would block, fails or answers. *)
Inductive poll :=
| Deadline | SelectFails (text : string) | Silent | Blocked | ReadFails (text : string) | Chunk (data : byte_string).

Section Reader.
Context (max_buffer_bytes : nat).

(** The loop of [read_frame]; [None] while it is still waiting after the given polls. *)
Fixpoint read_loop (polls : list poll) (buffer : byte_string) : option (outcome (option Rdm6300Frame)) * byte_string :=
  match extract_candidate buffer with
  | (Err e, remaining) => (Some (Err e), remaining)
  | (Ok (Some candidate), remaining) => (Some (let? f := parse_rdm6300_frame candidate in Ok (Some f)), remaining)
  | (Ok None, remaining) =>
      match polls with
      | [] => (None, remaining)
      | Deadline :: _ | Silent :: _ => (Some (Ok None), remaining)
      | SelectFails text :: _ => (Some (frame_error ("contactless reader select failed: " +:+ text)), remaining)
      | Blocked :: rest => read_loop rest remaining
      | ReadFails text :: _ => (Some (frame_error ("contactless reader read failed: " +:+ text)), remaining)
      | Chunk data :: rest =>
          if bool_decide (data = []) then (Some (Ok None), remaining) else
          if max_buffer_bytes <? length (remaining ++ data)
          then (Some (frame_error "contactless reader input exceeded the buffer bound"), [])
          else read_loop rest (remaining ++ data)
      end
  end.
End Reader.

Record reader := mkReader { rd_max_buffer_bytes : Z; rd_buffer : byte_string; rd_open : bool }.

(** [ReadOnlyRdm6300Serial.__init__], given what opening and configuring the line answers. *)
Definition make_reader (device : string) (timeout : float) (max_buffer_bytes : Z) (opened : outcome unit) : outcome reader :=
  if is_blank device then raise ValueError "reader device must be a non-empty path" else
  if negb (fle (flit 1 (-2)) timeout && fle timeout (float_of_Z 60))
  then raise ValueError "reader timeout must be between 0.01 and 60 seconds" else
  if negb (within_bounds max_buffer_bytes 64 1048576) then raise ValueError "max_buffer_bytes is outside supported bounds" else
  let? _ := opened in Ok (mkReader max_buffer_bytes [] true).

(** [read_frame] *)
Definition read_frame (polls : list poll) (r : reader) : option (outcome (option Rdm6300Frame)) * reader :=
  if negb (rd_open r) then (Some (frame_error "contactless reader input is closed"), r) else
  let '(result, remaining) := read_loop (Z.to_nat (rd_max_buffer_bytes r)) polls (rd_buffer r) in
  (result, mkReader (rd_max_buffer_bytes r) remaining true).

(** [close] *)
Definition close_reader (r : reader) : reader := mkReader (rd_max_buffer_bytes r) [] false.

(** ** [contactless_token_registry.py] *)

Definition registry_error {A} (msg : string) : outcome A := raise ContactlessRegistryError msg.
Definition reference_prefix : string := "hmac-sha256:".

Record ContactlessTokenRecord := mkToken {
  ct_token_ref : string; ct_principal_ref : string; ct_label : string; ct_role_hint : string; ct_enabled : bool }.

(** A file opened without following links: what [fstat] and one [read] answer. *)
Record private_file := mkPrivate { pf_regular : bool; pf_mode : Z; pf_size : Z; pf_content : outcome byte_string }.

(** [content.rstrip(b"\r\n")] *)
Fixpoint rstrip_newlines (data : byte_string) : byte_string :=
  match data with
  | [] => []
  | b :: rest =>
      match rstrip_newlines rest with
      | [] => if bool_decide (b = 13 \/ b = 10)%N then [] else [b]
      | r => b :: r
      end
  end.

(** [_read_private_file] *)
Definition read_private_file (opened : outcome private_file) (max_bytes : Z) : outcome byte_string :=
  match opened with
  | Err e => if is_OSError e then registry_error ("cannot open private contactless file: " +:+ exn_message e) else Err e
  | Ok f =>
      if negb (pf_regular f) then registry_error "private contactless path must be a regular file" else
      if bool_decide (Z.land (pf_mode f) 63 <> 0)%Z
      then registry_error "private contactless file must not permit group or other access" else
      if (pf_size f <=? 0)%Z || (max_bytes <? pf_size f)%Z
      then registry_error "private contactless file size is outside bounds" else
      let? content := pf_content f in
      if (max_bytes <? Z.of_nat (length content))%Z then registry_error "private contactless file exceeds configured bound"
      else Ok (rstrip_newlines content)
  end.

(** [_required_text] *)
Definition token_text (payload : items) (key : string) : outcome string :=
  let bad := registry_error (key +:+ " must be bounded non-empty text") in
  match get payload key with PStr s => if is_blank s || (128 <? String.length (strip s)) then bad else Ok (strip s) | _ => bad end.

(** The test for a reference: the prefix, 64 more characters, and [int(..., 16)]. *)
Definition check_reference (token_ref : string) : outcome unit :=
  if negb (startswith reference_prefix token_ref) || negb (String.length token_ref =? String.length reference_prefix + 64)
  then registry_error "contactless token_ref must be a SHA-256 HMAC reference" else
  if negb (int16_accepts (String.substring 12 64 token_ref)) then registry_error "contactless token_ref digest is not hexadecimal"
  else Ok tt.

(** One entry of the registry. *)
Definition parse_token (item : pyval) : outcome ContactlessTokenRecord :=
  match item with
  | PDict entry =>
      let? token_ref := token_text entry "token_ref" in
      let? _ := check_reference token_ref in
      let? principal_ref := token_text entry "principal_ref" in
      let? label := token_text entry "label" in
      let? role_hint := token_text entry "role_hint" in
      let? enabled := required_bool ContactlessRegistryError entry "enabled" in
      Ok (mkToken token_ref principal_ref label role_hint enabled)
  | _ => registry_error "contactless registry entry must be an object"
  end.

(** The loop over the entries. *)
Fixpoint load_tokens (tokens : list pyval) (records : sdict ContactlessTokenRecord) : outcome (sdict ContactlessTokenRecord) :=
  match tokens with
  | [] => Ok records
  | item :: rest =>
      let? record := parse_token item in
      if bool_decide (is_Some (d_get records (ct_token_ref record))) then registry_error "duplicate contactless token_ref"
      else load_tokens rest (d_set records (ct_token_ref record) record)
  end.

(** [ContactlessTokenRegistry.load] *)
Definition load_token_registry (opened : outcome private_file) : outcome (sdict ContactlessTokenRecord) :=
  let? raw := read_private_file opened 262144 in
  let unsupported := registry_error "unsupported contactless registry schema" in
  match option_map loads (utf8_decode raw) with
  | Some (Ok (PDict document)) =>
      if negb (eq_str (get document "schema") "velvet.contactless_token_registry.v1") then unsupported else
      match get document "tokens" with
      | PList tokens =>
          if 1024 <? length tokens then registry_error "contactless registry tokens must be a bounded list" else load_tokens tokens []
      | _ => registry_error "contactless registry tokens must be a bounded list"
      end
  | Some (Ok _) => unsupported
  | _ => registry_error "contactless registry is not valid UTF-8 JSON"
  end.

(** [resolve] *)
Definition resolve_token (registry : sdict ContactlessTokenRecord) (token_ref : string) : option ContactlessTokenRecord :=
  d_get registry token_ref.

(** [load_hmac_secret] *)
Definition load_hmac_secret (opened : outcome private_file) : outcome byte_string :=
  let? secret := read_private_file opened 4096 in
  if length secret <? 32 then registry_error "contactless HMAC secret must contain at least 32 bytes" else Ok secret.

(** [derive_token_reference] *)
Definition derive_token_reference (secret : byte_string) (reader_id data_hex : string) : outcome string :=
  if length secret <? 32 then raise ValueError "contactless HMAC secret must contain at least 32 bytes" else
  if is_blank reader_id then raise ValueError "reader_id must be non-empty" else
  if negb (String.length data_hex =? 10) then raise ValueError "RDM6300 data_hex must contain ten characters" else
  let normalized := upper data_hex in
  match bytes_from_hex normalized with
  | None => raise ValueError "RDM6300 data_hex must be hexadecimal"
  | Some _ =>
      let message := utf8 "velvet-contactless-v1" ++ [0%N] ++ utf8 (strip reader_id) ++ [0%N] ++ utf8 normalized in
      Ok (reference_prefix +:+ hmac_sha256_hex secret message)
  end.

(** ** [contactless_token_adapter.py] *)

Record ContactlessTokenAdapterConfig := mkContactlessConfig {
  cc_emitter : emitter; cc_reader_id : string; cc_reader_label : string; cc_location_id : string; cc_interface_type : string;
  cc_stale_after_ms : Z; cc_repeat_suppression_ms : Z; cc_calibration_version : string }.

(** [ContactlessTokenAdapterConfig.__post_init__] *)
Definition check_contactless_config (c : ContactlessTokenAdapterConfig) : outcome unit :=
  let? _ := non_empty_text "module_id" (em_module_id (cc_emitter c)) in
  let? _ := non_empty_text "node_id" (em_node_id (cc_emitter c)) in
  let? _ := non_empty_text "owning_handmaiden" (em_owning_handmaiden (cc_emitter c)) in
  let? _ := non_empty_text "reader_id" (cc_reader_id c) in
  let? _ := non_empty_text "reader_label" (cc_reader_label c) in
  let? _ := non_empty_text "location_id" (cc_location_id c) in
  let? _ := non_empty_text "interface_type" (cc_interface_type c) in
  let? _ := non_empty_text "calibration_version" (cc_calibration_version c) in
  let? _ := bounded_config_integer (cc_stale_after_ms c) "stale_after_ms" 500 600000 in
  let? _ := bounded_config_integer (cc_repeat_suppression_ms c) "repeat_suppression_ms" 0 60000 in Ok tt.

Record contactless_adapter := mkContactless {
  ca_reader_state : string; ca_last_reference : option string; ca_last_presentation : option float }.

(** [ContactlessTokenAdapter.__init__] *)
Definition new_contactless_adapter : contactless_adapter := mkContactless "UNKNOWN" None None.

Record token_cycle := mkTokenCycle { tc_cycle : adapter_cycle; tc_suppressed_repeat : bool }.

Section Contactless.
Context (cfg : ContactlessTokenAdapterConfig).

(** [_health_event] *)
Definition contactless_health_event (wall : float) (event_type severity before after detail reason_code event_id : string) : items :=
  health_event (cc_emitter cfg) wall (mkReport event_type severity before after)
    (str_items [("detail", PStr detail); ("reason_code", PStr reason_code); ("reader_id", PStr (cc_reader_id cfg));
                ("reader_label", PStr (cc_reader_label cfg)); ("location_id", PStr (cc_location_id cfg)); ("read_only", PBool true)])
    "continue read-only contactless observation" event_id.

(** [mark_ready] *)
Definition mark_ready (now_wall : option float) (am : ambient) (st : contactless_adapter) : outcome (token_cycle * contactless_adapter) :=
  let? wall := reading now_wall (am_time am) "now_wall" in
  let previous := ca_reader_state st in
  let st' := mkContactless "ONLINE" (ca_last_reference st) (ca_last_presentation st) in
  if bool_decide (previous = "ONLINE") then Ok (mkTokenCycle no_cycle false, st') else
  let event_type := if bool_decide (previous = "FAILED") then "RECOVERED" else "READY" in
  Ok (mkTokenCycle (health_cycle (contactless_health_event wall event_type "INFO" previous "ONLINE"
        (if bool_decide (event_type = "RECOVERED") then "Contactless reader recovered" else "Contactless reader ready")
        "READER_READY" (am_health_id am))) false, st').

(** Is this the last token again, too soon? *)
Definition is_repeat (token_ref : string) (monotonic : float) (st : contactless_adapter) : bool :=
  bool_decide (ca_last_reference st = Some token_ref) &&
  match ca_last_presentation st with
  | Some t => flt (age_ms monotonic t) (float_of_Z (cc_repeat_suppression_ms cfg))
  | None => false
  end.

(** What the registry says about a token. *)
Definition match_state (record : option ContactlessTokenRecord) : string :=
  match record with None => "UNKNOWN" | Some r => if ct_enabled r then "MATCHED" else "DISABLED" end.
Definition factor_confidence (record : option ContactlessTokenRecord) : float :=
  match record with Some r => if ct_enabled r then flit 55 (-2) else f0 | None => f0 end.

(** The factor payload of a presentation. *)
Definition factor_payload (token_ref presentation_id : string) (record : option ContactlessTokenRecord) : items :=
  str_items
    ([("factor_type", PStr "contactless_static_identifier"); ("presentation_id", PStr presentation_id);
      ("match_state", PStr (match_state record)); ("token_ref", PStr token_ref); ("reader_id", PStr (cc_reader_id cfg));
      ("reader_label", PStr (cc_reader_label cfg)); ("location_id", PStr (cc_location_id cfg));
      ("factor_confidence", PFloat (factor_confidence record)); ("static_identifier", PBool true);
      ("cryptographic_challenge", PBool false); ("verification_only", PBool true); ("presence_claimed", PBool false);
      ("grants_authority", PBool false); ("read_only", PBool true)]
     ++ match record with
        | Some r => [("principal_ref", PStr (ct_principal_ref r)); ("label", PStr (ct_label r)); ("role_hint", PStr (ct_role_hint r));
                     ("registry_enabled", PBool (ct_enabled r))]
        | None => []
        end).

(** The health event of a presentation. *)
Definition presentation_health (previous : string) (wall : float) (event_id : string) : option items :=
  if bool_decide (previous = "FAILED")
  then Some (contactless_health_event wall "RECOVERED" "INFO" "FAILED" "ONLINE" "Contactless reader recovered on validated frame"
               "READER_RECOVERED" event_id)
  else if bool_decide (previous = "UNKNOWN")
  then Some (contactless_health_event wall "ONLINE" "INFO" "UNKNOWN" "ONLINE" "Contactless reader online" "READER_ONLINE" event_id)
  else None.

(** [observe] *)
Definition contactless_observe (frame : Rdm6300Frame) (secret : byte_string) (registry : sdict ContactlessTokenRecord)
    (now_wall now_monotonic : option float) (presentation_id : string) (am : ambient) (st : contactless_adapter)
    : outcome (token_cycle * contactless_adapter) :=
  let? wall := reading now_wall (am_time am) "now_wall" in
  let? monotonic := reading now_monotonic (am_monotonic am) "now_monotonic" in
  let? token_ref := derive_token_reference secret (cc_reader_id cfg) (fr_data_hex frame) in
  if is_repeat token_ref monotonic st then Ok (mkTokenCycle no_cycle true, st) else
  let payload := factor_payload token_ref presentation_id (resolve_token registry token_ref) in
  let event := sensor_event (cc_emitter cfg) wall monotonic
    (mkReading "contactless_token_presentation" (cc_interface_type cfg) "ONLINE" f1 "device" (cc_stale_after_ms cfg)
       (cc_calibration_version cfg) [] ("reader:" +:+ cc_reader_id cfg)) payload (am_receipt_id am) in
  Ok (mkTokenCycle (mkCycle (Some event) (presentation_health (ca_reader_state st) wall (am_health_id am))) false,
      mkContactless "ONLINE" (Some token_ref) (Some monotonic)).

(** [mark_failed] *)
Definition contactless_failed (reason : string) (now_wall : option float) (am : ambient) (st : contactless_adapter)
    : outcome (token_cycle * contactless_adapter) :=
  if is_blank reason then raise ValueError "failure reason must be non-empty" else
  if bool_decide (ca_reader_state st = "FAILED") then Ok (mkTokenCycle no_cycle false, st) else
  let? wall := reading now_wall (am_time am) "now_wall" in
  Ok (mkTokenCycle (health_cycle (contactless_health_event wall "FAILED" "ERROR" (ca_reader_state st) "FAILED" (strip reason)
        "READER_FAILURE" (am_health_id am))) false,
      mkContactless "FAILED" None None).
End Contactless.
