(* ===== verification/ContactlessTheorems.v ===== *)
(** The contactless reader returns exactly the valid frames of its stream, however the stream is
    cut; its adapter's evidence says what the registry lists, grants nothing, and repeats
    nothing too soon. *)

From stdpp Require Import base gmap sets list strings sorting.
From Stdlib Require Import ZArith NArith Ascii SpecFloat.
From S2P Require Import Prelude PyText PyVal Json Sha256 PyFloat StrDict PyJson TextChecks ModuleTrustTheorems BodyRecord BodyAdapter.
From S2P Require Import SeatTheorems Contactless.

(** ** Frames in a stream *)

(** A reference decoder, byte by byte: [acc] holds the frame begun by a start marker. *)
Definition next_acc (acc : byte_string) (b : N) : byte_string :=
  match acc with
  | [] => if bool_decide (b = 2%N) then [b] else []
  | _ => if length acc =? 13 then [] else acc ++ [b]
  end.
Definition ok_list {A} (o : outcome A) : list A := match o with Ok a => [a] | Err _ => [] end.
Definition completed (acc : byte_string) (b : N) : list Rdm6300Frame :=
  if length acc =? 13 then ok_list (parse_rdm6300_frame (acc ++ [b])) else [].

Fixpoint pending (acc stream : byte_string) : byte_string :=
  match stream with [] => acc | b :: rest => pending (next_acc acc b) rest end.
Fixpoint frames_in (acc stream : byte_string) : list Rdm6300Frame :=
  match stream with [] => [] | b :: rest => completed acc b ++ frames_in (next_acc acc b) rest end.

Lemma pending_app s1 s2 : forall acc, pending acc (s1 ++ s2) = pending (pending acc s1) s2.
Proof. induction s1 as [|b s1 IH]; intros acc; [done|]. cbn. apply IH. Qed.

Lemma frames_in_app s1 s2 : forall acc, frames_in acc (s1 ++ s2) = frames_in acc s1 ++ frames_in (pending acc s1) s2.
Proof. induction s1 as [|b s1 IH]; intros acc; [done|]. cbn. by rewrite IH, <- app_assoc. Qed.

(** What the reference decoder makes of a stream: its frames and what is left. *)
Definition decoded (stream : byte_string) : list Rdm6300Frame * byte_string := (frames_in [] stream, pending [] stream).

Lemma decoded_to_marker buffer : decoded (to_marker buffer) = decoded buffer.
Proof.
  induction buffer as [|b buffer IH]; [done|]. cbn [to_marker]. case_bool_decide; [done|]. rewrite IH. unfold decoded. cbn.
  by rewrite bool_decide_false.
Qed.

Lemma to_marker_head buffer b rest : to_marker buffer = b :: rest -> b = 2%N.
Proof. induction buffer as [|c buffer IH]; [done|]. cbn. case_bool_decide; [by intros [= <- <-]|done]. Qed.

(** A frame that has begun collects bytes until there are fourteen. *)
Lemma collecting s : forall acc, acc <> [] -> length acc + length s < 14 -> frames_in acc s = [] /\ pending acc s = acc ++ s.
Proof.
  induction s as [|b s IH]; intros acc Hne Hl; cbn in *; [by rewrite app_nil_r|]. unfold completed, next_acc.
  replace (length acc =? 13) with false by (symmetry; apply Nat.eqb_neq; lia). destruct acc as [|a acc]; [done|].
  destruct (IH ((a :: acc) ++ [b])) as [-> ->]; [done|rewrite length_app; cbn in *; lia|]. by rewrite <- app_assoc.
Qed.

Lemma decoded_short s b : b = 2%N -> length (b :: s) < 14 -> decoded (b :: s) = ([], b :: s).
Proof.
  intros -> Hl. unfold decoded. cbn [frames_in pending next_acc]. rewrite bool_decide_true by done.
  destruct (collecting s [2%N]) as [-> ->]; [done|cbn in *; lia|done].
Qed.

Lemma decoded_long s b : b = 2%N -> 14 <= length (b :: s) ->
  decoded (b :: s) = (ok_list (parse_rdm6300_frame (take 14 (b :: s))) ++ (decoded (drop 14 (b :: s))).1, (decoded (drop 14 (b :: s))).2).
Proof.
  intros -> Hl. rewrite <- (take_drop 14 (2%N :: s)) at 1. set (tl := drop 14 _).
  assert (exists m x, take 14 (2%N :: s) = 2%N :: m ++ [x] /\ length m = 12) as (m & x & -> & Hm).
  { cbn [take]. cbn in Hl. assert (length (take 13 s) = 13) as H13 by (rewrite length_take; lia).
    destruct (take 13 s) as [|y l] using rev_ind; [done|]. exists l, y. split; [done|]. rewrite length_app in H13. cbn in H13. lia. }
  unfold decoded. rewrite frames_in_app, pending_app.
  assert (frames_in [] (2%N :: m ++ [x]) = ok_list (parse_rdm6300_frame (2%N :: m ++ [x])) /\ pending [] (2%N :: m ++ [x]) = []) as [-> ->].
  { cbn [frames_in pending next_acc]. rewrite bool_decide_true by done. rewrite frames_in_app, pending_app.
    destruct (collecting m [2%N]) as [-> ->]; [done|cbn; lia|]. cbn [frames_in pending app]. unfold completed, next_acc.
    cbn [length]. rewrite Hm. cbn. by rewrite app_nil_r. }
  done.
Qed.

Lemma decoded_app s1 s2 d : decoded s1 = decoded s2 -> decoded (s1 ++ d) = decoded (s2 ++ d).
Proof. unfold decoded. intros [= Hf Hp]. by rewrite !frames_in_app, !pending_app, Hf, Hp. Qed.

(** What one extraction leaves is worth the same. *)
Lemma extract_decoded buffer r rest : extract_candidate buffer = (r, rest) ->
  match r with
  | Ok None => decoded rest = decoded buffer /\ decoded rest = ([], rest) /\ length rest <= length buffer
  | Ok (Some c) => decoded buffer = (ok_list (parse_rdm6300_frame c) ++ (decoded rest).1, (decoded rest).2) /\ length rest <= length buffer
  | Err _ => decoded buffer = decoded rest /\ length rest <= length buffer
  end.
Proof.
  unfold extract_candidate. rewrite <- (decoded_to_marker buffer).
  assert (length (to_marker buffer) <= length buffer) as Hle.
  { induction buffer as [|b buffer IH]; [done|]. cbn. case_bool_decide; cbn; lia. }
  pose proof (to_marker_head buffer) as Hh. destruct (to_marker buffer) as [|b s].
  { by intros [= <- <-]. }
  specialize (Hh b s eq_refl). destruct (Nat.ltb_spec (length (b :: s)) 14) as [Hs|Hs]; intros [= <- <-].
  - by rewrite decoded_short.
  - rewrite (decoded_long s b) by done. change (drop 13 s) with (drop 14 (b :: s)).
    assert (length (drop 14 (b :: s)) <= length buffer) by (rewrite length_drop; lia).
    case_bool_decide as Hl; [|done]. split; [|done].
    assert (ok_list (parse_rdm6300_frame (take 14 (b :: s))) = []) as ->; [|by destruct (decoded _)].
    unfold parse_rdm6300_frame. case_bool_decide; [done|]. by rewrite bool_decide_true by (by right).
Qed.

(** ** Calls of the reader *)

Section Calls.
Context (max : nat).

(** The bytes a call took from the line; [None] when they overflowed the buffer, which is then
    thrown away. *)
Fixpoint taken (polls : list poll) (buffer : byte_string) : option byte_string :=
  match extract_candidate buffer with
  | (Ok None, rest) =>
      match polls with
      | Chunk data :: more =>
          if bool_decide (data = []) then Some [] else
          if max <? length (rest ++ data) then None else app data <$> taken more (rest ++ data)
      | Blocked :: more => taken more rest
      | _ => Some []
      end
  | _ => Some []
  end.

(** The frame a call returned. *)
Definition returned (res : option (outcome (option Rdm6300Frame))) : list Rdm6300Frame :=
  match res with Some (Ok (Some f)) => [f] | _ => [] end.

Lemma returned_frame c : returned (Some (let? f := parse_rdm6300_frame c in Ok (Some f))) = ok_list (parse_rdm6300_frame c).
Proof. by destruct (parse_rdm6300_frame c). Qed.

Lemma read_loop_decoded polls : forall buffer res buffer' data, length buffer <= max ->
  read_loop max polls buffer = (res, buffer') -> taken polls buffer = Some data ->
  decoded (buffer ++ data) = (returned res ++ (decoded buffer').1, (decoded buffer').2) /\ length buffer' <= max.
Proof.
  induction polls as [|p polls IH]; intros buffer res buffer' data Hmax; cbn [read_loop taken];
    destruct (extract_candidate buffer) as [[[c|]|e] rest] eqn:Hx; apply extract_decoded in Hx.
  all: try (destruct Hx as [Hx Hle]; intros [= <- <-] [= <-]; rewrite app_nil_r, ?returned_frame; split; [rewrite Hx; by destruct (decoded rest)|lia]).
  destruct Hx as (Hx & Hrest & Hle).
  assert (forall d, decoded (buffer ++ d) = decoded (rest ++ d)) as Happ.
  { intros d. by apply decoded_app. }
  destruct p; intros Hres Ht; try (injection Hres as <- <-; injection Ht as <-; rewrite app_nil_r, <- Hx; split; [by destruct (decoded rest)|lia]).
  - rewrite Happ. by eapply IH; [lia|..].
  - case_bool_decide as Hd.
    { injection Hres as <- <-. injection Ht as <-. rewrite app_nil_r, <- Hx. split; [by destruct (decoded rest)|lia]. }
    destruct (Nat.ltb_spec max (length (rest ++ data0))) as [|Hfit]; [done|].
    destruct (taken polls (rest ++ data0)) as [d|] eqn:Hd'; [|done]. injection Ht as <-. rewrite Happ, app_assoc.
    by eapply IH.
Qed.

Lemma read_loop_overflow polls : forall buffer res buffer',
  read_loop max polls buffer = (res, buffer') -> taken polls buffer = None -> buffer' = [].
Proof.
  induction polls as [|p polls IH]; intros buffer res buffer'; cbn [read_loop taken];
    destruct (extract_candidate buffer) as [[[c|]|e] rest]; try done.
  destruct p; try done; [apply IH|]. case_bool_decide; [done|]. destruct (max <? length (rest ++ data)); [by intros [= _ <-]|].
  destruct (taken polls (rest ++ data)) eqn:Hd; [done|]. intros Hr _. by eapply IH.
Qed.

(** A life of the reader since it was opened or last overflowed: the bytes received, the frames
    returned, and the reader. *)
Inductive reader_life : byte_string -> list Rdm6300Frame -> reader -> Prop :=
| reader_opened : reader_life [] [] (mkReader (Z.of_nat max) [] true)
| reader_call s fs r polls res r' data : reader_life s fs r -> read_frame polls r = (res, r') ->
    taken polls (rd_buffer r) = Some data -> reader_life (s ++ data) (fs ++ returned res) r'
| reader_overflowed s fs r polls res r' : reader_life s fs r -> read_frame polls r = (res, r') ->
    taken polls (rd_buffer r) = None -> reader_life [] [] r'.

Lemma life_open s fs r : reader_life s fs r -> rd_open r = true /\ rd_max_buffer_bytes r = Z.of_nat max.
Proof.
  induction 1 as [|s fs r polls res r' data _ [IHo IHm] H _|s fs r polls res r' _ [IHo IHm] H _]; [done|..];
    unfold read_frame in H; rewrite IHo in H; cbn [negb] in H; destruct (read_loop _ _ _); injection H as _ <-; done.
Qed.

(** C34: Frames do not depend on how the line delivers them.  However the bytes arrive - cut
    anywhere, with timeouts, blocked reads and failures in between - the frames the reader
    has returned are, in order, the valid frames of the bytes received, apart from those
    still in its buffer, which never exceeds its bound; nothing is left behind when a call
    times out. *)
Theorem reader_ignores_chunking s fs r : reader_life s fs r ->
  frames_in [] s = fs ++ frames_in [] (rd_buffer r) /\ length (rd_buffer r) <= max /\
  (forall polls r', read_frame polls r = (Some (Ok None), r') -> frames_in [] (rd_buffer r') = []).
Proof.
  intros Hl. assert (decoded s = (fs ++ (decoded (rd_buffer r)).1, (decoded (rd_buffer r)).2) /\ length (rd_buffer r) <= max) as [Hd Hb].
  { induction Hl as [|s fs r polls res r' data Hl [IH IHb] H Ht|s fs r polls res r' Hl _ H Ht]; [by split; [|cbn; lia]|..];
      destruct (life_open _ _ _ Hl) as [Ho Hm]; unfold read_frame in H; rewrite Ho, Hm, Nat2Z.id in H; cbn [negb] in H;
      destruct (read_loop max polls (rd_buffer r)) as [res0 b'] eqn:Hr; injection H as <- <-; cbn [rd_buffer].
    - destruct (read_loop_decoded _ _ _ _ _ IHb Hr Ht) as [Hd Hb]. split; [|done].
      unfold decoded in *. cbn [fst snd] in *. rewrite frames_in_app, pending_app. injection IH as -> ->.
      rewrite frames_in_app, pending_app in Hd. injection Hd as Hf Hp. by rewrite <- app_assoc, Hf, Hp, app_assoc.
    - rewrite (read_loop_overflow _ _ _ _ Hr Ht). by split; [|cbn; lia]. }
  split; [by injection Hd|]. split; [done|]. intros polls r' H. destruct (life_open _ _ _ Hl) as [Ho Hm]. unfold read_frame in H.
  rewrite Ho, Hm, Nat2Z.id in H. cbn [negb] in H. destruct (read_loop max polls (rd_buffer r)) as [res b'] eqn:Hr. injection H as -> <-.
  cbn [rd_buffer]. clear Hl Hd Ho Hm. revert Hr. generalize (rd_buffer r) as buffer.
  induction polls as [|p polls IH]; intros buffer; cbn [read_loop];
    destruct (extract_candidate buffer) as [[[c|]|e] rest] eqn:Hx; apply extract_decoded in Hx; try done.
  - destruct (parse_rdm6300_frame c); done.
  - destruct (parse_rdm6300_frame c); done.
  - destruct Hx as (_ & Hx & _). injection Hx as Hx _. destruct p; try done; try (by intros [= <-]); [apply IH|].
    case_bool_decide; [by intros [= <-]|]. destruct (max <? _); [done|]. apply IH.
Qed.
End Calls.

(** ** The registry *)

Lemma load_tokens_ok tokens : forall records registry, load_tokens tokens records = Ok registry ->
  forall k r, d_get registry k = Some r <->
    d_get records k = Some r \/ exists item, item ∈ tokens /\ parse_token item = Ok r /\ ct_token_ref r = k.
Proof.
  induction tokens as [|item tokens IH]; intros records registry H k r; cbn [load_tokens] in H; unfold registry_error in H.
  { injection H as <-. split; [by left|]. intros [?|(? & ?%elem_of_nil & _)]; done. }
  passed. match goal with E : parse_token item = Ok ?x |- _ => rename x into t; rename E into Ht end.
  match goal with E : bool_decide _ = false |- _ => apply bool_decide_eq_false in E; rename E into Hn end.
  rewrite (IH _ _ H), d_get_set. setoid_rewrite elem_of_cons. case_bool_decide as Hk.
  - subst k. split.
    + intros [[= <-]|(i & Hi & Hp & Hr)]; right; [by exists item; split; [left|]|by exists i; split; [right|]].
    + intros [Hr|(i & [->|Hi] & Hp & Hr)]; [by destruct Hn; exists r|left; congruence|right; by exists i].
  - split.
    + intros [Hr|(i & Hi & Hp & Hr)]; [by left|right; exists i; by split; [right|]].
    + intros [Hr|(i & [->|Hi] & Hp & Hr)]; [by left|congruence|right; by exists i].
Qed.

(** The entries a registry file lists. *)
Definition lists_token (opened : outcome private_file) (r : ContactlessTokenRecord) : Prop :=
  exists f content document tokens item, opened = Ok f /\ pf_regular f = true /\ Z.land (pf_mode f) 63 = 0%Z /\
    pf_content f = Ok content /\ option_map loads (utf8_decode (rstrip_newlines content)) = Some (Ok (PDict document)) /\
    get document "tokens" = PList tokens /\ item ∈ tokens /\ parse_token item = Ok r.

(** A loaded registry knows exactly the tokens its private file lists. *)
Lemma load_registry_ok opened registry : load_token_registry opened = Ok registry ->
  forall k r, d_get registry k = Some r <-> lists_token opened r /\ ct_token_ref r = k.
Proof.
  unfold load_token_registry, read_private_file. intros H k r. destruct opened as [f|e].
  2: { by destruct (is_OSError e). }
  unfold registry_error in H. cbn [outcome_bind] in H.
  destruct (pf_regular f) eqn:Hreg; [|done]. cbn [negb] in H. case_bool_decide as Hmode; [done|].
  passed. match goal with E : Ok (rstrip_newlines _) = Ok _ |- _ => injection E as <- end.
  match goal with E : pf_content f = Ok ?c |- _ => rename c into content; rename E into Hcontent end.
  destruct (option_map loads (utf8_decode (rstrip_newlines content))) as [[[| | | | | | |document]|]|] eqn:Hdoc; try done. passed.
  destruct (get document "tokens") as [| | | | | tokens| |] eqn:Htok; try done. passed. rewrite (load_tokens_ok _ _ _ H). split.
  - intros [?|(item & Hi & Hp & Hr)]; [done|]. split; [|done]. by exists f, content, document, tokens, item.
  - intros [(f' & content' & document' & tokens' & item & [= <-] & _ & _ & Hc' & Hd' & Ht' & Hi & Hp) Hr]. right.
    rewrite Hcontent in Hc'. injection Hc' as <-. rewrite Hdoc in Hd'. injection Hd' as <-. rewrite Htok in Ht'. injection Ht' as <-.
    by exists item.
Qed.

(** ** Presentations *)

Section Tokens.
Context (cfg : ContactlessTokenAdapterConfig).

Definition factor_of (event : items) : items := match get (payload_of event) "payload" with PDict p => p | _ => [] end.


(** ** Repetitions *)

(** What the adapter's calls leave behind: published presentations, and failures ([None]). *)
Inductive token_history : list (option (string * float)) -> contactless_adapter -> Prop :=
| token_new : token_history [] new_contactless_adapter
| token_seen ps st frame secret registry w m pid am c st' monotonic token_ref : token_history ps st ->
    contactless_observe cfg frame secret registry w m pid am st = Ok (c, st') ->
    reading m (am_monotonic am) "now_monotonic" = Ok monotonic ->
    derive_token_reference secret (cc_reader_id cfg) (fr_data_hex frame) = Ok token_ref ->
    token_history (if tc_suppressed_repeat c then ps else ps ++ [Some (token_ref, monotonic)]) st'
| token_ready ps st w am c st' : token_history ps st -> mark_ready cfg w am st = Ok (c, st') -> token_history ps st'
| token_lost ps st reason w am c st' : token_history ps st -> contactless_failed cfg reason w am st = Ok (c, st') ->
    token_history (ps ++ [None]) st'.

Definition last_presentation (st : contactless_adapter) : option (string * float) :=
  match ca_last_reference st, ca_last_presentation st with Some k, Some t => Some (k, t) | _, _ => None end.

(** The same token in a row keeps its distance. *)
Definition spaced (p q : option (string * float)) : Prop :=
  match p, q with
  | Some (k, t), Some (k', t') => k = k' -> flt (age_ms t' t) (float_of_Z (cc_repeat_suppression_ms cfg)) = false
  | _, _ => True
  end.

Lemma history_last_token ps st : token_history ps st ->
  (forall p, last ps = Some (Some p) -> last_presentation st = Some p) /\ (ca_reader_state st = "FAILED" -> last_presentation st = None).
Proof.
  induction 1 as [|ps st frame secret registry w m pid am c st' monotonic k _ [IH IHf] H Hm Hk|ps st w am c st' _ [IH IHf] H
    |ps st reason w am c st' _ [IH IHf] H]; [done|..].
  - unfold contactless_observe in H. rewrite Hm, Hk in H. passed. destruct (is_repeat cfg k monotonic st); injection H as <- <-; [done|].
    cbn [tc_suppressed_repeat]. split; [|done]. intros p. rewrite last_snoc. by intros [= <-].
  - unfold mark_ready in H. passed. case_bool_decide; injection H as _ <-; by split.
  - unfold contactless_failed in H. passed. split; [intros p; by rewrite last_snoc|].
    case_bool_decide; [by injection H as _ <-|]. passed. by injection H as _ <-.
Qed.

(** A token that stays on the reader is not published again too soon: two consecutive
    presentations of one token are at least the suppression time apart, unless the reader
    failed in between. *)
Theorem presentations_spaced ps st : token_history ps st -> Sorted spaced ps.
Proof.
  induction 1 as [|ps st frame secret registry w m pid am c st' monotonic k Hh IH H Hm Hk|ps st w am c st' _ IH H
    |ps st reason w am c st' _ IH H]; [constructor| |done|].
  - unfold contactless_observe in H. rewrite Hm, Hk in H. passed. destruct (is_repeat cfg k monotonic st) eqn:Hr; injection H as <- <-; [done|].
    cbn [tc_suppressed_repeat]. apply Sorted_snoc; [done|]. intros [[k' t]|] Hlast; [|done]. intros ->.
    destruct (history_last_token _ _ Hh) as [Hl _]. specialize (Hl _ Hlast). unfold last_presentation in Hl.
    unfold is_repeat in Hr. destruct (ca_last_reference st), (ca_last_presentation st); try done. injection Hl as -> ->.
    by rewrite bool_decide_true in Hr.
  - apply Sorted_snoc; [done|]. by intros [[]|] _.
Qed.
End Tokens.

(** ** Examples *)

Module Tag.
(** The frame of tag 0A 01 02 03 04, whose checksum is 0E. *)
Definition frame_bytes : byte_string := 2%N :: utf8 "0a010203040E" ++ [3%N].
Definition frame : Rdm6300Frame := mkFrame "0A01020304" "0A" "01020304" "0E".

(** The frame arrives in two pieces, after noise. *)
Definition first_call := read_frame [Chunk (7%N :: take 5 frame_bytes); Silent] (mkReader 64 [] true).
Definition second_call := read_frame [Blocked; Chunk (drop 5 frame_bytes)] first_call.2.

Definition secret : byte_string := replicate 32 7%N.
Definition config : ContactlessTokenAdapterConfig :=
  mkContactlessConfig (mkEmitter "contactless-token-car-main" "founder-up2" "Velvet") "car-main" "Main in Car" "vehicle.cabin"
    "uart-rdm6300-read-only" 5000 750 "rdm6300-em4100-v1".
Definition reference : string := match derive_token_reference secret "car-main" "0A01020304" with Ok r => r | Err _ => "" end.
Definition entry (ref : string) (enabled : bool) : json := JObj
  [("enabled", JBool enabled); ("label", JStr "key ring"); ("principal_ref", JStr "driver"); ("role_hint", JStr "owner"); ("token_ref", JStr ref)].
Definition file (enabled : bool) : outcome private_file :=
  let content := utf8 (dumps (JObj [("schema", JStr "velvet.contactless_token_registry.v1"); ("tokens", JArr [entry reference enabled])])) in
  Ok (mkPrivate true 384 (Z.of_nat (length content)) (Ok content)).
Definition registry : sdict ContactlessTokenRecord := match load_token_registry (file true) with Ok r => r | Err _ => [] end.
Definition at_time (t : Z) : ambient := mkAmbient (float_of_Z t) (float_of_Z t) "health-id" "receipt-id".
Definition seen (t : Z) (st : contactless_adapter) : token_cycle * contactless_adapter :=
  match contactless_observe config frame secret registry None None "presentation-id" (at_time t) st with
  | Ok r => r | Err _ => (mkTokenCycle no_cycle true, st) end.
End Tag.

Lemma reader_ignores_chunking_witness :
  frames_in [] (7%N :: Tag.frame_bytes) = [Tag.frame] ++ frames_in [] (rd_buffer Tag.second_call.2) /\
  rd_buffer Tag.second_call.2 = [] /\ Tag.second_call.1 = Some (Ok (Some Tag.frame)).
Proof.
  split; [|split; vm_compute; reflexivity].
  refine (proj1 (reader_ignores_chunking 64 (7%N :: Tag.frame_bytes) [Tag.frame] Tag.second_call.2 _)).
  apply (reader_call 64 (7%N :: take 5 Tag.frame_bytes) [] Tag.first_call.2 [Blocked; Chunk (drop 5 Tag.frame_bytes)]
    Tag.second_call.1 Tag.second_call.2 (drop 5 Tag.frame_bytes)); [|vm_compute; reflexivity..].
  apply (reader_call 64 [] [] (mkReader 64 [] true) [Chunk (7%N :: take 5 Tag.frame_bytes); Silent]
    Tag.first_call.1 Tag.first_call.2 (7%N :: take 5 Tag.frame_bytes)); [apply (reader_opened 64)|vm_compute; reflexivity..].
Defined.


(** The tag is known and matched. *)
Example tag_is_matched :
  match cy_sensor_event (tc_cycle (Tag.seen 10 new_contactless_adapter).1) with
  | Some event => get (factor_of event) "match_state" | None => PNone end = PStr "MATCHED" /\
  tc_suppressed_repeat (Tag.seen 10 (Tag.seen 10 new_contactless_adapter).2).1 = true.
Proof. split; vm_compute; reflexivity. Qed.

(** A stray start marker in front of a frame costs the frame: fourteen bytes are taken from the
    marker on, and the real start marker is thrown away with them. *)
Theorem stray_marker_loses_frame : frames_in [] (2%N :: Tag.frame_bytes) = [] /\
  (read_frame [Chunk (2%N :: Tag.frame_bytes)] (mkReader 64 [] true)).1 = Some (frame_error "contactless reader frame tail is invalid").
Proof. split; vm_compute; reflexivity. Qed.

(** A registered reference in capital digits is accepted and can never match: the references the
    runtime derives have small ones. *)
Theorem capital_reference_never_matches :
  check_reference ("hmac-sha256:" +:+ "AAAAAAAAAAAAAAAAAAAAAAAAAAAAAAAAAAAAAAAAAAAAAAAAAAAAAAAAAAAAAAAA") = Ok tt /\
  forall secret reader_id data_hex, derive_token_reference secret reader_id data_hex <>
    Ok ("hmac-sha256:" +:+ "AAAAAAAAAAAAAAAAAAAAAAAAAAAAAAAAAAAAAAAAAAAAAAAAAAAAAAAAAAAAAAAA").
Proof.
  split; [vm_compute; reflexivity|]. intros secret reader_id data_hex H. unfold derive_token_reference in H. passed.
  destruct (bytes_from_hex (upper data_hex)); [|done]. apply Ok_inj in H. unfold reference_prefix in H.
  match type of H with context [hmac_sha256_hex ?k ?m] => pose proof (hmac_is_hex64 k m) as Hh; revert Hh H; generalize (hmac_sha256_hex k m) end.
  intros digest Hh H. apply app_inj_str in H as ->. vm_compute in Hh. discriminate Hh.
Qed.
