(* ===== verification/LearningMode.v ===== *)
(** [services/resource_guard.py] and [services/learning_mode_eligibility.py]: which services are
    shed under pressure, and when the body may spend time on learning. *)

From stdpp Require Import base gmap sets list strings sorting.
From Stdlib Require Import ZArith Ascii SpecFloat.
From S2P Require Import Prelude PyText PyVal PyFloat TextChecks.

(** ** Resource guard *)

Inductive ServiceClass := EMERGENCY | TRUST_CORE | VEHICLE_STATE | OWNER_INTERFACE | COMFORT | BACKGROUND.
#[export] Instance service_class_eq_dec : EqDecision ServiceClass.
Proof. solve_decision. Defined.
Definition service_classes : list ServiceClass := [EMERGENCY; TRUST_CORE; VEHICLE_STATE; OWNER_INTERFACE; COMFORT; BACKGROUND].

Record ResourcePressure := mkPressure {
  queue_utilization : float; memory_utilization : float; reconnect_rate_per_minute : float }.

Definition check_share (name : string) (value : float) : outcome unit :=
  if fle f0 value && fle value f1 then Ok tt else raise ValueError (name +:+ " must be between 0 and 1").

(** [ResourcePressure.__post_init__] *)
Definition make_pressure (p : ResourcePressure) : outcome ResourcePressure :=
  let? _ := check_share "queue_utilization" (queue_utilization p) in
  let? _ := check_share "memory_utilization" (memory_utilization p) in
  if flt (reconnect_rate_per_minute p) f0 then raise ValueError "reconnect_rate_per_minute must be non-negative" else Ok p.

Record ResourceGuardDecision := mkResourceDecision {
  preserve_classes : list ServiceClass; shed_classes : list ServiceClass; throttle_offender : bool; isolate_offender : bool;
  receipt_required : bool; pressure_reasons : list string; authority_granted : bool }.

(** The reasons a pressure gives, and its severity. *)
Definition high (p : ResourcePressure) : list string :=
  (if fle (flit 8 (-1)) (queue_utilization p) then ["queue pressure"] else []) ++
  (if fle (flit 8 (-1)) (memory_utilization p) then ["memory pressure"] else []) ++
  (if fle (float_of_Z 10) (reconnect_rate_per_minute p) then ["reconnect storm"] else []).
Definition is_critical (p : ResourcePressure) : bool :=
  fle (flit 95 (-2)) (queue_utilization p) || fle (flit 95 (-2)) (memory_utilization p).

(** [decide_resource_posture] *)
Definition decide_resource_posture (p : ResourcePressure) : ResourceGuardDecision :=
  let reasons := high p ++ (if is_critical p then ["critical resource pressure"] else []) in
  if is_critical p
  then mkResourceDecision [EMERGENCY; TRUST_CORE] [VEHICLE_STATE; OWNER_INTERFACE; COMFORT; BACKGROUND] true true true reasons false
  else if bool_decide (high p <> [])
  then mkResourceDecision [EMERGENCY; TRUST_CORE; VEHICLE_STATE; OWNER_INTERFACE] [COMFORT; BACKGROUND] true false true reasons false
  else mkResourceDecision service_classes [] false false false ["resource posture acceptable"] false.

(** ** Learning mode *)

Inductive OperationalPosture := OpQuiet | OpActive | OpEmergency | OpUnknown.
Inductive PowerPosture := PowerBackgroundOk | PowerConserve | PowerCritical | PowerUnknown.
Inductive BackgroundResourcePosture := ResAvailable | ResShed | ResCritical | ResUnknown.
Inductive PriorityPosture := PriorityClear | PriorityBusy | PriorityUnknown.
Inductive CriticalHealthPosture := HealthOk | HealthBlocked | HealthUnknown.
Inductive ContinuityPosture := ContinuityVerified | ContinuityBlocked | ContinuityUnknown.

Definition replay_states : list string := ["live"; "fixture"; "replay"].

Record LearningMaintenanceEvidence := mkEvidence {
  le_body_id : string; le_source_refs : list string; le_operational : OperationalPosture; le_power : PowerPosture;
  le_resource : BackgroundResourcePosture; le_priority : PriorityPosture; le_health : CriticalHealthPosture;
  le_continuity : ContinuityPosture; le_fresh : bool; le_replay_state : string; le_authority : string }.

(** [_require_text] *)
Definition posture_text (name value : string) : outcome unit :=
  if is_blank value then raise ValueError (name +:+ " must be a non-empty string") else Ok tt.

(** The loop of [_require_text_tuple]. *)
Fixpoint check_texts (name : string) (values normalized : list string) : outcome (list string) :=
  match values with
  | [] => Ok normalized
  | value :: rest =>
      let? _ := posture_text name value in
      if bool_decide (strip value ∈ normalized) then raise ValueError (name +:+ " must not contain duplicates")
      else check_texts name rest (normalized ++ [strip value])
  end.

(** [_require_text_tuple] with [required=True], its only use. *)
Definition posture_texts (name : string) (values : list string) : outcome unit :=
  let? normalized := check_texts name values [] in
  if bool_decide (normalized = []) then raise ValueError (name +:+ " must not be empty") else Ok tt.

(** [LearningMaintenanceEvidence.__post_init__] *)
Definition make_learning_evidence (e : LearningMaintenanceEvidence) : outcome LearningMaintenanceEvidence :=
  let? _ := posture_text "body_id" (le_body_id e) in
  let? _ := posture_texts "source_refs" (le_source_refs e) in
  if bool_decide (le_replay_state e ∉ replay_states) then raise ValueError "invalid replay_state" else
  if bool_decide (le_authority e <> "none") then raise ValueError "Learning Mode eligibility evidence cannot carry authority" else Ok e.

Record LearningMaintenanceDecision := mkLearningDecision {
  ld_allowed : bool; ld_reason_code : string; ld_source_refs : list string; ld_replay_state : string; ld_authority : string }.

(** [LearningMaintenanceDecision.__post_init__] *)
Definition make_learning_decision (d : LearningMaintenanceDecision) : outcome LearningMaintenanceDecision :=
  let? _ := posture_text "reason_code" (ld_reason_code d) in
  let? _ := posture_texts "source_refs" (ld_source_refs d) in
  if bool_decide (ld_replay_state d ∉ replay_states) then raise ValueError "invalid replay_state" else
  if bool_decide (ld_authority d <> "none") then raise ValueError "Learning Mode eligibility decisions cannot carry authority" else Ok d.

(** [to_core_kwargs] *)
Definition to_core_kwargs (d : LearningMaintenanceDecision) : items := str_items
  [("allowed", PBool (ld_allowed d)); ("reason", PStr (ld_reason_code d)); ("source_refs", PTuple (PStr <$> ld_source_refs d));
   ("authority", PStr "none")].

(** [_refusal_reason] *)
Definition refusal_reason (e : LearningMaintenanceEvidence) : option string :=
  if negb (le_fresh e) then Some "maintenance_evidence_stale" else
  match le_operational e with
  | OpUnknown => Some "operational_posture_unknown"
  | OpEmergency => Some "emergency_posture_active"
  | OpActive => Some "operational_posture_not_quiet"
  | OpQuiet =>
  match le_priority e with
  | PriorityUnknown => Some "priority_posture_unknown"
  | PriorityBusy => Some "higher_priority_work_active"
  | PriorityClear =>
  match le_continuity e with
  | ContinuityUnknown => Some "continuity_posture_unknown"
  | ContinuityBlocked => Some "continuity_not_verified"
  | ContinuityVerified =>
  match le_health e with
  | HealthUnknown => Some "critical_health_posture_unknown"
  | HealthBlocked => Some "critical_health_blocks_maintenance"
  | HealthOk =>
  match le_power e with
  | PowerUnknown => Some "power_posture_unknown"
  | PowerConserve | PowerCritical => Some "power_blocks_background_work"
  | PowerBackgroundOk =>
  match le_resource e with
  | ResUnknown => Some "resource_posture_unknown"
  | ResShed | ResCritical => Some "background_resources_unavailable"
  | ResAvailable => None
  end end end end end end.

(** [decide_learning_maintenance] *)
Definition decide_learning_maintenance (e : LearningMaintenanceEvidence) : outcome LearningMaintenanceDecision :=
  match refusal_reason e with
  | Some reason => make_learning_decision (mkLearningDecision false reason (le_source_refs e) (le_replay_state e) "none")
  | None => make_learning_decision
      (mkLearningDecision true "eligible_quiet_maintenance_window" (le_source_refs e) (le_replay_state e) "none")
  end.

(** [resource_posture_from_decision] *)
Definition resource_posture_from_decision (d : ResourceGuardDecision) : outcome BackgroundResourcePosture :=
  if authority_granted d then raise ValueError "resource decision unexpectedly carries authority" else
  Ok (if bool_decide (BACKGROUND ∈ shed_classes d) then if isolate_offender d then ResCritical else ResShed else ResAvailable).

(** ** Facts *)

Definition calm (p : ResourcePressure) : bool :=
  negb (fle (flit 8 (-1)) (queue_utilization p)) && negb (fle (flit 8 (-1)) (memory_utilization p)) &&
  negb (fle (float_of_Z 10) (reconnect_rate_per_minute p)) && negb (is_critical p).

(** The two classes that keep the body safe are never shed, every class is either preserved or
    shed, and without pressure nothing is shed and no receipt is due. *)
Theorem safety_classes_preserved p : let d := decide_resource_posture p in
  EMERGENCY ∈ preserve_classes d /\ TRUST_CORE ∈ preserve_classes d /\
  (forall c, c ∈ preserve_classes d <-> c ∉ shed_classes d) /\ authority_granted d = false /\
  (receipt_required d = false <-> calm p = true).
Proof.
  cbv zeta. unfold decide_resource_posture, calm, high. destruct (is_critical p), (fle (flit 8 (-1)) (queue_utilization p)),
    (fle (flit 8 (-1)) (memory_utilization p)), (fle (float_of_Z 10) (reconnect_rate_per_minute p));
    (split; [|split; [|split; [intros []|split]]]); by apply (bool_decide_eq_true_1 _).
Qed.

Lemma reason_named e reason : refusal_reason e = Some reason -> is_blank reason = false.
Proof. unfold refusal_reason. intros H. repeat case_match; by simplify_eq. Qed.

(** Evidence that was checked once gives a decision. *)
Lemma decision_total e allowed reason : make_learning_evidence e = Ok e -> is_blank reason = false ->
  make_learning_decision (mkLearningDecision allowed reason (le_source_refs e) (le_replay_state e) "none") =
  Ok (mkLearningDecision allowed reason (le_source_refs e) (le_replay_state e) "none").
Proof.
  unfold make_learning_evidence, make_learning_decision, posture_text. intros H Hr. cbn. rewrite Hr. cbn [outcome_bind]. passed.
  done.
Qed.

(** Learning mode may run exactly in a quiet, healthy, verified and unloaded body.  For every
    checked evidence whose resource posture is that of the resource guard there is a decision;
    it carries no authority, and allows maintenance exactly if the evidence is fresh, every
    posture is the favourable one and the guard sees no pressure. *)
Theorem learning_allowed_iff e p : make_learning_evidence e = Ok e ->
  resource_posture_from_decision (decide_resource_posture p) = Ok (le_resource e) ->
  exists d, decide_learning_maintenance e = Ok d /\ ld_authority d = "none" /\ ld_source_refs d = le_source_refs e /\
    (ld_allowed d = true <-> le_fresh e = true /\ le_operational e = OpQuiet /\ le_priority e = PriorityClear /\
       le_continuity e = ContinuityVerified /\ le_health e = HealthOk /\ le_power e = PowerBackgroundOk /\ calm p = true).
Proof.
  intros He Hp. assert (le_resource e = ResAvailable <-> calm p = true) as Hres.
  { revert Hp. unfold resource_posture_from_decision, decide_resource_posture, calm, high.
    destruct (is_critical p), (fle (flit 8 (-1)) (queue_utilization p)), (fle (flit 8 (-1)) (memory_utilization p)),
      (fle (float_of_Z 10) (reconnect_rate_per_minute p)); intros H;
      cbn [authority_granted app] in H; apply Ok_inj in H; rewrite <- H; clear; by vm_compute. }
  unfold decide_learning_maintenance. setoid_rewrite <- Hres. destruct (refusal_reason e) as [reason|] eqn:Hr.
  - rewrite decision_total by (done || by eapply reason_named). eexists. split; [done|]. split_and!; [done..|].
    cbn. split; [done|]. intros (H1 & H2 & H3 & H4 & H5 & H6 & H7). unfold refusal_reason in Hr.
    by rewrite H1, H2, H3, H4, H5, H6, H7 in Hr.
  - rewrite decision_total by done. eexists. split; [done|]. split_and!; [done..|]. cbn. split; [intros _|done].
    unfold refusal_reason in Hr. destruct (le_fresh e); [|done]. repeat case_match; done.
Qed.
