(* ===== verification/CapabilityRegistry.v ===== *)
(** [services/capability_registry.py]: which capabilities are available to which caller, kept
    apart from the question of who is authorized. *)

From stdpp Require Import base gmap sets list strings sorting.
From Stdlib Require Import ZArith Ascii SpecFloat.
From S2P Require Import Prelude PyText PyVal PyFloat StrDict.

Inductive CapabilityAvailability := AVAILABLE | DEGRADED | UNAVAILABLE.
Inductive TargetKind := PHYSICAL | SIMULATED.
Inductive CapabilityRefusal :=
| CAPABILITY_UNAVAILABLE | CAPABILITY_DEGRADED | AUTHORITY_MISSING | OWNER_PRESENCE_REQUIRED | SIMULATED_TARGET_ONLY
| PHYSICAL_TARGET_LOCKED | SAFETY_GATE_ACTIVE | STALE_SENSOR_DATA | DEPENDENCY_UNHEALTHY | COURT_DENIED | VEHICLE_STATE_DISALLOWS
| MAINTENANCE_MODE_REQUIRED | RECEIPT_BACKEND_UNAVAILABLE | MANUAL_OVERRIDE_REQUIRED.
#[export] Instance availability_eq_dec : EqDecision CapabilityAvailability.
Proof. solve_decision. Defined.
#[export] Instance target_kind_eq_dec : EqDecision TargetKind.
Proof. solve_decision. Defined.
#[export] Instance refusal_eq_dec : EqDecision CapabilityRefusal.
Proof. solve_decision. Defined.

Record CapabilityRegistration := mkCapability {
  cr_capability_name : string; cr_current_owner : string; cr_fallback_owner : option string; cr_availability : CapabilityAvailability;
  cr_health_state : string; cr_authority_level : Z; cr_target_kind : TargetKind; cr_input_requirements : list string;
  cr_output_effects : list string; cr_refusal_reason : option CapabilityRefusal; cr_last_heartbeat : float; cr_stale_after_ms : Z;
  cr_receipt_type : string; cr_allowed_callers : list string; cr_forbidden_callers : list string; cr_degraded_limits : list string }.

(** [_require_text] *)
Definition named_text (name value : string) : outcome unit :=
  if is_blank value then raise ValueError (name +:+ " must be a non-empty string") else Ok tt.

(** [_require_normalized_tuple] *)
Definition normalized_texts (name : string) (values : list string) : outcome unit :=
  if existsb (fun v => bool_decide (text v <> v)) values then raise ValueError (name +:+ " must contain normalized strings") else Ok tt.

(** [CapabilityRegistration.__post_init__] *)
Definition make_capability (r : CapabilityRegistration) : outcome CapabilityRegistration :=
  let? _ := named_text "capability_name" (cr_capability_name r) in
  let? _ := named_text "current_owner" (cr_current_owner r) in
  let? _ := named_text "health_state" (cr_health_state r) in
  let? _ := named_text "receipt_type" (cr_receipt_type r) in
  let? _ := match cr_fallback_owner r with Some owner => named_text "fallback_owner" owner | None => Ok tt end in
  if (cr_authority_level r <? 0)%Z then raise ValueError "authority_level must be non-negative" else
  if (cr_stale_after_ms r <=? 0)%Z then raise ValueError "stale_after_ms must be positive" else
  let? _ := normalized_texts "allowed_callers" (cr_allowed_callers r) in
  let? _ := normalized_texts "forbidden_callers" (cr_forbidden_callers r) in
  if existsb (fun c => bool_decide (c ∈ cr_forbidden_callers r)) (cr_allowed_callers r)
  then raise ValueError "callers cannot be both allowed and forbidden" else
  if bool_decide (cr_availability r = DEGRADED /\ cr_degraded_limits r = [])
  then raise ValueError "degraded capability must declare limits" else
  if bool_decide (cr_availability r = UNAVAILABLE /\ cr_refusal_reason r = None)
  then raise ValueError "unavailable capability requires a refusal reason" else Ok r.

(** [is_stale]; [clock] is what [monotonic()] answers. *)
Definition is_stale (r : CapabilityRegistration) (now : option float) (clock : float) : bool :=
  flt (float_of_Z (cr_stale_after_ms r)) (fmul (fsub (default clock now) (cr_last_heartbeat r)) (float_of_Z 1000)).

Record CapabilityLookup := mkLookup {
  lk_registration : option CapabilityRegistration; lk_invocable : bool; lk_refusal_reason : option CapabilityRefusal }.

(** ** The registry: capabilities by name *)

(** [register] *)
Definition register_capability (r : CapabilityRegistration) (reg : sdict CapabilityRegistration)
    : outcome (sdict CapabilityRegistration) :=
  let name := text (cr_capability_name r) in
  if bool_decide (name <> cr_capability_name r) then raise ValueError "capability_name must be normalized" else
  if bool_decide (is_Some (d_get reg name)) then raise ValueError "capability is already registered" else Ok (d_set reg name r).

(** [require] *)
Definition require_capability (capability_name : string) (reg : sdict CapabilityRegistration) : outcome CapabilityRegistration :=
  match d_get reg (text capability_name) with
  | Some r => Ok r
  | None => raise KeyError ("capability is not registered: " +:+ text capability_name)
  end.

(** [heartbeat]: [replace] checks the new registration. *)
Definition heartbeat (capability_name : string) (observed_at : option float) (health_state : option string) (clock : float)
    (reg : sdict CapabilityRegistration) : outcome (CapabilityRegistration * sdict CapabilityRegistration) :=
  let? r := require_capability capability_name reg in
  let? updated := make_capability (mkCapability (cr_capability_name r) (cr_current_owner r) (cr_fallback_owner r) (cr_availability r)
    (default (cr_health_state r) health_state) (cr_authority_level r) (cr_target_kind r) (cr_input_requirements r)
    (cr_output_effects r) (cr_refusal_reason r) (default clock observed_at) (cr_stale_after_ms r) (cr_receipt_type r)
    (cr_allowed_callers r) (cr_forbidden_callers r) (cr_degraded_limits r)) in
  Ok (updated, d_set reg (cr_capability_name r) updated).

(** [lookup] *)
Definition lookup_capability (capability_name caller : string) (physical_requested : bool) (now : option float) (clock : float)
    (reg : sdict CapabilityRegistration) : CapabilityLookup :=
  match d_get reg (text capability_name) with
  | None => mkLookup None false (Some CAPABILITY_UNAVAILABLE)
  | Some r =>
      if bool_decide (text caller ∈ cr_forbidden_callers r) then mkLookup (Some r) false (Some AUTHORITY_MISSING) else
      if bool_decide (cr_allowed_callers r <> [] /\ text caller ∉ cr_allowed_callers r)
      then mkLookup (Some r) false (Some AUTHORITY_MISSING) else
      if is_stale r now clock then mkLookup (Some r) false (Some CAPABILITY_UNAVAILABLE) else
      if bool_decide (cr_availability r = UNAVAILABLE) then mkLookup (Some r) false (cr_refusal_reason r) else
      if physical_requested && bool_decide (cr_target_kind r = SIMULATED)
      then mkLookup (Some r) false (Some SIMULATED_TARGET_ONLY) else
      if bool_decide (cr_availability r = DEGRADED) then mkLookup (Some r) false (Some CAPABILITY_DEGRADED)
      else mkLookup (Some r) true None
  end.

(** [names] *)
Definition capability_names (reg : sdict CapabilityRegistration) : list string := sorted_strings reg.*1.

(** ** Facts *)

(** What the methods leave behind. *)
Inductive registry_life : sdict CapabilityRegistration -> Prop :=
| life_empty : registry_life []
| life_register r reg reg' : make_capability r = Ok r -> registry_life reg -> register_capability r reg = Ok reg' -> registry_life reg'
| life_heartbeat name at_time health clock r reg reg' : registry_life reg -> heartbeat name at_time health clock reg = Ok (r, reg') ->
    registry_life reg'.

Lemma make_capability_same r r' : make_capability r = Ok r' -> r' = r.
Proof. unfold make_capability. intros H. passed. by injection H. Qed.

Lemma registry_sound reg : registry_life reg -> forall k r, d_get reg k = Some r -> k = cr_capability_name r /\ make_capability r = Ok r.
Proof.
  induction 1 as [|r0 reg reg' Hr _ IH H|name t h clock r0 reg reg' _ IH H]; intros k r.
  - done.
  - unfold register_capability in H. passed. injection H as <-. apply bool_decide_eq_false, dec_stable in Heqb. clear Heqb0.
    rewrite d_get_set. case_bool_decide as Hk; [|apply IH]. intros [= <-]. by rewrite <- Hk, Heqb.
  - unfold heartbeat in H. passed. injection H as -> <-.
    match goal with E : make_capability _ = Ok r0 |- _ => rename E into Hm; pose proof (make_capability_same _ _ Hm) as Hs end.
    rewrite d_get_set. case_bool_decide as Hk; [|apply IH]. intros [= <-]. split; [by rewrite <- Hk, Hs|]. rewrite Hs at 1. exact Hm.
Qed.

(** A refusal: the other side of each equivalence fails. *)
Ltac refusing :=
  cbn; split; [split; [done|intros (r' & Hr' & H1 & H2 & H3 & H4 & H5); injection Hr' as <-; try congruence]
              |split; [intros _; by eauto|done]].

(** A capability may be invoked exactly when it is registered, open to the caller, heard of
    recently and fully available for the kind of target; every refusal gives its reason. *)
Theorem lookup_invocable_iff reg name caller physical now clock : registry_life reg ->
  let l := lookup_capability name caller physical now clock reg in
  (lk_invocable l = true <-> exists r, d_get reg (text name) = Some r /\ ~ text caller ∈ cr_forbidden_callers r /\
     (cr_allowed_callers r = [] \/ text caller ∈ cr_allowed_callers r) /\ is_stale r now clock = false /\
     cr_availability r = AVAILABLE /\ (physical = true -> cr_target_kind r = PHYSICAL)) /\
  (lk_invocable l = false <-> is_Some (lk_refusal_reason l)).
Proof.
  intros Hl l. subst l. unfold lookup_capability. destruct (d_get reg (text name)) as [r|] eqn:Hr.
  2: { cbn. split; [split; [done|by intros (? & ? & _)]|by split]. }
  destruct (registry_sound _ Hl _ _ Hr) as [_ Hm].
  assert (cr_availability r = UNAVAILABLE -> is_Some (cr_refusal_reason r)) as Hu.
  { unfold make_capability in Hm. passed. intros Ha. apply not_eq_None_Some. intros Hn.
    match goal with E : bool_decide (_ = UNAVAILABLE /\ _) = false |- _ => apply bool_decide_eq_false in E; by apply E end. }
  case_bool_decide as Hf; [refusing|]. case_bool_decide as Ha.
  { refusing. destruct Ha as [Hne Hni]. by destruct H2. }
  destruct (is_stale r now clock) eqn:Hs; [refusing|]. case_bool_decide as Hv; [refusing|].
  destruct (physical && bool_decide (cr_target_kind r = SIMULATED)) eqn:Hp.
  { apply andb_true_iff in Hp as [-> Hk%bool_decide_eq_true]. refusing. specialize (H5 eq_refl). congruence. }
  assert (physical = true -> cr_target_kind r = PHYSICAL) as Hk.
  { intros ->. cbn [andb] in Hp. apply bool_decide_eq_false in Hp. by destruct (cr_target_kind r). }
  clear Hp. case_bool_decide as Hd; [refusing|]. cbn. split; [|by split; [|intros [? ?]]]. split; [intros _|done]. exists r.
  split_and!; try done.
  - destruct (decide (text caller ∈ cr_allowed_callers r)); [by right|left]. destruct (decide (cr_allowed_callers r = [])); [done|].
    by destruct Ha.
  - by destruct (cr_availability r).
Qed.

(** A heartbeat that is no time keeps a capability fresh for ever; [heartbeat] accepts it. *)
Theorem undated_heartbeat_never_stale r clock now : cr_last_heartbeat r = S754_nan -> is_stale r now clock = false.
Proof. intros Hr. unfold is_stale. rewrite Hr. by destruct (default clock now), (float_of_Z (cr_stale_after_ms r)). Qed.
